(** * howm: a shallow embedding of the window-manager core

    The development follows [howm.c]: the client lists are singly-linked
    lists of heap-allocated [Client] structures, a workspace holds pointers
    into its list, and the handlers mutate the global state.  Pointers are
    addresses into a finite map (the heap); [NULL] is address 0.

    A function that reads the state returns [option A], a function that
    changes it returns [option State]; [None] stands for an execution that
    has no defined result in C: a NULL or dangling pointer is dereferenced,
    an array is indexed out of its bounds, or a loop walks a cyclic list for
    ever.  A list walk is given as many steps as the heap has cells plus one,
    which is enough for every walk that ends.

    Requests sent to the X server (map, unmap, configure, border, focus,
    EWMH properties) are write-only for the program and are left out; the
    replies the program reads from the server are fields of the events.
    [malloc] and [calloc] succeed.  An [int] is an integer of [Z]: the counts
    and indices here stay far from the limits of 32 bits; the [uint16_t]
    fields wrap, and so does an [int] stored in an [unsigned int].  The
    tables and constants of [config.h] are parameters. *)

From Stdlib Require Import ZArith Floats.SpecFloat.
From stdpp Require Import gmap list strings.

Local Open Scope Z_scope.

(** ** Machine integers and floats *)

(** Conversion to [uint16_t]. *)
Definition u16 (z : Z) : Z := z mod 65536.

(** Conversion of an [int] to [unsigned int], and the cast [(int)] of an
    [unsigned int]. *)
Definition u32 (z : Z) : Z := z mod 4294967296.
Definition int_of_u32 (z : Z) : Z := if (z <? 2147483648)%Z then z else z - 4294967296.

(** C's [/] and [%] on [int] truncate towards zero. *)
Definition cdiv (a b : Z) : Z := Z.quot a b.
Definition cmod (a b : Z) : Z := Z.rem a b.

(** [float] is IEEE 754 binary32. *)
Definition float := spec_float.
Definition float_of_int (z : Z) : float := binary_normalize 24 128 z 0 false.
Definition float_mul (a b : float) : float := SFmul 24 128 a b.

(** Conversion of a [float] to an integer type truncates towards zero.  The
    value of an infinity or a NaN is the one of the x86 conversion
    instruction, whose low 16 bits are zero. *)
Definition int_of_float (f : float) : Z :=
  match f with
  | S754_finite s m e =>
      let v := if (0 <=? e)%Z then Z.pos m * 2 ^ e else Z.pos m / 2 ^ (- e) in
      if s then - v else v
  | _ => 0
  end.

(** ** Data model *)

Abbreviation ptr := N (only parsing).
Definition NULL : ptr := 0%N.

Module Client.
Record t := mk {
  next : ptr;
  is_fullscreen : bool;
  is_floating : bool;
  is_transient : bool;
  is_urgent : bool;
  win : Z;
  x : Z;
  y : Z;
  w : Z;
  h : Z;
  gap : Z
}.

(** The result of [calloc(1, sizeof(Client))]. *)
Definition zero : t := mk NULL false false false false 0 0 0 0 0 0.

Definition set_next (n : ptr) (c : t) : t :=
  mk n (is_fullscreen c) (is_floating c) (is_transient c) (is_urgent c)
     (win c) (x c) (y c) (w c) (h c) (gap c).
Definition set_is_fullscreen (b : bool) (c : t) : t :=
  mk (next c) b (is_floating c) (is_transient c) (is_urgent c)
     (win c) (x c) (y c) (w c) (h c) (gap c).
Definition set_is_floating (b : bool) (c : t) : t :=
  mk (next c) (is_fullscreen c) b (is_transient c) (is_urgent c)
     (win c) (x c) (y c) (w c) (h c) (gap c).
Definition set_is_transient (b : bool) (c : t) : t :=
  mk (next c) (is_fullscreen c) (is_floating c) b (is_urgent c)
     (win c) (x c) (y c) (w c) (h c) (gap c).
Definition set_win (v : Z) (c : t) : t :=
  mk (next c) (is_fullscreen c) (is_floating c) (is_transient c) (is_urgent c)
     v (x c) (y c) (w c) (h c) (gap c).
Definition set_gap (v : Z) (c : t) : t :=
  mk (next c) (is_fullscreen c) (is_floating c) (is_transient c) (is_urgent c)
     (win c) (x c) (y c) (w c) (h c) v.
Definition set_geom (x' y' w' h' : Z) (c : t) : t :=
  mk (next c) (is_fullscreen c) (is_floating c) (is_transient c) (is_urgent c)
     (win c) x' y' w' h' (gap c).
End Client.

(** [FFT(c)]: transient, floating or fullscreen. *)
Definition FFT (c : Client.t) : bool :=
  Client.is_transient c || Client.is_floating c || Client.is_fullscreen c.

Module Workspace.
Record t := mk {
  layout : Z;
  client_cnt : Z;
  gap : Z;
  master_ratio : float;
  bar_height : Z;
  head : ptr;
  prev_foc : ptr;
  current : ptr
}.

Definition set_layout (v : Z) (s : t) : t :=
  mk v (client_cnt s) (gap s) (master_ratio s) (bar_height s)
     (head s) (prev_foc s) (current s).
Definition set_client_cnt (v : Z) (s : t) : t :=
  mk (layout s) v (gap s) (master_ratio s) (bar_height s)
     (head s) (prev_foc s) (current s).
Definition set_head (p : ptr) (s : t) : t :=
  mk (layout s) (client_cnt s) (gap s) (master_ratio s) (bar_height s)
     p (prev_foc s) (current s).
Definition set_prev_foc (p : ptr) (s : t) : t :=
  mk (layout s) (client_cnt s) (gap s) (master_ratio s) (bar_height s)
     (head s) p (current s).
Definition set_current (p : ptr) (s : t) : t :=
  mk (layout s) (client_cnt s) (gap s) (master_ratio s) (bar_height s)
     (head s) (prev_foc s) p.
End Workspace.

(** [enum layouts], [enum motions]. *)
Definition ZOOM : Z := 0.
Definition GRID : Z := 1.
Definition HSTACK : Z := 2.
Definition VSTACK : Z := 3.
Definition END_LAYOUT : Z := 4.

Definition CLIENT : Z := 0.
Definition WORKSPACE : Z := 1.

(** [struct stack]: [contents] is an array of list heads, filled from index 1;
    a cell that was never written holds no value. *)
Module Stack.
Record t := mk {
  size : Z;
  contents : gmap Z ptr
}.
End Stack.

(** A row of the [rules] table of [config.h]. *)
Module Rule.
Record t := mk {
  class : string;
  ws : Z;
  follow : bool;
  is_floating : bool;
  is_fullscreen : bool
}.
End Rule.

(** The constants of [config.h] that the functions below read. *)
Record Config := {
  WORKSPACES : Z;
  DELETE_REGISTER_SIZE : Z;
  BAR_BOTTOM : bool;
  CENTER_FLOATING : bool;
  FLOAT_SPAWN_WIDTH : Z;
  FLOAT_SPAWN_HEIGHT : Z;
  rules : list Rule.t
}.

(** The global variables of the window model. *)
Record State := mkState {
  heap : gmap N Client.t;
  wss : list Workspace.t;
  cw : Z;
  last_ws : Z;
  scratchpad : ptr;
  del_reg : Stack.t;
  screen_width : Z;
  screen_height : Z;
  root : Z
}.

Definition set_heap (v : gmap N Client.t) (st : State) : State :=
  mkState v (wss st) (cw st) (last_ws st) (scratchpad st) (del_reg st)
          (screen_width st) (screen_height st) (root st).
Definition set_wss (v : list Workspace.t) (st : State) : State :=
  mkState (heap st) v (cw st) (last_ws st) (scratchpad st) (del_reg st)
          (screen_width st) (screen_height st) (root st).
Definition set_cw (v : Z) (st : State) : State :=
  mkState (heap st) (wss st) v (last_ws st) (scratchpad st) (del_reg st)
          (screen_width st) (screen_height st) (root st).
Definition set_last_ws (v : Z) (st : State) : State :=
  mkState (heap st) (wss st) (cw st) v (scratchpad st) (del_reg st)
          (screen_width st) (screen_height st) (root st).
Definition set_del_reg (v : Stack.t) (st : State) : State :=
  mkState (heap st) (wss st) (cw st) (last_ws st) (scratchpad st) v
          (screen_width st) (screen_height st) (root st).

(** ** Memory access *)

(** Dereference of a [Client] pointer. *)
Definition load (st : State) (p : ptr) : option Client.t := heap st !! p.

(** Update in place of the [Client] a pointer refers to. *)
Definition store (p : ptr) (f : Client.t → Client.t) (st : State) : option State :=
  c ← heap st !! p;
  Some (set_heap (<[p := f c]> (heap st)) st).

(** [wss[i]]. *)
Definition ws_at (st : State) (i : Z) : option Workspace.t :=
  if (0 <=? i)%Z then wss st !! Z.to_nat i else None.

(** [wss[i] = f(wss[i])]. *)
Definition ws_upd (i : Z) (f : Workspace.t → Workspace.t) (st : State) : option State :=
  s ← ws_at st i;
  Some (set_wss (<[Z.to_nat i := f s]> (wss st)) st).

(** Steps granted to a walk along [next] pointers. *)
Definition fuel_of (st : State) : nat := S (size (heap st)).

Definition is_null (p : ptr) : bool := bool_decide (p = NULL).
Definition ptr_eqb (p q : ptr) : bool := bool_decide (p = q).

(** ** Client-list primitives *)

(** The loop of [prev_client]:
    [for (p = head; p->next && p->next != c; p = p->next);]. *)
Fixpoint prev_client_loop (fuel : nat) (st : State) (c p : ptr) : option ptr :=
  match fuel with
  | O => None
  | S n =>
      pc ← load st p;
      if negb (is_null (Client.next pc)) && negb (ptr_eqb (Client.next pc) c)
      then prev_client_loop n st c (Client.next pc)
      else Some p
  end.

Definition prev_client (st : State) (c : ptr) (ws : Z) : option ptr :=
  if is_null c then Some NULL else
  s ← ws_at st ws;
  if is_null (Workspace.head s) then Some NULL else
  hd ← load st (Workspace.head s);
  if is_null (Client.next hd) then Some NULL else
  prev_client_loop (fuel_of st) st c (Workspace.head s).

Definition next_client (st : State) (c : ptr) : option ptr :=
  if is_null c then Some NULL else
  s ← ws_at st (cw st);
  if is_null (Workspace.head s) then Some NULL else
  hd ← load st (Workspace.head s);
  if is_null (Client.next hd) then Some NULL else
  cc ← load st c;
  if negb (is_null (Client.next cc)) then Some (Client.next cc)
  else Some (Workspace.head s).

(** The inner loop of [find_client_by_win]:
    [for (c = wss[w].head; c && !(found = (win == c->win)); c = c->next);]. *)
Fixpoint find_in_list (fuel : nat) (st : State) (win : Z) (c : ptr) : option ptr :=
  match fuel with
  | O => None
  | S n =>
      if is_null c then Some NULL else
      cc ← load st c;
      if bool_decide (win = Client.win cc) then Some c
      else find_in_list n st win (Client.next cc)
  end.

(** The outer loop, over the workspaces [w], [w+1], ... (the list [wl]). *)
Fixpoint find_client_loop (st : State) (win : Z) (wl : list Z) (c : ptr) : option ptr :=
  match wl with
  | [] => Some c
  | w :: wl' =>
      s ← ws_at st w;
      c' ← find_in_list (fuel_of st) st win (Workspace.head s);
      if negb (is_null c') then Some c' else find_client_loop st win wl' c'
  end.

Definition workspace_ids (cfg : Config) : list Z :=
  (λ n : nat, Z.of_nat n) <$> seq 1 (Z.to_nat (WORKSPACES cfg)).

Definition find_client_by_win (cfg : Config) (st : State) (win : Z) : option ptr :=
  find_client_loop st win (workspace_ids cfg) NULL.

Definition correct_ws (cfg : Config) (ws : Z) : Z :=
  if (WORKSPACES cfg <? ws)%Z then ws - WORKSPACES cfg
  else if (ws <? 1)%Z then ws + WORKSPACES cfg
  else ws.

(** A walk over a list that only issues X requests:
    [for (c = p; c; c = c->next) ...]. *)
Fixpoint walk (fuel : nat) (st : State) (c : ptr) : option unit :=
  match fuel with
  | O => None
  | S n =>
      if is_null c then Some tt else
      cc ← load st c;
      walk n st (Client.next cc)
  end.

(** ** Layout engine *)

Definition change_client_geom (c : ptr) (x y w h : Z) (st : State) : option State :=
  store c (Client.set_geom (u16 x) (u16 y) (u16 w) (u16 h)) st.

Fixpoint non_tff_count_loop (fuel : nat) (st : State) (c : ptr) (n : Z) : option Z :=
  match fuel with
  | O => None
  | S k =>
      if is_null c then Some n else
      cc ← load st c;
      non_tff_count_loop k st (Client.next cc) (if negb (FFT cc) then n + 1 else n)
  end.

Definition get_non_tff_count (st : State) : option Z :=
  s ← ws_at st (cw st);
  non_tff_count_loop (fuel_of st) st (Workspace.head s) 0.

Fixpoint first_non_tff_loop (fuel : nat) (st : State) (c : ptr) : option ptr :=
  match fuel with
  | O => None
  | S k =>
      if is_null c then Some c else
      cc ← load st c;
      if FFT cc then first_non_tff_loop k st (Client.next cc) else Some c
  end.

Definition get_first_non_tff (st : State) : option ptr :=
  s ← ws_at st (cw st);
  first_non_tff_loop (fuel_of st) st (Workspace.head s).

(** [draw_clients] configures the windows from the stored geometry. *)
Definition draw_clients (st : State) : option State :=
  s ← ws_at st (cw st);
  _ ← walk (fuel_of st) st (Workspace.head s);
  Some st.

Fixpoint zoom_loop (fuel : nat) (x y w h : Z) (c : ptr) (st : State) : option State :=
  match fuel with
  | O => None
  | S k =>
      if is_null c then Some st else
      cc ← load st c;
      st1 ← (if negb (FFT cc) then change_client_geom c x y w h st else Some st);
      cc1 ← load st1 c;
      zoom_loop k x y w h (Client.next cc1) st1
  end.

Definition zoom (cfg : Config) (st : State) : option State :=
  s ← ws_at st (cw st);
  _ ← (if negb (bool_decide (Workspace.layout s = ZOOM))
       then load st (Workspace.head s) else Some Client.zero);
  st1 ← zoom_loop (fuel_of st) 0
          (if BAR_BOTTOM cfg then 0 else Workspace.bar_height s)
          (screen_width st) (screen_height st - Workspace.bar_height s)
          (Workspace.head s) st;
  draw_clients st1.

(** [for (cols = 0; cols <= n / 2; cols++) if (cols * cols >= n) break;] *)
Fixpoint grid_cols (fuel : nat) (n cols : Z) : Z :=
  match fuel with
  | O => cols
  | S k =>
      if (cols <=? cdiv n 2)%Z then
        if (n <=? cols * cols)%Z then cols else grid_cols k n (cols + 1)
      else cols
  end.

(** Integer division; a zero divisor has no defined result. *)
Definition cdiv_chk (a b : Z) : option Z :=
  if bool_decide (b = 0) then None else Some (cdiv a b).

Fixpoint grid_loop (fuel : nat) (n cols col_w client_y col_h : Z)
    (rows i col_cnt row_cnt : Z) (c : ptr) (st : State) : option State :=
  match fuel with
  | O => None
  | S k =>
      if is_null c then Some st else
      cc ← load st c;
      if FFT cc then
        grid_loop k n cols col_w client_y col_h rows i col_cnt row_cnt (Client.next cc) st
      else
        let i := i + 1 in
        q ← cdiv_chk i rows;
        r ← (if bool_decide (cols = 0) then None else Some (cmod n cols));
        let rows := if (cols - r <? q + 1)%Z then cdiv n cols + 1 else rows in
        yy ← cdiv_chk (row_cnt * col_h) rows;
        hh ← cdiv_chk col_h rows;
        st1 ← change_client_geom c (col_cnt * col_w) (client_y + yy) col_w hh st;
        cc1 ← load st1 c;
        let row_cnt := row_cnt + 1 in
        if (rows <=? row_cnt)%Z
        then grid_loop k n cols col_w client_y col_h rows i (col_cnt + 1) 0 (Client.next cc1) st1
        else grid_loop k n cols col_w client_y col_h rows i col_cnt row_cnt (Client.next cc1) st1
  end.

Definition grid (cfg : Config) (st : State) : option State :=
  n ← get_non_tff_count st;
  s ← ws_at st (cw st);
  let client_y := if BAR_BOTTOM cfg then 0 else Workspace.bar_height s in
  let col_h := u16 (screen_height st - Workspace.bar_height s) in
  if (n <=? 1)%Z then zoom cfg st else
  let cols := grid_cols (Z.to_nat n + 2) n 0 in
  rows ← cdiv_chk n cols;
  let col_w := u16 (cdiv (screen_width st) cols) in
  st1 ← grid_loop (fuel_of st) n cols col_w client_y col_h rows (-1) 0 0 (Workspace.head s) st;
  draw_clients st1.

(** The loop of [stack] over the clients after the master. *)
Fixpoint stack_loop (fuel : nat) (vert : bool) (ms client_span rest : Z)
    (client_x client_y : Z) (c : ptr) (st : State) : option State :=
  match fuel with
  | O => None
  | S k =>
      if is_null c then Some st else
      cc ← load st c;
      if FFT cc then
        stack_loop k vert ms client_span rest client_x client_y (Client.next cc) st
      else if vert then
        st1 ← change_client_geom c ms client_y (screen_width st - ms) client_span st;
        cc1 ← load st1 c;
        stack_loop k vert ms client_span rest client_x (u16 (client_y + client_span))
                   (Client.next cc1) st1
      else
        st1 ← change_client_geom c client_x ms client_span rest st;
        cc1 ← load st1 c;
        stack_loop k vert ms client_span rest (u16 (client_x + client_span)) client_y
                   (Client.next cc1) st1
  end.

Definition stack (cfg : Config) (st : State) : option State :=
  c ← get_first_non_tff st;
  s ← ws_at st (cw st);
  let vert := bool_decide (Workspace.layout s = VSTACK) in
  let h := u16 (screen_height st - Workspace.bar_height s) in
  let w := screen_width st in
  n ← get_non_tff_count st;
  let client_y := if BAR_BOTTOM cfg then 0 else Workspace.bar_height s in
  let ms := u16 (int_of_float
                   (float_mul (float_of_int (if vert then w else h))
                              (Workspace.master_ratio s))) in
  let span := if vert then h else w in
  if (n <=? 1)%Z then zoom cfg st else
  client_span ← u16 <$> cdiv_chk span (n - 1);
  st1 ← (if vert then change_client_geom c 0 client_y ms span st
         else change_client_geom c 0 (if BAR_BOTTOM cfg then 0 else Workspace.bar_height s)
                                 span ms st);
  cc ← load st1 c;
  st2 ← stack_loop (fuel_of st) vert ms client_span
          (screen_height st - Workspace.bar_height s - ms)
          0 client_y (Client.next cc) st1;
  draw_clients st2.

(** [layout_handler[i]()]; the table has the four entries of [enum layouts]. *)
Definition layout_handler (cfg : Config) (i : Z) (st : State) : option State :=
  if bool_decide (i = ZOOM) then zoom cfg st
  else if bool_decide (i = GRID) then grid cfg st
  else if bool_decide (i = HSTACK) then stack cfg st
  else if bool_decide (i = VSTACK) then stack cfg st
  else None.

Definition arrange_windows (cfg : Config) (st : State) : option State :=
  s ← ws_at st (cw st);
  if is_null (Workspace.head s) then Some st else
  hd ← load st (Workspace.head s);
  layout_handler cfg (if negb (is_null (Client.next hd)) then Workspace.layout s else ZOOM) st.

(** ** Focus *)

Definition update_focused_client (cfg : Config) (c : ptr) (st : State) : option State :=
  if is_null c then Some st else
  s ← ws_at st (cw st);
  if is_null (Workspace.head s) then
    ws_upd (cw st) (λ s, Workspace.set_current NULL (Workspace.set_prev_foc NULL s)) st
  else
    st1 ← (if ptr_eqb c (Workspace.prev_foc s) then
             st' ← ws_upd (cw st) (Workspace.set_current (Workspace.prev_foc s)) st;
             p ← prev_client st' (Workspace.prev_foc s) (cw st');
             ws_upd (cw st') (Workspace.set_prev_foc p) st'
           else if negb (ptr_eqb c (Workspace.current s)) then
             ws_upd (cw st)
               (λ s, Workspace.set_current c (Workspace.set_prev_foc (Workspace.current s) s)) st
           else Some st);
    s1 ← ws_at st1 (cw st1);
    (* the stacking order and the borders are computed from the list *)
    _ ← walk (fuel_of st1) st1 (Workspace.head s1);
    _ ← load st1 (Workspace.current s1);
    arrange_windows cfg st1.

(** ** Workspaces *)

Definition change_ws (cfg : Config) (i : Z) (st : State) : option State :=
  (* [Client *c = wss[arg->i].head] comes first: the array is read at [i]
     before the guard tests [i] *)
  s ← ws_at st i;
  if (WORKSPACES cfg <? i)%Z || (i <=? 0)%Z || bool_decide (i = cw st) then Some st else
  let st1 := set_last_ws (cw st) st in
  _ ← walk (fuel_of st1) st1 (Workspace.head s);
  sl ← ws_at st1 (last_ws st1);
  _ ← walk (fuel_of st1) st1 (Workspace.head sl);
  let st2 := set_cw i st1 in
  sc ← ws_at st2 (cw st2);
  update_focused_client cfg (Workspace.current sc) st2.

Definition focus_last_ws (cfg : Config) (st : State) : option State :=
  change_ws cfg (last_ws st) st.

(** ** Creating, removing and moving clients *)

(** [calloc]: an address that is neither [NULL] nor in use. *)
Definition fresh_ptr (st : State) : ptr := fresh ({[NULL]} ∪ dom (heap st)).

Definition create_client (cfg : Config) (w : Z) (st : State) : option (ptr * State) :=
  let c := fresh_ptr st in
  let st := set_heap (<[c := Client.zero]> (heap st)) st in
  t ← (s ← ws_at st (cw st); prev_client st (Workspace.head s) (cw st));
  s ← ws_at st (cw st);
  st ← (if is_null (Workspace.head s) then ws_upd (cw st) (Workspace.set_head c) st
        else if negb (is_null t) then store t (Client.set_next c) st
        else store (Workspace.head s) (Client.set_next c) st);
  st ← store c (Client.set_win w) st;
  s ← ws_at st (cw st);
  st ← store c (Client.set_gap (Workspace.gap s)) st;
  st ← ws_upd (cw st) (λ s, Workspace.set_client_cnt (Workspace.client_cnt s + 1) s) st;
  Some (c, st).

(** The place a [Client **temp] points to: a workspace's [head] field or the
    [next] field of a client. *)
Inductive link := LHead | LNext (p : ptr).

(** The inner loop of [remove_client]: [temp] starts at the address of
    [wss[w].head] and moves to the address of the [next] field of the client it
    points to, until it points to [c] or to [NULL]. *)
Fixpoint find_link (fuel : nat) (st : State) (c : ptr) (temp : link) (p : ptr)
    : option (option link) :=
  match fuel with
  | O => None
  | S k =>
      if is_null p then Some None else
      if ptr_eqb p c then Some (Some temp) else
      pc ← load st p;
      find_link k st c (LNext p) (Client.next pc)
  end.

Fixpoint find_link_ws (st : State) (c : ptr) (wl : list Z) : option (option (Z * link)) :=
  match wl with
  | [] => Some None
  | w :: wl' =>
      s ← ws_at st w;
      r ← find_link (fuel_of st) st c LHead (Workspace.head s);
      match r with
      | Some l => Some (Some (w, l))
      | None => find_link_ws st c wl'
      end
  end.

Definition remove_client (cfg : Config) (c : ptr) (refocus : bool) (st : State)
    : option State :=
  r ← find_link_ws st c (workspace_ids cfg);
  match r with
  | None => Some st
  | Some (w, temp) =>
      cc ← load st c;
      st ← match temp with
           | LHead => ws_upd w (Workspace.set_head (Client.next cc)) st
           | LNext p => store p (Client.set_next (Client.next cc)) st
           end;
      s ← ws_at st w;
      st ← (if ptr_eqb c (Workspace.prev_foc s) then
              p ← prev_client st (Workspace.current s) w;
              ws_upd w (Workspace.set_prev_foc p) st
            else Some st);
      s ← ws_at st w;
      b ← (if ptr_eqb c (Workspace.current s) then Some true
           else hd ← load st (Workspace.head s); Some (is_null (Client.next hd)));
      st ← (if b : bool then
              let cur := if negb (is_null (Workspace.prev_foc s))
                         then Workspace.prev_foc s else Workspace.head s in
              st ← ws_upd w (Workspace.set_current cur) st;
              if refocus then update_focused_client cfg cur st else Some st
            else Some st);
      (* free(c) *)
      let st := set_heap (delete c (heap st)) st in
      ws_upd w (λ s, Workspace.set_client_cnt (Workspace.client_cnt s - 1) s) st
  end.

Definition client_to_ws (cfg : Config) (c : ptr) (ws : Z) (follow : bool) (st : State)
    : option State :=
  prev ← prev_client st c (cw st);
  if is_null c || bool_decide (ws = cw st) then Some st else
  (* target workspace *)
  t ← ws_at st ws;
  last ← prev_client st (Workspace.head t) ws;
  st ← (if is_null (Workspace.head t) then ws_upd ws (Workspace.set_head c) st
        else if negb (is_null last) then store last (Client.set_next c) st
        else store (Workspace.head t) (Client.set_next c) st);
  st ← ws_upd ws (λ s, Workspace.set_client_cnt (Workspace.client_cnt s + 1)
                          (Workspace.set_current c s)) st;
  (* current workspace *)
  s ← ws_at st (cw st);
  cc ← load st c;
  st ← (if ptr_eqb c (Workspace.head s) || is_null prev
        then ws_upd (cw st) (Workspace.set_head (Client.next cc)) st
        else store prev (Client.set_next (Client.next cc)) st);
  st ← ws_upd (cw st) (λ s, Workspace.set_client_cnt (Workspace.client_cnt s - 1)
                               (Workspace.set_current prev s)) st;
  st ← store c (Client.set_next NULL) st;
  if follow then
    st ← ws_upd ws (Workspace.set_current c) st;
    change_ws cfg ws st
  else update_focused_client cfg prev st.

(** [strstr(hay, needle) != NULL]. *)
Fixpoint strstr (hay needle : string) : bool :=
  String.prefix needle hay ||
  match hay with
  | EmptyString => false
  | String _ hay' => strstr hay' needle
  end.

(** The loop of [apply_rules] over the rows of [rules]; it stops at the first
    row whose class occurs in the instance or the class name. *)
Fixpoint apply_rules_loop (cfg : Config) (rs : list Rule.t) (instance_name class_name : string)
    (c : ptr) (st : State) : option State :=
  match rs with
  | [] => Some st
  | r :: rs' =>
      if strstr instance_name (Rule.class r) || strstr class_name (Rule.class r) then
        st ← store c (Client.set_is_floating (Rule.is_floating r)) st;
        st ← store c (Client.set_is_fullscreen (Rule.is_fullscreen r)) st;
        client_to_ws cfg c (if bool_decide (Rule.ws r = 0) then cw st else Rule.ws r)
                     (Rule.follow r) st
      else apply_rules_loop cfg rs' instance_name class_name c st
  end.

(** [wc] is the reply to the WM_CLASS request, if there is one. *)
Definition apply_rules (cfg : Config) (wc : option (string * string)) (c : ptr) (st : State)
    : option State :=
  match wc with
  | Some (instance_name, class_name) =>
      apply_rules_loop cfg (rules cfg) instance_name class_name c st
  | None => Some st
  end.

(** ** Event handlers *)

(** The atoms of [_NET_WM_WINDOW_TYPE] the handler compares with; interned
    atoms of different names are different. *)
Inductive window_type :=
  | TYPE_DOCK | TYPE_TOOLBAR | TYPE_NOTIFICATION | TYPE_DROPDOWN_MENU
  | TYPE_SPLASH | TYPE_POPUP_MENU | TYPE_TOOLTIP | TYPE_DIALOG
  | TYPE_OTHER (a : Z).

(** A map request together with the replies of the X server to the requests
    that [map_event] makes about the window. *)
Record map_request := {
  me_window : Z;
  (** window attributes: [override_redirect], if the reply arrived *)
  me_wa : option bool;
  (** the atoms of [_NET_WM_WINDOW_TYPE], if the property is set *)
  me_type : option (list window_type);
  (** WM_TRANSIENT_FOR, 0 when there is none *)
  me_transient : Z;
  (** geometry: x, y, width, height *)
  me_geom : option (Z * Z * Z * Z);
  (** WM_CLASS: instance name and class name *)
  me_class : option (string * string)
}.

Definition floating_type (a : window_type) : bool :=
  match a with
  | TYPE_NOTIFICATION | TYPE_DROPDOWN_MENU | TYPE_SPLASH
  | TYPE_POPUP_MENU | TYPE_TOOLTIP | TYPE_DIALOG => true
  | _ => false
  end.

Definition dock_type (a : window_type) : bool :=
  match a with
  | TYPE_DOCK | TYPE_TOOLBAR => true
  | _ => false
  end.

(** The loop of [map_event] over the type atoms.  The flag of the result
    says whether the handler returned from inside the loop, at a DOCK or
    TOOLBAR atom. *)
Fixpoint map_event_types (atoms : list window_type) (c : ptr) (st : State)
    : option (bool * State) :=
  match atoms with
  | [] => Some (false, st)
  | a :: atoms' =>
      if dock_type a then Some (true, st)
      else if floating_type a then
        st ← store c (Client.set_is_floating true) st;
        map_event_types atoms' c st
      else map_event_types atoms' c st
  end.

Definition map_event (cfg : Config) (me : map_request) (st : State) : option State :=
  match me_wa me with
  | None => Some st
  | Some true => Some st
  | Some false =>
      found ← find_client_by_win cfg st (me_window me);
      if negb (is_null found) then Some st else
      cs ← create_client cfg (me_window me) st;
      let c : ptr := cs.1 in
      let st : State := cs.2 in
      r ← match me_type me with
          | Some atoms => map_event_types atoms c st
          | None => Some (false, st)
          end;
      match r with
      | (true, st) => Some st
      | (false, st) =>
          (* transient windows float *)
          st ← store c (Client.set_is_transient (negb (bool_decide (me_transient me = 0)))) st;
          cc ← load st c;
          st ← (if Client.is_transient cc then store c (Client.set_is_floating true) st
                else Some st);
          cc ← load st c;
          s ← ws_at st (cw st);
          st ← match me_geom me with
               | Some (gx, gy, gw, gh) =>
                   if Client.is_floating cc then
                     let w := u16 (if (1 <? gw)%Z then gw else FLOAT_SPAWN_WIDTH cfg) in
                     let h := u16 (if (1 <? gh)%Z then gh else FLOAT_SPAWN_HEIGHT cfg) in
                     let x := if CENTER_FLOATING cfg
                              then cdiv (screen_width st) 2 - cdiv w 2 else gx in
                     let y := if CENTER_FLOATING cfg
                              then cdiv (screen_height st - Workspace.bar_height s - h) 2
                              else gy in
                     store c (Client.set_geom (u16 x) (u16 y) w h) st
                   else Some st
               | None => Some st
               end;
          st ← apply_rules cfg (me_class me) c st;
          st ← arrange_windows cfg st;
          update_focused_client cfg c st
      end
  end.

(** [xcb_unmap_notify_event_t]. *)
Record unmap_notify := {
  ue_event : Z;
  ue_window : Z
}.

(** [!v] on an integer. *)
Definition lnot_int (v : Z) : Z := if bool_decide (v = 0) then 1 else 0.

Definition unmap_event (cfg : Config) (ue : unmap_notify) (st : State) : option State :=
  c ← find_client_by_win cfg st (ue_window ue);
  if is_null c then Some st else
  if bool_decide (lnot_int (ue_event ue) = root st) then
    st ← remove_client cfg c true st;
    arrange_windows cfg st
  else Some st.

Definition destroy_event (cfg : Config) (window : Z) (st : State) : option State :=
  c ← find_client_by_win cfg st window;
  if is_null c then Some st else
  st ← remove_client cfg c true st;
  arrange_windows cfg st.

(** ** Delete register *)

Definition stack_push (cfg : Config) (c : ptr) (s : Stack.t) : Stack.t :=
  if is_null c then s
  else if (DELETE_REGISTER_SIZE cfg <=? Stack.size s)%Z then s
  else Stack.mk (Stack.size s + 1) (<[Stack.size s + 1 := c]> (Stack.contents s)).

(** The popped head and the stack after the pop; reading a cell that was
    never written has no defined result. *)
Definition stack_pop (s : Stack.t) : option (ptr * Stack.t) :=
  if bool_decide (Stack.size s = 0) then Some (NULL, s)
  else
    c ← Stack.contents s !! Stack.size s;
    Some (c, Stack.mk (Stack.size s - 1) (Stack.contents s)).

(** The [while (cnt > 0)] loop of the workspace branch of [op_cut]. *)
Fixpoint op_cut_ws_loop (cfg : Config) (fuel : nat) (cnt : Z) (st : State) : option State :=
  match fuel with
  | O => if (0 <? cnt)%Z then None else Some st
  | S k =>
      if (0 <? cnt)%Z then
        let i := correct_ws cfg (cw st + cnt - 1) in
        s ← ws_at st i;
        let head := Workspace.head s in
        _ ← walk (fuel_of st) st head;
        let st := set_del_reg (stack_push cfg head (del_reg st)) st in
        st ← ws_upd i (Workspace.set_head NULL) st;
        st ← ws_upd i (Workspace.set_prev_foc NULL) st;
        st ← ws_upd i (Workspace.set_current NULL) st;
        let cnt := cnt - 1 in
        st ← ws_upd (correct_ws cfg (cw st + cnt - 1)) (Workspace.set_client_cnt 0) st;
        op_cut_ws_loop cfg k cnt st
      else Some st
  end.

(** [if (!tail->next && next_client(tail)) { wrap = true; tail->next =
    next_client(tail); }]: the list is closed into a ring. *)
Definition op_cut_join (tail : ptr) (wrap : bool) (st : State) : option (State * bool) :=
  tc ← load st tail;
  if is_null (Client.next tc) then
    n ← next_client st tail;
    if negb (is_null n) then
      st ← store tail (Client.set_next n) st;
      Some (st, true)
    else Some (st, wrap)
  else Some (st, wrap).

(** The [while (cnt > 1)] loop of the client branch of [op_cut]; the result
    is the state, [tail] and [wrap]. *)
Fixpoint op_cut_client_loop (fuel : nat) (cnt : Z) (tail : ptr) (wrap : bool) (st : State)
    : option (State * ptr * bool) :=
  match fuel with
  | O => if (1 <? cnt)%Z then None else Some (st, tail, wrap)
  | S k =>
      if (1 <? cnt)%Z then
        r ← op_cut_join tail wrap st;
        let st : State := r.1 in
        let wrap : bool := r.2 in
        s ← ws_at st (cw st);
        st ← (if ptr_eqb tail (Workspace.prev_foc s)
              then ws_upd (cw st) (Workspace.set_prev_foc NULL) st else Some st);
        tail ← next_client st tail;
        _ ← load st tail;
        st ← ws_upd (cw st) (λ s, Workspace.set_client_cnt (Workspace.client_cnt s - 1) s) st;
        op_cut_client_loop k (cnt - 1) tail wrap st
      else Some (st, tail, wrap)
  end.

Definition op_cut (cfg : Config) (type : Z) (cnt : Z) (st : State) : option State :=
  s ← ws_at st (cw st);
  let head := Workspace.current s in
  head_prev ← prev_client st (Workspace.current s) (cw st);
  if is_null head then Some st else
  if (DELETE_REGISTER_SIZE cfg <=? Stack.size (del_reg st))%Z then Some st else
  if (bool_decide (type = CLIENT) && (Workspace.client_cnt s <=? cnt)%Z)
     || bool_decide (type = WORKSPACE) then
    if (DELETE_REGISTER_SIZE cfg <? cnt + Stack.size (del_reg st))%Z then Some st
    else op_cut_ws_loop cfg (Z.to_nat cnt) cnt st
  else if bool_decide (type = CLIENT) then
    _ ← load st head;
    st ← ws_upd (cw st) (λ s, Workspace.set_client_cnt (Workspace.client_cnt s - 1) s) st;
    r ← op_cut_client_loop (Z.to_nat (cnt - 1)) cnt head false st;
    let st : State := r.1.1 in
    let tail : ptr := r.1.2 in
    let wrap : bool := r.2 in
    s ← ws_at st (cw st);
    st ← (if ptr_eqb head (Workspace.head s) then
            n ← next_client st tail;
            ws_upd (cw st) (Workspace.set_head (if ptr_eqb head n then NULL else n)) st
          else if wrap then
            tc ← load st tail;
            st ← ws_upd (cw st) (Workspace.set_head (Client.next tc)) st;
            store head_prev (Client.set_next NULL) st
          else
            tc ← load st tail;
            if negb (ptr_eqb (Client.next tc) head_prev)
            then store head_prev (Client.set_next (if wrap then NULL else Client.next tc)) st
            else Some st);
    st ← ws_upd (cw st) (Workspace.set_current head_prev) st;
    st ← store tail (Client.set_next NULL) st;
    st ← update_focused_client cfg head_prev st;
    Some (set_del_reg (stack_push cfg head (del_reg st)) st)
  else Some st.

(** The three [while (c)] loops of [paste]; [t] is the client that followed
    [current], [NULL] in the first two branches. *)
Fixpoint paste_loop (fuel : nat) (splice : bool) (t : ptr) (c : ptr) (st : State)
    : option State :=
  match fuel with
  | O => None
  | S k =>
      if is_null c then Some st else
      cc ← load st c;
      if splice then
        st ← ws_upd (cw st) (λ s, Workspace.set_client_cnt (Workspace.client_cnt s + 1) s) st;
        if is_null (Client.next cc) then
          st ← store c (Client.set_next t) st;
          ws_upd (cw st) (Workspace.set_current c) st
        else
          st ← ws_upd (cw st) (Workspace.set_current c) st;
          paste_loop k splice t (Client.next cc) st
      else
        st ← ws_upd (cw st) (Workspace.set_current c) st;
        st ← ws_upd (cw st) (λ s, Workspace.set_client_cnt (Workspace.client_cnt s + 1) s) st;
        paste_loop k splice t (Client.next cc) st
  end.

Definition paste (cfg : Config) (st : State) : option State :=
  r ← stack_pop (del_reg st);
  let head : ptr := r.1 in
  let st : State := set_del_reg r.2 st in
  if is_null head then Some st else
  s ← ws_at st (cw st);
  st ← (if is_null (Workspace.current s) then
          st ← ws_upd (cw st) (Workspace.set_head head) st;
          st ← ws_upd (cw st) (Workspace.set_current head) st;
          paste_loop (fuel_of st) false NULL head st
        else
          cur ← load st (Workspace.current s);
          if is_null (Client.next cur) then
            st ← store (Workspace.current s) (Client.set_next head) st;
            paste_loop (fuel_of st) false NULL head st
          else
            let t := Client.next cur in
            st ← store (Workspace.current s) (Client.set_next head) st;
            paste_loop (fuel_of st) true t head st);
  s ← ws_at st (cw st);
  update_focused_client cfg (Workspace.current s) st.

(** ** Input automaton *)

(** The operators: the functions that take a motion type and a count. *)
Inductive op_fn :=
  | fn_op_kill | fn_op_move_up | fn_op_move_down | fn_op_focus_down
  | fn_op_focus_up | fn_op_shrink_gaps | fn_op_grow_gaps | fn_op_cut.

(** The commands: the functions that take a pointer to an [Arg]. *)
Inductive cmd_fn :=
  | fn_resize_master | fn_change_layout | fn_next_layout | fn_previous_layout
  | fn_last_layout | fn_change_mode | fn_toggle_float | fn_toggle_fullscreen
  | fn_quit_howm | fn_restart_howm | fn_toggle_bar | fn_replay | fn_paste
  | fn_send_to_scratchpad | fn_get_from_scratchpad | fn_resize_float_height
  | fn_resize_float_width | fn_move_float_x | fn_move_float_y | fn_teleport_client
  | fn_focus_urgent | fn_focus_prev_client | fn_focus_next_client
  | fn_move_current_up | fn_move_current_down | fn_focus_last_ws | fn_focus_next_ws
  | fn_focus_prev_ws | fn_make_master | fn_change_ws | fn_current_to_ws | fn_spawn.

Global Instance op_fn_eq_dec : EqDecision op_fn.
Proof. solve_decision. Defined.
Global Instance cmd_fn_eq_dec : EqDecision cmd_fn.
Proof. solve_decision. Defined.

(** [union Arg], by its two readings: [i] is the value read through the
    member [i]; [cmd] is the command vector read through the member [cmd],
    [None] when the union holds NULL or an integer.  [(Arg){ NULL }] and
    [(Arg){ .i = 0 }] are the same value. *)
Module Arg.
Record t := mk { i : Z; cmd : option (list string) }.
End Arg.

Definition Arg_i (i : Z) : Arg.t := Arg.mk i None.
Definition Arg_NULL : Arg.t := Arg.mk 0 None.
(** A command vector; no function that receives one reads the member [i]. *)
Definition Arg_cmd (v : list string) : Arg.t := Arg.mk 0 (Some v).

Module Operator.
(** The field [mod] is [mod_] here: [mod] is a reserved notation. *)
Record t := mk { mod_ : Z; sym : Z; mode : Z; func : op_fn }.
End Operator.

Module Motion.
Record t := mk { mod_ : Z; sym : Z; type : Z }.
End Motion.

Module Key.
Record t := mk { mod_ : Z; mode : Z; sym : Z; func : option cmd_fn; arg : Arg.t }.
End Key.

(** The key tables of [config.h]. *)
Record Keymap := {
  operators : list Operator.t;
  motions : list Motion.t;
  keys : list Key.t;
  COUNT_MOD : Z
}.

Definition OPERATOR_STATE : Z := 0.
Definition COUNT_STATE : Z := 1.
Definition MOTION_STATE : Z := 2.
Definition END_MODES : Z := 3.

Definition XK_0 : Z := 48.
Definition XK_1 : Z := 49.
Definition XK_9 : Z := 57.
Definition XCB_MOD_MASK_LOCK : Z := 2.

(** [static int numlockmask] is never assigned. *)
Definition numlockmask : Z := 0.

Definition CLEANMASK (mask : Z) : Z :=
  Z.land mask (Z.lnot (Z.lor numlockmask XCB_MOD_MASK_LOCK)).
Definition EQUALMODS (mask omask : Z) : bool :=
  bool_decide (CLEANMASK mask = CLEANMASK omask).

Record replay_state := {
  last_op : option op_fn;
  last_cmd : option cmd_fn;
  last_arg : Arg.t;
  last_type : Z;
  last_cnt : Z
}.

(** The global variables of the input automaton. *)
Record Fsa := mkFsa {
  cur_mode : Z;
  cur_state : Z;
  cur_cnt : Z;
  operator_func : option op_fn;
  rep_state : replay_state
}.

(** A key press: the keysym [keycode_to_keysym(ke->detail)] and [ke->state]. *)
Record key_press := {
  ke_keysym : Z;
  ke_state : Z
}.

(** A call through a function pointer. *)
Inductive call :=
  | Call_op (f : op_fn) (type cnt : Z)
  | Call_cmd (f : cmd_fn) (a : Arg.t).

Definition save_last_ocm (op : op_fn) (type cnt : Z) (f : Fsa) : Fsa :=
  mkFsa (cur_mode f) (cur_state f) (cur_cnt f) (operator_func f)
        {| last_op := Some op; last_cmd := None; last_arg := last_arg (rep_state f);
           last_type := type; last_cnt := cnt |}.

Definition save_last_cmd (cmd : cmd_fn) (a : Arg.t) (f : Fsa) : Fsa :=
  mkFsa (cur_mode f) (cur_state f) (cur_cnt f) (operator_func f)
        {| last_op := None; last_cmd := Some cmd; last_arg := a;
           last_type := last_type (rep_state f); last_cnt := last_cnt (rep_state f) |}.

(** [cur_mode] is an [unsigned int]: the test reads it as an [int], the
    assignment converts [arg->i], so a negative mode is stored modulo 2^32. *)
Definition change_mode (a : Arg.t) (f : Fsa) : Fsa :=
  if (END_MODES <=? Arg.i a)%Z || bool_decide (Arg.i a = int_of_u32 (cur_mode f)) then f
  else mkFsa (u32 (Arg.i a)) (cur_state f) (cur_cnt f) (operator_func f) (rep_state f).

(** What a command other than [replay] does to the variables of the
    automaton; only [change_mode] writes one of them. *)
Definition run_plain_cmd (c : cmd_fn) (a : Arg.t) (f : Fsa) : Fsa * list call :=
  match c with
  | fn_change_mode => (change_mode a f, [Call_cmd c a])
  | _ => (f, [Call_cmd c a])
  end.

(** [replay] calls the saved command, or else the saved operator; a saved
    [replay] would call itself for ever, a missing operator is a call through
    NULL. *)
Definition replay (f : Fsa) : option (Fsa * list call) :=
  match last_cmd (rep_state f) with
  | Some fn_replay => None
  | Some c => Some (run_plain_cmd c (last_arg (rep_state f)) f)
  | None =>
      op ← last_op (rep_state f);
      Some (f, [Call_op op (last_type (rep_state f)) (last_cnt (rep_state f))])
  end.

(** [keys[i].func(&keys[i].arg)]. *)
Definition run_cmd (c : cmd_fn) (a : Arg.t) (f : Fsa) : option (Fsa * list call) :=
  match c with
  | fn_replay => r ← replay f; Some (r.1, Call_cmd fn_replay a :: r.2)
  | _ => Some (run_plain_cmd c a f)
  end.

(** The tests of the three loops on a row of their table. *)
Definition operator_matches (ke : key_press) (mode : Z) (o : Operator.t) : bool :=
  bool_decide (ke_keysym ke = Operator.sym o)
  && EQUALMODS (Operator.mod_ o) (ke_state ke)
  && bool_decide (Operator.mode o = mode).

Definition motion_matches (ke : key_press) (m : Motion.t) : bool :=
  bool_decide (ke_keysym ke = Motion.sym m) && EQUALMODS (Motion.mod_ m) (ke_state ke).

Definition key_matches (ke : key_press) (mode : Z) (k : Key.t) : bool :=
  bool_decide (ke_keysym ke = Key.sym k) && EQUALMODS (Key.mod_ k) (ke_state ke)
  && bool_decide (is_Some (Key.func k)) && bool_decide (Key.mode k = mode).

(** The loop over [operators], left at the first match. *)
Fixpoint operator_loop (ops : list Operator.t) (ke : key_press) (f : Fsa) : Fsa :=
  match ops with
  | [] => f
  | o :: ops' =>
      if operator_matches ke (cur_mode f) o
      then mkFsa (cur_mode f) COUNT_STATE (cur_cnt f) (Some (Operator.func o)) (rep_state f)
      else operator_loop ops' ke f
  end.

(** The loop over [motions]; it has no [break]. *)
Fixpoint motion_loop (ms : list Motion.t) (ke : key_press) (f : Fsa)
    : option (Fsa * list call) :=
  match ms with
  | [] => Some (f, [])
  | m :: ms' =>
      if motion_matches ke m then
        op ← operator_func f;
        let c := Call_op op (Motion.type m) (cur_cnt f) in
        let f := save_last_ocm op (Motion.type m) (cur_cnt f) f in
        let f := mkFsa (cur_mode f) OPERATOR_STATE 1 (operator_func f) (rep_state f) in
        r ← motion_loop ms' ke f;
        Some (r.1, c :: r.2)
      else motion_loop ms' ke f
  end.

(** The loop over [keys], the direct bindings. *)
Fixpoint keys_loop (ks : list Key.t) (ke : key_press) (f : Fsa)
    : option (Fsa * list call) :=
  match ks with
  | [] => Some (f, [])
  | k :: ks' =>
      if key_matches ke (cur_mode f) k then
        c ← Key.func k;
        r ← run_cmd c (Key.arg k) f;
        let f := if bool_decide (c = fn_replay) then r.1
                 else save_last_cmd c (Key.arg k) r.1 in
        r' ← keys_loop ks' ke f;
        Some (r'.1, r.2 ++ r'.2)
      else keys_loop ks' ke f
  end.

(** The test of the count state: [COUNT_MOD] and a keysym from [XK_1] to
    [XK_9]. *)
Definition is_count_key (km : Keymap) (ke : key_press) : bool :=
  EQUALMODS (COUNT_MOD km) (ke_state ke)
  && (XK_1 <=? ke_keysym ke)%Z && (ke_keysym ke <=? XK_9)%Z.

Definition key_press_event (km : Keymap) (ke : key_press) (f : Fsa)
    : option (Fsa * list call) :=
  r ← (if bool_decide (cur_state f = OPERATOR_STATE) then
         Some (operator_loop (operators km) ke f, [])
       else if bool_decide (cur_state f = COUNT_STATE) && is_count_key km ke then
         (* a value between 1 and 9 inclusive *)
         Some (mkFsa (cur_mode f) MOTION_STATE (ke_keysym ke - XK_0)
                     (operator_func f) (rep_state f), [])
       else if bool_decide (cur_state f = COUNT_STATE)
               || bool_decide (cur_state f = MOTION_STATE) then
         motion_loop (motions km) ke f
       else Some (f, []));
  r' ← keys_loop (keys km) ke r.1;
  Some (r'.1, r.2 ++ r'.2).

(** A sequence of key presses, with the calls made along the way. *)
Fixpoint key_presses (km : Keymap) (kes : list key_press) (f : Fsa)
    : option (Fsa * list call) :=
  match kes with
  | [] => Some (f, [])
  | ke :: kes' =>
      r ← key_press_event km ke f;
      r' ← key_presses km kes' r.1;
      Some (r'.1, r.2 ++ r'.2)
  end.

(** The operator calls of a trace. *)
Definition operator_calls (t : list call) : list (op_fn * Z * Z) :=
  omap (λ c, match c with Call_op f ty n => Some (f, ty, n) | Call_cmd _ _ => None end) t.

(** ** Socket commands *)

Definition IPC_ERR_NONE : Z := 0.
Definition IPC_ERR_SYNTAX : Z := 1.
Definition IPC_ERR_ALLOC : Z := 2.
Definition IPC_ERR_NO_CMD : Z := 3.
Definition IPC_ERR_TOO_MANY_ARGS : Z := 4.
Definition IPC_ERR_TOO_FEW_ARGS : Z := 5.
Definition IPC_ERR_ARG_NOT_INT : Z := 6.
Definition IPC_ERR_ARG_TOO_LARGE : Z := 7.

Inductive arg_type := TYPE_IGNORE | TYPE_INT | TYPE_CMD.

Global Instance arg_type_eq_dec : EqDecision arg_type.
Proof. solve_decision. Defined.

Module Command.
Record t := mk {
  name : string;
  func : option cmd_fn;
  operator : option op_fn;
  argc : Z;
  arg_type : arg_type
}.
End Command.

Definition cmd_row (n : string) (f : cmd_fn) (argc : Z) (ty : arg_type) : Command.t :=
  Command.mk n (Some f) None argc ty.
Definition op_row (n : string) (f : op_fn) : Command.t :=
  Command.mk n None (Some f) 2 TYPE_IGNORE.

Definition commands : list Command.t := [
  cmd_row "resize_master" fn_resize_master 1 TYPE_INT;
  cmd_row "change_layout" fn_change_layout 1 TYPE_INT;
  cmd_row "next_layout" fn_next_layout 0 TYPE_INT;
  cmd_row "previous_layout" fn_previous_layout 0 TYPE_INT;
  cmd_row "last_layout" fn_last_layout 0 TYPE_INT;
  cmd_row "change_mode" fn_change_mode 1 TYPE_INT;
  cmd_row "toggle_float" fn_toggle_float 0 TYPE_INT;
  cmd_row "toggle_fullscreen" fn_toggle_fullscreen 0 TYPE_INT;
  cmd_row "quit_howm" fn_quit_howm 1 TYPE_INT;
  cmd_row "restart_howm" fn_restart_howm 1 TYPE_INT;
  cmd_row "resize_master" fn_resize_master 1 TYPE_INT;
  cmd_row "toggle_bar" fn_toggle_bar 0 TYPE_INT;
  cmd_row "replay" fn_replay 0 TYPE_INT;
  cmd_row "paste" fn_paste 0 TYPE_INT;
  cmd_row "send_to_scratchpad" fn_send_to_scratchpad 0 TYPE_INT;
  cmd_row "get_from_scratchpad" fn_get_from_scratchpad 0 TYPE_INT;
  cmd_row "resize_float_height" fn_resize_float_height 1 TYPE_INT;
  cmd_row "resize_float_width" fn_resize_float_width 1 TYPE_INT;
  cmd_row "move_float_x" fn_move_float_x 1 TYPE_INT;
  cmd_row "move_float_y" fn_move_float_y 1 TYPE_INT;
  cmd_row "teleport_client" fn_teleport_client 1 TYPE_INT;
  cmd_row "focus_urgent" fn_focus_urgent 0 TYPE_INT;
  cmd_row "focus_prev_client" fn_focus_prev_client 0 TYPE_INT;
  cmd_row "focus_next_client" fn_focus_next_client 0 TYPE_INT;
  cmd_row "move_current_up" fn_move_current_up 0 TYPE_INT;
  cmd_row "move_current_down" fn_move_current_down 0 TYPE_INT;
  cmd_row "focus_last_ws" fn_focus_last_ws 0 TYPE_INT;
  cmd_row "focus_next_ws" fn_focus_next_ws 0 TYPE_INT;
  cmd_row "focus_prev_ws" fn_focus_prev_ws 0 TYPE_INT;
  cmd_row "make_master" fn_make_master 0 TYPE_INT;
  cmd_row "change_ws" fn_change_ws 1 TYPE_INT;
  cmd_row "current_to_ws" fn_current_to_ws 1 TYPE_INT;
  cmd_row "spawn" fn_spawn 1 TYPE_CMD;
  op_row "op_kill" fn_op_kill;
  op_row "op_move_up" fn_op_move_up;
  op_row "op_move_down" fn_op_move_down;
  op_row "op_shrink_gaps" fn_op_shrink_gaps;
  op_row "op_grow_gaps" fn_op_grow_gaps;
  op_row "op_cut" fn_op_cut;
  op_row "op_focus_down" fn_op_focus_down;
  op_row "op_focus_up" fn_op_focus_up
].

(** The code of a [char]. *)
Definition char_code (c : Ascii.ascii) : Z := Z.of_N (Ascii.N_of_ascii c).

(** [arg[i]], the terminating NUL included. *)
Definition char_at (s : string) (i : nat) : Z :=
  match String.get i s with
  | Some c => char_code c
  | None => 0
  end.

Definition strlen (s : string) : Z := Z.of_nat (String.length s).

(** [arg + 1]. *)
Definition str_tail (s : string) : string :=
  match s with
  | EmptyString => EmptyString
  | String _ s' => s'
  end.

Definition ch_0 : Z := 48.
Definition ch_9 : Z := 57.
Definition ch_minus : Z := 45.

(** The value returned and the value of [*err] after the call. *)
Definition ipc_arg_to_int (arg : string) (err : Z) : Z * Z :=
  let sign := if bool_decide (char_at arg 0 = ch_minus) then -1 else 1 in
  let arg := if bool_decide (char_at arg 0 = ch_minus) then str_tail arg else arg in
  if bool_decide (strlen arg = 1) && (ch_0 <? char_at arg 0)%Z && (char_at arg 0 <=? ch_9)%Z then
    if (ch_0 <=? char_at arg 0)%Z && (char_at arg 0 <=? ch_9)%Z
    then (sign * (char_at arg 0 - ch_0), err)
    else (0, IPC_ERR_ARG_NOT_INT)
  else if bool_decide (strlen arg = 2) && (ch_0 <? char_at arg 0)%Z && (char_at arg 0 <=? ch_9)%Z
          && (ch_0 <=? char_at arg 1)%Z && (char_at arg 1 <=? ch_9)%Z then
    if (ch_0 <? char_at arg 0)%Z && (char_at arg 0 <=? ch_9)%Z
       && (ch_0 <=? char_at arg 1)%Z && (char_at arg 1 <=? ch_9)%Z
    then (sign * (10 * (char_at arg 0 - ch_0) + (char_at arg 1 - ch_0)), err)
    else (0, IPC_ERR_ARG_NOT_INT)
  else (0, IPC_ERR_ARG_TOO_LARGE).

(** The loop of [ipc_process_args]: an argument ends at each NUL of [msg];
    [cur] is the part of the message since the last NUL. *)
Fixpoint split_args (msg : string) (cur : string) : list string :=
  match msg with
  | EmptyString => []
  | String c msg' =>
      if bool_decide (char_code c = 0) then cur :: split_args msg' EmptyString
      else split_args msg' (cur +:+ String c EmptyString)
  end.

(** [msg] is the [len] bytes read from the socket.  The result is the array
    of arguments, or the error code. *)
Definition ipc_process_args (msg : string) : list string + Z :=
  let args := split_args msg EmptyString in
  if (Z.of_nat (length args) <? 1)%Z then inr IPC_ERR_TOO_FEW_ARGS else inl args.

(** [a && *a == ch] for an entry [a] of [args]. *)
Definition starts_with (a : option string) (ch : Z) : bool :=
  match a with
  | Some s => bool_decide (char_at s 0 = ch)
  | None => false
  end.

Definition ch_w : Z := 119.
Definition ch_c : Z := 99.

(** The loop of [ipc_process_cmd] over [commands]: the error code and the
    call made, if any.  Every branch of a row whose name matches leaves the
    loop. *)
Fixpoint ipc_dispatch (cs : list Command.t) (args : list string) (found : bool) (err : Z)
    : option (Z * list call) :=
  match cs with
  | [] => Some (if found then err else IPC_ERR_NO_CMD, [])
  | c :: cs' =>
      a0 ← args !! 0%nat;
      if String.eqb a0 (Command.name c) then
        let a1 := args !! 1%nat in
        let a2 := args !! 2%nat in
        if bool_decide (Command.argc c = 0) then
          f ← Command.func c;
          Some (err, [Call_cmd f Arg_NULL])
        else if bool_decide (Command.argc c = 1) && bool_decide (is_Some a1)
                && bool_decide (Command.arg_type c = TYPE_INT) then
          f ← Command.func c;
          s1 ← a1;
          let r := ipc_arg_to_int s1 err in
          Some (r.2, [Call_cmd f (Arg_i r.1)])
        else if bool_decide (Command.argc c = 1) && bool_decide (is_Some a1)
                && bool_decide (Command.arg_type c = TYPE_CMD) then
          f ← Command.func c;
          Some (err, [Call_cmd f (Arg_cmd (drop 1 args))])
        else if bool_decide (Command.argc c = 2) && bool_decide (is_Some a1)
                && starts_with a2 ch_w then
          f ← Command.operator c;
          s1 ← a1;
          let r := ipc_arg_to_int s1 err in
          Some (r.2, [Call_op f WORKSPACE r.1])
        else if bool_decide (Command.argc c = 2) && bool_decide (is_Some a1)
                && starts_with a2 ch_c then
          f ← Command.operator c;
          s1 ← a1;
          let r := ipc_arg_to_int s1 err in
          Some (r.2, [Call_op f CLIENT r.1])
        else Some (IPC_ERR_SYNTAX, [])
      else ipc_dispatch cs' args found err
  end.

(** The reply written to the socket, and the call made. *)
Definition ipc_process_cmd (msg : string) : option (Z * list call) :=
  match ipc_process_args msg with
  | inr err => Some (err, [])
  | inl args => ipc_dispatch commands args false IPC_ERR_NONE
  end.

(** ** Commands on workspaces, layouts and the bar *)

(** The constants of [config.h] read by the commands below. *)
Record Settings := {
  BAR_HEIGHT : Z;
  BORDER_PX : Z;
  OP_GAP_SIZE : Z;
  SCRATCHPAD_WIDTH : Z;
  SCRATCHPAD_HEIGHT : Z;
  FOLLOW_MOVE : bool;
  FOCUS_MOUSE : bool;
  FOCUS_MOUSE_CLICK : bool
}.

Definition ws_set_gap (v : Z) (s : Workspace.t) : Workspace.t :=
  Workspace.mk (Workspace.layout s) (Workspace.client_cnt s) v (Workspace.master_ratio s)
               (Workspace.bar_height s) (Workspace.head s) (Workspace.prev_foc s)
               (Workspace.current s).
Definition ws_set_bar_height (v : Z) (s : Workspace.t) : Workspace.t :=
  Workspace.mk (Workspace.layout s) (Workspace.client_cnt s) (Workspace.gap s)
               (Workspace.master_ratio s) v (Workspace.head s) (Workspace.prev_foc s)
               (Workspace.current s).

Definition focus_prev_ws (cfg : Config) (st : State) : option State :=
  change_ws cfg (correct_ws cfg (cw st - 1)) st.

Definition focus_next_ws (cfg : Config) (st : State) : option State :=
  change_ws cfg (correct_ws cfg (cw st + 1)) st.

(** The window model together with the global [prev_layout]. *)
Record Layouts := mkLayouts {
  lay_st : State;
  prev_layout : Z
}.

Definition change_layout (cfg : Config) (i : Z) (g : Layouts) : option Layouts :=
  let st := lay_st g in
  s ← ws_at st (cw st);
  if bool_decide (i = Workspace.layout s) || (END_LAYOUT <=? i)%Z || (i <? 0)%Z then Some g else
  st ← ws_upd (cw st) (Workspace.set_layout i) st;
  s' ← ws_at st (cw st);
  st ← update_focused_client cfg (Workspace.current s') st;
  Some (mkLayouts st (Workspace.layout s)).

Definition previous_layout (cfg : Config) (g : Layouts) : option Layouts :=
  s ← ws_at (lay_st g) (cw (lay_st g));
  change_layout cfg (if (Workspace.layout s <? 1)%Z then END_LAYOUT - 1
                     else Workspace.layout s - 1) g.

Definition next_layout (cfg : Config) (g : Layouts) : option Layouts :=
  s ← ws_at (lay_st g) (cw (lay_st g));
  change_layout cfg (cmod (Workspace.layout s + 1) END_LAYOUT) g.

Definition last_layout (cfg : Config) (g : Layouts) : option Layouts :=
  change_layout cfg (prev_layout g) g.

Definition toggle_bar (cfg : Config) (sg : Settings) (st : State) : option State :=
  s ← ws_at st (cw st);
  if bool_decide (Workspace.bar_height s = 0) && (0 <? BAR_HEIGHT sg)%Z then
    st ← ws_upd (cw st) (ws_set_bar_height (u16 (BAR_HEIGHT sg))) st;
    arrange_windows cfg st
  else if bool_decide (Workspace.bar_height s = BAR_HEIGHT sg) then
    st ← ws_upd (cw st) (ws_set_bar_height 0) st;
    arrange_windows cfg st
  else Some st.

(** ** Gaps *)

Definition change_client_gaps (c : ptr) (size : Z) (st : State) : option State :=
  cc ← load st c;
  if Client.is_fullscreen cc then Some st else
  st ← store c (Client.set_gap (if (Client.gap cc + size <=? 0)%Z then 0
                                else u16 (Client.gap cc + size))) st;
  draw_clients st.

(** The loop of the workspace branch of [change_gaps] over the clients of one
    workspace. *)
Fixpoint change_gaps_list (fuel : nat) (size : Z) (c : ptr) (st : State) : option State :=
  match fuel with
  | O => None
  | S k =>
      if is_null c then Some st else
      st ← change_client_gaps c size st;
      cc ← load st c;
      change_gaps_list k size (Client.next cc) st
  end.

Fixpoint change_gaps_ws (cfg : Config) (fuel : nat) (cnt size : Z) (st : State)
    : option State :=
  match fuel with
  | O => if (0 <? cnt)%Z then None else Some st
  | S k =>
      if (0 <? cnt)%Z then
        let cnt := cnt - 1 in
        let i := correct_ws cfg (cw st + cnt) in
        st ← ws_upd i (λ s, ws_set_gap (u16 (Workspace.gap s + size)) s) st;
        s ← ws_at st i;
        st ← change_gaps_list (fuel_of st) size (Workspace.head s) st;
        change_gaps_ws cfg k cnt size st
      else Some st
  end.

Fixpoint change_gaps_client (fuel : nat) (cnt size : Z) (c : ptr) (st : State)
    : option State :=
  match fuel with
  | O => if (0 <? cnt)%Z then None else Some st
  | S k =>
      if (0 <? cnt)%Z then
        st ← change_client_gaps c size st;
        c ← next_client st c;
        change_gaps_client k (cnt - 1) size c st
      else Some st
  end.

Definition change_gaps (cfg : Config) (type cnt size : Z) (st : State) : option State :=
  if bool_decide (type = WORKSPACE) then change_gaps_ws cfg (Z.to_nat cnt) cnt size st
  else if bool_decide (type = CLIENT) then
    s ← ws_at st (cw st);
    change_gaps_client (Z.to_nat cnt) cnt size (Workspace.current s) st
  else Some st.

Definition op_shrink_gaps (cfg : Config) (sg : Settings) (type cnt : Z) (st : State)
    : option State :=
  change_gaps cfg type cnt (- OP_GAP_SIZE sg) st.

Definition op_grow_gaps (cfg : Config) (sg : Settings) (type cnt : Z) (st : State)
    : option State :=
  change_gaps cfg type cnt (OP_GAP_SIZE sg) st.

(** ** Focus within a workspace *)

Definition focus_next_client (cfg : Config) (st : State) : option State :=
  s ← ws_at st (cw st);
  if is_null (Workspace.current s) then Some st else
  hd ← load st (Workspace.head s);
  if is_null (Client.next hd) then Some st else
  cur ← load st (Workspace.current s);
  update_focused_client cfg
    (if negb (is_null (Client.next cur)) then Client.next cur else Workspace.head s) st.

Definition focus_prev_client (cfg : Config) (st : State) : option State :=
  s ← ws_at st (cw st);
  if is_null (Workspace.current s) then Some st else
  hd ← load st (Workspace.head s);
  if is_null (Client.next hd) then Some st else
  st ← ws_upd (cw st) (Workspace.set_prev_foc (Workspace.current s)) st;
  s ← ws_at st (cw st);
  p ← prev_client st (Workspace.prev_foc s) (cw st);
  update_focused_client cfg p st.

(** [focus_window]; the warning of the other branch is not modelled. *)
Definition focus_window (cfg : Config) (win : Z) (st : State) : option State :=
  c ← find_client_by_win cfg st win;
  s ← ws_at st (cw st);
  if negb (is_null c) && negb (ptr_eqb c (Workspace.current s))
  then update_focused_client cfg c st
  else Some st.

Definition enter_event (cfg : Config) (sg : Settings) (event : Z) (st : State)
    : option State :=
  s ← ws_at st (cw st);
  if FOCUS_MOUSE sg && negb (bool_decide (Workspace.layout s = ZOOM))
  then focus_window cfg event st
  else Some st.

Definition XCB_BUTTON_INDEX_1 : Z := 1.

Definition button_press_event (cfg : Config) (sg : Settings) (detail event : Z) (st : State)
    : option State :=
  if FOCUS_MOUSE_CLICK sg && bool_decide (detail = XCB_BUTTON_INDEX_1)
  then focus_window cfg event st
  else Some st.

(** The loops of [op_focus_up] and [op_focus_down]. *)
Fixpoint op_focus_loop (step_client step_ws : State → option State)
    (fuel : nat) (type cnt : Z) (st : State) : option State :=
  match fuel with
  | O => if (0 <? cnt)%Z && (bool_decide (type = CLIENT) || bool_decide (type = WORKSPACE))
         then None else Some st
  | S k =>
      if (0 <? cnt)%Z then
        if bool_decide (type = CLIENT) then
          st ← step_client st; op_focus_loop step_client step_ws k type (cnt - 1) st
        else if bool_decide (type = WORKSPACE) then
          st ← step_ws st; op_focus_loop step_client step_ws k type (cnt - 1) st
        else Some st
      else Some st
  end.

Definition op_focus_up (cfg : Config) (type cnt : Z) (st : State) : option State :=
  op_focus_loop (focus_next_client cfg) (focus_next_ws cfg) (Z.to_nat cnt) type cnt st.

Definition op_focus_down (cfg : Config) (type cnt : Z) (st : State) : option State :=
  op_focus_loop (focus_prev_client cfg) (focus_prev_ws cfg) (Z.to_nat cnt) type cnt st.

(** ** Moving clients within their list *)

Definition move_down (cfg : Config) (c : ptr) (st : State) : option State :=
  prev ← prev_client st c (cw st);
  (* [c->next] is read before [c] is tested *)
  cc ← load st c;
  s ← ws_at st (cw st);
  let n := if negb (is_null (Client.next cc)) then Client.next cc else Workspace.head s in
  if is_null c then Some st else
  if is_null prev then Some st else
  st ← (if ptr_eqb (Workspace.head s) c then ws_upd (cw st) (Workspace.set_head n) st
        else store prev (Client.set_next (Client.next cc)) st);
  cc ← load st c;
  v ← (if negb (is_null (Client.next cc)) then nc ← load st n; Some (Client.next nc)
       else Some n);
  st ← store c (Client.set_next v) st;
  nc ← load st n;
  cc ← load st c;
  st ← (if ptr_eqb (Client.next nc) (Client.next cc) then store n (Client.set_next c) st
        else ws_upd (cw st) (Workspace.set_head c) st);
  arrange_windows cfg st.

(** The loop of [move_up]:
    [for (pp = head; pp && pp->next != p; pp = pp->next);]. *)
Fixpoint move_up_loop (fuel : nat) (st : State) (p pp : ptr) : option ptr :=
  match fuel with
  | O => None
  | S k =>
      if is_null pp then Some NULL else
      ppc ← load st pp;
      if ptr_eqb (Client.next ppc) p then Some pp
      else move_up_loop k st p (Client.next ppc)
  end.

Definition move_up (cfg : Config) (c : ptr) (st : State) : option State :=
  p ← prev_client st c (cw st);
  if is_null c then Some st else
  if is_null p then Some st else
  pc ← load st p;
  s ← ws_at st (cw st);
  pp ← (if negb (is_null (Client.next pc))
        then move_up_loop (fuel_of st) st p (Workspace.head s) else Some NULL);
  st ← (if negb (is_null pp) then store pp (Client.set_next c) st
        else if ptr_eqb (Workspace.head s) c then
          cc ← load st c; ws_upd (cw st) (Workspace.set_head (Client.next cc)) st
        else ws_upd (cw st) (Workspace.set_head c) st);
  s ← ws_at st (cw st);
  cc ← load st c;
  st ← store p (Client.set_next (if ptr_eqb (Client.next cc) (Workspace.head s) then c
                                 else Client.next cc)) st;
  s ← ws_at st (cw st);
  cc ← load st c;
  st ← store c (Client.set_next (if ptr_eqb (Client.next cc) (Workspace.head s) then NULL
                                 else p)) st;
  arrange_windows cfg st.

Definition move_current_down (cfg : Config) (st : State) : option State :=
  s ← ws_at st (cw st);
  move_down cfg (Workspace.current s) st.

Definition move_current_up (cfg : Config) (st : State) : option State :=
  s ← ws_at st (cw st);
  move_up cfg (Workspace.current s) st.

(** [for (; cnt > 0; f(c), cnt--);] *)
Fixpoint repeat_move (f : ptr → State → option State) (fuel : nat) (cnt : Z) (c : ptr)
    (st : State) : option State :=
  match fuel with
  | O => if (0 <? cnt)%Z then None else Some st
  | S k =>
      if (0 <? cnt)%Z then st ← f c st; repeat_move f k (cnt - 1) c st
      else Some st
  end.

(** [for (c = current; cntcopy > 0; c = next_client(c), cntcopy--);] *)
Fixpoint advance_client (fuel : nat) (cnt : Z) (c : ptr) (st : State) : option ptr :=
  match fuel with
  | O => if (0 <? cnt)%Z then None else Some c
  | S k =>
      if (0 <? cnt)%Z then c ← next_client st c; advance_client k (cnt - 1) c st
      else Some c
  end.

Definition move_client (cfg : Config) (cnt : Z) (up : bool) (st : State) : option State :=
  s ← ws_at st (cw st);
  if up then
    if ptr_eqb (Workspace.current s) (Workspace.head s) then Some st else
    c ← prev_client st (Workspace.current s) (cw st);
    repeat_move (move_down cfg) (Z.to_nat cnt) cnt c st
  else
    t ← prev_client st (Workspace.head s) (cw st);
    if ptr_eqb (Workspace.current s) t then Some st else
    c ← advance_client (Z.to_nat cnt) cnt (Workspace.current s) st;
    repeat_move (move_up cfg) (Z.to_nat cnt) cnt c st.

Definition op_move_down (cfg : Config) (type cnt : Z) (st : State) : option State :=
  if bool_decide (type = WORKSPACE) then Some st else move_client cfg cnt false st.

Definition op_move_up (cfg : Config) (type cnt : Z) (st : State) : option State :=
  if bool_decide (type = WORKSPACE) then Some st else move_client cfg cnt true st.

(** [while (wss[cw].current != wss[cw].head) move_up(wss[cw].current);] *)
Fixpoint make_master_loop (cfg : Config) (fuel : nat) (st : State) : option State :=
  s ← ws_at st (cw st);
  if ptr_eqb (Workspace.current s) (Workspace.head s) then Some st else
  match fuel with
  | O => None
  | S k => st ← move_up cfg (Workspace.current s) st; make_master_loop cfg k st
  end.

Definition make_master (cfg : Config) (st : State) : option State :=
  s ← ws_at st (cw st);
  if is_null (Workspace.current s) then Some st else
  hd ← load st (Workspace.head s);
  if is_null (Client.next hd)
     || ptr_eqb (Workspace.head s) (Workspace.current s)
     || negb (bool_decide (Workspace.layout s = HSTACK)
              || bool_decide (Workspace.layout s = VSTACK))
  then Some st else
  st ← make_master_loop cfg (fuel_of st) st;
  s ← ws_at st (cw st);
  update_focused_client cfg (Workspace.head s) st.

(** ** Killing clients *)

(** The reply to the WM_PROTOCOLS request only selects the request that is
    sent to the window. *)
Definition kill_client (cfg : Config) (ws : Z) (arrange : bool) (st : State) : option State :=
  s ← ws_at st ws;
  if is_null (Workspace.current s) then Some st else
  _ ← load st (Workspace.current s);
  remove_client cfg (Workspace.current s) arrange st.

(** [while (wss[ws].head) kill_client(ws, ...);]: every round that changes
    the state frees a client, so a run that ends takes no more rounds than the
    heap has cells. *)
Fixpoint kill_ws_loop (cfg : Config) (fuel : nat) (ws : Z) (st : State) : option State :=
  s ← ws_at st ws;
  if is_null (Workspace.head s) then Some st else
  match fuel with
  | O => None
  | S k =>
      st ← kill_client cfg ws (bool_decide (Workspace.client_cnt s = 1)
                               && bool_decide (cw st = ws)) st;
      kill_ws_loop cfg k ws st
  end.

Definition kill_ws (cfg : Config) (ws : Z) (st : State) : option State :=
  kill_ws_loop cfg (fuel_of st) ws st.

Fixpoint op_kill_ws_loop (cfg : Config) (fuel : nat) (cnt : Z) (st : State) : option State :=
  match fuel with
  | O => if (0 <? cnt)%Z then None else Some st
  | S k =>
      if (0 <? cnt)%Z then
        st ← kill_ws cfg (correct_ws cfg (cw st + cnt - 1)) st;
        op_kill_ws_loop cfg k (cnt - 1) st
      else Some st
  end.

Fixpoint op_kill_client_loop (cfg : Config) (fuel : nat) (cnt : Z) (st : State)
    : option State :=
  match fuel with
  | O => if (0 <? cnt)%Z then None else Some st
  | S k =>
      if (0 <? cnt)%Z then
        st ← kill_client cfg (cw st) (bool_decide (cnt = 1)) st;
        op_kill_client_loop cfg k (cnt - 1) st
      else Some st
  end.

Definition op_kill (cfg : Config) (type cnt : Z) (st : State) : option State :=
  if bool_decide (type = WORKSPACE) then op_kill_ws_loop cfg (Z.to_nat cnt) cnt st
  else if bool_decide (type = CLIENT) then op_kill_client_loop cfg (Z.to_nat cnt) cnt st
  else Some st.

Definition current_to_ws (cfg : Config) (sg : Settings) (i : Z) (st : State) : option State :=
  s ← ws_at st (cw st);
  client_to_ws cfg (Workspace.current s) i (FOLLOW_MOVE sg) st.

(** ** Floating clients *)

Definition set_scratchpad (p : ptr) (st : State) : State :=
  mkState (heap st) (wss st) (cw st) (last_ws st) p (del_reg st)
          (screen_width st) (screen_height st) (root st).

Definition client_set_is_urgent (b : bool) (c : Client.t) : Client.t :=
  Client.mk (Client.next c) (Client.is_fullscreen c) (Client.is_floating c)
            (Client.is_transient c) b (Client.win c) (Client.x c) (Client.y c)
            (Client.w c) (Client.h c) (Client.gap c).

Definition toggle_float (cfg : Config) (st : State) : option State :=
  s ← ws_at st (cw st);
  let c := Workspace.current s in
  if is_null c then Some st else
  cc ← load st c;
  st ← store c (Client.set_is_floating (negb (Client.is_floating cc))) st;
  cc ← load st c;
  st ← (if Client.is_floating cc && CENTER_FLOATING cfg then
          st ← store c (λ cc, Client.set_geom
                                (u16 (cdiv (screen_width st) 2 - cdiv (Client.w cc) 2))
                                (Client.y cc) (Client.w cc) (Client.h cc) cc) st;
          s ← ws_at st (cw st);
          store c (λ cc, Client.set_geom (Client.x cc)
                           (u16 (cdiv (screen_height st - Workspace.bar_height s
                                       - Client.h cc) 2))
                           (Client.w cc) (Client.h cc) cc) st
        else Some st);
  arrange_windows cfg st.

Definition resize_float_width (i : Z) (st : State) : option State :=
  s ← ws_at st (cw st);
  let c := Workspace.current s in
  if is_null c then Some st else
  cc ← load st c;
  if negb (Client.is_floating cc) || (Client.w cc + i <=? 0)%Z then Some st else
  st ← store c (λ cc, Client.set_geom (Client.x cc) (Client.y cc) (u16 (Client.w cc + i))
                        (Client.h cc) cc) st;
  draw_clients st.

Definition resize_float_height (i : Z) (st : State) : option State :=
  s ← ws_at st (cw st);
  let c := Workspace.current s in
  if is_null c then Some st else
  cc ← load st c;
  if negb (Client.is_floating cc) || (Client.h cc + i <=? 0)%Z then Some st else
  st ← store c (λ cc, Client.set_geom (Client.x cc) (Client.y cc) (Client.w cc)
                        (u16 (Client.h cc + i)) cc) st;
  draw_clients st.

Definition move_float_y (i : Z) (st : State) : option State :=
  s ← ws_at st (cw st);
  let c := Workspace.current s in
  if is_null c then Some st else
  cc ← load st c;
  if negb (Client.is_floating cc) then Some st else
  st ← store c (λ cc, Client.set_geom (Client.x cc) (u16 (Client.y cc + i)) (Client.w cc)
                        (Client.h cc) cc) st;
  draw_clients st.

Definition move_float_x (i : Z) (st : State) : option State :=
  s ← ws_at st (cw st);
  let c := Workspace.current s in
  if is_null c then Some st else
  cc ← load st c;
  if negb (Client.is_floating cc) then Some st else
  st ← store c (λ cc, Client.set_geom (u16 (Client.x cc + i)) (Client.y cc) (Client.w cc)
                        (Client.h cc) cc) st;
  draw_clients st.

(** [enum teleport_locations]. *)
Definition TOP_LEFT : Z := 0.
Definition TOP_CENTER : Z := 1.
Definition TOP_RIGHT : Z := 2.
Definition CENTER : Z := 3.
Definition BOTTOM_LEFT : Z := 4.
Definition BOTTOM_CENTER : Z := 5.
Definition BOTTOM_RIGHT : Z := 6.

(** The coordinates [teleport_client] assigns for a location, before their
    conversion to [uint16_t]; [None] for a number that is no location. *)
Definition teleport_xy (cfg : Config) (sg : Settings) (st : State) (g w h bh : Z) (i : Z)
    : option (Z * Z) :=
  let top := (if BAR_BOTTOM cfg then 0 else bh) + g in
  let bottom := (if BAR_BOTTOM cfg then screen_height st - bh else screen_height st)
                - h - g - 2 * BORDER_PX sg in
  let right := screen_width st - w - g - 2 * BORDER_PX sg in
  if bool_decide (i = TOP_LEFT) then Some (g, top)
  else if bool_decide (i = TOP_CENTER) then Some (cdiv (screen_width st - w) 2, top)
  else if bool_decide (i = TOP_RIGHT) then Some (right, top)
  else if bool_decide (i = CENTER)
  then Some (cdiv (screen_width st - w) 2, cdiv (screen_height st - bh - h) 2)
  else if bool_decide (i = BOTTOM_LEFT) then Some (g, bottom)
  else if bool_decide (i = BOTTOM_CENTER)
  then Some (cdiv (screen_width st) 2 - cdiv w 2, bottom)
  else if bool_decide (i = BOTTOM_RIGHT) then Some (right, bottom)
  else None.

Definition teleport_client (cfg : Config) (sg : Settings) (i : Z) (st : State)
    : option State :=
  s ← ws_at st (cw st);
  let c := Workspace.current s in
  if is_null c then Some st else
  cc ← load st c;
  if negb (Client.is_floating cc) || Client.is_transient cc then Some st else
  st ← match teleport_xy cfg sg st (Client.gap cc) (Client.w cc) (Client.h cc)
               (Workspace.bar_height s) i with
       | Some (x, y) =>
           store c (Client.set_geom (u16 x) (u16 y) (Client.w cc) (Client.h cc)) st
       | None => Some st
       end;
  draw_clients st.

(** ** Fullscreen and urgency *)

Definition set_fullscreen (cfg : Config) (c : ptr) (fscr : bool) (st : State)
    : option State :=
  if is_null c then Some st else
  cc ← load st c;
  if bool_decide (fscr = Client.is_fullscreen cc) then Some st else
  st ← store c (Client.set_is_fullscreen fscr) st;
  if fscr then
    st ← change_client_geom c 0 0 (screen_width st) (screen_height st) st;
    draw_clients st
  else
    s ← ws_at st (cw st);
    _ ← load st (Workspace.head s);
    st ← arrange_windows cfg st;
    draw_clients st.

Definition set_urgent (c : ptr) (urg : bool) (st : State) : option State :=
  if is_null c then Some st else
  cc ← load st c;
  if bool_decide (urg = Client.is_urgent cc) then Some st else
  store c (client_set_is_urgent urg) st.

Definition toggle_fullscreen (cfg : Config) (st : State) : option State :=
  s ← ws_at st (cw st);
  if negb (is_null (Workspace.current s)) then
    cc ← load st (Workspace.current s);
    set_fullscreen cfg (Workspace.current s) (negb (Client.is_fullscreen cc)) st
  else Some st.

Definition NET_WM_STATE_REMOVE : Z := 0.
Definition NET_WM_STATE_ADD : Z := 1.
Definition NET_WM_STATE_TOGGLE : Z := 2.

(** The atoms [ewmh_process_wm_state] and [client_message_event] compare
    with. *)
Inductive state_atom := STATE_FULLSCREEN | STATE_DEMANDS_ATTENTION | STATE_OTHER (a : Z).

Definition ewmh_process_wm_state (cfg : Config) (c : ptr) (a : state_atom) (action : Z)
    (st : State) : option State :=
  match a with
  | STATE_FULLSCREEN =>
      if bool_decide (action = NET_WM_STATE_REMOVE) then set_fullscreen cfg c false st
      else if bool_decide (action = NET_WM_STATE_ADD) then set_fullscreen cfg c true st
      else if bool_decide (action = NET_WM_STATE_TOGGLE) then
        cc ← load st c; set_fullscreen cfg c (negb (Client.is_fullscreen cc)) st
      else Some st
  | STATE_DEMANDS_ATTENTION =>
      if bool_decide (action = NET_WM_STATE_REMOVE) then set_urgent c false st
      else if bool_decide (action = NET_WM_STATE_ADD) then set_urgent c true st
      else if bool_decide (action = NET_WM_STATE_TOGGLE) then
        cc ← load st c; set_urgent c (negb (Client.is_urgent cc)) st
      else Some st
  | STATE_OTHER _ => Some st
  end.

(** ** Urgent clients *)

(** [for (c = wss[w].head; c && !c->is_urgent; c = c->next);] *)
Fixpoint urgent_in_list (fuel : nat) (st : State) (c : ptr) : option ptr :=
  match fuel with
  | O => None
  | S k =>
      if is_null c then Some NULL else
      cc ← load st c;
      if Client.is_urgent cc then Some c else urgent_in_list k st (Client.next cc)
  end.

(** The outer loop of [focus_urgent] over the workspaces; it has no exit
    when a client is found. *)
Fixpoint focus_urgent_loop (st : State) (wl : list Z) (c : ptr) : option ptr :=
  match wl with
  | [] => Some c
  | w :: wl' =>
      s ← ws_at st w;
      c' ← urgent_in_list (fuel_of st) st (Workspace.head s);
      focus_urgent_loop st wl' c'
  end.

(** After the loops [w] is [WORKSPACES + 1]; [c] is not initialised when
    there is no workspace. *)
Definition focus_urgent (cfg : Config) (st : State) : option State :=
  c ← match workspace_ids cfg with
      | [] => None
      | wl => focus_urgent_loop st wl NULL
      end;
  if negb (is_null c) then
    st ← change_ws cfg (WORKSPACES cfg + 1) st;
    update_focused_client cfg c st
  else Some st.

(** ** The scratchpad *)

Definition send_to_scratchpad (cfg : Config) (st : State) : option State :=
  s ← ws_at st (cw st);
  let c := Workspace.current s in
  if negb (is_null (scratchpad st)) || is_null c then Some st else
  p ← prev_client st c (cw st);
  st ← (if negb (is_null p) then
          p' ← prev_client st c (cw st);
          cc ← load st c;
          store p' (Client.set_next (Client.next cc)) st
        else Some st);
  s ← ws_at st (cw st);
  st ← (if ptr_eqb c (Workspace.prev_foc s) then
          q ← prev_client st (Workspace.current s) (cw st);
          ws_upd (cw st) (Workspace.set_prev_foc q) st
        else Some st);
  s ← ws_at st (cw st);
  b ← (if ptr_eqb c (Workspace.current s) then Some true
       else hd ← load st (Workspace.head s); Some (is_null (Client.next hd)));
  st ← (if b : bool then
          ws_upd (cw st) (Workspace.set_current
                            (if negb (is_null (Workspace.prev_foc s))
                             then Workspace.prev_foc s else Workspace.head s)) st
        else Some st);
  s ← ws_at st (cw st);
  st ← (if ptr_eqb c (Workspace.head s) then
          cc ← load st c;
          st ← ws_upd (cw st) (Workspace.set_head (Client.next cc)) st;
          ws_upd (cw st) (Workspace.set_current (Client.next cc)) st
        else Some st);
  _ ← load st c;
  st ← ws_upd (cw st) (λ s, Workspace.set_client_cnt (Workspace.client_cnt s - 1) s) st;
  s ← ws_at st (cw st);
  st ← update_focused_client cfg (Workspace.current s) st;
  Some (set_scratchpad c st).

Definition get_from_scratchpad (cfg : Config) (sg : Settings) (st : State) : option State :=
  let sp := scratchpad st in
  if is_null sp then Some st else
  s ← ws_at st (cw st);
  st ← (if is_null (Workspace.head s) then ws_upd (cw st) (Workspace.set_head sp) st
        else
          hd ← load st (Workspace.head s);
          if is_null (Client.next hd) then store (Workspace.head s) (Client.set_next sp) st
          else
            t ← prev_client st (Workspace.head s) (cw st);
            store t (Client.set_next sp) st);
  st ← ws_upd (cw st) (λ s, Workspace.set_current sp
                              (Workspace.set_prev_foc (Workspace.current s) s)) st;
  let st := set_scratchpad NULL st in
  st ← ws_upd (cw st) (λ s, Workspace.set_client_cnt (Workspace.client_cnt s + 1) s) st;
  s ← ws_at st (cw st);
  let c := Workspace.current s in
  st ← store c (Client.set_is_floating true) st;
  st ← store c (λ cc, Client.set_geom (Client.x cc) (Client.y cc)
                        (u16 (SCRATCHPAD_WIDTH sg)) (Client.h cc) cc) st;
  st ← store c (λ cc, Client.set_geom (Client.x cc) (Client.y cc) (Client.w cc)
                        (u16 (SCRATCHPAD_HEIGHT sg)) cc) st;
  st ← store c (λ cc, Client.set_geom
                        (u16 (cdiv (screen_width st) 2 - cdiv (Client.w cc) 2))
                        (Client.y cc) (Client.w cc) (Client.h cc) cc) st;
  s ← ws_at st (cw st);
  st ← store c (λ cc, Client.set_geom (Client.x cc)
                        (u16 (cdiv (screen_height st - Workspace.bar_height s
                                    - Client.h cc) 2))
                        (Client.w cc) (Client.h cc) cc) st;
  _ ← load st c;
  update_focused_client cfg c st.

(** * Vocabulary of the properties *)

(** ** Lists in the heap *)

(** [chain hp p l]: following [next] from [p] visits the clients [l], in this
    order, and then reaches [NULL]. *)
Fixpoint chain (hp : gmap N Client.t) (p : ptr) (l : list ptr) : Prop :=
  match l with
  | [] => p = NULL
  | q :: l' => p = q ∧ p ≠ NULL ∧ ∃ c, hp !! p = Some c ∧ chain hp (Client.next c) l'
  end.

(** The clients of the list that starts at [p], computed. *)
Fixpoint clients_from (fuel : nat) (hp : gmap N Client.t) (p : ptr) : option (list ptr) :=
  match fuel with
  | O => None
  | S k =>
      if is_null p then Some [] else
      c ← hp !! p;
      l ← clients_from k hp (Client.next c);
      Some (p :: l)
  end.

Definition clients_of (st : State) (p : ptr) : option (list ptr) :=
  clients_from (fuel_of st) (heap st) p.

(** Two heaps with the same cells and the same [next] fields. *)
Definition same_links (h1 h2 : gmap N Client.t) : Prop :=
  ∀ p, Client.next <$> h1 !! p = Client.next <$> h2 !! p.

(** ** Well-formed states *)

(** [st'] differs from [st] in the heap only, and the two heaps have the same
    cells and [next] fields: what a layout does. *)
Definition geom_only (st st' : State) : Prop :=
  st' = set_heap (heap st') st ∧ same_links (heap st) (heap st').

(** The list of a workspace ends, its focus pointers are nil or in the list,
    and its layout is one of [enum layouts]. *)
Definition ws_ok (hp : gmap N Client.t) (s : Workspace.t) : Prop :=
  ∃ l, chain hp (Workspace.head s) l
       ∧ (Workspace.current s = NULL ∨ Workspace.current s ∈ l)
       ∧ (Workspace.prev_foc s = NULL ∨ Workspace.prev_foc s ∈ l)
       ∧ 0 ≤ Workspace.layout s < END_LAYOUT.

Definition wf (cfg : Config) (st : State) : Prop :=
  length (wss st) = Z.to_nat (WORKSPACES cfg + 1)
  ∧ 1 ≤ cw st ≤ WORKSPACES cfg
  ∧ ∀ i s, wss st !! i = Some s → ws_ok (heap st) s.

(** The same, computed. *)
Definition ws_okb (st : State) (s : Workspace.t) : bool :=
  match clients_of st (Workspace.head s) with
  | Some l =>
      (is_null (Workspace.current s) || bool_decide (Workspace.current s ∈ l))
      && (is_null (Workspace.prev_foc s) || bool_decide (Workspace.prev_foc s ∈ l))
      && (0 <=? Workspace.layout s)%Z && (Workspace.layout s <? END_LAYOUT)%Z
  | None => false
  end.

Definition wfb (cfg : Config) (st : State) : bool :=
  bool_decide (length (wss st) = Z.to_nat (WORKSPACES cfg + 1))
  && (1 <=? cw st)%Z && (cw st <=? WORKSPACES cfg)%Z
  && forallb (ws_okb st) (wss st).

(** The workspace a cut leaves behind. *)
Definition cut_ws (s : Workspace.t) : Workspace.t :=
  Workspace.set_current NULL (Workspace.set_prev_foc NULL (Workspace.set_head NULL s)).

(** ** What the properties observe *)

(** The number of clients in the list that starts at [p]. *)
Definition list_length (st : State) (p : ptr) : option nat := length <$> clients_of st p.

(** [client_cnt] of workspace [w] is the length of its list. *)
Definition count_agrees (st : State) (w : Z) : Prop :=
  ∃ s n, ws_at st w = Some s ∧ list_length st (Workspace.head s) = Some n
         ∧ Workspace.client_cnt s = Z.of_nat n.

(** What the claims observe of a workspace: the windows of its list, in
    order, and its count. *)
Definition windows_of (st : State) (w : Z) : option (list Z) :=
  s ← ws_at st w;
  l ← clients_of st (Workspace.head s);
  mapM (λ p, Client.win <$> load st p) l.

Definition count_of (st : State) (w : Z) : option Z :=
  Workspace.client_cnt <$> ws_at st w.

(** The rectangle stored in a client: x, y, w, h. *)
Definition rect (st : State) (p : ptr) : option (Z * Z * Z * Z) :=
  (λ c, (Client.x c, Client.y c, Client.w c, Client.h c)) <$> load st p.

(** The claim C8 for one state, client and workspace: nil for the head and
    for an absent client, the client whose [next] is [c] otherwise. *)
Definition prev_client_claim (st : State) (c : ptr) (ws : Z) : Prop :=
  ∀ s l, ws_at st ws = Some s → clients_of st (Workspace.head s) = Some l →
    ((c = Workspace.head s ∨ c ∉ l) → prev_client st c ws = Some NULL)
    ∧ (c ∈ l → c ≠ Workspace.head s →
       ∃ p pc, prev_client st c ws = Some p ∧ load st p = Some pc ∧ Client.next pc = c).

(** A row of [keys] for this keysym and these modifiers runs [replay]. *)
Definition bound_to_replay (km : Keymap) (ke : key_press) : bool :=
  existsb (λ k, bool_decide (ke_keysym ke = Key.sym k)
                && EQUALMODS (Key.mod_ k) (ke_state ke)
                && bool_decide (Key.func k = Some fn_replay)) (keys km).

(** The part of the state the automaton proper works on. *)
Definition fsa_core (f : Fsa) : Z * Z * option op_fn :=
  (cur_state f, cur_cnt f, operator_func f).

(** The keys of a command: operator, optional count digit, motion. *)
Definition command_keys (kop : key_press) (digit : option key_press) (kmo : key_press)
    : list key_press :=
  kop :: option_list digit ++ [kmo].

(** What a command has to do: the operator of the row [o] is called once,
    with the type of the motion row [m] and the digit (1 without a digit), no
    proper prefix of the keys calls an operator, and the automaton ends in the
    operator state with the count at 1. *)
Definition command_runs (km : Keymap) (f : Fsa) (kop : key_press)
    (digit : option key_press) (kmo : key_press) (o : Operator.t) (m : Motion.t) : Prop :=
  (∀ pre, pre `prefix_of` command_keys kop digit kmo →
          pre ≠ command_keys kop digit kmo →
          ∃ f' t, key_presses km pre f = Some (f', t) ∧ operator_calls t = [])
  ∧ ∃ f' t, key_presses km (command_keys kop digit kmo) f = Some (f', t)
            ∧ operator_calls t
              = [(Operator.func o, Motion.type m,
                  match digit with Some kd => ke_keysym kd - XK_0 | None => 1 end)]
            ∧ cur_state f' = OPERATOR_STATE ∧ cur_cnt f' = 1.

(** What the specification says of commands, for any key map: from the
    operator state with the count at 1, whenever the first key matches a row
    of [operators] in the current mode, the digit (if there is one) is a
    count key and the last key matches a row of [motions], the command
    runs. *)
Definition command_claim (km : Keymap) (f : Fsa) (kop : key_press)
    (digit : option key_press) (kmo : key_press) : Prop :=
  cur_state f = OPERATOR_STATE →
  cur_cnt f = 1 →
  ∀ o m,
    find (operator_matches kop (cur_mode f)) (operators km) = Some o →
    (∀ kd, digit = Some kd → is_count_key km kd = true) →
    m ∈ motions km → motion_matches kmo m = true →
    command_runs km f kop digit kmo o m.

(** ** A configuration, a key map and the states of the scenarios *)

(** The [float] 0.5. *)
Definition one_half : float := S754_finite false 8388608 (-24).

(** Five workspaces, a register of five lists, the bar at the top. *)
Definition cfg_example : Config :=
  {| WORKSPACES := 5; DELETE_REGISTER_SIZE := 5; BAR_BOTTOM := false;
     CENTER_FLOATING := true; FLOAT_SPAWN_WIDTH := 500; FLOAT_SPAWN_HEIGHT := 500;
     rules := [] |}.

Definition ws_example : Workspace.t :=
  Workspace.mk VSTACK 0 0 one_half 20 NULL NULL NULL.

(** The state after [setup] on a 1920x1080 screen whose root window is
    0x12d: no client, workspace 1 current, the other globals zero. *)
Definition st_start : State :=
  {| heap := ∅; wss := replicate 6 ws_example; cw := 1; last_ws := 0;
     scratchpad := NULL; del_reg := Stack.mk 0 ∅;
     screen_width := 1920; screen_height := 1080; root := 301 |}.

(** A map request for an ordinary window: no type, not transient. *)
Definition plain_window (w : Z) : map_request :=
  {| me_window := w; me_wa := Some false; me_type := None; me_transient := 0;
     me_geom := Some (0, 0, 800, 600); me_class := None |}.

(** A map request for a window of type DOCK. *)
Definition dock_window (w : Z) : map_request :=
  {| me_window := w; me_wa := Some false; me_type := Some [TYPE_DOCK]; me_transient := 0;
     me_geom := Some (0, 0, 1920, 20); me_class := None |}.

Definition NUL : string := String (Ascii.ascii_of_nat 0) EmptyString.

(** Mod4. *)
Definition MODKEY : Z := 64.

(** A key map in the shape of [config.h]: Mod4 for every binding, [q] and
    [x] as operators, [c] and [w] as motions, [.] bound to [replay]. *)
Definition km_example : Keymap :=
  {| operators := [Operator.mk MODKEY 113 0 fn_op_kill; Operator.mk MODKEY 120 0 fn_op_cut];
     motions := [Motion.mk MODKEY 99 CLIENT; Motion.mk MODKEY 119 WORKSPACE];
     keys := [Key.mk MODKEY 0 46 (Some fn_replay) Arg_NULL;
              Key.mk MODKEY 0 112 (Some fn_paste) Arg_NULL;
              Key.mk MODKEY 0 102 (Some fn_change_mode) (Arg_i 1)];
     COUNT_MOD := MODKEY |}.

(** [km_example] with the key [c] in two rows of [motions]. *)
Definition km_two_rows : Keymap :=
  {| operators := operators km_example;
     motions := [Motion.mk MODKEY 99 CLIENT; Motion.mk MODKEY 99 WORKSPACE];
     keys := keys km_example;
     COUNT_MOD := MODKEY |}.

(** [km_example] with the key [1] as the motion for clients. *)
Definition km_digit_motion : Keymap :=
  {| operators := operators km_example;
     motions := [Motion.mk MODKEY 49 CLIENT; Motion.mk MODKEY 119 WORKSPACE];
     keys := keys km_example;
     COUNT_MOD := MODKEY |}.

(** [km_example] with the key [c] bound to [replay] as well. *)
Definition km_replay_motion : Keymap :=
  {| operators := operators km_example;
     motions := motions km_example;
     keys := Key.mk MODKEY 0 99 (Some fn_replay) Arg_NULL :: keys km_example;
     COUNT_MOD := MODKEY |}.

(** A key pressed with Mod4. *)
Definition mod4_key (sym : Z) : key_press := {| ke_keysym := sym; ke_state := MODKEY |}.

(** The operator calls of a sequence of key presses and the state it ends in. *)
Definition calls_and_state (km : Keymap) (kes : list key_press) (f : Fsa)
    : option (list (op_fn * Z * Z) * Z) :=
  r ← key_presses km kes f;
  Some (operator_calls r.2, cur_state r.1).

(** The automaton at startup. *)
Definition fsa_start : Fsa :=
  {| cur_mode := 0; cur_state := OPERATOR_STATE; cur_cnt := 1; operator_func := None;
     rep_state := {| last_op := None; last_cmd := None; last_arg := Arg_NULL;
                     last_type := 0; last_cnt := 0 |} |}.

(** Workspace 2 holds the windows 11 and 12, workspace 1 holds the window 10
    and is current. *)
Definition st_two_workspaces : option State :=
  st ← change_ws cfg_example 2 st_start;
  st ← map_event cfg_example (plain_window 11) st;
  st ← map_event cfg_example (plain_window 12) st;
  st ← change_ws cfg_example 1 st;
  map_event cfg_example (plain_window 10) st.

(** Workspace 1 holds the windows 10 and 11, at the addresses 1 and 2. *)
Definition st_two_clients : option State :=
  st ← map_event cfg_example (plain_window 10) st_start;
  map_event cfg_example (plain_window 11) st.

(** The scenario of the specification: workspaces 1 and 2 hold two clients
    each. *)
Definition st_two_by_two : option State :=
  st ← map_event cfg_example (plain_window 10) st_start;
  st ← map_event cfg_example (plain_window 11) st;
  st ← change_ws cfg_example 2 st;
  st ← map_event cfg_example (plain_window 12) st;
  st ← map_event cfg_example (plain_window 13) st;
  change_ws cfg_example 1 st.

(** The windows 10, 11 and 12 mapped on workspace 1 of the start state. *)
Definition st_three_clients : option State :=
  st ← map_event cfg_example (plain_window 10) st_start;
  st ← map_event cfg_example (plain_window 11) st;
  map_event cfg_example (plain_window 12) st.

(** ** The delete register as a list *)

(** The first [n] cells of the register, the bottom of the stack first. *)
Fixpoint items_upto (n : nat) (m : gmap Z ptr) : option (list ptr) :=
  match n with
  | O => Some []
  | S k =>
      l ← items_upto k m;
      c ← m !! Z.of_nat (S k);
      Some (l ++ [c])
  end.

Definition stack_items (s : Stack.t) : option (list ptr) :=
  if (0 <=? Stack.size s)%Z then items_upto (Z.to_nat (Stack.size s)) (Stack.contents s)
  else None.

(** ** The focus pointers *)

(** The workspace [update_focused_client] leaves when it is called for the
    client [c] of a workspace [s] with clients; [p] is the client before
    [prev_foc]. *)
Definition focus_ws (p c : ptr) (s : Workspace.t) : Workspace.t :=
  if ptr_eqb c (Workspace.prev_foc s) then
    Workspace.set_prev_foc p (Workspace.set_current (Workspace.prev_foc s) s)
  else if negb (ptr_eqb c (Workspace.current s)) then
    Workspace.set_current c (Workspace.set_prev_foc (Workspace.current s) s)
  else s.

(** The layout of the current workspace. *)
Definition layout_of (st : State) : option Z := Workspace.layout <$> ws_at st (cw st).

(** The bar height of the current workspace. *)
Definition bar_height_of (st : State) : option Z :=
  Workspace.bar_height <$> ws_at st (cw st).

(** Two workspaces that differ in their focus pointers at most. *)
Definition same_but_focus (s s' : Workspace.t) : Prop :=
  Workspace.layout s' = Workspace.layout s
  ∧ Workspace.client_cnt s' = Workspace.client_cnt s
  ∧ Workspace.gap s' = Workspace.gap s
  ∧ Workspace.master_ratio s' = Workspace.master_ratio s
  ∧ Workspace.bar_height s' = Workspace.bar_height s
  ∧ Workspace.head s' = Workspace.head s.

(** ** Gaps *)

Definition gap_of (st : State) (c : ptr) : option Z := Client.gap <$> load st c.

Definition ws_gap_of (st : State) (w : Z) : option Z := Workspace.gap <$> ws_at st w.

(** The client [change_client_gaps] leaves. *)
Definition gap_step (size : Z) (cc : Client.t) : Client.t :=
  if Client.is_fullscreen cc then cc
  else Client.set_gap (if (Client.gap cc + size <=? 0)%Z then 0
                       else u16 (Client.gap cc + size)) cc.

(** ** Messages on the socket *)

(** A string without the NUL character. *)
Fixpoint no_nul (s : string) : bool :=
  match s with
  | EmptyString => true
  | String c s' => negb (bool_decide (char_code c = 0)) && no_nul s'
  end.

(** The message that carries the arguments [args]: each one is followed by
    a NUL. *)
Definition join_args (args : list string) : string :=
  foldr (λ a m, a +:+ NUL +:+ m) EmptyString args.

(** A number from 0 to 99 in decimal. *)
Definition digit_char (d : Z) : Ascii.ascii := Ascii.ascii_of_N (Z.to_N (ch_0 + d)).

Definition decimal (n : Z) : string :=
  if (n <? 10)%Z then String (digit_char n) EmptyString
  else String (digit_char (n / 10)) (String (digit_char (n mod 10)) EmptyString).

(** The rows of [commands] for functions that take an integer, no
    argument, and for operators. *)
Definition int_row (c : Command.t) : bool :=
  bool_decide (Command.argc c = 1) && bool_decide (Command.arg_type c = TYPE_INT).

Definition plain_row (c : Command.t) : bool := bool_decide (Command.argc c = 0).

Definition operator_row (c : Command.t) : bool := bool_decide (Command.argc c = 2).

(** An argument that starts with the character of code [ch]. *)
Definition starting_with (ch : Z) (m : string) : string :=
  String (Ascii.ascii_of_N (Z.to_N ch)) m.

(** Settings in the shape of [config.h]: a bar of 20 pixels, borders of 2,
    gaps changed by 4, the scratchpad 500 by 300. *)
Definition sg_example : Settings :=
  {| BAR_HEIGHT := 20; BORDER_PX := 2; OP_GAP_SIZE := 4; SCRATCHPAD_WIDTH := 500;
     SCRATCHPAD_HEIGHT := 300; FOLLOW_MOVE := true; FOCUS_MOUSE := true;
     FOCUS_MOUSE_CLICK := true |}.

(** ** Managed windows *)

(** The client [c] is in the list of workspace [w]. *)
Definition owns (st : State) (w : Z) (c : ptr) : Prop :=
  ∃ s l, ws_at st w = Some s ∧ chain (heap st) (Workspace.head s) l ∧ c ∈ l.

(** A client of one of the workspaces 1 to [WORKSPACES] has the window. *)
Definition managed (cfg : Config) (st : State) (win : Z) : Prop :=
  ∃ w c, 1 ≤ w ≤ WORKSPACES cfg ∧ owns st w c ∧ (Client.win <$> load st c) = Some win.

(** ** The focus in the order of the list *)

Definition current_of (st : State) : option ptr :=
  Workspace.current <$> ws_at st (cw st).

Definition prev_foc_of (st : State) : option ptr :=
  Workspace.prev_foc <$> ws_at st (cw st).

(** The clients of the current workspace, in the order of its list. *)
Definition clients_cw (st : State) : option (list ptr) :=
  s ← ws_at st (cw st); clients_of st (Workspace.head s).

(** The client after and before the one at index [i], around the ends of
    the list. *)
Definition cyc_next (l : list ptr) (i : nat) : option ptr :=
  l !! ((i + 1) mod length l)%nat.

Definition cyc_prev (l : list ptr) (i : nat) : option ptr :=
  l !! ((i + length l - 1) mod length l)%nat.

(** Every cell keeps its window. *)
Definition same_wins (h1 h2 : gmap N Client.t) : Prop :=
  ∀ q, Client.win <$> h1 !! q = Client.win <$> h2 !! q.

(** The list [l1 ++ c :: l2] after [c] has changed places with the client
    behind it; the last client goes to the front. *)
Definition moved_down (l1 : list ptr) (c : ptr) (l2 : list ptr) : list ptr :=
  match l2 with
  | n :: l2' => l1 ++ n :: c :: l2'
  | [] => c :: l1
  end.

(** The list [l1 ++ c :: l2] after [c] has changed places with the client
    before it; the head goes to the end. *)
Definition moved_up (l1 : list ptr) (c : ptr) (l2 : list ptr) : list ptr :=
  match last l1 with
  | Some p => removelast l1 ++ c :: p :: l2
  | None => l2 ++ [c]
  end.

(** What a layout may do to the heap: a cell is as it was, or it is a client
    of the list [l] that is neither transient nor floating nor fullscreen and
    has got a new geometry. *)
Definition retiled (l : list ptr) (h1 h2 : gmap N Client.t) : Prop :=
  ∀ q, h2 !! q = h1 !! q
       ∨ (q ∈ l ∧ ∃ c x y w h, h1 !! q = Some c ∧ FFT c = false
                               ∧ h2 !! q = Some (Client.set_geom x y w h c)).

(** Every client of [L] has its successor in [L]: a walk along [next] that
    enters [L] never reaches nil. *)
Definition cyclic (hp : gmap N Client.t) (L : list ptr) : Prop :=
  ∀ q, q ∈ L → q ≠ NULL ∧ ∃ qc, hp !! q = Some qc ∧ Client.next qc ∈ L.

(** The client at [q] has [is_urgent] set. *)
Definition urgent (st : State) (q : ptr) : bool :=
  match load st q with
  | Some c => Client.is_urgent c
  | None => false
  end.

(** Window 10 on workspace 1, the urgent window 11 on workspace 5, and
    workspace 1 current. *)
Definition st_urgent_last : option State :=
  st ← map_event cfg_example (plain_window 10) st_start;
  st ← change_ws cfg_example 5 st;
  st ← map_event cfg_example (plain_window 11) st;
  st ← change_ws cfg_example 1 st;
  set_urgent 2%N true st.

(** The record [get_from_scratchpad] leaves for the client it brings back:
    floating, of the size of the scratchpad, in the middle of the screen
    above a bar of height [bh]. *)
Definition scratchpad_cell (sg : Settings) (st : State) (bh : Z) (c : Client.t) : Client.t :=
  Client.set_geom
    (u16 (cdiv (screen_width st) 2 - cdiv (u16 (SCRATCHPAD_WIDTH sg)) 2))
    (u16 (cdiv (screen_height st - bh - u16 (SCRATCHPAD_HEIGHT sg)) 2))
    (u16 (SCRATCHPAD_WIDTH sg)) (u16 (SCRATCHPAD_HEIGHT sg))
    (Client.set_is_floating true c).

(** [st2] differs from [st1] in the record of the client [c] at most, which
    keeps its successor and its window. *)
Definition only_cell (c : ptr) (st1 st2 : State) : Prop :=
  st2 = set_heap (heap st2) st1
  ∧ (∀ q, q ≠ c → heap st2 !! q = heap st1 !! q)
  ∧ ∃ c1 c2, heap st1 !! c = Some c1 ∧ heap st2 !! c = Some c2
             ∧ Client.next c2 = Client.next c1 ∧ Client.win c2 = Client.win c1.

(** A map request that takes the whole path through [map_event]: the window
    has attributes and no [override_redirect], and none of its type atoms is
    DOCK or TOOLBAR. *)
Definition ordinary (me : map_request) : Prop :=
  me_wa me = Some false
  ∧ ∀ atoms, me_type me = Some atoms → existsb dock_type atoms = false.

(** No row of [rules] applies to the window: the WM_CLASS reply is missing,
    or the class of no row occurs in the instance name or in the class
    name. *)
Definition no_rule (cfg : Config) (me : map_request) : bool :=
  match me_class me with
  | Some (instance_name, class_name) =>
      forallb (λ r, negb (strstr instance_name (Rule.class r)
                          || strstr class_name (Rule.class r))) (rules cfg)
  | None => true
  end.

(** [cfg_example] with two rules: [mpv] goes to workspace 3 in fullscreen,
    [Gimp] floats on the current workspace. *)
Definition cfg_rules : Config :=
  {| WORKSPACES := 5; DELETE_REGISTER_SIZE := 5; BAR_BOTTOM := false;
     CENTER_FLOATING := true; FLOAT_SPAWN_WIDTH := 500; FLOAT_SPAWN_HEIGHT := 500;
     rules := [Rule.mk "mpv" 3 false false true; Rule.mk "Gimp" 0 false true false] |}.

(** A map request for a terminal: no type, not transient, WM_CLASS
    [xterm], [XTerm]. *)
Definition xterm_window (w : Z) : map_request :=
  {| me_window := w; me_wa := Some false; me_type := None; me_transient := 0;
     me_geom := Some (0, 0, 800, 600); me_class := Some ("xterm", "XTerm") |}.

(** No client is in the lists of two workspaces. *)
Definition disjoint_lists (st : State) (s1 s2 : Workspace.t) : bool :=
  match clients_of st (Workspace.head s1), clients_of st (Workspace.head s2) with
  | Some l1, Some l2 => forallb (λ q, negb (bool_decide (q ∈ l2))) l1
  | _, _ => true
  end.

Definition lists_apart (st : State) : bool :=
  forallb (λ i,
    forallb (λ j,
      bool_decide (i = j)
      || match wss st !! i, wss st !! j with
         | Some si, Some sj => disjoint_lists st si sj
         | _, _ => true
         end) (seq 0 (length (wss st)))) (seq 0 (length (wss st))).

(** * Properties *)

(** Closed goals about the scenarios are settled by evaluation. *)
Ltac run := vm_compute; reflexivity.
Ltac run_all :=
  repeat match goal with
         | |- _ ∧ _ => split
         end; run.

(** ** Lists in the heap *)

Lemma is_null_true p : is_null p = true ↔ p = NULL.
Proof. unfold is_null. apply bool_decide_eq_true. Qed.

Lemma is_null_false p : is_null p = false ↔ p ≠ NULL.
Proof. unfold is_null. apply bool_decide_eq_false. Qed.

Lemma ptr_eqb_true p q : ptr_eqb p q = true ↔ p = q.
Proof. unfold ptr_eqb. apply bool_decide_eq_true. Qed.

Lemma ptr_eqb_false p q : ptr_eqb p q = false ↔ p ≠ q.
Proof. unfold ptr_eqb. apply bool_decide_eq_false. Qed.

Lemma chain_det hp p l1 l2 : chain hp p l1 → chain hp p l2 → l1 = l2.
Proof.
  revert p l2. induction l1 as [|q l1 IH]; intros p [|q2 l2]; simpl.
  - done.
  - intros -> (_ & Hn & _). done.
  - intros (_ & Hn & _) ->. done.
  - intros (<- & _ & c & Hc & H1) (<- & _ & c2 & Hc2 & H2).
    rewrite Hc in Hc2. injection Hc2 as <-. f_equal. eauto.
Qed.

Lemma chain_split hp p l q :
  chain hp p l → q ∈ l → ∃ l1 l2, l = l1 ++ q :: l2 ∧ chain hp q (q :: l2).
Proof.
  revert p. induction l as [|r l IH]; intros p Hc Hq.
  - by apply elem_of_nil in Hq.
  - destruct Hc as (<- & Hn & c & Hc & Hrest).
    apply elem_of_cons in Hq as [->|Hq].
    + exists [], l. split; [done|]. simpl. eauto.
    + destruct (IH _ Hrest Hq) as (l1 & l2 & -> & H2).
      exists (p :: l1), l2. done.
Qed.

Lemma chain_NoDup hp p l : chain hp p l → NoDup l.
Proof.
  revert p. induction l as [|q l IH]; intros p Hc; [constructor|].
  pose proof Hc as (<- & Hn & c & Hl & Hrest).
  constructor; [|eauto].
  intros Hin. destruct (chain_split _ _ _ _ Hrest Hin) as (l1 & l2 & -> & H2).
  pose proof (chain_det _ _ _ _ Hc H2) as Heq.
  apply (f_equal length) in Heq. simpl in Heq. rewrite length_app in Heq.
  simpl in Heq. lia.
Qed.

Lemma chain_elem hp p l q : chain hp p l → q ∈ l → q ≠ NULL ∧ is_Some (hp !! q).
Proof.
  intros Hc Hq. destruct (chain_split _ _ _ _ Hc Hq) as (l1 & l2 & -> & H2).
  destruct H2 as (_ & Hn & c & Hl & _). eauto.
Qed.

Lemma chain_length hp p l : chain hp p l → (length l ≤ size hp)%nat.
Proof.
  intros Hc. pose proof (chain_NoDup _ _ _ Hc) as Hnd.
  rewrite <- (size_list_to_set (C := gset N) l Hnd), <- size_dom.
  apply subseteq_size. intros q Hq. apply elem_of_list_to_set in Hq.
  apply elem_of_dom. by apply (chain_elem _ _ _ _ Hc).
Qed.

Lemma chain_same_links h1 h2 p l : same_links h1 h2 → chain h1 p l → chain h2 p l.
Proof.
  intros Hs. revert p. induction l as [|q l IH]; intros p; simpl; [done|].
  intros (<- & Hn & c & Hl & Hrest). split; [done|]. split; [done|].
  pose proof (Hs p) as Hp. rewrite Hl in Hp. simpl in Hp.
  destruct (h2 !! p) as [c2|] eqn:E2; simpl in Hp; [|done].
  injection Hp as Hp. exists c2. split; [done|]. rewrite <- Hp. eauto.
Qed.

Lemma same_links_refl hp : same_links hp hp.
Proof. done. Qed.

Lemma same_links_trans h1 h2 h3 : same_links h1 h2 → same_links h2 h3 → same_links h1 h3.
Proof. intros H1 H2 p. by rewrite H1. Qed.

Lemma same_links_sym h1 h2 : same_links h1 h2 → same_links h2 h1.
Proof. intros H p. by rewrite H. Qed.

Lemma same_links_dom h1 h2 : same_links h1 h2 → dom h1 = dom h2.
Proof.
  intros Hs. apply set_eq. intros p. rewrite !elem_of_dom.
  pose proof (Hs p) as Hp.
  destruct (h1 !! p), (h2 !! p); simpl in Hp; try done; split; intros [? ?]; done.
Qed.

Lemma same_links_size h1 h2 : same_links h1 h2 → size h1 = size h2.
Proof. intros Hs. by rewrite <- !size_dom, (same_links_dom _ _ Hs). Qed.

Lemma same_links_insert hp p c f :
  hp !! p = Some c → Client.next (f c) = Client.next c → same_links hp (<[p := f c]> hp).
Proof.
  intros Hl Hf q. destruct (decide (p = q)) as [<-|Hne].
  - rewrite lookup_insert_eq, Hl. simpl. by rewrite Hf.
  - by rewrite lookup_insert_ne.
Qed.

Lemma clients_from_chain fuel hp p l : clients_from fuel hp p = Some l → chain hp p l.
Proof.
  revert p l. induction fuel as [|k IH]; intros p l; simpl; [done|].
  destruct (is_null p) eqn:En.
  - intros [= <-]. by apply is_null_true.
  - apply is_null_false in En.
    destruct (hp !! p) as [c|] eqn:Hl; simpl; [|done].
    destruct (clients_from k hp (Client.next c)) as [l'|] eqn:Hr; simpl; [|done].
    intros [= <-]. simpl. split; [done|]. split; [done|]. eauto.
Qed.

Lemma chain_clients_from fuel hp p l :
  chain hp p l → (length l < fuel)%nat → clients_from fuel hp p = Some l.
Proof.
  revert p l. induction fuel as [|k IH]; intros p l Hc Hlen; [lia|].
  simpl. destruct l as [|q l]; simpl in Hc.
  - subst p. done.
  - destruct Hc as (<- & Hn & c & Hl & Hrest).
    apply is_null_false in Hn. rewrite Hn, Hl. simpl.
    rewrite (IH _ l Hrest); [done|]. simpl in Hlen. lia.
Qed.

Lemma clients_of_chain st p l : clients_of st p = Some l ↔ chain (heap st) p l.
Proof.
  split; [apply clients_from_chain|].
  intros Hc. apply chain_clients_from; [done|].
  unfold fuel_of. pose proof (chain_length _ _ _ Hc). lia.
Qed.

(** ** Unmap notifications *)

(** C6: the guard [!ue->event == screen->root] compares 0 or 1 with the root
    window.  When the root is neither, [unmap_event] removes nothing,
    whatever the event window is. *)
Theorem unmap_event_removes_nothing cfg ue st c :
  root st ≠ 0 → root st ≠ 1 →
  find_client_by_win cfg st (ue_window ue) = Some c →
  unmap_event cfg ue st = Some st.
Proof.
  intros H0 H1 Hf. unfold unmap_event. rewrite Hf. simpl.
  destruct (is_null c); [done|].
  rewrite bool_decide_eq_false_2; [done|].
  unfold lnot_int. case_bool_decide; congruence.
Qed.

(** The window 10 is managed and the event window is the window itself, not
    the root: the client stays in its list. *)
Lemma unmap_event_removes_nothing_witness :
  ∃ st1,
    map_event cfg_example (plain_window 10) st_start = Some st1
    ∧ unmap_event cfg_example {| ue_event := 10; ue_window := 10 |} st1 = Some st1
    ∧ windows_of st1 1 = Some [10].
Proof.
  eexists. split; [run|].
  split.
  - apply (unmap_event_removes_nothing _ _ _ 1%N); [vm_compute; discriminate ..|].
    vm_compute; reflexivity.
  - vm_compute; reflexivity.
Defined.

(** The handler for destroy notifications, which has no guard, removes the
    client. *)
Lemma destroy_event_removes :
  (st ← map_event cfg_example (plain_window 10) st_start;
   st ← destroy_event cfg_example 10 st;
   windows_of st 1) = Some [].
Proof. vm_compute. reflexivity. Qed.

(** ** Integer arguments of socket commands *)

(** C9: [ipc_arg_to_int] never reports [IPC_ERR_ARG_NOT_INT]: it leaves the
    status as it is or sets it to [IPC_ERR_ARG_TOO_LARGE].  For the argument
    ["a"] the status is [IPC_ERR_ARG_TOO_LARGE], and it is the reply to the
    command [change_ws a]. *)
Theorem ipc_arg_to_int_reports_too_large :
  (∀ arg err,
     (ipc_arg_to_int arg err).2 = err ∨ (ipc_arg_to_int arg err).2 = IPC_ERR_ARG_TOO_LARGE)
  ∧ ipc_arg_to_int "a" IPC_ERR_NONE = (0, IPC_ERR_ARG_TOO_LARGE)
  ∧ ipc_process_cmd ("change_ws" +:+ NUL +:+ "a" +:+ NUL)
    = Some (IPC_ERR_ARG_TOO_LARGE, [Call_cmd fn_change_ws (Arg_i 0)]).
Proof.
  split; [|split; run].
  intros arg err. unfold ipc_arg_to_int.
  set (a := if bool_decide (char_at arg 0 = ch_minus) then str_tail arg else arg).
  set (c0 := char_at a 0). set (c1 := char_at a 1).
  destruct (bool_decide (strlen a = 1) && (ch_0 <? c0)%Z && (c0 <=? ch_9)%Z) eqn:E1.
  { apply andb_true_iff in E1 as [[_ H1]%andb_true_iff H2].
    apply Z.ltb_lt in H1. rewrite H2, (proj2 (Z.leb_le ch_0 c0)) by lia.
    simpl. by left. }
  destruct (bool_decide (strlen a = 2) && (ch_0 <? c0)%Z && (c0 <=? ch_9)%Z
            && (ch_0 <=? c1)%Z && (c1 <=? ch_9)%Z) eqn:E2.
  { apply andb_true_iff in E2 as [[[[_ H1]%andb_true_iff H2]%andb_true_iff H3]%andb_true_iff H4].
    rewrite H1, H2, H3, H4. simpl. by left. }
  simpl. by right.
Qed.

(** ** Paste with an empty register *)

(** C10: when the delete register is empty, [paste] returns and the state is
    the one before the call: the lists, counts and focus pointers of all
    workspaces and the register itself. *)
Theorem paste_empty_register cfg st :
  Stack.size (del_reg st) = 0 → paste cfg st = Some st.
Proof.
  intros Hs. unfold paste, stack_pop. rewrite bool_decide_eq_true_2 by done.
  simpl. by destruct st.
Qed.

Lemma paste_empty_register_witness :
  Stack.size (del_reg st_start) = 0 ∧ paste cfg_example st_start = Some st_start.
Proof.
  split; [reflexivity|]. apply (paste_empty_register cfg_example st_start). reflexivity.
Defined.

(** ** The predecessor of a client *)

Lemma prev_client_loop_absent fuel st c p rest :
  chain (heap st) p (p :: rest) → (length rest < fuel)%nat → c ∉ rest →
  prev_client_loop fuel st c p = last (p :: rest).
Proof.
  revert p fuel. induction rest as [|q rest IH]; intros p fuel Hc Hlen Hnin.
  - destruct fuel as [|k]; [simpl in Hlen; lia|].
    destruct Hc as (_ & _ & pc & Hl & Hnext). simpl in Hnext.
    simpl. unfold load. rewrite Hl. simpl. rewrite Hnext. done.
  - destruct fuel as [|k]; [simpl in Hlen; lia|].
    destruct Hc as (_ & _ & pc & Hl & Hrest).
    pose proof Hrest as (Hq & Hqn & _).
    simpl. unfold load. rewrite Hl. simpl.
    apply not_elem_of_cons in Hnin as [Hne Hnin].
    rewrite (proj2 (is_null_false _)) by congruence.
    rewrite (proj2 (ptr_eqb_false _ _)) by congruence.
    simpl. rewrite Hq. rewrite Hq in Hrest.
    rewrite (IH q k Hrest); [done| simpl in Hlen; lia | done].
Qed.

Lemma prev_client_loop_present fuel st c p rest :
  chain (heap st) p (p :: rest) → (length rest < fuel)%nat → c ∈ rest →
  ∃ r rc, prev_client_loop fuel st c p = Some r ∧ load st r = Some rc
          ∧ Client.next rc = c ∧ r ∈ p :: rest.
Proof.
  revert p fuel. induction rest as [|q rest IH]; intros p fuel Hc Hlen Hin.
  - by apply elem_of_nil in Hin.
  - destruct fuel as [|k]; [simpl in Hlen; lia|].
    destruct Hc as (_ & _ & pc & Hl & Hrest).
    pose proof Hrest as (Hq & Hqn & _).
    simpl. unfold load at 1. rewrite Hl. simpl.
    rewrite (proj2 (is_null_false _)) by congruence.
    destruct (ptr_eqb (Client.next pc) c) eqn:Eq; simpl.
    + apply ptr_eqb_true in Eq. exists p, pc. repeat split; try done.
      apply elem_of_cons. by left.
    + apply ptr_eqb_false in Eq.
      apply elem_of_cons in Hin as [Hin|Hin]; [congruence|].
      rewrite Hq. rewrite Hq in Hrest.
      destruct (IH q k Hrest) as (r & rc & H1 & H2 & H3 & H4);
        [simpl in Hlen; lia | done |].
      exists r, rc. repeat split; try done. apply elem_of_cons. by right.
Qed.

(** C8 fails for the head of a list of two clients: [prev_client] returns
    the last client of the list, here the client at address 2. *)
Lemma prev_client_head_counterexample :
  ∃ st, st_two_clients = Some st
        ∧ (Workspace.head <$> ws_at st 1) = Some 1%N
        ∧ clients_of st 1%N = Some [1%N; 2%N]
        ∧ prev_client st 1%N 1 = Some 2%N
        ∧ ¬ prev_client_claim st 1%N 1.
Proof.
  eexists. split; [run|]. split; [run|]. split; [run|]. split; [run|].
  intros Hclaim.
  edestruct Hclaim as [Hhead _]; [run | run |].
  assert (Some 2%N = Some NULL) as Habs; [|discriminate].
  rewrite <- Hhead; [run|]. left. run.
Qed.

(** C8 as the code has it: [prev_client(c, ws)] returns nil when [c] is nil
    or the list of [ws] has fewer than two clients; for a list of two or more
    clients it returns the client whose [next] is [c] when [c] is in the list
    and is not its head, and the last client of the list when [c] is the head
    or is not in the list. *)
Theorem prev_client_spec st c ws s l :
  ws_at st ws = Some s →
  clients_of st (Workspace.head s) = Some l →
  ∃ p, prev_client st c ws = Some p
       ∧ ((c = NULL ∨ length l < 2)%nat → p = NULL)
       ∧ (c ≠ NULL → (2 ≤ length l)%nat → c ∈ l → c ≠ Workspace.head s →
          p ∈ l ∧ ∃ pc, load st p = Some pc ∧ Client.next pc = c)
       ∧ (c ≠ NULL → (2 ≤ length l)%nat → (c = Workspace.head s ∨ c ∉ l) →
          last l = Some p).
Proof.
  intros Hws Hl. pose proof (proj1 (clients_of_chain _ _ _) Hl) as Hc.
  pose proof (chain_length _ _ _ Hc) as Hlen.
  pose proof (chain_NoDup _ _ _ Hc) as Hnd.
  unfold prev_client. set (loop := prev_client_loop (fuel_of st)).
  rewrite Hws. simpl.
  destruct (is_null c) eqn:Ec.
  { apply is_null_true in Ec. exists NULL. split; [done|]. split; [done|].
    split; intros; congruence. }
  apply is_null_false in Ec.
  destruct l as [|a [|b rest]].
  - simpl in Hc. rewrite Hc. simpl. exists NULL. split; [done|]. split; [done|].
    split; simpl; intros; lia.
  - destruct Hc as (Ha & Han & ac & Hla & Hnext). simpl in Hnext.
    rewrite (proj2 (is_null_false _) Han). unfold load. rewrite Hla. simpl.
    rewrite Hnext. simpl. exists NULL. split; [done|]. split; [done|].
    split; simpl; intros; lia.
  - pose proof Hc as (Ha & Han & ac & Hla & Hrest).
    pose proof Hrest as (Hb & Hbn & _).
    rewrite (proj2 (is_null_false _) Han). unfold load. rewrite Hla. simpl.
    rewrite (proj2 (is_null_false _)) by congruence.
    rewrite Ha in Hc |- *. subst loop.
    assert (length (b :: rest) < fuel_of st)%nat as Hfuel
      by (unfold fuel_of; simpl in *; lia).
    destruct (decide (c ∈ b :: rest)) as [Hin|Hnin].
    + destruct (prev_client_loop_present _ _ c _ _ Hc Hfuel Hin)
        as (r & rc & H1 & H2 & H3 & H4).
      exists r. split; [done|].
      split; [intros [?|?]; [done | simpl in *; lia]|].
      split; [intros _ _ _ _; split; [exact H4 | exists rc; split; [exact H2 | exact H3]]|].
      intros _ _ [Hh|Hh].
      * exfalso. apply NoDup_cons in Hnd as [Hnd _]. apply Hnd. by rewrite <- Hh.
      * exfalso. apply Hh. apply elem_of_cons. by right.
    + rewrite (prev_client_loop_absent _ _ c _ _ Hc Hfuel Hnin).
      assert (is_Some (last (a :: b :: rest))) as [p Hp].
      { apply last_is_Some. done. }
      exists p. split; [done|].
      split; [intros [?|?]; [done | simpl in *; lia]|].
      split; [|done].
      intros _ _ Hin Hne. apply elem_of_cons in Hin as [Hin|Hin]; [congruence|done].
Qed.

Lemma prev_client_spec_witness :
  ∃ st, st_two_clients = Some st
        ∧ ∃ p, prev_client st 1%N 1 = Some p ∧ last [1%N; 2%N] = Some p.
Proof.
  eexists. split; [run|].
  match goal with
  | |- ∃ p, prev_client ?st _ _ = _ ∧ _ =>
      let s := eval vm_compute in (default ws_example (ws_at st 1)) in
      destruct (prev_client_spec st 1%N 1 s [1%N; 2%N]) as (p & Hp & _ & _ & Hlast);
        [run | run |]
  end.
  exists p. split; [exact Hp|]. apply Hlast; [done | simpl; lia | left; run].
Defined.

(** ** The input automaton *)

Lemma run_plain_cmd_core c a f :
  fsa_core (run_plain_cmd c a f).1 = fsa_core f
  ∧ operator_calls (run_plain_cmd c a f).2 = [].
Proof.
  destruct c; simpl; try done.
  unfold change_mode. by destruct (_ || _).
Qed.

Lemma operator_calls_app t1 t2 :
  operator_calls (t1 ++ t2) = operator_calls t1 ++ operator_calls t2.
Proof. unfold operator_calls. apply omap_app. Qed.

Lemma operator_calls_cons_op f ty n t :
  operator_calls (Call_op f ty n :: t) = (f, ty, n) :: operator_calls t.
Proof. done. Qed.

(** The direct bindings leave the automaton alone, and call no operator
    unless one of them is [replay]. *)
Lemma keys_loop_core ks ke f :
  (∀ k, k ∈ ks → ke_keysym ke = Key.sym k → EQUALMODS (Key.mod_ k) (ke_state ke) = true →
        Key.func k ≠ Some fn_replay) →
  ∃ f' t, keys_loop ks ke f = Some (f', t)
          ∧ fsa_core f' = fsa_core f ∧ operator_calls t = [].
Proof.
  revert f. induction ks as [|k ks IH]; intros f Hno; simpl.
  - by exists f, [].
  - assert (∀ f0, ∃ f' t, keys_loop ks ke f0 = Some (f', t)
                          ∧ fsa_core f' = fsa_core f0 ∧ operator_calls t = []) as IH'.
    { intros f0. apply IH. intros k' Hk'. apply Hno. apply elem_of_cons. by right. }
    destruct (key_matches ke (cur_mode f) k) eqn:Em; [|apply IH'].
    unfold key_matches in Em.
    apply andb_true_iff in Em as [[[Hsym Hmod]%andb_true_iff Hfn]%andb_true_iff _].
    apply bool_decide_eq_true in Hsym. apply bool_decide_eq_true in Hfn as [c Hc].
    rewrite Hc. simpl.
    assert (c ≠ fn_replay) as Hc'.
    { intros ->. apply (Hno k); [apply elem_of_cons; by left|done..]. }
    assert (run_cmd c (Key.arg k) f = Some (run_plain_cmd c (Key.arg k) f)) as ->
      by (by destruct c).
    simpl. rewrite bool_decide_eq_false_2 by done.
    destruct (run_plain_cmd_core c (Key.arg k) f) as [Hcore Hcalls].
    destruct (IH' (save_last_cmd c (Key.arg k) (run_plain_cmd c (Key.arg k) f).1))
      as (f' & t & -> & Hf' & Ht).
    simpl. eexists _, _. split; [done|]. split.
    + rewrite Hf'. exact Hcore.
    + by rewrite operator_calls_app, Hcalls, Ht.
Qed.

Lemma bound_to_replay_false km ke :
  bound_to_replay km ke = false →
  ∀ k, k ∈ keys km → ke_keysym ke = Key.sym k →
       EQUALMODS (Key.mod_ k) (ke_state ke) = true → Key.func k ≠ Some fn_replay.
Proof.
  unfold bound_to_replay. intros Hb k Hk Hsym Hmod Hfn.
  assert (existsb (λ k, bool_decide (ke_keysym ke = Key.sym k)
                        && EQUALMODS (Key.mod_ k) (ke_state ke)
                        && bool_decide (Key.func k = Some fn_replay)) (keys km) = true)
    as Hex; [|congruence].
  apply existsb_exists. exists k. split; [by apply list_elem_of_In|].
  rewrite Hmod, !bool_decide_eq_true_2 by done. done.
Qed.

Lemma operator_loop_find ops ke f o :
  find (operator_matches ke (cur_mode f)) ops = Some o →
  operator_loop ops ke f
  = mkFsa (cur_mode f) COUNT_STATE (cur_cnt f) (Some (Operator.func o)) (rep_state f).
Proof.
  induction ops as [|o' ops IH]; simpl; [done|].
  destruct (operator_matches ke (cur_mode f) o'); [by intros [= ->]|done].
Qed.

Lemma motion_loop_none ms ke f :
  filter (λ m, motion_matches ke m = true) ms = [] → motion_loop ms ke f = Some (f, []).
Proof.
  induction ms as [|m ms IH]; simpl; [done|].
  rewrite filter_cons. destruct (motion_matches ke m) eqn:Em.
  - rewrite decide_True by done. done.
  - rewrite decide_False by done. done.
Qed.

Lemma motion_loop_one ms ke f m op :
  filter (λ m, motion_matches ke m = true) ms = [m] →
  operator_func f = Some op →
  ∃ f', motion_loop ms ke f = Some (f', [Call_op op (Motion.type m) (cur_cnt f)])
        ∧ fsa_core f' = (OPERATOR_STATE, 1, Some op)
        ∧ cur_mode f' = cur_mode f.
Proof.
  intros Hfil Hop. induction ms as [|m' ms IH]; simpl; [done|].
  rewrite filter_cons in Hfil. destruct (motion_matches ke m') eqn:Em.
  - rewrite decide_True in Hfil by done. injection Hfil as -> Hfil.
    rewrite Hop. simpl. rewrite (motion_loop_none _ _ _ Hfil). simpl.
    eexists. split; [reflexivity|]. unfold fsa_core. simpl. by rewrite ?Hop.
  - rewrite decide_False in Hfil by done. auto.
Qed.

(** C3 fails on three key maps.  With the key [c] in two rows of [motions],
    [q c] calls the operator once for each row: the loop over [motions] has no
    [break].  With the key [1] as a motion, [q 1] takes the [1] as a count and
    calls nothing.  With [c] bound to [replay] as well, [q c] calls the
    operator from the loop over [motions] and again from the loop over [keys],
    which runs after it on the same key press. *)
Lemma operator_count_motion_counterexample :
  calls_and_state km_two_rows [mod4_key 113; mod4_key 99] fsa_start
  = Some ([(fn_op_kill, CLIENT, 1); (fn_op_kill, WORKSPACE, 1)], OPERATOR_STATE)
  ∧ ¬ command_claim km_two_rows fsa_start (mod4_key 113) None (mod4_key 99)
  ∧ calls_and_state km_digit_motion [mod4_key 113; mod4_key 49] fsa_start
    = Some ([], MOTION_STATE)
  ∧ ¬ command_claim km_digit_motion fsa_start (mod4_key 113) None (mod4_key 49)
  ∧ calls_and_state km_replay_motion [mod4_key 113; mod4_key 99] fsa_start
    = Some ([(fn_op_kill, CLIENT, 1); (fn_op_kill, CLIENT, 1)], OPERATOR_STATE)
  ∧ ¬ command_claim km_replay_motion fsa_start (mod4_key 113) None (mod4_key 99).
Proof.
  assert (∀ km kmo,
            (∃ c, calls_and_state km [mod4_key 113; kmo] fsa_start = Some c
                  ∧ c.1 ≠ [(fn_op_kill, CLIENT, 1)]) →
            find (operator_matches (mod4_key 113) 0) (operators km)
            = Some (Operator.mk MODKEY 113 0 fn_op_kill) →
            Motion.mk MODKEY (ke_keysym kmo) CLIENT ∈ motions km →
            ke_state kmo = MODKEY →
            ¬ command_claim km fsa_start (mod4_key 113) None kmo) as Hno.
  { intros km kmo (c & Hc & Hne) Hop Hin Hmod Hclaim.
    destruct (Hclaim eq_refl eq_refl (Operator.mk MODKEY 113 0 fn_op_kill)
                (Motion.mk MODKEY (ke_keysym kmo) CLIENT) Hop)
      as (_ & f' & t & Hrun & Hcalls & _); [done | done | |].
    { unfold motion_matches. simpl. rewrite Hmod.
      by rewrite bool_decide_eq_true_2. }
    unfold calls_and_state, command_keys in *. simpl in Hrun, Hc.
    rewrite Hrun in Hc. simpl in Hc. injection Hc as <-. apply Hne. exact Hcalls. }
  split; [run|]. split.
  { apply Hno; [|run| |done].
    - eexists. split; [run|]. simpl. discriminate.
    - apply elem_of_cons. by left. }
  split; [run|]. split.
  { apply Hno; [|run| |done].
    - eexists. split; [run|]. simpl. discriminate.
    - apply elem_of_cons. by left. }
  split; [run|].
  apply Hno; [|run| |done].
  - eexists. split; [run|]. simpl. discriminate.
  - apply elem_of_cons. by left.
Qed.

(** C3 as the code has it: from the operator state with the count at 1, a
    key sequence operator, optional count digit, motion calls the operator of
    the first matching row once, with the type of the motion and the digit (1
    without a digit), and leaves the automaton in the operator state with the
    count at 1; no proper prefix of the sequence calls an operator.  This
    holds when the motion key matches exactly one row of [motions], is not
    itself a count key when the digit is left out, and no key of the sequence
    is directly bound to [replay]. *)
Theorem operator_count_motion km f kop digit kmo o m :
  cur_state f = OPERATOR_STATE →
  cur_cnt f = 1 →
  find (operator_matches kop (cur_mode f)) (operators km) = Some o →
  (∀ kd, digit = Some kd → is_count_key km kd = true) →
  filter (λ m, motion_matches kmo m = true) (motions km) = [m] →
  (digit = None → is_count_key km kmo = false) →
  Forall (λ ke, bound_to_replay km ke = false) (command_keys kop digit kmo) →
  (∀ pre, pre `prefix_of` command_keys kop digit kmo →
          pre ≠ command_keys kop digit kmo →
          ∃ f' t, key_presses km pre f = Some (f', t) ∧ operator_calls t = [])
  ∧ ∃ f' t, key_presses km (command_keys kop digit kmo) f = Some (f', t)
            ∧ operator_calls t
              = [(Operator.func o, Motion.type m,
                  match digit with Some kd => ke_keysym kd - XK_0 | None => 1 end)]
            ∧ cur_state f' = OPERATOR_STATE ∧ cur_cnt f' = 1.
Proof.
  intros Hst Hcnt Hop Hdig Hmo Hnd Hrep.
  (* the operator key *)
  assert (∃ f1 t1, key_press_event km kop f = Some (f1, t1)
                   ∧ fsa_core f1 = (COUNT_STATE, 1, Some (Operator.func o))
                   ∧ operator_calls t1 = []) as (f1 & t1 & H1 & Hc1 & Ht1).
  { unfold key_press_event. rewrite bool_decide_eq_true_2 by done.
    rewrite (operator_loop_find _ _ _ _ Hop). simpl.
    apply Forall_cons in Hrep as [Hr _].
    edestruct (keys_loop_core (keys km) kop) as (f' & t & -> & Hf' & Ht);
      [by apply bound_to_replay_false|].
    simpl. eexists _, _. split; [done|]. split; [|done].
    rewrite Hf'. unfold fsa_core. simpl. by rewrite Hcnt. }
  (* the motion key, in the count state or the motion state *)
  assert (∀ f2 n, (cur_state f2 = COUNT_STATE ∧ is_count_key km kmo = false
                   ∨ cur_state f2 = MOTION_STATE) →
                  cur_cnt f2 = n → operator_func f2 = Some (Operator.func o) →
                  bound_to_replay km kmo = false →
                  ∃ f3 t3, key_press_event km kmo f2 = Some (f3, t3)
                           ∧ operator_calls t3 = [(Operator.func o, Motion.type m, n)]
                           ∧ cur_state f3 = OPERATOR_STATE ∧ cur_cnt f3 = 1) as Hmotion.
  { intros f2 n Hs2 Hn2 Hop2 Hr. unfold key_press_event.
    assert (bool_decide (cur_state f2 = OPERATOR_STATE) = false) as ->.
    { apply bool_decide_eq_false. destruct Hs2 as [[-> _]| ->]; done. }
    assert (bool_decide (cur_state f2 = COUNT_STATE) && is_count_key km kmo = false) as ->.
    { destruct Hs2 as [[_ ->]| ->]; [by rewrite andb_false_r|done]. }
    assert (bool_decide (cur_state f2 = COUNT_STATE)
            || bool_decide (cur_state f2 = MOTION_STATE) = true) as ->.
    { destruct Hs2 as [[-> _]| ->]; done. }
    destruct (motion_loop_one _ _ f2 _ _ Hmo Hop2) as (f' & -> & Hf' & _).
    simpl.
    edestruct (keys_loop_core (keys km) kmo f') as (f3 & t3 & -> & Hf3 & Ht3);
      [by apply bound_to_replay_false|].
    simpl. eexists _, _. split; [reflexivity|].
    rewrite Hf' in Hf3. injection Hf3 as ? ? ?.
    rewrite operator_calls_cons_op, Ht3, Hn2. done. }
  injection Hc1 as Hs1 Hn1 Ho1.
  destruct digit as [kd|]; unfold command_keys; simpl.
  - (* operator, digit, motion *)
    apply Forall_cons in Hrep as [_ Hrep]. simpl in Hrep.
    apply Forall_cons in Hrep as [Hrd Hrep]. apply Forall_cons in Hrep as [Hrm _].
    assert (∃ f2 t2, key_press_event km kd f1 = Some (f2, t2)
                     ∧ fsa_core f2 = (MOTION_STATE, ke_keysym kd - XK_0,
                                      Some (Operator.func o))
                     ∧ operator_calls t2 = []) as (f2 & t2 & H2 & Hc2 & Ht2).
    { unfold key_press_event. rewrite Hs1. simpl.
      rewrite (Hdig kd eq_refl). simpl.
      edestruct (keys_loop_core (keys km) kd) as (f' & t & -> & Hf' & Ht);
        [by apply bound_to_replay_false|].
      simpl. eexists _, _. split; [done|]. split; [|done].
      rewrite Hf'. unfold fsa_core. simpl. by rewrite Ho1. }
    injection Hc2 as Hs2 Hn2 Ho2.
    destruct (Hmotion f2 (ke_keysym kd - XK_0)) as (f3 & t3 & H3 & Ht3 & Hs3 & Hn3);
      [by right | done | done | done |].
    split.
    + intros pre [k Hpre] Hne.
      destruct pre as [|a [|b [|c pre]]]; simpl in Hpre.
      * by exists f, [].
      * injection Hpre as <- _. simpl. rewrite H1. simpl.
        eexists _, _. split; [done|]. by rewrite app_nil_r.
      * injection Hpre as <- <- _. simpl. rewrite H1. simpl. rewrite H2. simpl.
        eexists _, _. split; [done|].
        by rewrite app_nil_r, operator_calls_app, Ht1, Ht2.
      * injection Hpre as <- <- <- Hpre.
        destruct pre; [|done]. done.
    + rewrite H1. simpl. rewrite H2. simpl. rewrite H3. simpl.
      eexists _, _. split; [done|].
      rewrite app_nil_r, !operator_calls_app, Ht1, Ht2, Ht3. done.
  - (* operator, motion *)
    apply Forall_cons in Hrep as [_ Hrep]. simpl in Hrep.
    apply Forall_cons in Hrep as [Hrm _].
    destruct (Hmotion f1 1) as (f3 & t3 & H3 & Ht3 & Hs3 & Hn3);
      [left; auto | done | done | done |].
    split.
    + intros pre [k Hpre] Hne.
      destruct pre as [|a [|b pre]]; simpl in Hpre.
      * by exists f, [].
      * injection Hpre as <- _. simpl. rewrite H1. simpl.
        eexists _, _. split; [done|]. by rewrite app_nil_r.
      * injection Hpre as <- <- Hpre.
        destruct pre; [|done]. done.
    + rewrite H1. simpl. rewrite H3. simpl.
      eexists _, _. split; [done|].
      rewrite app_nil_r, !operator_calls_app, Ht1, Ht3. done.
Qed.

(** The keys [q], [3], [c] with Mod4, caps lock on for the last. *)
Lemma operator_count_motion_witness :
  ∃ f' t,
    key_presses km_example
      [{| ke_keysym := 113; ke_state := 64 |}; {| ke_keysym := 51; ke_state := 64 |};
       {| ke_keysym := 99; ke_state := 66 |}] fsa_start = Some (f', t)
    ∧ operator_calls t = [(fn_op_kill, CLIENT, 3)]
    ∧ cur_state f' = OPERATOR_STATE ∧ cur_cnt f' = 1.
Proof.
  apply (operator_count_motion km_example fsa_start
           {| ke_keysym := 113; ke_state := 64 |}
           (Some {| ke_keysym := 51; ke_state := 64 |})
           {| ke_keysym := 99; ke_state := 66 |}
           (Operator.mk MODKEY 113 0 fn_op_kill) (Motion.mk MODKEY 99 CLIENT)).
  - reflexivity.
  - reflexivity.
  - reflexivity.
  - intros kd [= <-]. reflexivity.
  - reflexivity.
  - discriminate.
  - repeat constructor.
Defined.

(** A negative mode passes the guard of [change_mode] and is stored as an
    [unsigned int]. *)
Lemma change_mode_negative :
  cur_mode (change_mode (Arg_i (-1)) fsa_start) = 4294967295
  ∧ change_mode (Arg_i (-1)) (change_mode (Arg_i (-1)) fsa_start)
    = change_mode (Arg_i (-1)) fsa_start.
Proof. split; reflexivity. Qed.

(** In the operator state the pending count is 1: every key press keeps it
    so. *)
Lemma operator_state_count km ke f f' t :
  (cur_state f = OPERATOR_STATE → cur_cnt f = 1) →
  key_press_event km ke f = Some (f', t) →
  cur_state f' = OPERATOR_STATE → cur_cnt f' = 1.
Proof.
  intros Hinv. unfold key_press_event.
  assert (∀ ks g g' t', keys_loop ks ke g = Some (g', t') →
                        cur_state g' = cur_state g ∧ cur_cnt g' = cur_cnt g) as Hkeys.
  { induction ks as [|k ks IH]; intros g g' t'; simpl; [by intros [= <- <-]|].
    destruct (key_matches ke (cur_mode g) k); [|apply IH].
    destruct (Key.func k) as [c|]; simpl; [|done].
    assert (∀ r, run_cmd c (Key.arg k) g = Some r →
                 cur_state r.1 = cur_state g ∧ cur_cnt r.1 = cur_cnt g) as Hrun.
    { intros r. destruct c; simpl; try (intros [= <-]; simpl; done).
      - intros [= <-]. simpl. unfold change_mode. by destruct (_ || _).
      - unfold replay. destruct (last_cmd (rep_state g)) as [c|].
        + destruct c; simpl; try (intros [= <-]; simpl; done).
          intros [= <-]. simpl. unfold change_mode. by destruct (_ || _).
        + destruct (last_op (rep_state g)); simpl; [|done]. intros [= <-]. done. }
    destruct (run_cmd c (Key.arg k) g) as [r|]; simpl; [|done].
    destruct (Hrun r eq_refl) as [Hr1 Hr2].
    destruct (keys_loop ks ke _) as [r'|] eqn:Er'; simpl; [|done].
    intros [= <- <-]. destruct r' as [g'' t'']. apply IH in Er' as [E1 E2].
    simpl. rewrite E1, E2. by destruct (bool_decide (c = fn_replay)). }
  assert (∀ ms g r, motion_loop ms ke g = Some r →
                    (cur_state g = OPERATOR_STATE → cur_cnt g = 1) →
                    cur_state r.1 = OPERATOR_STATE → cur_cnt r.1 = 1) as Hmot.
  { induction ms as [|m ms IH]; intros g r; simpl; [by intros [= <-]|].
    destruct (motion_matches ke m); [|apply IH].
    destruct (operator_func g) as [op|]; simpl; [|done].
    destruct (motion_loop ms ke _) as [r'|] eqn:Er'; simpl; [|done].
    intros [= <-] _. simpl. apply (IH _ _ Er'). done. }
  destruct (bool_decide (cur_state f = OPERATOR_STATE)) eqn:E0; simpl.
  { apply bool_decide_eq_true in E0.
    destruct (keys_loop (keys km) ke _) as [[g' t']|] eqn:Ek; simpl; [|done].
    intros [= <- <-]. apply Hkeys in Ek as [E1 E2]. rewrite E1, E2.
    clear E1 E2. induction (operators km) as [|o ops IH]; simpl; [auto|].
    destruct (operator_matches ke (cur_mode f) o); simpl; [done|auto]. }
  destruct (bool_decide (cur_state f = COUNT_STATE) && is_count_key km ke); simpl.
  { destruct (keys_loop (keys km) ke _) as [[g' t']|] eqn:Ek; simpl; [|done].
    intros [= <- <-]. apply Hkeys in Ek as [E1 E2]. rewrite E1. done. }
  destruct (bool_decide (cur_state f = COUNT_STATE)
            || bool_decide (cur_state f = MOTION_STATE)); simpl.
  { destruct (motion_loop (motions km) ke f) as [r|] eqn:Em; simpl; [|done].
    destruct (keys_loop (keys km) ke _) as [[g' t']|] eqn:Ek; simpl; [|done].
    intros [= <- <-]. apply Hkeys in Ek as [E1 E2]. rewrite E1, E2.
    by apply (Hmot _ _ _ Em). }
  destruct (keys_loop (keys km) ke _) as [[g' t']|] eqn:Ek; simpl; [|done].
  intros [= <- <-]. apply Hkeys in Ek as [E1 E2]. rewrite E1, E2. done.
Qed.

(** ** Walks and layouts on well-formed lists *)

Lemma geom_only_refl st : geom_only st st.
Proof. split; [by destruct st | apply same_links_refl]. Qed.

Lemma geom_only_trans st1 st2 st3 : geom_only st1 st2 → geom_only st2 st3 → geom_only st1 st3.
Proof.
  intros [E1 L1] [E2 L2]. split; [|by eapply same_links_trans].
  rewrite E2 at 1. rewrite E1 at 1. done.
Qed.

Lemma geom_only_wss st st' : geom_only st st' → wss st' = wss st ∧ cw st' = cw st.
Proof. intros [-> _]. done. Qed.

Lemma geom_only_ws_at st st' i : geom_only st st' → ws_at st' i = ws_at st i.
Proof. intros [-> _]. done. Qed.

Lemma geom_only_fuel st st' : geom_only st st' → fuel_of st' = fuel_of st.
Proof. intros [_ L]. unfold fuel_of. by rewrite (same_links_size _ _ L). Qed.

Lemma geom_only_load st st' p c :
  geom_only st st' → load st p = Some c →
  ∃ c', load st' p = Some c' ∧ Client.next c' = Client.next c.
Proof.
  intros [_ L] Hl. unfold load in *. pose proof (L p) as Hp. rewrite Hl in Hp.
  destruct (heap st' !! p) as [c'|]; simpl in Hp; [|done].
  injection Hp as Hp. eauto.
Qed.

Lemma change_client_geom_ok c x y w h st cc :
  load st c = Some cc →
  ∃ st', change_client_geom c x y w h st = Some st' ∧ geom_only st st'
         ∧ load st' c = Some (Client.set_geom (u16 x) (u16 y) (u16 w) (u16 h) cc)
         ∧ ∀ q, q ≠ c → load st' q = load st q.
Proof.
  unfold load, change_client_geom, store. intros Hl. rewrite Hl. simpl.
  eexists. split; [done|]. split; [|split].
  - split; [done|]. simpl. by apply same_links_insert.
  - simpl. by rewrite lookup_insert_eq.
  - intros q Hq. simpl. by rewrite lookup_insert_ne.
Qed.

Lemma walk_chain fuel st p l :
  chain (heap st) p l → (length l < fuel)%nat → walk fuel st p = Some tt.
Proof.
  revert p l. induction fuel as [|k IH]; intros p l Hc Hlen; [lia|].
  simpl. destruct l as [|q l]; simpl in Hc.
  - by rewrite (proj2 (is_null_true _) Hc).
  - destruct Hc as (_ & Hn & c & Hl & Hrest).
    rewrite (proj2 (is_null_false _) Hn). unfold load. rewrite Hl. simpl.
    apply (IH _ l Hrest). simpl in Hlen. lia.
Qed.

Lemma chain_fuel st p l : chain (heap st) p l → (length l < fuel_of st)%nat.
Proof. intros Hc. unfold fuel_of. pose proof (chain_length _ _ _ Hc). lia. Qed.

(** From here on the walks are unfolded by hand, one step at a time. *)
Opaque fuel_of.

Lemma draw_clients_ok st s l :
  ws_at st (cw st) = Some s → chain (heap st) (Workspace.head s) l →
  draw_clients st = Some st.
Proof.
  intros Hs Hc. unfold draw_clients. rewrite Hs. simpl.
  by rewrite (walk_chain _ _ _ _ Hc (chain_fuel _ _ _ Hc)).
Qed.

Lemma non_tff_count_loop_ok fuel st p l n :
  chain (heap st) p l → (length l < fuel)%nat →
  ∃ m, non_tff_count_loop fuel st p n = Some m ∧ n ≤ m.
Proof.
  revert p l n. induction fuel as [|k IH]; intros p l n Hc Hlen; [lia|].
  simpl. destruct l as [|q l]; simpl in Hc.
  - rewrite (proj2 (is_null_true _) Hc). exists n. split; [done|lia].
  - destruct Hc as (_ & Hn & c & Hl & Hrest).
    rewrite (proj2 (is_null_false _) Hn). unfold load. rewrite Hl. simpl.
    destruct (IH _ l (if negb (FFT c) then n + 1 else n) Hrest) as (m & -> & Hm);
      [simpl in Hlen; lia|].
    exists m. split; [done|]. destruct (negb (FFT c)); lia.
Qed.

(** The first tilable client is in the list, or there is none and the count
    is zero. *)
Lemma first_non_tff_loop_ok fuel st p l :
  chain (heap st) p l → (length l < fuel)%nat →
  ∃ c, first_non_tff_loop fuel st p = Some c
       ∧ (c = NULL → ∀ n, non_tff_count_loop fuel st p n = Some n)
       ∧ (c ≠ NULL → c ∈ l).
Proof.
  revert p l. induction fuel as [|k IH]; intros p l Hc Hlen; [lia|].
  simpl. destruct l as [|q l]; simpl in Hc.
  - rewrite (proj2 (is_null_true _) Hc). exists p. split; [done|]. split; [done|].
    intros Hn. done.
  - destruct Hc as (<- & Hn & c & Hl & Hrest).
    rewrite (proj2 (is_null_false _) Hn). unfold load. rewrite Hl. simpl.
    destruct (FFT c); simpl.
    + destruct (IH _ l Hrest) as (r & -> & H1 & H2); [simpl in Hlen; lia|].
      exists r. split; [done|]. split; [done|].
      intros Hr. apply elem_of_cons. right. auto.
    + exists p. split; [done|]. split; [done|]. intros _. apply elem_of_cons. by left.
Qed.

Lemma zoom_loop_ok fuel x y w h st p l :
  chain (heap st) p l → (length l < fuel)%nat →
  ∃ st', zoom_loop fuel x y w h p st = Some st' ∧ geom_only st st'.
Proof.
  revert st p l. induction fuel as [|k IH]; intros st p l Hc Hlen; [lia|].
  simpl. destruct l as [|q l]; simpl in Hc.
  - rewrite (proj2 (is_null_true _) Hc). exists st. split; [done|apply geom_only_refl].
  - destruct Hc as (<- & Hn & c & Hl & Hrest).
    change (load st p = Some c) in Hl.
    rewrite (proj2 (is_null_false _) Hn), Hl. simpl.
    assert (∃ st1, (if negb (FFT c) then change_client_geom p x y w h st else Some st)
                   = Some st1 ∧ geom_only st st1) as (st1 & -> & Hg).
    { destruct (negb (FFT c)).
      - destruct (change_client_geom_ok p x y w h st c Hl) as (st1 & H1 & H2 & _). eauto.
      - exists st. split; [done|apply geom_only_refl]. }
    simpl. destruct (geom_only_load _ _ _ _ Hg Hl) as (c1 & -> & Hnext). simpl.
    rewrite Hnext.
    destruct (IH st1 (Client.next c) l) as (st' & -> & Hg');
      [by apply (chain_same_links _ _ _ _ (proj2 Hg)) | simpl in Hlen; lia|].
    exists st'. split; [done|]. by eapply geom_only_trans.
Qed.

Lemma zoom_ok cfg st s l :
  ws_at st (cw st) = Some s → chain (heap st) (Workspace.head s) l → l ≠ [] →
  ∃ st', zoom cfg st = Some st' ∧ geom_only st st'.
Proof.
  intros Hs Hc Hne. unfold zoom. rewrite Hs. simpl.
  assert (is_Some (load st (Workspace.head s))) as [hd Hhd].
  { destruct l as [|q l]; [done|]. destruct Hc as (_ & _ & c & Hl & _). by exists c. }
  assert (∃ c0, (if negb (bool_decide (Workspace.layout s = ZOOM))
                 then load st (Workspace.head s) else Some Client.zero) = Some c0)
    as [c0 ->] by (destruct (negb _); eauto).
  simpl.
  destruct (zoom_loop_ok (fuel_of st) 0
              (if BAR_BOTTOM cfg then 0 else Workspace.bar_height s) (screen_width st)
              (screen_height st - Workspace.bar_height s) st _ l Hc (chain_fuel _ _ _ Hc))
    as (st1 & -> & Hg).
  simpl. exists st1. split; [|done].
  apply (draw_clients_ok st1 s l).
  - destruct (geom_only_wss _ _ Hg) as [_ Hcw].
    by rewrite (geom_only_ws_at _ _ _ Hg), Hcw.
  - by apply (chain_same_links _ _ _ _ (proj2 Hg)).
Qed.

Lemma cdiv_chk_ok a b : b ≠ 0 → cdiv_chk a b = Some (cdiv a b).
Proof. intros Hb. unfold cdiv_chk. by rewrite bool_decide_eq_false_2. Qed.

Lemma grid_cols_bounds fuel n cols :
  2 ≤ n → 0 ≤ cols ≤ n `div` 2 + 1 → (0 < cols ∨ (0 < fuel)%nat) →
  0 < grid_cols fuel n cols ≤ n `div` 2 + 1.
Proof.
  intros Hn. revert cols. induction fuel as [|k IH]; intros cols Hc Hpos; simpl.
  - destruct Hpos; lia.
  - unfold cdiv. rewrite Z.quot_div_nonneg by lia.
    destruct (cols <=? n `div` 2)%Z eqn:E1.
    + apply Z.leb_le in E1. destruct (n <=? cols * cols)%Z eqn:E2.
      * apply Z.leb_le in E2. nia.
      * apply IH; lia.
    + apply Z.leb_gt in E1. pose proof (Z.div_pos n 2). lia.
Qed.

Lemma grid_loop_ok fuel n cols col_w client_y col_h rows i col_cnt row_cnt st p l :
  chain (heap st) p l → (length l < fuel)%nat →
  0 ≤ n → 0 < cols → 0 < rows →
  ∃ st', grid_loop fuel n cols col_w client_y col_h rows i col_cnt row_cnt p st = Some st'
         ∧ geom_only st st'.
Proof.
  intros Hc Hlen Hn Hcols. revert st p l rows i col_cnt row_cnt Hc Hlen.
  induction fuel as [|k IH]; intros st p l rows i col_cnt row_cnt Hc Hlen Hrows; [lia|].
  simpl. destruct l as [|q l]; simpl in Hc.
  - rewrite (proj2 (is_null_true _) Hc). exists st. split; [done|apply geom_only_refl].
  - destruct Hc as (<- & Hnn & c & Hl & Hrest).
    change (load st p = Some c) in Hl.
    rewrite (proj2 (is_null_false _) Hnn), Hl. simpl.
    assert (length l < k)%nat as Hlen' by (simpl in Hlen; lia).
    destruct (FFT c); [by apply (IH _ _ l)|].
    rewrite (cdiv_chk_ok _ rows) by lia. simpl.
    rewrite bool_decide_eq_false_2 by lia. simpl.
    set (rows' := if (cols - cmod n cols <? cdiv (i + 1) rows + 1)%Z
                  then cdiv n cols + 1 else rows).
    assert (0 < rows') as Hrows'.
    { unfold rows'. destruct (_ <? _)%Z; [|done].
      unfold cdiv. pose proof (Z.quot_pos n cols). lia. }
    rewrite !(cdiv_chk_ok _ rows') by lia. simpl.
    destruct (change_client_geom_ok p (col_cnt * col_w)
                (client_y + cdiv (row_cnt * col_h) rows') col_w (cdiv col_h rows') st c Hl)
      as (st1 & -> & Hg & _ & _).
    simpl. destruct (geom_only_load _ _ _ _ Hg Hl) as (c1 & -> & Hnext). simpl.
    rewrite Hnext.
    assert (chain (heap st1) (Client.next c) l) as Hc1
      by (by apply (chain_same_links _ _ _ _ (proj2 Hg))).
    destruct (rows' <=? row_cnt + 1)%Z.
    + destruct (IH st1 _ l rows' (i + 1) (col_cnt + 1) 0 Hc1 Hlen' Hrows') as (st' & -> & Hg').
      exists st'. split; [done|]. by eapply geom_only_trans.
    + destruct (IH st1 _ l rows' (i + 1) col_cnt (row_cnt + 1) Hc1 Hlen' Hrows')
        as (st' & -> & Hg').
      exists st'. split; [done|]. by eapply geom_only_trans.
Qed.

Lemma grid_ok cfg st s l :
  ws_at st (cw st) = Some s → chain (heap st) (Workspace.head s) l → l ≠ [] →
  ∃ st', grid cfg st = Some st' ∧ geom_only st st'.
Proof.
  intros Hs Hc Hne. unfold grid, get_non_tff_count. rewrite Hs. simpl.
  destruct (non_tff_count_loop_ok (fuel_of st) st _ l 0 Hc (chain_fuel _ _ _ Hc))
    as (n & -> & Hn).
  simpl. destruct (n <=? 1)%Z eqn:E1; [by apply (zoom_ok cfg st s l)|].
  apply Z.leb_gt in E1.
  pose proof (grid_cols_bounds (Z.to_nat n + 2) n 0) as Hcols.
  set (cols := grid_cols (Z.to_nat n + 2) n 0) in *.
  assert (0 ≤ n `div` 2 ∧ n `div` 2 + 1 ≤ n) as Hdiv by (Z.div_mod_to_equations; lia).
  assert (0 < cols ≤ n `div` 2 + 1) as Hcols' by (apply Hcols; lia).
  rewrite (cdiv_chk_ok n cols) by lia. simpl.
  assert (0 < cdiv n cols) as Hrows.
  { unfold cdiv. apply Z.quot_str_pos. lia. }
  destruct (grid_loop_ok (fuel_of st) n cols (u16 (cdiv (screen_width st) cols))
              (if BAR_BOTTOM cfg then 0 else Workspace.bar_height s)
              (u16 (screen_height st - Workspace.bar_height s))
              (cdiv n cols) (-1) 0 0 st _ l Hc (chain_fuel _ _ _ Hc))
    as (st1 & -> & Hg); [lia..|].
  simpl. exists st1. split; [|done].
  apply (draw_clients_ok st1 s l).
  - destruct (geom_only_wss _ _ Hg) as [_ Hcw].
    by rewrite (geom_only_ws_at _ _ _ Hg), Hcw.
  - by apply (chain_same_links _ _ _ _ (proj2 Hg)).
Qed.

Lemma stack_loop_ok fuel vert ms client_span rest client_x client_y st p l :
  chain (heap st) p l → (length l < fuel)%nat →
  ∃ st', stack_loop fuel vert ms client_span rest client_x client_y p st = Some st'
         ∧ geom_only st st'.
Proof.
  revert st p l client_x client_y.
  induction fuel as [|k IH]; intros st p l client_x client_y Hc Hlen; [lia|].
  simpl. destruct l as [|q l]; simpl in Hc.
  - rewrite (proj2 (is_null_true _) Hc). exists st. split; [done|apply geom_only_refl].
  - destruct Hc as (<- & Hnn & c & Hl & Hrest).
    change (load st p = Some c) in Hl.
    rewrite (proj2 (is_null_false _) Hnn), Hl. simpl.
    assert (length l < k)%nat as Hlen' by (simpl in Hlen; lia).
    destruct (FFT c); [by apply (IH _ _ l)|].
    destruct vert.
    + destruct (change_client_geom_ok p ms client_y (screen_width st - ms) client_span st c Hl)
        as (st1 & -> & Hg & _ & _).
      simpl. destruct (geom_only_load _ _ _ _ Hg Hl) as (c1 & -> & Hnext). simpl.
      rewrite Hnext.
      destruct (IH st1 (Client.next c) l client_x (u16 (client_y + client_span)))
        as (st' & -> & Hg');
        [by apply (chain_same_links _ _ _ _ (proj2 Hg)) | done |].
      exists st'. split; [done|]. by eapply geom_only_trans.
    + destruct (change_client_geom_ok p client_x ms client_span rest st c Hl)
        as (st1 & -> & Hg & _ & _).
      simpl. destruct (geom_only_load _ _ _ _ Hg Hl) as (c1 & -> & Hnext). simpl.
      rewrite Hnext.
      destruct (IH st1 (Client.next c) l (u16 (client_x + client_span)) client_y)
        as (st' & -> & Hg');
        [by apply (chain_same_links _ _ _ _ (proj2 Hg)) | done |].
      exists st'. split; [done|]. by eapply geom_only_trans.
Qed.

Lemma stack_ok cfg st s l :
  ws_at st (cw st) = Some s → chain (heap st) (Workspace.head s) l → l ≠ [] →
  ∃ st', stack cfg st = Some st' ∧ geom_only st st'.
Proof.
  intros Hs Hc Hne. unfold stack, get_first_non_tff, get_non_tff_count. rewrite Hs. simpl.
  destruct (first_non_tff_loop_ok (fuel_of st) st _ l Hc (chain_fuel _ _ _ Hc))
    as (c & -> & Hnull & Hin).
  simpl.
  destruct (non_tff_count_loop_ok (fuel_of st) st _ l 0 Hc (chain_fuel _ _ _ Hc))
    as (n & Hcount & Hn).
  rewrite Hcount. simpl.
  destruct (n <=? 1)%Z eqn:E1; [by apply (zoom_ok cfg st s l)|].
  apply Z.leb_gt in E1.
  assert (c ≠ NULL) as Hcn.
  { intros Hc0. rewrite (Hnull Hc0 0) in Hcount. injection Hcount as <-. lia. }
  rewrite (cdiv_chk_ok _ (n - 1)) by lia. simpl.
  destruct (chain_split _ _ _ _ Hc (Hin Hcn)) as (l1 & l2 & El & Hc2).
  destruct Hc2 as (_ & _ & cc & Hl & Hrest).
  change (load st c = Some cc) in Hl.
  set (ms := u16 (int_of_float _)).
  set (span := if bool_decide (Workspace.layout s = VSTACK)
               then u16 (screen_height st - Workspace.bar_height s) else screen_width st).
  set (cy := if BAR_BOTTOM cfg then 0 else Workspace.bar_height s).
  assert (∃ st1, (if bool_decide (Workspace.layout s = VSTACK)
                  then change_client_geom c 0 cy ms span st
                  else change_client_geom c 0 cy span ms st) = Some st1
                 ∧ geom_only st st1) as (st1 & -> & Hg).
  { destruct (bool_decide _).
    - destruct (change_client_geom_ok c 0 cy ms span st cc Hl) as (st1 & ? & ? & _). eauto.
    - destruct (change_client_geom_ok c 0 cy span ms st cc Hl) as (st1 & ? & ? & _). eauto. }
  simpl. destruct (geom_only_load _ _ _ _ Hg Hl) as (c1 & -> & Hnext). simpl.
  rewrite Hnext.
  assert (length l2 < fuel_of st)%nat as Hlen2.
  { pose proof (chain_fuel _ _ _ Hc) as Hf. rewrite El, length_app in Hf. simpl in Hf. lia. }
  destruct (stack_loop_ok (fuel_of st) (bool_decide (Workspace.layout s = VSTACK)) ms
              (u16 (cdiv span (n - 1)))
              (screen_height st - Workspace.bar_height s - ms) 0 cy st1 (Client.next cc) l2)
    as (st2 & -> & Hg2);
    [by apply (chain_same_links _ _ _ _ (proj2 Hg)) | done |].
  simpl. pose proof (geom_only_trans _ _ _ Hg Hg2) as Hg02.
  exists st2. split; [|done].
  apply (draw_clients_ok st2 s l).
  - destruct (geom_only_wss _ _ Hg02) as [_ Hcw].
    by rewrite (geom_only_ws_at _ _ _ Hg02), Hcw.
  - by apply (chain_same_links _ _ _ _ (proj2 Hg02)).
Qed.

(** On a list that ends, with a layout of [enum layouts], [arrange_windows]
    returns and changes the geometry of clients only. *)
Lemma arrange_windows_ok cfg st s l :
  ws_at st (cw st) = Some s → chain (heap st) (Workspace.head s) l →
  0 ≤ Workspace.layout s < END_LAYOUT →
  ∃ st', arrange_windows cfg st = Some st' ∧ geom_only st st'.
Proof.
  intros Hs Hc Hlay. unfold arrange_windows. rewrite Hs. simpl.
  destruct l as [|q l].
  - simpl in Hc. rewrite (proj2 (is_null_true _) Hc).
    exists st. split; [done|apply geom_only_refl].
  - pose proof Hc as (_ & Hn & c & Hl & _).
    change (load st (Workspace.head s) = Some c) in Hl.
    rewrite (proj2 (is_null_false _) Hn), Hl. simpl.
    unfold layout_handler.
    set (i := if negb (is_null (Client.next c)) then Workspace.layout s else ZOOM).
    assert (0 ≤ i < END_LAYOUT) as Hi.
    { unfold i. destruct (negb _); [done|]. unfold ZOOM, END_LAYOUT. lia. }
    unfold END_LAYOUT in Hi.
    repeat case_bool_decide;
      try (by apply (zoom_ok cfg st s (q :: l)));
      try (by apply (grid_ok cfg st s (q :: l)));
      try (by apply (stack_ok cfg st s (q :: l))).
    unfold ZOOM, GRID, HSTACK, VSTACK in *. lia.
Qed.

(** ** Well-formed states *)

Lemma wfb_wf cfg st : wfb cfg st = true → wf cfg st.
Proof.
  unfold wfb. intros H.
  apply andb_true_iff in H as [[[Hlen H1]%andb_true_iff H2]%andb_true_iff Hall].
  apply bool_decide_eq_true in Hlen. apply Z.leb_le in H1, H2.
  split; [done|]. split; [lia|].
  intros i s Hs. rewrite forallb_forall in Hall.
  assert (ws_okb st s = true) as Hok.
  { apply Hall. apply list_elem_of_In. by apply list_elem_of_lookup_2 in Hs. }
  unfold ws_okb in Hok.
  destruct (clients_of st (Workspace.head s)) as [l|] eqn:El; [|done].
  apply clients_of_chain in El.
  apply andb_true_iff in Hok as [[[Hc Hp]%andb_true_iff Hl1]%andb_true_iff Hl2].
  apply Z.leb_le in Hl1. apply Z.ltb_lt in Hl2.
  exists l. split; [done|].
  split; [|split; [|lia]].
  - apply orb_true_iff in Hc as [Hc|Hc]; [left; by apply is_null_true|].
    right. by apply bool_decide_eq_true in Hc.
  - apply orb_true_iff in Hp as [Hp|Hp]; [left; by apply is_null_true|].
    right. by apply bool_decide_eq_true in Hp.
Qed.

Lemma wf_ws_at cfg st i :
  wf cfg st → 0 ≤ i ≤ WORKSPACES cfg →
  ∃ s, ws_at st i = Some s ∧ ws_ok (heap st) s.
Proof.
  intros (Hlen & _ & Hall) Hi. unfold ws_at.
  rewrite (proj2 (Z.leb_le 0 i)) by lia.
  destruct (wss st !! Z.to_nat i) as [s|] eqn:E.
  - exists s. split; [done|]. by apply (Hall _ _ E).
  - apply lookup_ge_None in E. lia.
Qed.

Lemma ws_ok_same_links h1 h2 s : same_links h1 h2 → ws_ok h1 s → ws_ok h2 s.
Proof.
  intros L (l & Hc & H). exists l. split; [|done]. by apply (chain_same_links h1).
Qed.

Lemma wf_geom_only cfg st st' : geom_only st st' → wf cfg st → wf cfg st'.
Proof.
  intros [E L] (Hlen & Hcw & Hall). rewrite E. simpl.
  split; [done|]. split; [done|]. simpl.
  intros i s Hs. apply (ws_ok_same_links _ _ _ L). by apply (Hall i).
Qed.

(** An update of a workspace that keeps it well-formed. *)
Lemma ws_upd_wf cfg st i s f :
  wf cfg st → ws_at st i = Some s → ws_ok (heap st) (f s) →
  ∃ st', ws_upd i f st = Some st' ∧ wf cfg st'
         ∧ heap st' = heap st ∧ cw st' = cw st ∧ last_ws st' = last_ws st
         ∧ ws_at st' i = Some (f s).
Proof.
  intros (Hlen & Hcw & Hall) Hs Hok. unfold ws_upd. rewrite Hs. simpl.
  eexists. split; [done|]. unfold ws_at in *.
  destruct (0 <=? i)%Z; [|done].
  pose proof (lookup_lt_Some _ _ _ Hs) as Hlt.
  split; [|simpl; by rewrite list_lookup_insert_eq].
  split; [simpl; by rewrite length_insert|]. split; [done|]. simpl.
  intros j s' Hj. destruct (decide (Z.to_nat i = j)) as [<-|Hne].
  - rewrite list_lookup_insert_eq in Hj by done. by injection Hj as <-.
  - rewrite list_lookup_insert_ne in Hj by done. by apply (Hall j).
Qed.

Lemma prev_client_in st c ws s l :
  ws_at st ws = Some s → chain (heap st) (Workspace.head s) l →
  ∃ p, prev_client st c ws = Some p ∧ (p = NULL ∨ p ∈ l).
Proof.
  intros Hs Hc. pose proof (chain_fuel _ _ _ Hc) as Hfuel.
  unfold prev_client. rewrite Hs. simpl.
  destruct (is_null c); [exists NULL; auto|].
  destruct l as [|a [|b rest]].
  - simpl in Hc. rewrite Hc. simpl. exists NULL. auto.
  - destruct Hc as (Ha & Han & ac & Hla & Hnext). simpl in Hnext.
    change (load st (Workspace.head s) = Some ac) in Hla.
    rewrite (proj2 (is_null_false _) Han), Hla. simpl.
    rewrite Hnext. simpl. exists NULL. auto.
  - pose proof Hc as (Ha & Han & ac & Hla & Hb & Hbn & _).
    change (load st (Workspace.head s) = Some ac) in Hla.
    rewrite (proj2 (is_null_false _) Han), Hla. simpl.
    rewrite (proj2 (is_null_false _) Hbn). rewrite Ha in Hc |- *.
    assert (length (b :: rest) < fuel_of st)%nat as Hfuel' by (simpl in *; lia).
    destruct (decide (c ∈ b :: rest)) as [Hin|Hnin].
    + destruct (prev_client_loop_present _ _ c _ _ Hc Hfuel' Hin) as (r & _ & -> & _ & _ & Hr).
      exists r. auto.
    + rewrite (prev_client_loop_absent _ _ c _ _ Hc Hfuel' Hnin).
      assert (is_Some (last (a :: b :: rest))) as [p Hp] by (by apply last_is_Some).
      exists p. split; [done|]. right.
      apply (list_elem_of_lookup_2 _ (pred (length (a :: b :: rest)))).
      by rewrite <- last_lookup.
Qed.

(** On a well-formed state [update_focused_client] returns for a client of
    the current workspace (or nil), keeps the state well-formed and leaves the
    workspace indices alone. *)
Lemma update_focused_client_ok cfg st c :
  wf cfg st →
  (c = NULL ∨ ∃ s l, ws_at st (cw st) = Some s ∧ chain (heap st) (Workspace.head s) l ∧ c ∈ l) →
  ∃ st', update_focused_client cfg c st = Some st' ∧ wf cfg st'
         ∧ cw st' = cw st ∧ last_ws st' = last_ws st.
Proof.
  intros Hwf Hc. unfold update_focused_client.
  destruct (is_null c) eqn:Ec; [by exists st|].
  apply is_null_false in Ec. destruct Hc as [?|(s & l & Hs & Hch & Hin)]; [done|].
  rewrite Hs. simpl.
  assert (ws_ok (heap st) s) as (l0 & Hch0 & Hcur & Hprev & Hlay).
  { destruct Hwf as (_ & Hcw & Hall). unfold ws_at in Hs.
    destruct (0 <=? cw st)%Z; [|done]. by apply (Hall _ _ Hs). }
  pose proof (chain_det _ _ _ _ Hch0 Hch) as ->. clear Hch0.
  destruct (is_null (Workspace.head s)) eqn:Eh.
  { destruct l as [|q l]; [by apply elem_of_nil in Hin|].
    destruct Hch as (_ & Hn & _). by apply is_null_false in Hn; congruence. }
  (* the focus pointers *)
  set (upd := if ptr_eqb c (Workspace.prev_foc s) then _ else _).
  assert (∃ st1 s1, upd = Some st1 ∧ wf cfg st1 ∧ heap st1 = heap st
                    ∧ cw st1 = cw st ∧ last_ws st1 = last_ws st
                    ∧ ws_at st1 (cw st) = Some s1
                    ∧ Workspace.head s1 = Workspace.head s
                    ∧ Workspace.layout s1 = Workspace.layout s
                    ∧ Workspace.current s1 = c)
    as (st1 & s1 & -> & Hwf1 & Hh1 & Hcw1 & Hlw1 & Hs1 & Hhd1 & Hlay1 & Hcur1).
  { unfold upd. destruct (ptr_eqb c (Workspace.prev_foc s)) eqn:E1.
    - apply ptr_eqb_true in E1.
      destruct (ws_upd_wf cfg st (cw st) s (Workspace.set_current (Workspace.prev_foc s)) Hwf Hs)
        as (st' & -> & Hwf' & Hh' & Hcw' & Hlw' & Hs').
      { exists l. simpl. rewrite <- E1. auto. }
      simpl. rewrite Hcw'.
      destruct (prev_client_in st' (Workspace.prev_foc s) (cw st) _ l Hs') as (p & -> & Hp);
        [by rewrite Hh'|].
      simpl.
      destruct (ws_upd_wf cfg st' (cw st) _ (Workspace.set_prev_foc p) Hwf' Hs')
        as (st1 & -> & Hwf1 & Hh1 & Hcw1 & Hlw1 & Hs1).
      { exists l. simpl. rewrite Hh', <- E1. auto. }
      exists st1. eexists. split; [done|]. split; [done|].
      split; [congruence|]. split; [congruence|]. split; [congruence|].
      split; [done|]. simpl. auto.
    - destruct (negb (ptr_eqb c (Workspace.current s))) eqn:E2; simpl.
      + destruct (ws_upd_wf cfg st (cw st) s
                   (λ s, Workspace.set_current c (Workspace.set_prev_foc (Workspace.current s) s))
                   Hwf Hs) as (st1 & -> & Hwf1 & Hh1 & Hcw1 & Hlw1 & Hs1).
        { exists l. simpl. auto. }
        exists st1. eexists. split; [done|]. split; [done|].
        split; [done|]. split; [done|]. split; [done|].
        split; [done|]. simpl. auto.
      + apply negb_false_iff, ptr_eqb_true in E2.
        exists st, s. auto 10. }
  simpl. rewrite Hcw1, Hs1. simpl.
  assert (chain (heap st1) (Workspace.head s1) l) as Hch1 by (by rewrite Hh1, Hhd1).
  rewrite (walk_chain _ _ _ _ Hch1 (chain_fuel _ _ _ Hch1)). simpl.
  rewrite Hcur1.
  destruct (chain_elem _ _ _ _ Hch1 Hin) as [_ [cc Hcc]].
  change (load st1 c = Some cc) in Hcc. rewrite Hcc. simpl.
  rewrite <- Hcw1 in Hs1.
  destruct (arrange_windows_ok cfg st1 s1 l Hs1 Hch1) as (st' & -> & Hg); [by rewrite Hlay1|].
  exists st'. split; [done|]. split; [by apply (wf_geom_only _ st1)|].
  destruct Hg as [-> _]. simpl. split; congruence.
Qed.

(** ** Workspace switching *)

(** The read of [wss[i]] that comes before the guard. *)
Lemma change_ws_out_of_bounds cfg st i : ws_at st i = None → change_ws cfg i st = None.
Proof. intros Hi. unfold change_ws. by rewrite Hi. Qed.

Lemma wf_ws_at_None cfg st i : wf cfg st → i < 0 ∨ WORKSPACES cfg < i → ws_at st i = None.
Proof.
  intros (Hlen & Hcw & _) Hi. unfold ws_at.
  destruct (0 <=? i)%Z eqn:E; [|done].
  apply Z.leb_le in E. apply lookup_ge_None. lia.
Qed.

Lemma change_ws_noop cfg st i :
  wf cfg st → i = cw st ∨ i = 0 → change_ws cfg i st = Some st.
Proof.
  intros Hwf Hi. unfold change_ws.
  destruct (wf_ws_at cfg st i Hwf) as (s & -> & _).
  { destruct Hwf as (_ & Hcw & _). lia. }
  simpl.
  assert ((WORKSPACES cfg <? i)%Z || (i <=? 0)%Z || bool_decide (i = cw st) = true) as ->;
    [|done].
  destruct Hi as [Hi|Hi].
  - by rewrite (bool_decide_eq_true_2 _ Hi), orb_true_r.
  - rewrite (proj2 (Z.leb_le i 0)) by lia. by rewrite orb_true_r.
Qed.

(** A switch to another workspace, in range, on a well-formed state. *)
Lemma change_ws_ok cfg st i :
  wf cfg st → 1 ≤ i ≤ WORKSPACES cfg → i ≠ cw st →
  ∃ st', change_ws cfg i st = Some st' ∧ wf cfg st' ∧ cw st' = i ∧ last_ws st' = cw st.
Proof.
  intros Hwf Hi Hne. unfold change_ws.
  destruct (wf_ws_at cfg st i Hwf) as (s & Hs & l & Hch & Hcur & _); [lia|].
  pose proof Hwf as (Hlen & Hcw & Hall).
  destruct (wf_ws_at cfg st (cw st) Hwf) as (sl & Hsl & ll & Hchl & _); [lia|].
  rewrite Hs. simpl.
  assert ((WORKSPACES cfg <? i)%Z || (i <=? 0)%Z || bool_decide (i = cw st) = false) as ->.
  { rewrite (proj2 (Z.ltb_ge _ _)), (proj2 (Z.leb_gt _ _)) by lia.
    by rewrite bool_decide_eq_false_2. }
  set (st1 := set_last_ws (cw st) st).
  assert (chain (heap st1) (Workspace.head s) l) as Hch1 by done.
  rewrite (walk_chain _ _ _ _ Hch1 (chain_fuel _ _ _ Hch1)). simpl.
  change (ws_at st1 (cw st)) with (ws_at st (cw st)). rewrite Hsl. simpl.
  assert (chain (heap st1) (Workspace.head sl) ll) as Hchl1 by done.
  rewrite (walk_chain _ _ _ _ Hchl1 (chain_fuel _ _ _ Hchl1)). simpl.
  change (ws_at (set_cw i st1) i) with (ws_at st i). rewrite Hs. simpl.
  destruct (update_focused_client_ok cfg (set_cw i st1) (Workspace.current s))
    as (st' & -> & Hwf' & Hcw' & Hlw').
  - split; [done|]. split; [simpl; lia|]. done.
  - destruct Hcur as [?|Hin]; [by left|]. right. exists s, l. done.
  - exists st'. done.
Qed.

(** C7: on a well-formed state a switch to the current workspace or to
    index 0 leaves the state as it is.  A switch to an index below 0 or above
    [WORKSPACES] has no defined result: [wss] has the entries 0 to
    [WORKSPACES], and [change_ws] reads [wss[i].head] before its guard tests
    [i].  For two different workspaces [a] and [b] in range, the switches to
    [a], to [b] and to [a] again return with [last_ws] equal to [b] (and [cw]
    equal to [a]). *)
Theorem change_ws_idempotent_last cfg st :
  wfb cfg st = true →
  (∀ i, i = cw st ∨ i = 0 → change_ws cfg i st = Some st)
  ∧ (∀ i, i < 0 ∨ WORKSPACES cfg < i → change_ws cfg i st = None)
  ∧ (∀ a b,
       1 ≤ a ≤ WORKSPACES cfg → 1 ≤ b ≤ WORKSPACES cfg → a ≠ b →
       ∃ st3, (st1 ← change_ws cfg a st; st2 ← change_ws cfg b st1; change_ws cfg a st2)
              = Some st3
              ∧ last_ws st3 = b ∧ cw st3 = a).
Proof.
  intros Hwf. apply wfb_wf in Hwf.
  split; [intros i; by apply change_ws_noop|].
  split.
  { intros i Hi. apply change_ws_out_of_bounds. by apply (wf_ws_at_None cfg). }
  intros a b Ha Hb Hab.
  (* after the first switch the current workspace is [a] *)
  assert (∃ st1, change_ws cfg a st = Some st1 ∧ wf cfg st1 ∧ cw st1 = a)
    as (st1 & -> & Hwf1 & Hcw1).
  { destruct (decide (a = cw st)) as [E|E].
    - exists st. split; [apply change_ws_noop; [done|by left]|done].
    - destruct (change_ws_ok cfg st a Hwf Ha E) as (st1 & ? & ? & ? & _). eauto. }
  simpl.
  destruct (change_ws_ok cfg st1 b Hwf1 Hb) as (st2 & -> & Hwf2 & Hcw2 & _); [congruence|].
  simpl.
  destruct (change_ws_ok cfg st2 a Hwf2 Ha) as (st3 & -> & _ & Hcw3 & Hlw3); [congruence|].
  exists st3. split; [done|]. split; congruence.
Qed.

(** On the state of the scenario: workspace 1 is current, and the indices
    6, 100000000 and -1 lie outside the six entries of [wss]. *)
Lemma change_ws_idempotent_last_witness :
  ∃ st, st_two_by_two = Some st
        ∧ wfb cfg_example st = true
        ∧ change_ws cfg_example 1 st = Some st
        ∧ change_ws cfg_example 0 st = Some st
        ∧ change_ws cfg_example 6 st = None
        ∧ change_ws cfg_example 100000000 st = None
        ∧ change_ws cfg_example (-1) st = None
        ∧ ∃ st3, (st1 ← change_ws cfg_example 2 st; st2 ← change_ws cfg_example 4 st1;
                  change_ws cfg_example 2 st2) = Some st3
                 ∧ last_ws st3 = 4 ∧ cw st3 = 2.
Proof.
  eexists. split; [run|]. split; [run|].
  match goal with
  | |- change_ws _ _ ?st = _ ∧ _ =>
      destruct (change_ws_idempotent_last cfg_example st) as (Hnoop & Hout & Hseq); [run|]
  end.
  split; [apply Hnoop; left; run|].
  split; [apply Hnoop; by right|].
  split; [apply Hout; right; simpl; lia|].
  split; [apply Hout; right; simpl; lia|].
  split; [apply Hout; left; lia|].
  apply Hseq; [simpl; lia | simpl; lia | lia].
Defined.

(** The third scenario of the specification: from workspace 1, a switch to
    2, a switch back to 1 and [focus_last_ws] end on workspace 2 with
    [last_ws] equal to 1. *)
Lemma focus_last_ws_scenario :
  (st ← st_two_by_two;
   st ← change_ws cfg_example 2 st;
   st ← change_ws cfg_example 1 st;
   st ← focus_last_ws cfg_example st;
   Some (cw st, last_ws st)) = Some (2, 1).
Proof. run. Qed.

(** ** The vstack layout with three clients *)

(** C4: on a 1920x1080 screen with a bar of 20 pixels at the top, a current
    workspace in the vstack layout with [master_ratio] 0.5 whose list is the
    three tilable clients [a], [b], [c]: [arrange_windows] returns and the
    clients have the rectangles (0, 20, 960, 1060), (960, 20, 960, 530) and
    (960, 550, 960, 530). *)
Theorem vstack_three_clients cfg st s a b c ca cb cc :
  BAR_BOTTOM cfg = false →
  screen_width st = 1920 → screen_height st = 1080 →
  ws_at st (cw st) = Some s →
  Workspace.layout s = VSTACK →
  Workspace.master_ratio s = one_half →
  Workspace.bar_height s = 20 →
  clients_of st (Workspace.head s) = Some [a; b; c] →
  load st a = Some ca → load st b = Some cb → load st c = Some cc →
  FFT ca = false → FFT cb = false → FFT cc = false →
  ∃ st', arrange_windows cfg st = Some st'
         ∧ rect st' a = Some (0, 20, 960, 1060)
         ∧ rect st' b = Some (960, 20, 960, 530)
         ∧ rect st' c = Some (960, 550, 960, 530).
Proof.
  intros Hbar Hw Hh Hs Hlay Hratio Hbh Hl Hla Hlb Hlc Hfa Hfb Hfc.
  apply clients_of_chain in Hl.
  pose proof (chain_NoDup _ _ _ Hl) as Hnd.
  pose proof (chain_fuel _ _ _ Hl) as Hfuel.
  destruct Hl as (Hhd & Han & ca' & Hla' & Hb & Hbn & cb' & Hlb' & Hc & Hcn & cc' & Hlc' & Hend).
  simpl in Hend.
  rewrite Hhd in *. unfold load in Hla, Hlb, Hlc.
  rewrite Hla in Hla'. injection Hla' as <-.
  rewrite Hb in *. rewrite Hlb in Hlb'. injection Hlb' as <-.
  rewrite Hc in *. rewrite Hlc in Hlc'. injection Hlc' as <-.
  apply NoDup_cons in Hnd as [Hab Hnd]. apply NoDup_cons in Hnd as [Hbc _].
  apply not_elem_of_cons in Hab as [Hab Hac].
  apply not_elem_of_cons in Hac as [Hac _].
  apply not_elem_of_cons in Hbc as [Hbc _].
  change (load st a = Some ca) in Hla. change (load st b = Some cb) in Hlb.
  change (load st c = Some cc) in Hlc.
  apply is_null_false in Han, Hbn, Hcn.
  remember (fuel_of st) as fuel eqn:Ef.
  destruct fuel as [|[|[|[|fuel]]]]; [simpl in Hfuel; lia..|].
  unfold arrange_windows. rewrite Hs. simpl. rewrite Hhd, Han, Hla. simpl.
  rewrite Hb, Hbn. simpl. rewrite Hlay. unfold layout_handler.
  rewrite !bool_decide_eq_false_2 by done. rewrite bool_decide_eq_true_2 by done.
  assert (first_non_tff_loop (S (S (S (S fuel)))) st a = Some a) as Hfirst.
  { simpl. rewrite Han, Hla. simpl. by rewrite Hfa. }
  assert (non_tff_count_loop (S (S (S (S fuel)))) st a 0 = Some 3) as Hcount.
  { simpl. rewrite Han, Hla. simpl. rewrite Hfa, Hb, Hbn, Hlb. simpl.
    rewrite Hfb, Hc, Hcn, Hlc. simpl. rewrite Hfc, Hend. done. }
  unfold stack, get_first_non_tff, get_non_tff_count. rewrite Hs, <- Ef.
  cbn [mbind option_bind]. rewrite Hhd, Hfirst, Hcount.
  cbn [mbind option_bind]. rewrite Hlay, Hratio, Hbh, Hw, Hh, Hbar.
  rewrite bool_decide_eq_true_2 by done.
  replace (u16 (int_of_float (float_mul (float_of_int 1920) one_half))) with 960
    by (vm_compute; reflexivity).
  replace (u16 (1080 - 20)) with 1060 by (vm_compute; reflexivity).
  replace (3 <=? 1)%Z with false by reflexivity.
  replace (u16 <$> cdiv_chk 1060 (3 - 1)) with (Some 530) by (vm_compute; reflexivity).
  cbn [mbind option_bind].
  destruct (change_client_geom_ok a 0 20 960 1060 st ca Hla) as (st1 & -> & Hg1 & Hla1 & Hoth1).
  cbn [mbind option_bind]. rewrite Hla1. cbn [mbind option_bind Client.next Client.set_geom].
  rewrite Hb.
  assert (load st1 b = Some cb) as Hlb1 by (rewrite Hoth1; done).
  assert (load st1 c = Some cc) as Hlc1 by (rewrite Hoth1; done).
  destruct (change_client_geom_ok b 960 20 (screen_width st1 - 960) 530 st1 cb Hlb1)
    as (st2 & Hst2 & Hg2 & Hlb2 & Hoth2).
  assert (load st2 c = Some cc) as Hlc2 by (rewrite Hoth2; done).
  destruct (change_client_geom_ok c 960 (u16 (20 + 530)) (screen_width st2 - 960) 530 st2 cc Hlc2)
    as (st3 & Hst3 & Hg3 & Hlc3 & Hoth3).
  assert (stack_loop (S (S (S (S fuel)))) true 960 530 (1080 - 20 - 960) 0 20 b st1 = Some st3)
    as ->.
  { simpl. rewrite Hbn, Hlb1. simpl. rewrite Hfb, Hst2. simpl. rewrite Hlb2. simpl.
    rewrite Hc, Hcn, Hlc2. simpl. rewrite Hfc, Hst3. simpl. rewrite Hlc3. simpl.
    by rewrite Hend. }
  cbn [mbind option_bind].
  pose proof (geom_only_trans _ _ _ Hg1 (geom_only_trans _ _ _ Hg2 Hg3)) as Hg.
  assert (screen_width st1 = 1920) as Hw1 by (destruct Hg1 as [-> _]; exact Hw).
  assert (screen_width st2 = 1920) as Hw2 by (destruct Hg2 as [-> _]; exact Hw1).
  exists st3. split.
  { apply (draw_clients_ok st3 s [a; b; c]).
    - destruct (geom_only_wss _ _ Hg) as [_ Hcw].
      by rewrite (geom_only_ws_at _ _ _ Hg), Hcw.
    - apply (chain_same_links _ _ _ _ (proj2 Hg)). rewrite Hhd.
      apply is_null_false in Han, Hbn, Hcn. simpl.
      repeat split; try done. exists ca. split; [done|]. rewrite Hb.
      repeat split; try done. exists cb. split; [done|]. rewrite Hc.
      repeat split; try done. exists cc. split; [done|]. done. }
  unfold rect.
  rewrite Hlc3, (Hoth3 b), Hlb2, (Hoth3 a), (Hoth2 a), Hla1, Hw1, Hw2 by done.
  done.
Qed.

Lemma vstack_three_clients_witness :
  ∃ st, st_three_clients = Some st
        ∧ clients_of st 1%N = Some [1%N; 2%N; 3%N]
        ∧ ∃ st', arrange_windows cfg_example st = Some st'
                 ∧ rect st' 1%N = Some (0, 20, 960, 1060)
                 ∧ rect st' 2%N = Some (960, 20, 960, 530)
                 ∧ rect st' 3%N = Some (960, 550, 960, 530).
Proof.
  eexists. split; [run|]. split; [run|].
  match goal with
  | |- ∃ st', arrange_windows _ ?st = _ ∧ _ =>
      let s := eval vm_compute in (default ws_example (ws_at st 1)) in
      let ca := eval vm_compute in (default Client.zero (load st 1%N)) in
      let cb := eval vm_compute in (default Client.zero (load st 2%N)) in
      let cc := eval vm_compute in (default Client.zero (load st 3%N)) in
      apply (vstack_three_clients cfg_example st s 1%N 2%N 3%N ca cb cc)
  end; run.
Defined.

(** ** Creating a client *)

Lemma chain_insert_fresh hp p l c z :
  chain hp p l → hp !! c = None → chain (<[c := z]> hp) p l.
Proof.
  intros Hc Hf. revert p Hc. induction l as [|q l IH]; intros p; simpl; [done|].
  intros (<- & Hn & pc & Hl & Hrest). split; [done|]. split; [done|].
  exists pc. split; [|by apply IH].
  rewrite lookup_insert_ne; [done|]. intros ->. congruence.
Qed.

(** Linking a client behind the last one of a list. *)
Lemma chain_append hp p l t tc c z :
  chain hp p l → last l = Some t → hp !! t = Some tc → hp !! c = Some z →
  c ∉ l → c ≠ NULL → Client.next z = NULL →
  chain (<[t := Client.set_next c tc]> hp) p (l ++ [c]).
Proof.
  intros Hc Hlast Ht Hz Hnin Hcn Hnz.
  pose proof (chain_NoDup _ _ _ Hc) as Hnd.
  revert p Hc Hlast Hnin Hnd. induction l as [|a l IH]; intros p Hc Hlast Hnin Hnd; [done|].
  destruct Hc as (<- & Hn & pc & Hl & Hrest).
  apply not_elem_of_cons in Hnin as [Hne Hnin].
  apply NoDup_cons in Hnd as [Hpl Hnd].
  simpl. split; [done|]. split; [done|].
  destruct l as [|b l].
  - simpl in Hlast. injection Hlast as <-. simpl in Hrest.
    rewrite Ht in Hl. injection Hl as <-.
    exists (Client.set_next c tc). rewrite lookup_insert_eq. split; [done|].
    simpl. split; [done|]. split; [done|].
    exists z. rewrite lookup_insert_ne by done. split; [done|]. by rewrite Hnz.
  - assert (p ≠ t) as Hpt.
    { intros ->. apply Hpl. apply (list_elem_of_lookup_2 _ (pred (length (b :: l)))).
      rewrite <- last_lookup. exact Hlast. }
    exists pc. rewrite lookup_insert_ne by done. split; [done|].
    apply IH; done.
Qed.

(** [prev_client] of the head: the last client of a list of two or more. *)
Lemma prev_client_head st ws s l :
  ws_at st ws = Some s → chain (heap st) (Workspace.head s) l →
  prev_client st (Workspace.head s) ws
  = Some (match l with _ :: _ :: _ => default NULL (last l) | _ => NULL end).
Proof.
  intros Hs Hc. pose proof (chain_fuel _ _ _ Hc) as Hfuel.
  pose proof (chain_NoDup _ _ _ Hc) as Hnd.
  unfold prev_client. rewrite Hs. simpl.
  destruct l as [|a [|b rest]].
  - simpl in Hc. by rewrite Hc.
  - destruct Hc as (Ha & Han & ac & Hla & Hnext). simpl in Hnext.
    change (load st (Workspace.head s) = Some ac) in Hla.
    rewrite (proj2 (is_null_false _) Han), Hla. simpl. by rewrite Hnext.
  - pose proof Hc as (Ha & Han & ac & Hla & Hb & Hbn & _).
    change (load st (Workspace.head s) = Some ac) in Hla.
    rewrite (proj2 (is_null_false _) Han), Hla. simpl.
    rewrite (proj2 (is_null_false _) Hbn). rewrite Ha in Hc |- *.
    apply NoDup_cons in Hnd as [Hnin _].
    rewrite (prev_client_loop_absent _ _ a _ _ Hc); [|simpl in *; lia|done].
    change (last (a :: b :: rest)) with (last (b :: rest)).
    destruct (last (b :: rest)) eqn:E; [done|]. by apply last_None in E.
Qed.

Lemma ws_upd_eq st i s f :
  ws_at st i = Some s → ws_upd i f st = Some (set_wss (<[Z.to_nat i := f s]> (wss st)) st).
Proof. intros Hs. unfold ws_upd. by rewrite Hs. Qed.

Lemma ws_at_insert_eq st i s s' hp :
  ws_at st i = Some s →
  ws_at (set_heap hp (set_wss (<[Z.to_nat i := s']> (wss st)) st)) i = Some s'.
Proof.
  unfold ws_at. simpl. destruct (0 <=? i)%Z; [|done]. intros Hs.
  apply list_lookup_insert_eq. by apply lookup_lt_Some in Hs.
Qed.

Lemma store_eq st p c f :
  load st p = Some c → store p f st = Some (set_heap (<[p := f c]> (heap st)) st).
Proof. unfold load, store. by intros ->. Qed.

Lemma fresh_ptr_fresh st : fresh_ptr st ≠ NULL ∧ heap st !! fresh_ptr st = None.
Proof.
  unfold fresh_ptr. pose proof (is_fresh ({[NULL]} ∪ dom (heap st))) as Hf.
  split.
  - intros E. apply Hf. rewrite E. set_solver.
  - apply not_elem_of_dom. set_solver.
Qed.

(** [create_client] on a list that ends: the new client is linked behind the
    last one and the count grows by one. *)
Lemma create_client_ok cfg st w s l :
  ws_at st (cw st) = Some s → chain (heap st) (Workspace.head s) l →
  ∃ c st' s',
    create_client cfg w st = Some (c, st')
    ∧ (c ∉ l)
    ∧ st' = set_heap (heap st') (set_wss (<[Z.to_nat (cw st) := s']> (wss st)) st)
    ∧ ws_at st' (cw st) = Some s'
    ∧ chain (heap st') (Workspace.head s') (l ++ [c])
    ∧ Workspace.client_cnt s' = Workspace.client_cnt s + 1
    ∧ (Client.win <$> load st' c) = Some w
    ∧ (∀ q, q ∈ l → Client.win <$> load st' q = Client.win <$> load st q).
Proof.
  intros Hs Hc.
  destruct (fresh_ptr_fresh st) as [Hcn Hfresh].
  assert (fresh_ptr st ∉ l) as Hnin.
  { intros Hin. destruct (chain_elem _ _ _ _ Hc Hin) as [_ [? ?]]. congruence. }
  unfold create_client. set (c := fresh_ptr st) in *.
  set (st0 := set_heap (<[c := Client.zero]> (heap st)) st).
  assert (ws_at st0 (cw st0) = Some s) as Hs0 by exact Hs.
  assert (chain (heap st0) (Workspace.head s) l) as Hc0 by (by apply chain_insert_fresh).
  assert (load st0 c = Some Client.zero) as Hl0 by apply lookup_insert_eq.
  rewrite Hs0. cbn [mbind option_bind].
  rewrite (prev_client_head st0 (cw st0) s l Hs0 Hc0). cbn [mbind option_bind].
  (* the state after the client is linked *)
  assert (∃ st1 hd,
            (if is_null (Workspace.head s)
             then ws_upd (cw st0) (Workspace.set_head c) st0
             else if negb (is_null (match l with
                                    | _ :: _ :: _ => default NULL (last l)
                                    | _ => NULL
                                    end))
                  then store (match l with
                              | _ :: _ :: _ => default NULL (last l)
                              | _ => NULL
                              end) (Client.set_next c) st0
                  else store (Workspace.head s) (Client.set_next c) st0) = Some st1
            ∧ st1 = set_heap (heap st1)
                      (set_wss (<[Z.to_nat (cw st) := Workspace.set_head hd s]> (wss st)) st)
            ∧ chain (heap st1) hd (l ++ [c])
            ∧ load st1 c = Some Client.zero
            ∧ (∀ q, q ∈ l → Client.win <$> load st1 q = Client.win <$> load st q))
    as (st1 & hd & -> & Est1 & Hc1 & Hl1 & Hwin1).
  { destruct l as [|a l'].
    - simpl in Hc. rewrite Hc. simpl. rewrite (ws_upd_eq st0 _ s) by done.
      exists (set_wss (<[Z.to_nat (cw st) := Workspace.set_head c s]> (wss st)) st0), c.
      split; [done|]. split; [done|]. split.
      + simpl. split; [done|]. split; [done|]. exists Client.zero.
        split; [apply lookup_insert_eq|done].
      + split; [done|]. intros q Hq. by apply elem_of_nil in Hq.
    - pose proof Hc0 as (Ha & Han & _).
      rewrite (proj2 (is_null_false _) Han).
      assert (is_Some (last (a :: l'))) as [t Ht] by (by apply last_is_Some).
      assert (t ∈ a :: l') as Htin.
      { apply (list_elem_of_lookup_2 _ (pred (length (a :: l')))). by rewrite <- last_lookup. }
      destruct (chain_elem _ _ _ _ Hc0 Htin) as [Htn [tc Htc]].
      assert (t ≠ c) as Htc' by (intros ->; done).
      assert (∃ st1, (if negb (is_null (match a :: l' with
                                        | _ :: _ :: _ => default NULL (last (a :: l'))
                                        | _ => NULL
                                        end))
                      then store (match a :: l' with
                                  | _ :: _ :: _ => default NULL (last (a :: l'))
                                  | _ => NULL
                                  end) (Client.set_next c) st0
                      else store (Workspace.head s) (Client.set_next c) st0)
                     = Some st1
                     ∧ st1 = set_heap (<[t := Client.set_next c tc]> (heap st0)) st0)
        as (st1 & -> & Est1).
      { destruct l' as [|b l''].
        - simpl in Ht. injection Ht as <-. simpl. rewrite Ha.
          rewrite (store_eq st0 a tc) by done. eauto.
        - rewrite Ht. simpl. rewrite (proj2 (is_null_false _) Htn). simpl.
          rewrite (store_eq st0 t tc) by done. eauto. }
      exists st1, (Workspace.head s). split; [done|]. rewrite Est1. split.
      { simpl. destruct s. simpl. rewrite list_insert_id; [by destruct st|].
        unfold ws_at in Hs. by destruct (0 <=? cw st)%Z. }
      split; [|split].
      + cbn [heap set_heap].
        apply (chain_append _ _ _ t tc c Client.zero); try done.
      + unfold load. simpl. by rewrite lookup_insert_ne.
      + intros q Hq. unfold load. simpl.
        assert (q ≠ c) as Hqc by (intros ->; done).
        destruct (decide (q = t)) as [->|Hqt].
        * rewrite lookup_insert_eq. change (heap st !! t) with (load st t).
          assert (load st t = Some tc) as ->; [|done].
          unfold load. rewrite <- Htc. unfold st0. simpl. by rewrite lookup_insert_ne.
        * rewrite !lookup_insert_ne by done. done. }
  cbn [mbind option_bind].
  rewrite (store_eq st1 c Client.zero) by done. cbn [mbind option_bind].
  set (st2 := set_heap (<[c := Client.set_win w Client.zero]> (heap st1)) st1).
  assert (ws_at st2 (cw st2) = Some (Workspace.set_head hd s)) as Hs2.
  { unfold st2. rewrite Est1. simpl. by apply (ws_at_insert_eq st (cw st) s). }
  rewrite Hs2. cbn [mbind option_bind].
  assert (load st2 c = Some (Client.set_win w Client.zero)) as Hl2 by apply lookup_insert_eq.
  rewrite (store_eq st2 c _ _ Hl2). cbn [mbind option_bind].
  set (cfin := Client.set_gap _ _).
  set (st3 := set_heap (<[c := cfin]> (heap st2)) st2).
  assert (ws_at st3 (cw st3) = Some (Workspace.set_head hd s)) as Hs3 by exact Hs2.
  rewrite (ws_upd_eq st3 _ _ _ Hs3).
  eexists c, _, _. split; [reflexivity|]. split; [done|].
  assert (same_links (heap st1) (heap st3)) as Hlinks.
  { unfold st3, st2. simpl. eapply same_links_trans.
    - by apply (same_links_insert (heap st1) c Client.zero (Client.set_win w)).
    - apply (same_links_insert _ c (Client.set_win w Client.zero)
               (Client.set_gap (Workspace.gap (Workspace.set_head hd s)))); [|done].
      apply lookup_insert_eq. }
  split.
  { unfold st3, st2. rewrite Est1. simpl. rewrite list_insert_insert_eq. done. }
  split.
  { unfold st3, st2. rewrite Est1. simpl.
    unfold ws_at in *. simpl. destruct (0 <=? cw st)%Z; [|done].
    rewrite list_insert_insert_eq. apply list_lookup_insert_eq. by apply lookup_lt_Some in Hs. }
  split; [simpl; by apply (chain_same_links _ _ _ _ Hlinks)|].
  split; [done|]. split.
  { unfold load. simpl. by rewrite lookup_insert_eq. }
  intros q Hq. rewrite <- (Hwin1 q Hq). unfold load. simpl.
  assert (q ≠ c) as Hqc by (intros ->; done).
  by rewrite !lookup_insert_ne.
Qed.

(** A client made by [create_client] keeps the count of the current
    workspace equal to the length of its list. *)
Lemma create_client_count_agrees cfg st w :
  count_agrees st (cw st) →
  ∃ c st', create_client cfg w st = Some (c, st') ∧ count_agrees st' (cw st').
Proof.
  intros (s & n & Hs & Hn & Hcnt). unfold list_length in Hn.
  destruct (clients_of st (Workspace.head s)) as [l|] eqn:El; [|done].
  injection Hn as <-. apply clients_of_chain in El.
  destruct (create_client_ok cfg st w s l Hs El)
    as (c & st' & s' & -> & _ & Est & Hs' & Hc' & Hcnt' & _).
  exists c, st'. split; [done|].
  assert (cw st' = cw st) as -> by (by rewrite Est).
  exists s', (length (l ++ [c])). split; [done|]. split.
  - unfold list_length. apply clients_of_chain in Hc'. by rewrite Hc'.
  - rewrite Hcnt', Hcnt, length_app. simpl. lia.
Qed.

(** ** Windows of type DOCK *)

(** The loop over the type atoms returns at the first DOCK or TOOLBAR atom;
    before it, it has at most set [is_floating] of the client. *)
Lemma map_event_types_dock atoms c st cc :
  existsb dock_type atoms = true → load st c = Some cc →
  ∃ st' cc', map_event_types atoms c st = Some (true, st')
             ∧ st' = set_heap (<[c := cc']> (heap st)) st
             ∧ Client.next cc' = Client.next cc ∧ Client.win cc' = Client.win cc.
Proof.
  revert st cc. induction atoms as [|a atoms IH]; intros st cc Hex Hl; [done|].
  simpl in *. destruct (dock_type a).
  - exists st, cc. split; [done|]. split; [|done].
    rewrite insert_id by done. by destruct st.
  - simpl in Hex. destruct (floating_type a); [|by apply IH].
    rewrite (store_eq st c cc) by done. simpl.
    destruct (IH (set_heap (<[c := Client.set_is_floating true cc]> (heap st)) st)
                 (Client.set_is_floating true cc) Hex) as (st' & cc' & -> & Est & Hn & Hw);
      [apply lookup_insert_eq|].
    exists st', cc'. split; [done|]. split; [|done].
    rewrite Est. simpl. by rewrite insert_insert_eq.
Qed.

(** C5 fails wherever the list of the current workspace ends: for a window
    that is not managed yet and whose type atoms contain DOCK or TOOLBAR,
    [map_event] returns with a client for the window linked at the end of the
    list of the current workspace, and with the count of that workspace grown
    by one.  The client is created before the type is read, and the return at
    the atom does not undo it. *)
Theorem map_event_dock_is_managed cfg st me atoms s l :
  ws_at st (cw st) = Some s →
  clients_of st (Workspace.head s) = Some l →
  me_wa me = Some false →
  find_client_by_win cfg st (me_window me) = Some NULL →
  me_type me = Some atoms →
  existsb dock_type atoms = true →
  ∃ st' s' c,
    map_event cfg me st = Some st'
    ∧ cw st' = cw st
    ∧ ws_at st' (cw st) = Some s'
    ∧ clients_of st' (Workspace.head s') = Some (l ++ [c])
    ∧ (Client.win <$> load st' c) = Some (me_window me)
    ∧ Workspace.client_cnt s' = Workspace.client_cnt s + 1.
Proof.
  intros Hs Hl Hwa Hfind Hty Hdock. apply clients_of_chain in Hl.
  destruct (create_client_ok cfg st (me_window me) s l Hs Hl)
    as (c & st1 & s' & Hcreate & Hnin & Est1 & Hs1 & Hc1 & Hcnt & Hwin & _).
  unfold map_event. rewrite Hwa, Hfind, Hcreate, Hty. simpl.
  destruct (load st1 c) as [cc|] eqn:Hcc; [|done].
  destruct (map_event_types_dock atoms c st1 cc Hdock Hcc) as (st' & cc' & -> & Est & Hn & Hw).
  exists st', s', c. split; [done|].
  split; [by rewrite Est, Est1|]. split; [by rewrite Est|].
  split; [|split; [|done]].
  - apply clients_of_chain. rewrite Est. simpl.
    apply (chain_same_links (heap st1)); [|done].
    intros q. destruct (decide (c = q)) as [<-|Hne].
    + rewrite lookup_insert_eq. unfold load in Hcc. rewrite Hcc. simpl. by rewrite Hn.
    + by rewrite lookup_insert_ne.
  - rewrite Est. unfold load. simpl. rewrite lookup_insert_eq. simpl.
    rewrite Hw. simpl in Hwin. by injection Hwin as ->.
Qed.

(** A DOCK window is mapped on the empty start state: afterwards the list of
    workspace 1 holds a client for it and the count is 1. *)
Lemma map_event_dock_is_managed_witness :
  ∃ st', map_event cfg_example (dock_window 10) st_start = Some st'
         ∧ windows_of st' 1 = Some [10]
         ∧ count_of st' 1 = Some 1
         ∧ find_client_by_win cfg_example st' 10 = Some 1%N.
Proof.
  destruct (map_event_dock_is_managed cfg_example st_start (dock_window 10) [TYPE_DOCK]
              ws_example []) as (st' & s' & c & Hmap & _); [run..|].
  exists st'. split; [exact Hmap|].
  assert (Some st' = map_event cfg_example (dock_window 10) st_start) as Hst by done.
  vm_compute in Hst. injection Hst as ->. run_all.
Defined.

(** ** The workspace cut *)

Lemma wf_set_del_reg cfg st r : wf cfg st → wf cfg (set_del_reg r st).
Proof. intros H. exact H. Qed.

Lemma wf_insert cfg st i s' :
  wf cfg st → ws_ok (heap st) s' → wf cfg (set_wss (<[i := s']> (wss st)) st).
Proof.
  intros (Hlen & Hcw & Hall) Hok. split; [simpl; by rewrite length_insert|].
  split; [done|]. simpl. intros j s Hj.
  destruct (decide (i = j)) as [<-|Hne].
  - destruct (decide (i < length (wss st))%nat) as [Hlt|Hge].
    + rewrite list_lookup_insert_eq in Hj by done. by injection Hj as <-.
    + rewrite list_insert_ge in Hj by lia. by apply (Hall i).
  - rewrite list_lookup_insert_ne in Hj by done. by apply (Hall j).
Qed.

Lemma ws_at_set_wss st st' i j s' :
  (Z.to_nat i < length (wss st))%nat → 0 ≤ i → 0 ≤ j →
  ws_at (set_wss (<[Z.to_nat i := s']> (wss st)) st') j
  = if decide (i = j) then Some s' else ws_at st j.
Proof.
  intros Hlt Hi Hj. unfold ws_at. simpl.
  rewrite (proj2 (Z.leb_le 0 j)) by done.
  destruct (decide (i = j)) as [<-|Hne].
  - by apply list_lookup_insert_eq.
  - apply list_lookup_insert_ne. lia.
Qed.

Lemma ws_at_nonneg st i s : ws_at st i = Some s → 0 ≤ i ∧ (Z.to_nat i < length (wss st))%nat.
Proof.
  unfold ws_at. destruct (0 <=? i)%Z eqn:E; [|done]. intros Hs.
  split; [by apply Z.leb_le|]. by apply lookup_lt_Some in Hs.
Qed.

Lemma correct_ws_range cfg z :
  1 ≤ WORKSPACES cfg → 0 ≤ z ≤ 2 * WORKSPACES cfg → 1 ≤ correct_ws cfg z ≤ WORKSPACES cfg.
Proof.
  intros HW Hz. unfold correct_ws.
  destruct (WORKSPACES cfg <? z)%Z eqn:E1; [apply Z.ltb_lt in E1; lia|].
  apply Z.ltb_ge in E1. destruct (z <? 1)%Z eqn:E2.
  - apply Z.ltb_lt in E2. lia.
  - apply Z.ltb_ge in E2. lia.
Qed.

(** One round of the workspace loop of [op_cut]: the list of workspace
    [cw + cnt - 1] is pushed and its pointers are cleared; the count that is
    set to zero is the one of workspace [cw + cnt - 2]. *)
Lemma op_cut_ws_round cfg st cnt k :
  wf cfg st → 1 ≤ cnt ≤ WORKSPACES cfg →
  let i := correct_ws cfg (cw st + cnt - 1) in
  let i2 := correct_ws cfg (cw st + (cnt - 1) - 1) in
  ∃ s st1 s2,
    ws_at st i = Some s
    ∧ st1 = set_wss (<[Z.to_nat i := cut_ws s]> (wss st))
              (set_del_reg (stack_push cfg (Workspace.head s) (del_reg st)) st)
    ∧ ws_at st1 i2 = Some s2
    ∧ op_cut_ws_loop cfg (S k) cnt st
      = op_cut_ws_loop cfg k (cnt - 1)
          (set_wss (<[Z.to_nat i2 := Workspace.set_client_cnt 0 s2]> (wss st1)) st1).
Proof.
  intros Hwf Hcnt i i2. pose proof Hwf as (Hlen & Hcw & Hall).
  assert (1 ≤ i ≤ WORKSPACES cfg) as Hi by (apply correct_ws_range; lia).
  assert (1 ≤ i2 ≤ WORKSPACES cfg) as Hi2 by (apply correct_ws_range; lia).
  destruct (wf_ws_at cfg st i Hwf) as (s & Hs & l & Hch & _); [lia|].
  destruct (ws_at_nonneg _ _ _ Hs) as [Hi0 Hilt].
  exists s. eexists. 
  set (st1 := set_wss (<[Z.to_nat i := cut_ws s]> (wss st))
                (set_del_reg (stack_push cfg (Workspace.head s) (del_reg st)) st)).
  assert (is_Some (ws_at st1 i2)) as [s2 Hs2].
  { unfold st1. rewrite ws_at_set_wss by (simpl; lia).
    destruct (decide (i = i2)); [done|].
    destruct (wf_ws_at cfg st i2 Hwf) as (s2 & Hs2 & _); [lia|]. by exists s2. }
  exists s2. split; [done|]. split; [reflexivity|]. split; [done|].
  cbn [op_cut_ws_loop]. rewrite (proj2 (Z.ltb_lt 0 cnt)) by lia.
  fold i. rewrite Hs. cbn [mbind option_bind].
  rewrite (walk_chain _ _ _ _ Hch (chain_fuel _ _ _ Hch)). cbn [mbind option_bind].
  set (st0 := set_del_reg _ st).
  assert (ws_at st0 i = Some s) as Hs0 by exact Hs.
  rewrite (ws_upd_eq st0 i s _ Hs0). cbn [mbind option_bind].
  set (stA := set_wss _ st0).
  assert (ws_at stA i = Some (Workspace.set_head NULL s)) as HsA.
  { unfold stA. rewrite ws_at_set_wss by done. by rewrite decide_True. }
  rewrite (ws_upd_eq stA i _ _ HsA). cbn [mbind option_bind].
  set (stB := set_wss _ stA).
  assert (ws_at stB i = Some (Workspace.set_prev_foc NULL (Workspace.set_head NULL s))) as HsB.
  { unfold stB. rewrite ws_at_set_wss; [by rewrite decide_True| |done|done].
    unfold stA. simpl. by rewrite length_insert. }
  rewrite (ws_upd_eq stB i _ _ HsB). cbn [mbind option_bind].
  set (stC := set_wss _ stB).
  assert (stC = st1) as ->.
  { unfold stC, stB, stA, st1, st0, cut_ws. simpl. by rewrite !list_insert_insert_eq. }
  change (cw st1) with (cw st). fold i2.
  by rewrite (ws_upd_eq st1 i2 s2 _ Hs2).
Qed.

Lemma ws_ok_cut hp s : ws_ok hp s → ws_ok hp (cut_ws s).
Proof. intros (l & _ & _ & _ & Hlay). exists []. simpl. auto. Qed.

Lemma ws_ok_set_client_cnt hp s n : ws_ok hp s → ws_ok hp (Workspace.set_client_cnt n s).
Proof. intros (l & H). by exists l. Qed.

Lemma wf_ws_at_ok cfg st i s : wf cfg st → ws_at st i = Some s → ws_ok (heap st) s.
Proof.
  intros (_ & _ & Hall). unfold ws_at. destruct (0 <=? i)%Z; [|done]. apply Hall.
Qed.

(** The workspace loop of [op_cut] on a well-formed state: it returns, it
    never sets a head that is nil, and the list of the first workspace it
    visits, [cw + cnt - 1], is cut. *)
Lemma op_cut_ws_loop_ok cfg k cnt st :
  wf cfg st → cnt = Z.of_nat k → cnt ≤ WORKSPACES cfg →
  ∃ st', op_cut_ws_loop cfg k cnt st = Some st'
         ∧ wf cfg st' ∧ cw st' = cw st
         ∧ (∀ j s, ws_at st j = Some s →
                   ∃ s', ws_at st' j = Some s'
                         ∧ (Workspace.head s = NULL → Workspace.head s' = NULL))
         ∧ (0 < cnt → ∃ s', ws_at st' (correct_ws cfg (cw st + cnt - 1)) = Some s'
                            ∧ Workspace.head s' = NULL).
Proof.
  revert cnt st. induction k as [|k IH]; intros cnt st Hwf Hk Hcnt.
  - simpl. rewrite (proj2 (Z.ltb_ge 0 cnt)) by lia.
    exists st. split; [done|]. split; [done|]. split; [done|].
    split; [eauto|lia].
  - destruct (op_cut_ws_round cfg st cnt k Hwf) as (s & st1 & s2 & Hs & Est1 & Hs2 & ->); [lia|].
    set (i := correct_ws cfg (cw st + cnt - 1)) in *.
    set (i2 := correct_ws cfg (cw st + (cnt - 1) - 1)) in *.
    destruct (ws_at_nonneg _ _ _ Hs) as [Hi0 Hilt].
    destruct (ws_at_nonneg _ _ _ Hs2) as [Hi20 Hi2lt].
    assert (wf cfg st1) as Hwf1.
    { rewrite Est1.
      change (wss st)
        with (wss (set_del_reg (stack_push cfg (Workspace.head s) (del_reg st)) st)).
      apply wf_insert; [by apply wf_set_del_reg|].
      apply ws_ok_cut. by apply (wf_ws_at_ok cfg st i). }
    set (st2 := set_wss (<[Z.to_nat i2 := Workspace.set_client_cnt 0 s2]> (wss st1)) st1).
    assert (wf cfg st2) as Hwf2.
    { apply wf_insert; [done|]. apply ws_ok_set_client_cnt. by apply (wf_ws_at_ok cfg st1 i2). }
    assert (cw st2 = cw st) as Hcw2 by (unfold st2; rewrite Est1; done).
    assert (∀ j s0, ws_at st j = Some s0 →
              ∃ s', ws_at st2 j = Some s'
                    ∧ (Workspace.head s' = Workspace.head s0 ∨ Workspace.head s' = NULL)
                    ∧ (j = i → Workspace.head s' = NULL)) as Hstep.
    { intros j s0 Hj. destruct (ws_at_nonneg _ _ _ Hj) as [Hj0 _].
      assert (ws_at st1 j = if decide (i = j) then Some (cut_ws s) else Some s0) as Hj1.
      { rewrite Est1, ws_at_set_wss by done. destruct (decide (i = j)); [done|exact Hj]. }
      unfold st2. rewrite ws_at_set_wss by done.
      destruct (decide (i2 = j)) as [<-|Hne2].
      - rewrite Hs2 in Hj1. exists (Workspace.set_client_cnt 0 s2). split; [done|].
        destruct (decide (i = i2)); injection Hj1 as ->; simpl; auto.
        split; [auto|]. intros ?. congruence.
      - rewrite Hj1. destruct (decide (i = j)) as [<-|Hne].
        + exists (cut_ws s). simpl. auto.
        + exists s0. split; [done|]. split; [auto|]. intros ?. congruence. }
    destruct (IH (cnt - 1) st2 Hwf2) as (st' & -> & Hwf' & Hcw' & Hpres & _); [lia..|].
    exists st'. split; [done|]. split; [done|]. split; [congruence|]. split.
    + intros j s0 Hj. destruct (Hstep j s0 Hj) as (s'' & Hj2 & Hh & _).
      destruct (Hpres j s'' Hj2) as (s' & Hj' & Hn). exists s'. split; [done|].
      intros H0. apply Hn. destruct Hh as [->| ->]; done.
    + intros _. destruct (Hstep i s Hs) as (s'' & Hj2 & _ & Hn).
      destruct (Hpres i s'' Hj2) as (s' & Hj' & Hn'). exists s'. split; [done|].
      apply Hn'. by apply Hn.
Qed.

(** The workspace branch of [op_cut]: it is taken for a workspace motion, and
    for a client motion whose count reaches the count of the workspace. *)
Lemma op_cut_ws_branch cfg st s type cnt :
  wf cfg st → ws_at st (cw st) = Some s → Workspace.current s ≠ NULL →
  type = WORKSPACE ∨ (type = CLIENT ∧ Workspace.client_cnt s ≤ cnt) →
  Stack.size (del_reg st) < DELETE_REGISTER_SIZE cfg →
  cnt + Stack.size (del_reg st) ≤ DELETE_REGISTER_SIZE cfg →
  op_cut cfg type cnt st = op_cut_ws_loop cfg (Z.to_nat cnt) cnt st.
Proof.
  intros Hwf Hs Hcur Hty Hsize Hroom. unfold op_cut. rewrite Hs. cbn [mbind option_bind].
  destruct (wf_ws_at_ok cfg st _ s Hwf Hs) as (l & Hch & _).
  destruct (prev_client_in st (Workspace.current s) (cw st) s l Hs Hch) as (p & -> & _).
  cbn [mbind option_bind].
  rewrite (proj2 (is_null_false _) Hcur).
  rewrite (proj2 (Z.leb_gt _ _)) by lia.
  assert (bool_decide (type = CLIENT) && (Workspace.client_cnt s <=? cnt)%Z
          || bool_decide (type = WORKSPACE) = true) as ->.
  { destruct Hty as [->|[-> Hle]].
    - by rewrite orb_true_r.
    - by rewrite bool_decide_eq_true_2, (proj2 (Z.leb_le _ _) Hle). }
  by rewrite (proj2 (Z.ltb_ge _ _)) by lia.
Qed.

(** C1 fails after every workspace cut of one workspace: on a well-formed
    state with two or more workspaces whose current workspace has a focused
    client and a count equal to the length of its list, [op_cut(WORKSPACE, 1)]
    returns with the list of the current workspace empty and its [client_cnt]
    as before.  The loop decrements [cnt] before it zeroes [client_cnt], so
    the zero is written to the workspace before the current one. *)
Theorem op_cut_workspace_count_disagrees cfg st s :
  wfb cfg st = true →
  2 ≤ WORKSPACES cfg →
  ws_at st (cw st) = Some s →
  Workspace.current s ≠ NULL →
  Stack.size (del_reg st) < DELETE_REGISTER_SIZE cfg →
  count_agrees st (cw st) →
  ∃ st' s', op_cut cfg WORKSPACE 1 st = Some st'
            ∧ cw st' = cw st
            ∧ ws_at st' (cw st) = Some s'
            ∧ Workspace.head s' = NULL
            ∧ Workspace.client_cnt s' = Workspace.client_cnt s
            ∧ 0 < Workspace.client_cnt s
            ∧ ¬ count_agrees st' (cw st').
Proof.
  intros Hwf HW Hs Hcur Hsize Hagree. apply wfb_wf in Hwf.
  pose proof Hwf as (Hlen & Hcw & Hall).
  rewrite (op_cut_ws_branch cfg st s WORKSPACE 1 Hwf Hs Hcur) by (auto; lia).
  change (Z.to_nat 1) with 1%nat.
  destruct (op_cut_ws_round cfg st 1 0 Hwf) as (s0 & st1 & s2 & Hs0 & Est1 & Hs2 & ->); [lia|].
  assert (correct_ws cfg (cw st + 1 - 1) = cw st) as Ei.
  { unfold correct_ws. replace (cw st + 1 - 1) with (cw st) by lia.
    by rewrite (proj2 (Z.ltb_ge _ _)), (proj2 (Z.ltb_ge _ _)) by lia. }
  rewrite Ei in *. rewrite Hs in Hs0. injection Hs0 as <-.
  set (i2 := correct_ws cfg (cw st + (1 - 1) - 1)) in *.
  assert (i2 ≠ cw st) as Hne.
  { unfold i2, correct_ws. replace (cw st + (1 - 1) - 1) with (cw st - 1) by lia.
    rewrite (proj2 (Z.ltb_ge _ _)) by lia.
    destruct (cw st - 1 <? 1)%Z eqn:E; [apply Z.ltb_lt in E|]; lia. }
  destruct (ws_at_nonneg _ _ _ Hs) as [Hc0 Hclt].
  destruct (ws_at_nonneg _ _ _ Hs2) as [Hi20 Hi2lt].
  simpl. eexists _, (cut_ws s). split; [reflexivity|].
  assert (0 < Workspace.client_cnt s) as Hpos.
  { destruct Hagree as (s0 & n & Hs0 & Hn & Hcnt). rewrite Hs in Hs0. injection Hs0 as <-.
    unfold list_length in Hn.
    destruct (clients_of st (Workspace.head s)) as [l|] eqn:El; [|done].
    injection Hn as <-. apply clients_of_chain in El.
    destruct (wf_ws_at_ok cfg st _ s Hwf Hs) as (l0 & Hch & [?|Hin] & _); [done|].
    pose proof (chain_det _ _ _ _ El Hch) as ->.
    destruct l0; [by apply elem_of_nil in Hin|]. simpl in Hcnt. lia. }
  assert (ws_at (set_wss (<[Z.to_nat i2 := Workspace.set_client_cnt 0 s2]> (wss st1)) st1)
                (cw st) = Some (cut_ws s)) as Hfin.
  { rewrite ws_at_set_wss by done. rewrite decide_False by done.
    rewrite Est1, ws_at_set_wss by done. by rewrite decide_True. }
  split; [by rewrite Est1|]. split; [exact Hfin|].
  split; [done|]. split; [done|]. split; [done|].
  intros (s' & n & Hs' & Hn & Hcnt).
  assert (cw (set_wss (<[Z.to_nat i2 := Workspace.set_client_cnt 0 s2]> (wss st1)) st1)
          = cw st) as Ecw by (by rewrite Est1).
  rewrite Ecw, Hfin in Hs'. injection Hs' as <-.
  unfold list_length in Hn. simpl in Hn.
  rewrite (proj2 (clients_of_chain _ NULL []) eq_refl) in Hn.
  injection Hn as <-. simpl in Hcnt. lia.
Qed.

Lemma op_cut_workspace_count_disagrees_witness :
  ∃ st st', map_event cfg_example (plain_window 10) st_start = Some st
            ∧ op_cut cfg_example WORKSPACE 1 st = Some st'
            ∧ windows_of st' 1 = Some []
            ∧ count_of st' 1 = Some 1
            ∧ ¬ count_agrees st' (cw st').
Proof.
  eexists. 
  assert (∃ st, map_event cfg_example (plain_window 10) st_start = Some st) as [st Hst]
    by (eexists; run).
  pose proof Hst as Hst'. vm_compute in Hst'. injection Hst' as <-.
  match type of Hst with
  | _ = Some ?st =>
      let s := eval vm_compute in (default ws_example (ws_at st 1)) in
      destruct (op_cut_workspace_count_disagrees cfg_example st s)
        as (st' & s' & Hcut & _ & _ & _ & _ & _ & Hno)
  end.
  - run.
  - simpl. lia.
  - run.
  - vm_compute. discriminate.
  - vm_compute. reflexivity.
  - eexists _, _. split; [run|]. split; [run|]. run.
  - exists st'. split; [exact Hst|]. split; [exact Hcut|].
    assert (∃ st2, op_cut cfg_example WORKSPACE 1
                     (default st_start (map_event cfg_example (plain_window 10) st_start))
                   = Some st2 ∧ windows_of st2 1 = Some [] ∧ count_of st2 1 = Some 1)
      as (st2 & H2 & Hw & Hc) by (eexists; split; [run|]; split; run).
    vm_compute in H2. vm_compute in Hcut. rewrite H2 in Hcut. injection Hcut as <-.
    split; [exact Hw|]. split; [exact Hc|]. exact Hno.
Defined.

(** C2 fails for every count of two or more: on a well-formed state, for a
    client motion with a count [cnt] that reaches the count of the current
    workspace, [op_cut] runs the workspace loop with [cnt] as it is, and the
    list of workspace [cw + cnt - 1], which is not the current one, is cut
    whatever it holds. *)
Theorem op_cut_client_cuts_other_workspace cfg st s cnt :
  wfb cfg st = true →
  ws_at st (cw st) = Some s →
  Workspace.current s ≠ NULL →
  Workspace.client_cnt s ≤ cnt →
  2 ≤ cnt ≤ WORKSPACES cfg →
  cnt + Stack.size (del_reg st) ≤ DELETE_REGISTER_SIZE cfg →
  correct_ws cfg (cw st + cnt - 1) ≠ cw st
  ∧ ∃ st' s', op_cut cfg CLIENT cnt st = Some st'
              ∧ ws_at st' (correct_ws cfg (cw st + cnt - 1)) = Some s'
              ∧ Workspace.head s' = NULL.
Proof.
  intros Hwf Hs Hcur Hle Hcnt Hroom. apply wfb_wf in Hwf.
  pose proof Hwf as (_ & Hcw & _).
  split.
  { unfold correct_ws. destruct (WORKSPACES cfg <? cw st + cnt - 1)%Z eqn:E1; [lia|].
    destruct (cw st + cnt - 1 <? 1)%Z; lia. }
  rewrite (op_cut_ws_branch cfg st s CLIENT cnt Hwf Hs Hcur) by (auto; lia).
  destruct (op_cut_ws_loop_ok cfg (Z.to_nat cnt) cnt st Hwf) as (st' & -> & _ & _ & _ & Hcut);
    [lia..|].
  destruct Hcut as (s' & Hs' & Hh); [lia|]. by exists st', s'.
Qed.

Lemma op_cut_client_cuts_other_workspace_witness :
  ∃ st st', st_two_workspaces = Some st
            ∧ cw st = 1
            ∧ windows_of st 1 = Some [10] ∧ count_of st 1 = Some 1
            ∧ windows_of st 2 = Some [11; 12] ∧ count_of st 2 = Some 2
            ∧ op_cut cfg_example CLIENT 2 st = Some st'
            ∧ (Workspace.head <$> ws_at st' 2) = Some NULL.
Proof.
  assert (∃ st, st_two_workspaces = Some st) as [st Hst] by (eexists; run).
  pose proof Hst as Hst'. vm_compute in Hst'. injection Hst' as <-.
  match type of Hst with
  | _ = Some ?st =>
      let s := eval vm_compute in (default ws_example (ws_at st 1)) in
      destruct (op_cut_client_cuts_other_workspace cfg_example st s 2)
        as (_ & st' & s' & Hcut & Hs' & Hh)
  end.
  - run.
  - run.
  - vm_compute. discriminate.
  - vm_compute. discriminate.
  - simpl. lia.
  - vm_compute. discriminate.
  - eexists _, st'. split; [exact Hst|].
    split; [run|]. split; [run|]. split; [run|]. split; [run|]. split; [run|].
    split; [exact Hcut|].
    change (correct_ws cfg_example _) with 2 in Hs'. rewrite Hs'. simpl. by rewrite Hh.
Defined.

(** The same input, evaluated: both lists are cut, two lists are pushed, and
    the count of workspace 2 stays at 2. *)
Lemma op_cut_client_two_workspaces :
  (st ← st_two_workspaces;
   st ← op_cut cfg_example CLIENT 2 st;
   Some (windows_of st 1, windows_of st 2, count_of st 2, Stack.size (del_reg st)))
  = Some (Some [], Some [], Some 2, 2).
Proof. run. Qed.

(** With a count equal to the client count the other slip shows: the list of
    the current workspace is cut, its count stays, and the count of the
    workspace before it is set to zero. *)
Lemma op_cut_client_zeroes_previous_workspace :
  (st ← st_two_workspaces;
   st ← change_ws cfg_example 3 st;
   st ← map_event cfg_example (plain_window 13) st;
   st ← op_cut cfg_example CLIENT 1 st;
   Some (cw st, windows_of st 3, count_of st 3, windows_of st 2, count_of st 2))
  = Some (3, Some [], Some 1, Some [11; 12], Some 0).
Proof. run. Qed.

(** * Further properties *)

(** ** The delete register *)

Lemma items_upto_insert n m i c :
  (n < i)%nat → items_upto n (<[Z.of_nat i := c]> m) = items_upto n m.
Proof.
  induction n as [|k IH]; intros Hlt; [done|].
  simpl items_upto. rewrite IH by lia.
  rewrite lookup_insert_ne by lia. done.
Qed.

(** X1: the delete register is a stack.  A push of a client on a register
    that is not full puts it on top, and the pop that follows returns it and
    leaves the items that were there; a full register ignores the push, and
    an empty one pops nil and stays as it is. *)
Theorem stack_push_pop_lifo cfg s l c :
  stack_items s = Some l →
  c ≠ NULL →
  (Stack.size s < DELETE_REGISTER_SIZE cfg →
     stack_items (stack_push cfg c s) = Some (l ++ [c])
     ∧ ∃ s', stack_pop (stack_push cfg c s) = Some (c, s')
             ∧ Stack.size s' = Stack.size s ∧ stack_items s' = Some l)
  ∧ (DELETE_REGISTER_SIZE cfg ≤ Stack.size s → stack_push cfg c s = s)
  ∧ (Stack.size s = 0 → stack_pop s = Some (NULL, s)).
Proof.
  intros Hl Hc. unfold stack_items in Hl.
  destruct (0 <=? Stack.size s)%Z eqn:E0; [|done]. apply Z.leb_le in E0.
  unfold stack_push. rewrite (proj2 (is_null_false _) Hc).
  split; [|split].
  - intros Hlt. rewrite (proj2 (Z.leb_gt _ _) Hlt).
    assert (Stack.size s + 1 = Z.of_nat (S (Z.to_nat (Stack.size s)))) as Ei by lia.
    assert (items_upto (Z.to_nat (Stack.size s))
              (<[Stack.size s + 1 := c]> (Stack.contents s)) = Some l) as Hl'.
    { rewrite Ei, items_upto_insert by lia. done. }
    split.
    + unfold stack_items. simpl.
      rewrite (proj2 (Z.leb_le _ _)) by lia.
      replace (Z.to_nat (Stack.size s + 1)) with (S (Z.to_nat (Stack.size s))) by lia.
      simpl items_upto. rewrite Hl'. simpl. rewrite <- Ei, lookup_insert_eq. done.
    + unfold stack_pop. simpl.
      rewrite bool_decide_eq_false_2 by lia. rewrite lookup_insert_eq. simpl.
      eexists. split; [done|]. simpl. split; [lia|].
      unfold stack_items. simpl. rewrite (proj2 (Z.leb_le _ _)) by lia.
      replace (Stack.size s + 1 - 1) with (Stack.size s) by lia. done.
  - intros Hge. by rewrite (proj2 (Z.leb_le _ _) Hge).
  - intros Hz. unfold stack_pop. by rewrite bool_decide_eq_true_2.
Qed.

Lemma stack_push_pop_lifo_witness :
  let s := stack_push cfg_example 7%N (Stack.mk 0 ∅) in
  stack_items s = Some [7%N]
  ∧ stack_items (stack_push cfg_example 9%N s) = Some [7%N; 9%N]
  ∧ ∃ s', stack_pop (stack_push cfg_example 9%N s) = Some (9%N, s')
          ∧ Stack.size s' = Stack.size s ∧ stack_items s' = Some [7%N].
Proof.
  intros s. split; [reflexivity|].
  destruct (stack_push_pop_lifo cfg_example s [7%N] 9%N) as (H & _ & _);
    [reflexivity | discriminate |].
  apply H. vm_compute. reflexivity.
Defined.

(** ** Workspace numbers *)

(** X2: [correct_ws] wraps a number that is off by less than one round into
    the range of the workspaces, and keeps a number that is in the range; a
    number above twice [WORKSPACES] stays above [WORKSPACES]. *)
Theorem correct_ws_wraps cfg ws :
  1 ≤ WORKSPACES cfg →
  (- WORKSPACES cfg < ws ≤ 2 * WORKSPACES cfg →
     1 ≤ correct_ws cfg ws ≤ WORKSPACES cfg
     ∧ (correct_ws cfg ws - ws) mod WORKSPACES cfg = 0)
  ∧ (1 ≤ ws ≤ WORKSPACES cfg → correct_ws cfg ws = ws)
  ∧ (2 * WORKSPACES cfg < ws → WORKSPACES cfg < correct_ws cfg ws).
Proof.
  intros HW. unfold correct_ws.
  destruct (WORKSPACES cfg <? ws)%Z eqn:E1;
    [apply Z.ltb_lt in E1|apply Z.ltb_ge in E1];
    (destruct (ws <? 1)%Z eqn:E2; [apply Z.ltb_lt in E2|apply Z.ltb_ge in E2]).
  all: split; [intros H; split; [lia|]|split; intros; lia].
  - replace (ws - WORKSPACES cfg - ws) with (-1 * WORKSPACES cfg) by lia.
    apply Z_mod_mult.
  - replace (ws - WORKSPACES cfg - ws) with (-1 * WORKSPACES cfg) by lia.
    apply Z_mod_mult.
  - replace (ws + WORKSPACES cfg - ws) with (1 * WORKSPACES cfg) by lia.
    apply Z_mod_mult.
  - replace (ws - ws) with 0 by lia. apply Zmod_0_l.
Qed.

Lemma correct_ws_wraps_witness :
  (1 ≤ correct_ws cfg_example 6 ≤ WORKSPACES cfg_example
   ∧ (correct_ws cfg_example 6 - 6) mod WORKSPACES cfg_example = 0)
  ∧ correct_ws cfg_example 6 = 1 ∧ correct_ws cfg_example 0 = 5.
Proof.
  destruct (correct_ws_wraps cfg_example 6) as (H & _ & _); [simpl; lia|].
  split; [apply H; simpl; lia|]. split; reflexivity.
Defined.

(** ** The focus pointers after [update_focused_client] *)

Lemma set_wss_id st : set_wss (wss st) st = st.
Proof. by destruct st. Qed.

Lemma ws_at_lookup st i s : ws_at st i = Some s → wss st !! Z.to_nat i = Some s.
Proof. unfold ws_at. by destruct (0 <=? i)%Z. Qed.

Lemma fuel_of_heap st st' : heap st' = heap st → fuel_of st' = fuel_of st.
Proof. intros E. with_strategy transparent [fuel_of] (unfold fuel_of). by rewrite E. Qed.

Lemma prev_client_loop_heap fuel st st' c p :
  heap st' = heap st → prev_client_loop fuel st' c p = prev_client_loop fuel st c p.
Proof.
  intros E. revert p. induction fuel as [|k IH]; intros p; [done|].
  simpl. unfold load. rewrite E. destruct (heap st !! p) as [pc|]; [|done]. simpl.
  by rewrite IH.
Qed.

(** [prev_client] reads the heap and the head of the workspace. *)
Lemma prev_client_ext st st' c ws s s' :
  heap st' = heap st → ws_at st ws = Some s → ws_at st' ws = Some s' →
  Workspace.head s' = Workspace.head s →
  prev_client st' c ws = prev_client st c ws.
Proof.
  intros E Hs Hs' Hh. unfold prev_client. rewrite Hs, Hs'. simpl.
  rewrite Hh, (fuel_of_heap _ _ E). unfold load. rewrite E.
  destruct (is_null c); [done|]. destruct (is_null (Workspace.head s)); [done|].
  destruct (heap st !! Workspace.head s); [|done]. simpl.
  destruct (is_null (Client.next t)); [done|]. by apply prev_client_loop_heap.
Qed.

(** [update_focused_client] for a client of the current list: the focus
    pointers of the current workspace become those of [focus_ws], and the
    layout moves the windows; nothing else changes. *)
Lemma update_focused_client_spec cfg st c s l :
  ws_at st (cw st) = Some s → chain (heap st) (Workspace.head s) l →
  0 ≤ Workspace.layout s < END_LAYOUT → c ∈ l →
  ∃ st' p, update_focused_client cfg c st = Some st'
           ∧ prev_client st (Workspace.prev_foc s) (cw st) = Some p
           ∧ (p = NULL ∨ p ∈ l)
           ∧ geom_only (set_wss (<[Z.to_nat (cw st) := focus_ws p c s]> (wss st)) st) st'.
Proof.
  intros Hs Hch Hlay Hin.
  destruct (prev_client_in st (Workspace.prev_foc s) (cw st) s l Hs Hch) as (p & Hp & Hpl).
  destruct (chain_elem _ _ _ _ Hch Hin) as [Hcn [cc Hcc]].
  unfold update_focused_client.
  rewrite (proj2 (is_null_false _) Hcn), Hs. simpl.
  destruct (is_null (Workspace.head s)) eqn:Eh.
  { destruct l as [|q l]; [by apply elem_of_nil in Hin|].
    destruct Hch as (_ & Hn & _). by apply is_null_false in Hn; congruence. }
  set (upd := if ptr_eqb c (Workspace.prev_foc s) then _ else _).
  set (st1 := set_wss (<[Z.to_nat (cw st) := focus_ws p c s]> (wss st)) st).
  assert (ws_at st1 (cw st) = Some (focus_ws p c s)) as Hs1.
  { pose proof (ws_at_insert_eq st (cw st) s (focus_ws p c s) (heap st) Hs) as H.
    exact H. }
  assert (upd = Some st1) as ->.
  { unfold upd, st1, focus_ws. destruct (ptr_eqb c (Workspace.prev_foc s)) eqn:E1.
    - rewrite (ws_upd_eq st (cw st) s _ Hs). simpl.
      set (sta := set_wss _ st).
      assert (ws_at sta (cw st) = Some (Workspace.set_current (Workspace.prev_foc s) s)) as Hsa.
      { exact (ws_at_insert_eq st (cw st) s _ (heap st) Hs). }
      assert (prev_client sta (Workspace.prev_foc s) (cw st) = Some p) as ->.
      { rewrite <- Hp. by apply (prev_client_ext st sta _ _ s _ eq_refl Hs Hsa). }
      simpl. rewrite (ws_upd_eq sta (cw st) _ _ Hsa). unfold sta. simpl.
      by rewrite list_insert_insert_eq.
    - destruct (negb (ptr_eqb c (Workspace.current s))) eqn:E2; simpl.
      + by rewrite (ws_upd_eq st (cw st) s _ Hs).
      + rewrite list_insert_id by (by apply ws_at_lookup). by rewrite set_wss_id. }
  simpl. change (cw st1) with (cw st). rewrite Hs1. simpl.
  assert (Workspace.head (focus_ws p c s) = Workspace.head s
          ∧ Workspace.layout (focus_ws p c s) = Workspace.layout s
          ∧ Workspace.current (focus_ws p c s) = c) as (Hhd & Hly & Hcur).
  { unfold focus_ws. destruct (ptr_eqb c (Workspace.prev_foc s)) eqn:E1.
    - apply ptr_eqb_true in E1. simpl. auto.
    - destruct (negb (ptr_eqb c (Workspace.current s))) eqn:E2; simpl; [auto|].
      apply negb_false_iff, ptr_eqb_true in E2. auto. }
  assert (chain (heap st1) (Workspace.head (focus_ws p c s)) l) as Hch1 by (by rewrite Hhd).
  rewrite (walk_chain _ _ _ _ Hch1 (chain_fuel _ _ _ Hch1)). simpl.
  rewrite Hcur. change (load st1 c) with (load st c).
  change (load st c = Some cc) in Hcc. rewrite Hcc. simpl.
  destruct (arrange_windows_ok cfg st1 _ l Hs1 Hch1) as (st' & -> & Hg); [by rewrite Hly|].
  exists st', p. auto.
Qed.

(** ** The next and the previous workspace *)

(** X3: on a well-formed state [focus_next_ws] moves to workspace [cw + 1],
    or from the last workspace to the first, and [focus_prev_ws] after it
    moves back to the workspace it started from. *)
Theorem focus_next_prev_ws cfg st :
  wfb cfg st = true →
  ∃ st1 st2, focus_next_ws cfg st = Some st1
             ∧ cw st1 = (if bool_decide (cw st = WORKSPACES cfg) then 1 else cw st + 1)
             ∧ focus_prev_ws cfg st1 = Some st2
             ∧ cw st2 = cw st.
Proof.
  intros Hwf. apply wfb_wf in Hwf. pose proof Hwf as (_ & Hcw & _).
  unfold focus_next_ws, focus_prev_ws.
  set (n := if bool_decide (cw st = WORKSPACES cfg) then 1 else cw st + 1).
  assert (correct_ws cfg (cw st + 1) = n) as ->.
  { unfold correct_ws, n. case_bool_decide as E.
    - rewrite (proj2 (Z.ltb_lt _ _)) by lia. lia.
    - rewrite (proj2 (Z.ltb_ge _ _)), (proj2 (Z.ltb_ge _ _)) by lia. done. }
  assert (1 ≤ n ≤ WORKSPACES cfg) as Hn by (unfold n; case_bool_decide; lia).
  assert (∃ st1, change_ws cfg n st = Some st1 ∧ wf cfg st1 ∧ cw st1 = n)
    as (st1 & -> & Hwf1 & Hcw1).
  { destruct (decide (n = cw st)) as [E|E].
    - exists st. split; [apply change_ws_noop; [done|by left]|]. done.
    - destruct (change_ws_ok cfg st n Hwf Hn E) as (st1 & ? & ? & ? & _). eauto. }
  exists st1. rewrite Hcw1.
  assert (correct_ws cfg (n - 1) = cw st) as ->.
  { unfold correct_ws, n. case_bool_decide as E.
    - rewrite (proj2 (Z.ltb_ge _ _)), (proj2 (Z.ltb_lt _ _)) by lia. lia.
    - rewrite (proj2 (Z.ltb_ge _ _)), (proj2 (Z.ltb_ge _ _)) by lia. lia. }
  destruct (decide (cw st = cw st1)) as [E|E].
  - exists st1. split; [done|]. split; [done|].
    split; [apply change_ws_noop; [done|by left]|]. done.
  - destruct (change_ws_ok cfg st1 (cw st) Hwf1 Hcw E) as (st2 & ? & ? & ? & _).
    exists st2. auto.
Qed.

Lemma focus_next_prev_ws_witness :
  ∃ st st1 st2, st_two_by_two = Some st
                ∧ focus_next_ws cfg_example st = Some st1 ∧ cw st1 = 2
                ∧ focus_prev_ws cfg_example st1 = Some st2 ∧ cw st2 = 1.
Proof.
  assert (∃ st, st_two_by_two = Some st) as [st Hst] by (eexists; run).
  pose proof Hst as Hst'. vm_compute in Hst'. injection Hst' as <-.
  match type of Hst with
  | _ = Some ?st =>
      destruct (focus_next_prev_ws cfg_example st) as (st1 & st2 & H1 & H2 & H3 & H4); [run|];
      exists st, st1, st2
  end.
  split; [exact Hst|]. split; [exact H1|]. split; [exact H2|]. split; [exact H3|exact H4].
Defined.

Lemma same_but_focus_focus_ws p c s : same_but_focus s (focus_ws p c s).
Proof.
  unfold focus_ws, same_but_focus.
  destruct (ptr_eqb c (Workspace.prev_foc s)); [simpl; auto 10|].
  destruct (negb (ptr_eqb c (Workspace.current s))); simpl; auto 10.
Qed.

Lemma focus_ws_current p c s :
  Workspace.current (focus_ws p c s) = c.
Proof.
  unfold focus_ws. destruct (ptr_eqb c (Workspace.prev_foc s)) eqn:E1.
  - apply ptr_eqb_true in E1. done.
  - destruct (negb (ptr_eqb c (Workspace.current s))) eqn:E2; simpl; [done|].
    by apply negb_false_iff, ptr_eqb_true in E2.
Qed.

Lemma ws_ok_focus_ws hp p c s l :
  chain hp (Workspace.head s) l → ws_ok hp s → c ∈ l → p = NULL ∨ p ∈ l →
  ws_ok hp (focus_ws p c s).
Proof.
  intros Hch (l0 & Hch0 & Hcur & Hprev & Hlay) Hc Hp.
  pose proof (chain_det _ _ _ _ Hch0 Hch) as ->.
  exists l. unfold focus_ws.
  destruct (ptr_eqb c (Workspace.prev_foc s)) eqn:E1.
  - apply ptr_eqb_true in E1. simpl. rewrite <- E1. auto.
  - destruct (negb (ptr_eqb c (Workspace.current s))) eqn:E2; simpl; auto.
Qed.

(** What [update_focused_client] keeps, on a well-formed state, for nil or a
    client of the current list. *)
Lemma update_focused_client_frame cfg st c s l :
  wf cfg st → ws_at st (cw st) = Some s → chain (heap st) (Workspace.head s) l →
  c = NULL ∨ c ∈ l →
  ∃ st' s', update_focused_client cfg c st = Some st' ∧ wf cfg st'
            ∧ cw st' = cw st ∧ last_ws st' = last_ws st
            ∧ same_links (heap st) (heap st')
            ∧ ws_at st' (cw st) = Some s' ∧ same_but_focus s s'
            ∧ (c ≠ NULL → Workspace.current s' = c)
            ∧ (c = NULL → st' = st)
            ∧ (∀ j, j ≠ cw st → ws_at st' j = ws_at st j).
Proof.
  intros Hwf Hs Hch Hc.
  destruct (decide (c = NULL)) as [->|Hn].
  { exists st, s. unfold update_focused_client. simpl.
    split; [done|]. split; [done|]. split; [done|]. split; [done|].
    split; [apply same_links_refl|]. split; [done|].
    split; [unfold same_but_focus; auto 10|]. done. }
  destruct Hc as [?|Hin]; [done|].
  pose proof (wf_ws_at_ok cfg st _ s Hwf Hs) as Hok.
  pose proof Hok as (l0 & Hch0 & _ & _ & Hlay).
  destruct (update_focused_client_spec cfg st c s l Hs Hch Hlay Hin)
    as (st' & p & Hu & _ & Hp & Hg).
  set (st1 := set_wss _ st) in Hg.
  pose proof (ws_at_nonneg _ _ _ Hs) as [Hcw0 Hlt].
  assert (wf cfg st1) as Hwf1.
  { apply wf_insert; [done|]. by apply (ws_ok_focus_ws _ _ _ _ l). }
  exists st', (focus_ws p c s). split; [done|].
  split; [by apply (wf_geom_only _ st1)|].
  destruct Hg as [E L]. rewrite E. simpl.
  split; [done|]. split; [done|]. split; [done|].
  split; [exact (ws_at_insert_eq st (cw st) s _ (heap st') Hs)|].
  split; [apply same_but_focus_focus_ws|].
  split; [intros _; apply focus_ws_current|].
  split; [done|].
  intros j Hj. unfold ws_at. simpl. destruct (0 <=? j)%Z eqn:Ej; [|done].
  apply list_lookup_insert_ne. apply Z.leb_le in Ej. lia.
Qed.

(** ** Layouts *)

Lemma ws_ok_set_layout hp s i :
  ws_ok hp s → 0 ≤ i < END_LAYOUT → ws_ok hp (Workspace.set_layout i s).
Proof. intros (l & H1 & H2 & H3 & _) Hi. exists l. simpl. auto. Qed.

(** [change_layout] with a layout of the table that is not the current one. *)
Lemma change_layout_ok cfg g s i :
  wf cfg (lay_st g) → ws_at (lay_st g) (cw (lay_st g)) = Some s →
  0 ≤ i < END_LAYOUT → i ≠ Workspace.layout s →
  ∃ g', change_layout cfg i g = Some g' ∧ wf cfg (lay_st g')
        ∧ cw (lay_st g') = cw (lay_st g)
        ∧ layout_of (lay_st g') = Some i
        ∧ prev_layout g' = Workspace.layout s.
Proof.
  intros Hwf Hs Hi Hne. unfold change_layout. rewrite Hs. simpl.
  rewrite bool_decide_eq_false_2 by done.
  rewrite (proj2 (Z.leb_gt _ _)), (proj2 (Z.ltb_ge _ _)) by lia. simpl.
  pose proof (wf_ws_at_ok cfg _ _ s Hwf Hs) as Hok.
  destruct (ws_upd_wf cfg (lay_st g) (cw (lay_st g)) s (Workspace.set_layout i) Hwf Hs)
    as (st1 & -> & Hwf1 & Hh1 & Hcw1 & _ & Hs1); [by apply ws_ok_set_layout|].
  simpl. rewrite Hcw1, Hs1. simpl.
  destruct Hok as (l & Hch & Hcur & _).
  rewrite <- Hcw1 in Hs1.
  destruct (update_focused_client_frame cfg st1 (Workspace.current s) _ l Hwf1 Hs1)
    as (st' & s' & -> & Hwf' & Hcw' & _ & _ & Hs' & Hsame & _); [by rewrite Hh1|done|].
  simpl. eexists. split; [done|]. simpl.
  split; [done|]. split; [congruence|]. split; [|done].
  unfold layout_of. rewrite Hcw', Hs'. simpl. destruct Hsame as (-> & _). done.
Qed.

Lemma layout_of_wf cfg st :
  wf cfg st → ∃ s, ws_at st (cw st) = Some s ∧ layout_of st = Some (Workspace.layout s)
                   ∧ 0 ≤ Workspace.layout s < END_LAYOUT.
Proof.
  intros Hwf. pose proof Hwf as (_ & Hcw & _).
  destruct (wf_ws_at cfg st (cw st) Hwf) as (s & Hs & l & _ & _ & _ & Hlay); [lia|].
  exists s. unfold layout_of. rewrite Hs. done.
Qed.

(** X4: on a well-formed state [next_layout] moves the current workspace to
    the layout after its own, from the last one to the first, and
    [previous_layout] after it restores the layout. *)
Theorem next_previous_layout cfg g v :
  wfb cfg (lay_st g) = true →
  layout_of (lay_st g) = Some v →
  ∃ g1 g2, next_layout cfg g = Some g1
           ∧ layout_of (lay_st g1) = Some ((v + 1) mod END_LAYOUT)
           ∧ prev_layout g1 = v
           ∧ previous_layout cfg g1 = Some g2
           ∧ layout_of (lay_st g2) = Some v.
Proof.
  intros Hwf Hv. apply wfb_wf in Hwf.
  destruct (layout_of_wf cfg _ Hwf) as (s & Hs & Hl & Hlay).
  rewrite Hl in Hv. injection Hv as <-.
  unfold next_layout. rewrite Hs. simpl.
  assert (cmod (Workspace.layout s + 1) END_LAYOUT = (Workspace.layout s + 1) mod END_LAYOUT)
    as -> by (unfold cmod; apply Z.rem_mod_nonneg; unfold END_LAYOUT in *; lia).
  set (n := (Workspace.layout s + 1) mod END_LAYOUT).
  assert (0 ≤ n < END_LAYOUT ∧ n ≠ Workspace.layout s
          ∧ (if (n <? 1)%Z then END_LAYOUT - 1 else n - 1) = Workspace.layout s)
    as (Hn & Hne & Hback).
  { unfold n, END_LAYOUT in *. destruct (_ <? 1)%Z eqn:E;
      [apply Z.ltb_lt in E|apply Z.ltb_ge in E]; Z.div_mod_to_equations; lia. }
  destruct (change_layout_ok cfg g s n Hwf Hs Hn Hne) as (g1 & -> & Hwf1 & Hcw1 & Hl1 & Hp1).
  exists g1.
  destruct (layout_of_wf cfg _ Hwf1) as (s1 & Hs1 & Hl1' & Hlay1).
  rewrite Hl1 in Hl1'. injection Hl1' as Hl1'.
  unfold previous_layout. rewrite Hs1. simpl. rewrite <- Hl1', Hback.
  destruct (change_layout_ok cfg g1 s1 (Workspace.layout s) Hwf1 Hs1 Hlay)
    as (g2 & -> & _ & _ & Hl2 & _); [congruence|].
  exists g2. auto.
Qed.

Lemma next_previous_layout_witness :
  ∃ st g1 g2, st_two_clients = Some st
    ∧ layout_of st = Some VSTACK
    ∧ next_layout cfg_example (mkLayouts st 0) = Some g1
    ∧ layout_of (lay_st g1) = Some ZOOM
    ∧ previous_layout cfg_example g1 = Some g2
    ∧ layout_of (lay_st g2) = Some VSTACK.
Proof.
  assert (∃ st, st_two_clients = Some st) as [st Hst] by (eexists; run).
  pose proof Hst as Hst'. vm_compute in Hst'. injection Hst' as <-.
  match type of Hst with
  | _ = Some ?st =>
      destruct (next_previous_layout cfg_example (mkLayouts st 0) VSTACK)
        as (g1 & g2 & H1 & H2 & _ & H3 & H4); [run|run|];
      exists st, g1, g2
  end.
  split; [exact Hst|]. split; [run|]. split; [exact H1|]. split; [exact H2|].
  split; [exact H3|exact H4].
Defined.

(** X5: [change_layout] takes a layout of the table that differs from the
    current one and remembers the layout it replaces, so that [last_layout]
    switches back to it and a second [last_layout] returns to the new one; a
    number outside the table, or the current layout, changes nothing. *)
Theorem change_layout_last_layout cfg g v i :
  wfb cfg (lay_st g) = true →
  layout_of (lay_st g) = Some v →
  (i = v ∨ i < 0 ∨ END_LAYOUT ≤ i → change_layout cfg i g = Some g)
  ∧ (0 ≤ i < END_LAYOUT → i ≠ v →
     ∃ g1 g2 g3, change_layout cfg i g = Some g1
                 ∧ layout_of (lay_st g1) = Some i
                 ∧ last_layout cfg g1 = Some g2
                 ∧ layout_of (lay_st g2) = Some v
                 ∧ last_layout cfg g2 = Some g3
                 ∧ layout_of (lay_st g3) = Some i).
Proof.
  intros Hwf Hv. apply wfb_wf in Hwf.
  destruct (layout_of_wf cfg _ Hwf) as (s & Hs & Hl & Hlay).
  rewrite Hl in Hv. injection Hv as <-.
  split.
  - intros Hi. unfold change_layout. rewrite Hs. simpl.
    assert (bool_decide (i = Workspace.layout s) || (END_LAYOUT <=? i)%Z || (i <? 0)%Z = true)
      as ->; [|done].
    destruct Hi as [Hi|[Hi|Hi]].
    + by rewrite (bool_decide_eq_true_2 _ Hi).
    + by rewrite (proj2 (Z.ltb_lt _ _) Hi), orb_true_r.
    + by rewrite (proj2 (Z.leb_le _ _) Hi), orb_true_r.
  - intros Hi Hne.
    destruct (change_layout_ok cfg g s i Hwf Hs Hi Hne) as (g1 & Hc1 & Hwf1 & _ & Hl1 & Hp1).
    destruct (layout_of_wf cfg _ Hwf1) as (s1 & Hs1 & Hl1' & _).
    rewrite Hl1 in Hl1'. injection Hl1' as Hl1'.
    destruct (change_layout_ok cfg g1 s1 (Workspace.layout s) Hwf1 Hs1 Hlay)
      as (g2 & Hc2 & Hwf2 & _ & Hl2 & Hp2); [congruence|].
    destruct (layout_of_wf cfg _ Hwf2) as (s2 & Hs2 & Hl2' & _).
    rewrite Hl2 in Hl2'. injection Hl2' as Hl2'.
    destruct (change_layout_ok cfg g2 s2 i Hwf2 Hs2 Hi)
      as (g3 & Hc3 & _ & _ & Hl3 & _); [congruence|].
    exists g1, g2, g3. unfold last_layout. rewrite Hp1, Hp2, <- Hl1'. auto 10.
Qed.

Lemma change_layout_last_layout_witness :
  ∃ st g1 g2 g3, st_two_clients = Some st
    ∧ change_layout cfg_example 7 (mkLayouts st 0) = Some (mkLayouts st 0)
    ∧ change_layout cfg_example GRID (mkLayouts st 0) = Some g1
    ∧ layout_of (lay_st g1) = Some GRID
    ∧ last_layout cfg_example g1 = Some g2
    ∧ layout_of (lay_st g2) = Some VSTACK
    ∧ last_layout cfg_example g2 = Some g3
    ∧ layout_of (lay_st g3) = Some GRID.
Proof.
  assert (∃ st, st_two_clients = Some st) as [st Hst] by (eexists; run).
  pose proof Hst as Hst'. vm_compute in Hst'. injection Hst' as <-.
  match type of Hst with
  | _ = Some ?st =>
      destruct (change_layout_last_layout cfg_example (mkLayouts st 0) VSTACK 7)
        as [Hrej _]; [run|run|];
      destruct (change_layout_last_layout cfg_example (mkLayouts st 0) VSTACK GRID)
        as [_ Hacc]; [run|run|];
      destruct Hacc as (g1 & g2 & g3 & H1 & H2 & H3 & H4 & H5 & H6);
        [unfold GRID, END_LAYOUT; lia|discriminate|];
      exists st, g1, g2, g3
  end.
  split; [exact Hst|].
  split; [apply Hrej; right; right; unfold END_LAYOUT; lia|].
  split; [exact H1|]. split; [exact H2|]. split; [exact H3|]. split; [exact H4|].
  split; [exact H5|exact H6].
Defined.

(** ** The bar *)

Lemma ws_ok_set_bar_height hp s v : ws_ok hp s → ws_ok hp (ws_set_bar_height v s).
Proof. intros (l & H). exists l. exact H. Qed.

(** The bar height of the current workspace is set and the windows are
    arranged again. *)
Lemma set_bar_height_ok cfg st s v :
  wf cfg st → ws_at st (cw st) = Some s →
  ∃ st', (st1 ← ws_upd (cw st) (ws_set_bar_height v) st; arrange_windows cfg st1) = Some st'
         ∧ wf cfg st' ∧ bar_height_of st' = Some v.
Proof.
  intros Hwf Hs. pose proof (wf_ws_at_ok cfg st _ s Hwf Hs) as Hok.
  destruct (ws_upd_wf cfg st (cw st) s (ws_set_bar_height v) Hwf Hs)
    as (st1 & -> & Hwf1 & Hh1 & Hcw1 & _ & Hs1); [by apply ws_ok_set_bar_height|].
  simpl. destruct Hok as (l & Hch & _ & _ & Hlay).
  rewrite <- Hcw1 in Hs1.
  destruct (arrange_windows_ok cfg st1 _ l Hs1) as (st' & -> & Hg); [by rewrite Hh1|done|].
  exists st'. split; [done|]. split; [by apply (wf_geom_only _ st1)|].
  unfold bar_height_of. destruct (geom_only_wss _ _ Hg) as [_ ->].
  by rewrite (geom_only_ws_at _ _ _ Hg), Hs1.
Qed.

(** X6: [toggle_bar] switches the bar height of the current workspace
    between 0 and [BAR_HEIGHT], so that two calls restore it; a workspace
    whose bar height is neither of the two is left as it is. *)
Theorem toggle_bar_twice cfg sg st b :
  wfb cfg st = true →
  bar_height_of st = Some b →
  0 < BAR_HEIGHT sg < 65536 →
  (b = 0 ∨ b = BAR_HEIGHT sg →
     ∃ st1 st2, toggle_bar cfg sg st = Some st1
                ∧ bar_height_of st1 = Some (if bool_decide (b = 0) then BAR_HEIGHT sg else 0)
                ∧ toggle_bar cfg sg st1 = Some st2
                ∧ bar_height_of st2 = Some b)
  ∧ (b ≠ 0 → b ≠ BAR_HEIGHT sg → toggle_bar cfg sg st = Some st).
Proof.
  intros Hwf Hb HBH. apply wfb_wf in Hwf.
  assert (u16 (BAR_HEIGHT sg) = BAR_HEIGHT sg) as Hu by (apply Z.mod_small; lia).
  assert (∀ st b, wf cfg st → bar_height_of st = Some b →
            (b = 0 → ∃ st', toggle_bar cfg sg st = Some st' ∧ wf cfg st'
                            ∧ bar_height_of st' = Some (BAR_HEIGHT sg))
            ∧ (b = BAR_HEIGHT sg → ∃ st', toggle_bar cfg sg st = Some st' ∧ wf cfg st'
                                          ∧ bar_height_of st' = Some 0)
            ∧ (b ≠ 0 → b ≠ BAR_HEIGHT sg → toggle_bar cfg sg st = Some st)) as Hstep.
  { clear st b Hwf Hb. intros st b Hwf Hb. unfold bar_height_of in Hb.
    destruct (ws_at st (cw st)) as [s|] eqn:Hs; [|done]. injection Hb as <-.
    unfold toggle_bar. rewrite Hs. simpl. split; [|split].
    - intros E. rewrite (bool_decide_eq_true_2 _ E), (proj2 (Z.ltb_lt _ _)) by lia. simpl.
      rewrite Hu. by apply (set_bar_height_ok cfg st s).
    - intros E. rewrite bool_decide_eq_false_2 by lia. simpl.
      rewrite (bool_decide_eq_true_2 _ E). by apply (set_bar_height_ok cfg st s).
    - intros E1 E2. by rewrite !bool_decide_eq_false_2. }
  split; [|intros H1 H2; by apply (Hstep st b Hwf Hb)].
  intros [E|E].
  - destruct (Hstep st b Hwf Hb) as ((st1 & H1 & Hwf1 & Hb1) & _); [done|].
    destruct (Hstep st1 _ Hwf1 Hb1) as (_ & (st2 & H2 & _ & Hb2) & _); [done|].
    exists st1, st2. rewrite (bool_decide_eq_true_2 _ E), E. auto.
  - destruct (Hstep st b Hwf Hb) as (_ & (st1 & H1 & Hwf1 & Hb1) & _); [done|].
    destruct (Hstep st1 _ Hwf1 Hb1) as ((st2 & H2 & _ & Hb2) & _); [done|].
    exists st1, st2. rewrite bool_decide_eq_false_2 by lia. rewrite E. auto.
Qed.

Lemma toggle_bar_twice_witness :
  ∃ st st1 st2, st_two_clients = Some st
    ∧ bar_height_of st = Some 20
    ∧ toggle_bar cfg_example sg_example st = Some st1
    ∧ bar_height_of st1 = Some 0
    ∧ toggle_bar cfg_example sg_example st1 = Some st2
    ∧ bar_height_of st2 = Some 20.
Proof.
  assert (∃ st, st_two_clients = Some st) as [st Hst] by (eexists; run).
  pose proof Hst as Hst'. vm_compute in Hst'. injection Hst' as <-.
  match type of Hst with
  | _ = Some ?st =>
      destruct (toggle_bar_twice cfg_example sg_example st 20) as [H _]; [run|run|simpl; lia|];
      destruct H as (st1 & st2 & H1 & H2 & H3 & H4); [by right|];
      exists st, st1, st2
  end.
  split; [exact Hst|]. split; [run|]. split; [exact H1|]. split; [exact H2|].
  split; [exact H3|exact H4].
Defined.

(** ** Gaps *)

Lemma gap_step_next size cc : Client.next (gap_step size cc) = Client.next cc.
Proof. unfold gap_step. by destruct (Client.is_fullscreen cc). Qed.

Lemma gap_step_gap size cc :
  Client.is_fullscreen cc = false → 0 ≤ Client.gap cc → Client.gap cc + size < 65536 →
  Client.gap (gap_step size cc) = Z.max 0 (Client.gap cc + size).
Proof.
  intros Hf H0 H1. unfold gap_step. rewrite Hf.
  destruct (Client.gap cc + size <=? 0)%Z eqn:E; simpl.
  - apply Z.leb_le in E. lia.
  - apply Z.leb_gt in E. unfold u16. rewrite Z.mod_small; lia.
Qed.

Lemma change_client_gaps_ok st c cc size s l :
  load st c = Some cc → ws_at st (cw st) = Some s → chain (heap st) (Workspace.head s) l →
  ∃ st', change_client_gaps c size st = Some st' ∧ geom_only st st'
         ∧ load st' c = Some (gap_step size cc)
         ∧ ∀ q, q ≠ c → load st' q = load st q.
Proof.
  intros Hl Hs Hch. unfold change_client_gaps, gap_step. rewrite Hl. simpl.
  destruct (Client.is_fullscreen cc) eqn:Ef.
  { exists st. split; [done|]. split; [apply geom_only_refl|]. done. }
  rewrite (store_eq _ _ _ _ Hl). simpl.
  set (st1 := set_heap _ st).
  assert (geom_only st st1) as Hg.
  { split; [done|]. simpl. by apply same_links_insert. }
  rewrite (draw_clients_ok st1 s l); [|done|by apply (chain_same_links _ _ _ _ (proj2 Hg))].
  exists st1. split; [done|]. split; [done|]. unfold load, st1. simpl.
  split; [by rewrite lookup_insert_eq|]. intros q Hq. by rewrite lookup_insert_ne.
Qed.

Lemma change_gaps_list_ok fuel size st p l s lcw :
  chain (heap st) p l → (length l < fuel)%nat →
  ws_at st (cw st) = Some s → chain (heap st) (Workspace.head s) lcw →
  ∃ st', change_gaps_list fuel size p st = Some st' ∧ geom_only st st'
         ∧ (∀ c cc, c ∈ l → load st c = Some cc → load st' c = Some (gap_step size cc))
         ∧ (∀ q, q ∉ l → load st' q = load st q).
Proof.
  revert st p l. induction fuel as [|k IH]; intros st p l Hc Hlen Hs Hcw; [lia|].
  pose proof (chain_NoDup _ _ _ Hc) as Hnd.
  simpl. destruct l as [|q l]; simpl in Hc.
  - rewrite (proj2 (is_null_true _) Hc). exists st. split; [done|].
    split; [apply geom_only_refl|]. split; [|done].
    intros c cc Hin. by apply elem_of_nil in Hin.
  - destruct Hc as (<- & Hn & c & Hl & Hrest).
    change (load st p = Some c) in Hl.
    rewrite (proj2 (is_null_false _) Hn).
    destruct (change_client_gaps_ok st p c size s lcw Hl Hs Hcw) as (st1 & -> & Hg & Hl1 & Hoth).
    simpl. rewrite Hl1. simpl. rewrite gap_step_next.
    apply NoDup_cons in Hnd as [Hpl Hnd].
    destruct (IH st1 (Client.next c) l) as (st' & -> & Hg' & Hin' & Hout').
    + by apply (chain_same_links _ _ _ _ (proj2 Hg)).
    + simpl in Hlen. lia.
    + destruct (geom_only_wss _ _ Hg) as [_ ->]. by rewrite (geom_only_ws_at _ _ _ Hg).
    + by apply (chain_same_links _ _ _ _ (proj2 Hg)).
    + exists st'. split; [done|]. split; [by eapply geom_only_trans|]. split.
      * intros q cc Hq Hlq. apply elem_of_cons in Hq as [->|Hq].
        -- rewrite Hout' by done. rewrite Hl in Hlq. injection Hlq as <-. done.
        -- apply Hin'; [done|]. rewrite Hoth; [done|]. intros ->. done.
      * intros q Hq. apply not_elem_of_cons in Hq as [Hq1 Hq2].
        rewrite Hout' by done. by apply Hoth.
Qed.

(** X7: [op_shrink_gaps] on the current workspace takes [OP_GAP_SIZE] from
    the gap of the workspace and of each of its clients that is not
    fullscreen.  The gap of a client stops at zero; the gap of the workspace
    does not: below zero it wraps around the 16 bits of the field. *)
Theorem op_shrink_gaps_workspace cfg sg st s l :
  wfb cfg st = true →
  ws_at st (cw st) = Some s →
  clients_of st (Workspace.head s) = Some l →
  0 ≤ OP_GAP_SIZE sg →
  ∃ st', op_shrink_gaps cfg sg WORKSPACE 1 st = Some st'
         ∧ ws_gap_of st' (cw st) = Some ((Workspace.gap s - OP_GAP_SIZE sg) mod 65536)
         ∧ (∀ c cc, c ∈ l → load st c = Some cc → Client.is_fullscreen cc = false →
                    0 ≤ Client.gap cc < 65536 →
                    gap_of st' c = Some (Z.max 0 (Client.gap cc - OP_GAP_SIZE sg))).
Proof.
  intros Hwf Hs Hl Hop. apply wfb_wf in Hwf. apply clients_of_chain in Hl.
  pose proof Hwf as (_ & Hcw & _).
  unfold op_shrink_gaps, change_gaps. simpl.
  change (Z.to_nat 1) with 1%nat. simpl.
  assert (correct_ws cfg (cw st + (1 - 1)) = cw st) as ->.
  { unfold correct_ws. replace (cw st + (1 - 1)) with (cw st) by lia.
    by rewrite (proj2 (Z.ltb_ge _ _)), (proj2 (Z.ltb_ge _ _)) by lia. }
  rewrite (ws_upd_eq _ _ _ _ Hs). simpl.
  set (st1 := set_wss _ st).
  assert (ws_at st1 (cw st) = Some (ws_set_gap (u16 (Workspace.gap s + - OP_GAP_SIZE sg)) s))
    as Hs1 by exact (ws_at_insert_eq st (cw st) s _ (heap st) Hs).
  rewrite Hs1. simpl.
  destruct (change_gaps_list_ok (fuel_of st1) (- OP_GAP_SIZE sg) st1 (Workspace.head s) l
              _ l Hl (chain_fuel st1 _ _ Hl) Hs1 Hl) as (st' & -> & Hg & Hin & _).
  simpl. exists st'. split; [done|]. split.
  - unfold ws_gap_of. rewrite (geom_only_ws_at _ _ _ Hg), Hs1. simpl.
    reflexivity.
  - intros c cc Hc Hlc Hf Hgap. unfold gap_of. rewrite (Hin c cc Hc Hlc). simpl.
    f_equal. rewrite gap_step_gap; [|done|lia|lia]. reflexivity.
Qed.

Lemma op_shrink_gaps_workspace_witness :
  ∃ st st', st_two_clients = Some st
    ∧ ws_gap_of st 1 = Some 0 ∧ gap_of st 1%N = Some 0 ∧ gap_of st 2%N = Some 0
    ∧ op_shrink_gaps cfg_example sg_example WORKSPACE 1 st = Some st'
    ∧ ws_gap_of st' 1 = Some 65532 ∧ gap_of st' 1%N = Some 0 ∧ gap_of st' 2%N = Some 0.
Proof.
  assert (∃ st, st_two_clients = Some st) as [st Hst] by (eexists; run).
  pose proof Hst as Hst'. vm_compute in Hst'. injection Hst' as <-.
  match type of Hst with
  | _ = Some ?st =>
      let s := eval vm_compute in (default ws_example (ws_at st 1)) in
      destruct (op_shrink_gaps_workspace cfg_example sg_example st s [1%N; 2%N])
        as (st' & H1 & H2 & H3); [run|run|run|simpl; lia|];
      exists st, st'
  end.
  split; [exact Hst|]. split; [run|]. split; [run|]. split; [run|].
  split; [exact H1|].
  split; [etransitivity; [exact H2|reflexivity]|].
  split.
  - erewrite (H3 1%N); [|repeat constructor|run|reflexivity|simpl; lia]; reflexivity.
  - erewrite (H3 2%N); [|repeat constructor|run|reflexivity|simpl; lia]; reflexivity.
Defined.

(** ** Messages on the socket *)

Lemma append_cons c (s t : string) : String c s +:+ t = String c (s +:+ t).
Proof. reflexivity. Qed.

Lemma append_nil_l (t : string) : EmptyString +:+ t = t.
Proof. reflexivity. Qed.

Lemma append_nil_r (s : string) : s +:+ EmptyString = s.
Proof. induction s as [|c s IH]; [done|]. by rewrite append_cons, IH. Qed.

Lemma append_assoc (a b c : string) : (a +:+ b) +:+ c = a +:+ (b +:+ c).
Proof. induction a as [|x a IH]; [done|]. by rewrite !append_cons, IH. Qed.

Lemma split_args_arg a m cur :
  no_nul a = true →
  split_args (a +:+ NUL +:+ m) cur = (cur +:+ a) :: split_args m EmptyString.
Proof.
  revert cur. induction a as [|c a IH]; intros cur Ha.
  - rewrite append_nil_l, append_nil_r. reflexivity.
  - simpl in Ha. apply andb_true_iff in Ha as [Hc Ha].
    apply negb_true_iff in Hc. rewrite append_cons. simpl. rewrite Hc.
    rewrite IH by done. by rewrite append_assoc.
Qed.

Lemma split_args_junk junk cur : no_nul junk = true → split_args junk cur = [].
Proof.
  revert cur. induction junk as [|c a IH]; intros cur Ha; [done|].
  simpl in Ha. apply andb_true_iff in Ha as [Hc Ha].
  apply negb_true_iff in Hc. simpl. rewrite Hc. by apply IH.
Qed.

Lemma split_args_join args junk :
  Forall (λ a, no_nul a = true) args → no_nul junk = true →
  split_args (join_args args +:+ junk) EmptyString = args.
Proof.
  intros Ha Hj. induction Ha as [|a args Ha _ IH]; simpl.
  - rewrite append_nil_l. by apply split_args_junk.
  - rewrite !append_assoc. rewrite split_args_arg by done.
    rewrite append_nil_l. by rewrite IH.
Qed.

(** X8: [ipc_process_args] splits a message at its NUL characters: from the
    message that carries the arguments [args], each followed by a NUL, it
    returns [args].  Bytes after the last NUL are dropped, and a message
    without a NUL is answered with [IPC_ERR_TOO_FEW_ARGS]. *)
Theorem ipc_process_args_splits args junk :
  Forall (λ a, no_nul a = true) args →
  no_nul junk = true →
  ipc_process_args (join_args args +:+ junk)
  = match args with [] => inr IPC_ERR_TOO_FEW_ARGS | _ => inl args end.
Proof.
  intros Ha Hj. unfold ipc_process_args. rewrite split_args_join by done.
  destruct args; [done|]. simpl length.
  rewrite (proj2 (Z.ltb_ge _ _)) by lia. done.
Qed.

Lemma ipc_process_args_splits_witness :
  ipc_process_args ("change_ws" +:+ NUL +:+ "3" +:+ NUL +:+ "xy") = inl ["change_ws"; "3"]
  ∧ ipc_process_args "change_ws" = inr IPC_ERR_TOO_FEW_ARGS.
Proof.
  split.
  - apply (ipc_process_args_splits ["change_ws"; "3"] "xy"); [repeat constructor|reflexivity].
  - apply (ipc_process_args_splits [] "change_ws"); [constructor|reflexivity].
Defined.

(** X9: [ipc_arg_to_int] reads back the decimal form of every number from 1
    to 99, with or without a minus sign, and leaves the status alone.  It
    does not read ["0"]: the first digit has to be above ['0'], and the
    status becomes [IPC_ERR_ARG_TOO_LARGE]. *)
Theorem ipc_arg_to_int_decimal n err :
  1 ≤ n ≤ 99 →
  ipc_arg_to_int (decimal n) err = (n, err)
  ∧ ipc_arg_to_int ("-" +:+ decimal n) err = (- n, err)
  ∧ ipc_arg_to_int (decimal 0) err = (0, IPC_ERR_ARG_TOO_LARGE).
Proof.
  intros Hn.
  assert (∃ k : nat, n = Z.of_nat (S k) ∧ (k < 99)%nat) as (k & -> & Hk).
  { exists (Z.to_nat (n - 1)). lia. }
  clear Hn.
  do 99 (destruct k as [|k]; [repeat split; vm_compute; reflexivity|]).
  lia.
Qed.

Lemma ipc_arg_to_int_decimal_witness :
  ipc_arg_to_int "42" IPC_ERR_NONE = (42, IPC_ERR_NONE)
  ∧ ipc_arg_to_int "-42" IPC_ERR_NONE = (-42, IPC_ERR_NONE)
  ∧ ipc_arg_to_int "0" IPC_ERR_NONE = (0, IPC_ERR_ARG_TOO_LARGE).
Proof. apply (ipc_arg_to_int_decimal 42 IPC_ERR_NONE). lia. Defined.

Lemma ipc_process_args_join a0 rest :
  Forall (λ a, no_nul a = true) (a0 :: rest) →
  ipc_process_args (join_args (a0 :: rest)) = inl (a0 :: rest).
Proof.
  intros Ha. pose proof (split_args_join (a0 :: rest) EmptyString Ha eq_refl) as H.
  rewrite append_nil_r in H. unfold ipc_process_args. rewrite H.
  simpl length. rewrite (proj2 (Z.ltb_ge _ _)) by lia. done.
Qed.

Lemma ipc_dispatch_unknown cs a0 rest found err :
  a0 ∉ (Command.name <$> cs) →
  ipc_dispatch cs (a0 :: rest) found err = Some (if found then err else IPC_ERR_NO_CMD, []).
Proof.
  induction cs as [|c cs IH]; intros Hn; [done|].
  rewrite fmap_cons in Hn. apply not_elem_of_cons in Hn as [Hc Hn].
  simpl. rewrite (proj2 (String.eqb_neq _ _) Hc). by apply IH.
Qed.

(** X10: a message whose first argument is not the name of a row of
    [commands] calls nothing and is answered with [IPC_ERR_NO_CMD], whatever
    the other arguments. *)
Theorem ipc_process_cmd_unknown name rest :
  no_nul name = true →
  Forall (λ a, no_nul a = true) rest →
  name ∉ (Command.name <$> commands) →
  ipc_process_cmd (join_args (name :: rest)) = Some (IPC_ERR_NO_CMD, []).
Proof.
  intros Hn Hr Hu. unfold ipc_process_cmd.
  rewrite ipc_process_args_join by (by constructor).
  by rewrite ipc_dispatch_unknown.
Qed.

Lemma ipc_process_cmd_unknown_witness :
  ipc_process_cmd ("kill_all" +:+ NUL +:+ "2" +:+ NUL) = Some (IPC_ERR_NO_CMD, []).
Proof.
  apply (ipc_process_cmd_unknown "kill_all" ["2"]); [reflexivity|repeat constructor|].
  apply (proj1 (bool_decide_eq_false _)). vm_compute. reflexivity.
Defined.

(** What [ipc_process_cmd] does for a row of [commands], by the kind of the
    row. *)
Lemma ipc_dispatch_row c :
  c ∈ commands →
  (plain_row c = true →
     ∃ f, Command.func c = Some f
          ∧ ∀ rest, ipc_dispatch commands (Command.name c :: rest) false IPC_ERR_NONE
                    = Some (IPC_ERR_NONE, [Call_cmd f Arg_NULL]))
  ∧ (int_row c = true →
     ∃ f, Command.func c = Some f
          ∧ (∀ a rest, ipc_dispatch commands (Command.name c :: a :: rest) false IPC_ERR_NONE
                       = Some ((ipc_arg_to_int a IPC_ERR_NONE).2,
                               [Call_cmd f (Arg_i (ipc_arg_to_int a IPC_ERR_NONE).1)]))
          ∧ ipc_dispatch commands [Command.name c] false IPC_ERR_NONE
            = Some (IPC_ERR_SYNTAX, []))
  ∧ (operator_row c = true →
     ∃ f, Command.operator c = Some f
          ∧ (∀ a m rest, ipc_dispatch commands (Command.name c :: a :: starting_with ch_w m :: rest)
                           false IPC_ERR_NONE
                         = Some ((ipc_arg_to_int a IPC_ERR_NONE).2,
                                 [Call_op f WORKSPACE (ipc_arg_to_int a IPC_ERR_NONE).1]))
          ∧ (∀ a m rest, ipc_dispatch commands (Command.name c :: a :: starting_with ch_c m :: rest)
                           false IPC_ERR_NONE
                         = Some ((ipc_arg_to_int a IPC_ERR_NONE).2,
                                 [Call_op f CLIENT (ipc_arg_to_int a IPC_ERR_NONE).1]))
          ∧ (∀ a, ipc_dispatch commands [Command.name c; a] false IPC_ERR_NONE
                  = Some (IPC_ERR_SYNTAX, []))).
Proof.
  intros Hc. unfold commands in Hc.
  repeat (apply elem_of_cons in Hc as [->|Hc];
          [split; [|split]; intros Hrow; try discriminate Hrow;
           eexists; (split; [reflexivity|]); repeat split; intros; vm_compute; reflexivity|]).
  by apply elem_of_nil in Hc.
Qed.

Lemma commands_no_nul c : c ∈ commands → no_nul (Command.name c) = true.
Proof.
  intros Hc.
  assert (Forall (λ c, no_nul (Command.name c) = true) commands) as H
    by (repeat constructor).
  by apply (proj1 (Forall_forall _ _) H).
Qed.

(** X11: every row of [commands] is reached by its name.  A command without
    argument is called with [NULL], whatever follows its name.  A command
    with an integer argument is called with the value [ipc_arg_to_int]
    returns, so with 0 when the argument is rejected, and the reply is the
    status of the conversion; without an argument nothing is called and the
    reply is [IPC_ERR_SYNTAX].  An operator is called with the count and with
    [WORKSPACE] or [CLIENT] by the first letter, [w] or [c], of the argument
    after the count; without that argument the reply is [IPC_ERR_SYNTAX]. *)
Theorem ipc_process_cmd_dispatch c a m rest :
  c ∈ commands →
  no_nul a = true → no_nul m = true → Forall (λ a, no_nul a = true) rest →
  (plain_row c = true →
     ∃ f, Command.func c = Some f
          ∧ ipc_process_cmd (join_args (Command.name c :: rest))
            = Some (IPC_ERR_NONE, [Call_cmd f Arg_NULL]))
  ∧ (int_row c = true →
     ∃ f, Command.func c = Some f
          ∧ ipc_process_cmd (join_args (Command.name c :: a :: rest))
            = Some ((ipc_arg_to_int a IPC_ERR_NONE).2,
                    [Call_cmd f (Arg_i (ipc_arg_to_int a IPC_ERR_NONE).1)])
          ∧ ipc_process_cmd (join_args [Command.name c]) = Some (IPC_ERR_SYNTAX, []))
  ∧ (operator_row c = true →
     ∃ f, Command.operator c = Some f
          ∧ ipc_process_cmd (join_args (Command.name c :: a :: starting_with ch_w m :: rest))
            = Some ((ipc_arg_to_int a IPC_ERR_NONE).2,
                    [Call_op f WORKSPACE (ipc_arg_to_int a IPC_ERR_NONE).1])
          ∧ ipc_process_cmd (join_args (Command.name c :: a :: starting_with ch_c m :: rest))
            = Some ((ipc_arg_to_int a IPC_ERR_NONE).2,
                    [Call_op f CLIENT (ipc_arg_to_int a IPC_ERR_NONE).1])
          ∧ ipc_process_cmd (join_args [Command.name c; a]) = Some (IPC_ERR_SYNTAX, [])).
Proof.
  intros Hc Ha Hm Hrest. pose proof (commands_no_nul c Hc) as Hn.
  destruct (ipc_dispatch_row c Hc) as (Hplain & Hint & Hop).
  unfold ipc_process_cmd. split; [|split]; intros Hrow.
  - destruct (Hplain Hrow) as (f & Hf & H). exists f. split; [done|].
    rewrite ipc_process_args_join by (by constructor). apply H.
  - destruct (Hint Hrow) as (f & Hf & H1 & H2). exists f. split; [done|].
    rewrite !ipc_process_args_join by (by repeat constructor). auto.
  - destruct (Hop Hrow) as (f & Hf & H1 & H2 & H3). exists f. split; [done|].
    rewrite !ipc_process_args_join
      by (repeat (constructor; [assumption || (simpl; by rewrite Hm)|]); done).
    auto.
Qed.

Lemma ipc_process_cmd_dispatch_witness :
  ipc_process_cmd ("change_ws" +:+ NUL +:+ "abc" +:+ NUL)
  = Some (IPC_ERR_ARG_TOO_LARGE, [Call_cmd fn_change_ws (Arg_i 0)])
  ∧ ipc_process_cmd ("change_ws" +:+ NUL) = Some (IPC_ERR_SYNTAX, []).
Proof.
  destruct (ipc_process_cmd_dispatch (cmd_row "change_ws" fn_change_ws 1 TYPE_INT)
              "abc" "" []) as (_ & H & _);
    [unfold commands; repeat constructor
    |reflexivity|reflexivity|constructor|].
  destruct H as (f & Hf & H1 & H2); [reflexivity|].
  injection Hf as <-. split; [exact H1|exact H2].
Defined.

(** ** Lists in the heap, continued *)

Lemma chain_frame hp p l q c : chain hp p l → q ∉ l → chain (<[q := c]> hp) p l.
Proof.
  revert p. induction l as [|x l IH]; intros p Hc Hq; [done|].
  destruct Hc as (-> & Hn & xc & Hx & Hrest).
  apply not_elem_of_cons in Hq as [Hqx Hql].
  split; [done|]. split; [done|]. exists xc.
  split; [by rewrite lookup_insert_ne|]. by apply IH.
Qed.

Lemma chain_cons hp q qc l :
  q ≠ NULL → hp !! q = Some qc → chain hp (Client.next qc) l → chain hp q (q :: l).
Proof. intros Hn Hq Hc. split; [done|]. split; [done|]. by exists qc. Qed.

Lemma chain_cons_inv hp p q l :
  chain hp p (q :: l) → p = q ∧ q ≠ NULL ∧ ∃ qc, hp !! q = Some qc ∧ chain hp (Client.next qc) l.
Proof. intros (-> & Hn & H). done. Qed.

(** The suffix of a list behind one of its clients is replaced: the [next]
    field of [q] is set to the start of another list. *)
Lemma chain_splice hp p l1 q l2 qc r l3 :
  chain hp p (l1 ++ q :: l2) → hp !! q = Some qc → chain hp r l3 →
  q ∉ l3 → (∀ x, x ∈ l1 → x ∉ l3) →
  chain (<[q := Client.set_next r qc]> hp) p (l1 ++ q :: l3).
Proof.
  intros Hc Hq Hr Hq3 H13.
  pose proof (chain_NoDup _ _ _ Hc) as Hnd.
  assert (q ∉ l1) as Hq1.
  { apply NoDup_app in Hnd as (_ & Hd & _). intros Hin. apply (Hd q Hin). left. }
  clear Hnd. revert p Hc. induction l1 as [|x l1 IH]; intros p Hc.
  - destruct Hc as (-> & Hn & _). simpl.
    apply (chain_cons _ _ (Client.set_next r qc)); [done|apply lookup_insert_eq|].
    simpl. by apply chain_frame.
  - destruct Hc as (-> & Hn & xc & Hx & Hrest). simpl.
    apply not_elem_of_cons in Hq1 as [Hqx Hq1].
    apply (chain_cons _ _ xc); [done|by rewrite lookup_insert_ne|].
    apply IH; [|done|done]. intros y Hy. apply H13. by right.
Qed.

(** The client at index [i] of a list and its [next] field. *)
Lemma chain_lookup hp p l i c :
  chain hp p l → l !! i = Some c →
  c ≠ NULL ∧ ∃ cc, hp !! c = Some cc ∧ Client.next cc = default NULL (l !! S i)
                   ∧ chain hp (Client.next cc) (drop (S i) l).
Proof.
  revert p i. induction l as [|x l IH]; intros p i Hc Hi; [done|].
  destruct Hc as (-> & Hn & xc & Hx & Hrest).
  destruct i as [|i].
  - injection Hi as <-. split; [done|]. exists xc. split; [done|]. split; [|done].
    simpl. destruct l as [|y l]; simpl in *; [done|]. by destruct Hrest as (-> & _).
  - simpl in Hi. destruct (IH _ _ Hrest Hi) as (Hcn & cc & Hcc & Hnext & Hdrop).
    split; [done|]. exists cc. done.
Qed.

Lemma chain_nil hp p : chain hp p [] ↔ p = NULL.
Proof. done. Qed.

Lemma chain_head_null hp l : chain hp NULL l → l = [].
Proof. destruct l as [|x l]; [done|]. intros (<- & Hn & _). done. Qed.

(** ** The client of a window *)

Lemma find_in_list_spec fuel st win p l :
  chain (heap st) p l → (length l < fuel)%nat →
  ∃ r, find_in_list fuel st win p = Some r
       ∧ (r = NULL → ∀ q, q ∈ l → (Client.win <$> load st q) ≠ Some win)
       ∧ (r ≠ NULL → r ∈ l ∧ (Client.win <$> load st r) = Some win).
Proof.
  revert p l. induction fuel as [|k IH]; intros p l Hc Hlen; [lia|].
  simpl. destruct l as [|q l]; simpl in Hc.
  - rewrite (proj2 (is_null_true _) Hc). exists NULL. split; [done|]. split; [|done].
    intros _ q Hq. by apply elem_of_nil in Hq.
  - destruct Hc as (-> & Hn & c & Hl & Hrest).
    change (load st q = Some c) in Hl.
    rewrite (proj2 (is_null_false _) Hn), Hl. simpl. case_bool_decide as Hw.
    + exists q. split; [done|]. split; [done|]. intros _. split; [left|].
      rewrite Hl. simpl. by rewrite Hw.
    + destruct (IH (Client.next c) l Hrest) as (r & -> & Hnull & Hfound);
        [simpl in Hlen; lia|].
      exists r. split; [done|]. split.
      * intros Hr y Hy. apply elem_of_cons in Hy as [->|Hy]; [|by apply Hnull].
        rewrite Hl. simpl. congruence.
      * intros Hr. destruct (Hfound Hr) as [Hin Hwin]. split; [by right|done].
Qed.

Lemma workspace_ids_range cfg w :
  w ∈ workspace_ids cfg ↔ 1 ≤ w ≤ WORKSPACES cfg.
Proof.
  unfold workspace_ids. rewrite list_elem_of_fmap. split.
  - intros (n & -> & Hn). apply elem_of_seq in Hn. lia.
  - intros Hw. exists (Z.to_nat w). split; [lia|]. apply elem_of_seq. lia.
Qed.

Lemma find_client_loop_spec cfg st win wl c0 :
  wf cfg st → (∀ w, w ∈ wl → 1 ≤ w ≤ WORKSPACES cfg) →
  ∃ r, find_client_loop st win wl c0 = Some r
       ∧ (wl ≠ [] → r = NULL →
          ∀ w c, w ∈ wl → owns st w c → (Client.win <$> load st c) ≠ Some win)
       ∧ (wl ≠ [] → r ≠ NULL →
          ∃ w, w ∈ wl ∧ owns st w r ∧ (Client.win <$> load st r) = Some win).
Proof.
  intros Hwf. revert c0. induction wl as [|w wl IH]; intros c0 Hwl.
  { exists c0. split; [done|]. split; done. }
  simpl.
  destruct (wf_ws_at cfg st w Hwf) as (s & Hs & l & Hch & _).
  { pose proof (Hwl w (list_elem_of_here _ _)). lia. }
  rewrite Hs. simpl.
  destruct (find_in_list_spec (fuel_of st) st win _ l Hch (chain_fuel _ _ _ Hch))
    as (r & -> & Hnull & Hfound).
  simpl. destruct (is_null r) eqn:Er; simpl.
  - apply is_null_true in Er. subst r.
    destruct (IH NULL) as (r & Hr2 & Hnull' & Hfound').
    { intros w' Hw'. apply Hwl. by right. }
    exists r. split; [done|].
    destruct wl as [|w2 wl].
    { simpl in Hr2. injection Hr2 as <-.
      split; [|done]. intros _ _ w' c Hw' (s' & l' & Hs' & Hch' & Hc').
      apply list_elem_of_singleton in Hw' as ->. rewrite Hs in Hs'. injection Hs' as <-.
      pose proof (chain_det _ _ _ _ Hch Hch') as <-. by apply Hnull. }
    split.
    + intros _ Hr w' c Hw' Hown. apply elem_of_cons in Hw' as [->|Hw'].
      * destruct Hown as (s' & l' & Hs' & Hch' & Hc').
        rewrite Hs in Hs'. injection Hs' as <-.
        pose proof (chain_det _ _ _ _ Hch Hch') as <-. by apply Hnull.
      * by apply (Hnull' ltac:(done) Hr w').
    + intros _ Hr. destruct (Hfound' ltac:(done) Hr) as (w' & Hw' & H). exists w'.
      split; [by right|done].
  - apply is_null_false in Er. exists r. split; [done|]. split; [done|].
    intros _ _. exists w. destruct (Hfound Er) as [Hin Hwin].
    split; [left|]. split; [by exists s, l|done].
Qed.

(** X12: on a well-formed state [find_client_by_win] returns nil exactly when
    no client of the workspaces 1 to [WORKSPACES] has the window, and
    otherwise a client of one of these workspaces that has it. *)
Theorem find_client_by_win_spec cfg st win :
  wfb cfg st = true →
  1 ≤ WORKSPACES cfg →
  ∃ r, find_client_by_win cfg st win = Some r
       ∧ (r = NULL ↔ ¬ managed cfg st win)
       ∧ (r ≠ NULL →
          ∃ w, 1 ≤ w ≤ WORKSPACES cfg ∧ owns st w r
               ∧ (Client.win <$> load st r) = Some win).
Proof.
  intros Hwf HW. apply wfb_wf in Hwf. unfold find_client_by_win.
  destruct (find_client_loop_spec cfg st win (workspace_ids cfg) NULL Hwf)
    as (r & Hr & Hnull & Hfound); [intros w; apply workspace_ids_range|].
  assert (workspace_ids cfg ≠ []) as Hne.
  { intros E. assert (1 ∈ workspace_ids cfg) as H1 by (apply workspace_ids_range; lia).
    rewrite E in H1. by apply elem_of_nil in H1. }
  exists r. split; [done|]. split; [split|].
  - intros E (w & c & Hw & Hown & Hwin).
    apply (Hnull Hne E w c); [by apply workspace_ids_range|done|done].
  - intros Hnm. destruct (decide (r = NULL)) as [|Hr']; [done|]. exfalso. apply Hnm.
    destruct (Hfound Hne Hr') as (w & Hw & Hown & Hwin).
    exists w, r. split; [by apply workspace_ids_range|done].
  - intros Hr'. destruct (Hfound Hne Hr') as (w & Hw & H). exists w.
    split; [by apply workspace_ids_range|done].
Qed.

Lemma find_client_by_win_spec_witness :
  ∃ st, st_two_workspaces = Some st
        ∧ find_client_by_win cfg_example st 12 = Some 2%N
        ∧ owns st 2 2%N
        ∧ find_client_by_win cfg_example st 99 = Some NULL
        ∧ ¬ managed cfg_example st 99.
Proof.
  assert (∃ st, st_two_workspaces = Some st) as [st Hst] by (eexists; run).
  pose proof Hst as Hst'. vm_compute in Hst'. injection Hst' as <-.
  match type of Hst with
  | _ = Some ?st =>
      destruct (find_client_by_win_spec cfg_example st 12) as (r & Hr & _ & Hfound);
        [run|simpl; lia|];
      destruct (find_client_by_win_spec cfg_example st 99) as (r' & Hr' & Hnull & _);
        [run|simpl; lia|];
      exists st
  end.
  split; [exact Hst|].
  assert (r = 2%N) as -> by (vm_compute in Hr; by injection Hr).
  assert (r' = NULL) as -> by (vm_compute in Hr'; by injection Hr').
  split; [exact Hr|].
  destruct (Hfound ltac:(discriminate)) as (w & Hw & Hown & _).
  split.
  - eexists _, [1%N; 2%N]. split; [run|]. split; [|repeat constructor].
    apply clients_of_chain. run.
  - split; [exact Hr'|]. by apply Hnull.
Defined.

(** X13: [map_event] leaves the state as it is for a window whose attributes
    cannot be read, for a window with [override_redirect], and for a window
    that is the window of a client in the list of one of the workspaces 1 to
    [WORKSPACES].  (The lists are all that [find_client_by_win] searches: a
    client held by the scratchpad or the delete register is in none of
    them.) *)
Theorem map_event_ignores cfg me st :
  wfb cfg st = true →
  1 ≤ WORKSPACES cfg →
  me_wa me = None ∨ me_wa me = Some true ∨ managed cfg st (me_window me) →
  map_event cfg me st = Some st.
Proof.
  intros Hwf HW Hcase. unfold map_event.
  destruct (me_wa me) as [[|]|] eqn:Ewa; [done| |done].
  destruct Hcase as [?|[?|Hm]]; [done..|].
  apply wfb_wf in Hwf.
  destruct (find_client_loop_spec cfg st (me_window me) (workspace_ids cfg) NULL Hwf)
    as (r & Hr & Hnull & _); [intros w; apply workspace_ids_range|].
  unfold find_client_by_win. rewrite Hr. simpl.
  destruct (is_null r) eqn:Er; [|done]. exfalso.
  apply is_null_true in Er. destruct Hm as (w & c & Hw & Hown & Hwin).
  apply (Hnull) with (w := w) (c := c); [|done| |done|done].
  - intros E. assert (1 ∈ workspace_ids cfg) as H1 by (apply workspace_ids_range; lia).
    rewrite E in H1. by apply elem_of_nil in H1.
  - by apply workspace_ids_range.
Qed.

Lemma map_event_ignores_witness :
  ∃ st, st_two_clients = Some st
        ∧ windows_of st 1 = Some [10; 11]
        ∧ map_event cfg_example (plain_window 11) st = Some st.
Proof.
  assert (∃ st, st_two_clients = Some st) as [st Hst] by (eexists; run).
  pose proof Hst as Hst'. vm_compute in Hst'. injection Hst' as <-.
  eexists. split; [exact Hst|]. split; [run|].
  apply map_event_ignores; [run|simpl; lia|]. right. right.
  exists 1, 2%N. split; [simpl; lia|]. split; [|run].
  eexists _, [1%N; 2%N]. split; [run|]. split; [|repeat constructor].
  apply clients_of_chain. run.
Defined.

(** ** The next and the previous client *)

Lemma chain_index_next hp p l i j c r rc :
  chain hp p l → l !! i = Some c → l !! j = Some r → hp !! r = Some rc →
  Client.next rc = c → i = S j.
Proof.
  intros Hch Hi Hj Hr Hn.
  destruct (chain_lookup _ _ _ _ _ Hch Hj) as (_ & rc' & Hr' & Hnext & _).
  rewrite Hr in Hr'. injection Hr' as <-.
  destruct (chain_lookup _ _ _ _ _ Hch Hi) as (Hcn & _).
  destruct (l !! S j) as [c'|] eqn:E; simpl in Hnext; [|congruence].
  assert (c' = c) as -> by congruence.
  by apply (NoDup_lookup l i (S j) c (chain_NoDup _ _ _ Hch)).
Qed.

Lemma cyc_prev_0 (l : list ptr) : (1 ≤ length l)%nat → cyc_prev l 0 = last l.
Proof.
  intros Hlen. unfold cyc_prev. rewrite last_lookup. f_equal.
  replace (0 + length l - 1)%nat with (length l - 1)%nat by lia.
  rewrite Nat.mod_small by lia. lia.
Qed.

Lemma cyc_prev_S (l : list ptr) i : (S i < length l)%nat → cyc_prev l (S i) = l !! i.
Proof.
  intros Hlen. unfold cyc_prev. f_equal.
  replace (S i + length l - 1)%nat with (i + 1 * length l)%nat by lia.
  rewrite Nat.Div0.mod_add, Nat.mod_small by lia. done.
Qed.

(** [prev_client] for the client at index [i] of a list of two or more:
    the client at index [i - 1], and the last one for the head. *)
Lemma prev_client_index st ws s l i c :
  ws_at st ws = Some s → chain (heap st) (Workspace.head s) l →
  (2 ≤ length l)%nat → l !! i = Some c →
  prev_client st c ws = cyc_prev l i.
Proof.
  intros Hs Hch Hlen Hi.
  pose proof (chain_NoDup _ _ _ Hch) as Hnd.
  pose proof (chain_fuel _ _ _ Hch) as Hfuel.
  destruct (chain_lookup _ _ _ _ _ Hch Hi) as (Hcn & _).
  assert (cyc_prev l i = match i with O => last l | S j => l !! j end) as ->.
  { destruct i as [|j]; [apply cyc_prev_0; lia|].
    apply cyc_prev_S. by apply lookup_lt_Some in Hi. }
  unfold prev_client. rewrite Hs, (proj2 (is_null_false _) Hcn). simpl.
  destruct l as [|a [|b rest]]; [simpl in Hlen; lia..|].
  pose proof Hch as (Ha & Han & ac & Hla & Hb & Hbn & _).
  change (load st (Workspace.head s) = Some ac) in Hla.
  rewrite (proj2 (is_null_false _) Han), Hla. simpl.
  rewrite (proj2 (is_null_false _) Hbn). rewrite Ha in Hch |- *.
  assert (length (b :: rest) < fuel_of st)%nat as Hfuel' by (simpl in *; lia).
  destruct i as [|i].
  - injection Hi as <-.
    apply NoDup_cons in Hnd as [Hnin _].
    by rewrite (prev_client_loop_absent _ _ a _ _ Hch Hfuel' Hnin).
  - assert (c ∈ b :: rest) as Hin by (by apply (list_elem_of_lookup_2 _ i)).
    destruct (prev_client_loop_present _ _ c _ _ Hch Hfuel' Hin)
      as (r & rc & -> & Hr & Hnext & Hrin).
    apply list_elem_of_lookup_1 in Hrin as [j Hj].
    pose proof (chain_index_next _ _ _ (S i) j c r rc Hch Hi Hj Hr Hnext) as E.
    injection E as ->. by rewrite <- Hj.
Qed.

Lemma cyc_next_is_Some (l : list ptr) i : (i < length l)%nat → is_Some (cyc_next l i).
Proof.
  intros Hi. apply lookup_lt_is_Some. apply Nat.mod_upper_bound. lia.
Qed.

Lemma cyc_prev_is_Some (l : list ptr) i : (i < length l)%nat → is_Some (cyc_prev l i).
Proof.
  intros Hi. apply lookup_lt_is_Some. apply Nat.mod_upper_bound. lia.
Qed.

Lemma cyc_next_ne (l : list ptr) i c c' :
  NoDup l → (2 ≤ length l)%nat → l !! i = Some c → cyc_next l i = Some c' → c' ≠ c.
Proof.
  intros Hnd Hlen Hi Hn ->. unfold cyc_next in Hn.
  pose proof (NoDup_lookup l _ _ c Hnd Hn Hi) as E.
  apply lookup_lt_Some in Hi.
  destruct (decide (i + 1 = length l)%nat) as [E'|E'].
  - rewrite E', Nat.Div0.mod_same in E. lia.
  - rewrite Nat.mod_small in E by lia. lia.
Qed.

Lemma cyc_prev_ne (l : list ptr) i c c' :
  NoDup l → (2 ≤ length l)%nat → l !! i = Some c → cyc_prev l i = Some c' → c' ≠ c.
Proof.
  intros Hnd Hlen Hi Hn ->. unfold cyc_prev in Hn.
  pose proof (NoDup_lookup l _ _ c Hnd Hn Hi) as E.
  apply lookup_lt_Some in Hi.
  destruct i as [|i].
  - replace (0 + length l - 1)%nat with (length l - 1)%nat in E by lia.
    rewrite Nat.mod_small in E by lia. lia.
  - replace (S i + length l - 1)%nat with (i + 1 * length l)%nat in E by lia.
    rewrite Nat.Div0.mod_add, Nat.mod_small in E by lia. lia.
Qed.

(** The index of the cyclic successor, and the way back. *)
Lemma cyc_prev_next (l : list ptr) i :
  (i < length l)%nat → cyc_prev l ((i + 1) mod length l) = l !! i.
Proof.
  intros Hi. unfold cyc_prev. f_equal.
  destruct (decide (i + 1 = length l)%nat) as [E|E].
  - rewrite E, Nat.Div0.mod_same. simpl. rewrite Nat.mod_small by lia. lia.
  - rewrite (Nat.mod_small (i + 1)) by lia.
    replace (i + 1 + length l - 1)%nat with (i + 1 * length l)%nat by lia.
    rewrite Nat.Div0.mod_add, Nat.mod_small by lia. done.
Qed.

(** The head of a list of two or more has a successor. *)
Lemma chain_two hp p l :
  chain hp p l → (2 ≤ length l)%nat →
  p ≠ NULL ∧ l !! 0%nat = Some p ∧ ∃ hc, hp !! p = Some hc ∧ Client.next hc ≠ NULL.
Proof.
  intros Hch Hlen. destruct l as [|a [|b rest]]; [simpl in Hlen; lia..|].
  destruct Hch as (-> & Han & ac & Hla & Hb & Hbn & _).
  split; [done|]. split; [done|]. exists ac. split; [done|]. done.
Qed.

(** [update_focused_client] on a well-formed state, with the workspace it
    leaves. *)
Lemma update_focused_client_focus cfg st c s l :
  wf cfg st → ws_at st (cw st) = Some s → chain (heap st) (Workspace.head s) l → c ∈ l →
  ∃ st' p, update_focused_client cfg c st = Some st' ∧ wf cfg st'
           ∧ cw st' = cw st
           ∧ prev_client st (Workspace.prev_foc s) (cw st) = Some p
           ∧ ws_at st' (cw st) = Some (focus_ws p c s)
           ∧ chain (heap st') (Workspace.head s) l.
Proof.
  intros Hwf Hs Hch Hin.
  pose proof (wf_ws_at_ok cfg st _ s Hwf Hs) as Hok.
  pose proof Hok as (l0 & Hch0 & _ & _ & Hlay).
  destruct (update_focused_client_spec cfg st c s l Hs Hch Hlay Hin)
    as (st' & p & Hu & Hp & Hpl & Hg).
  set (st1 := set_wss _ st) in Hg.
  assert (wf cfg st1) as Hwf1.
  { apply wf_insert; [done|]. by apply (ws_ok_focus_ws _ _ _ _ l). }
  exists st', p. split; [done|]. split; [by apply (wf_geom_only _ st1)|].
  destruct Hg as [E L]. rewrite E. simpl.
  split; [done|]. split; [done|].
  split; [exact (ws_at_insert_eq st (cw st) s _ (heap st') Hs)|].
  by apply (chain_same_links (heap st)).
Qed.

Lemma focus_next_client_ok cfg st s l i c :
  wf cfg st → ws_at st (cw st) = Some s → chain (heap st) (Workspace.head s) l →
  (2 ≤ length l)%nat → l !! i = Some c → Workspace.current s = c →
  ∃ st' s' c', focus_next_client cfg st = Some st' ∧ wf cfg st' ∧ cw st' = cw st
               ∧ ws_at st' (cw st) = Some s'
               ∧ Workspace.head s' = Workspace.head s
               ∧ chain (heap st') (Workspace.head s) l
               ∧ cyc_next l i = Some c'
               ∧ Workspace.current s' = c' ∧ Workspace.prev_foc s' = c.
Proof.
  intros Hwf Hs Hch Hlen Hi Hcur.
  pose proof (chain_NoDup _ _ _ Hch) as Hnd.
  destruct (chain_lookup _ _ _ _ _ Hch Hi) as (Hcn & cc & Hcc & Hnext & _).
  destruct (chain_two _ _ _ Hch Hlen) as (Hhn & Hh0 & hc & Hlh & Hbn).
  destruct (cyc_next_is_Some l i) as [c' Hc'];
    [by apply lookup_lt_Some in Hi|].
  assert (c' ∈ l) as Hin' by (by apply list_elem_of_lookup_2 in Hc').
  pose proof (cyc_next_ne _ _ _ _ Hnd Hlen Hi Hc') as Hne.
  unfold focus_next_client. rewrite Hs. cbn [mbind option_bind]. rewrite Hcur.
  rewrite (proj2 (is_null_false _) Hcn). unfold load.
  rewrite Hlh. cbn [mbind option_bind]. rewrite (proj2 (is_null_false _) Hbn).
  rewrite Hcc. cbn [mbind option_bind].
  assert ((if negb (is_null (Client.next cc)) then Client.next cc else Workspace.head s) = c')
    as ->.
  { unfold cyc_next in Hc'. apply lookup_lt_Some in Hi as Hlt.
    destruct (decide (i + 1 = length l)%nat) as [E|E].
    - rewrite E, Nat.Div0.mod_same in Hc'. rewrite Hh0 in Hc'. injection Hc' as <-.
      rewrite (lookup_ge_None_2 _ (S i)) in Hnext by lia. simpl in Hnext.
      rewrite Hnext. simpl. done.
    - rewrite Nat.mod_small in Hc' by lia. replace (i + 1)%nat with (S i) in Hc' by lia.
      rewrite Hc' in Hnext. simpl in Hnext. rewrite Hnext.
      destruct (chain_elem _ _ _ _ Hch Hin') as [Hcn' _].
      by rewrite (proj2 (is_null_false _) Hcn'). }
  destruct (update_focused_client_focus cfg st c' s _ Hwf Hs Hch Hin')
    as (st' & p & -> & Hwf' & Hcw' & Hp & Hs' & Hch').
  exists st', (focus_ws p c' s), c'. split; [done|]. split; [done|]. split; [done|].
  split; [done|]. split; [by destruct (same_but_focus_focus_ws p c' s) as (_&_&_&_&_&?)|].
  split; [done|]. split; [done|]. split; [apply focus_ws_current|].
  unfold focus_ws. destruct (ptr_eqb c' (Workspace.prev_foc s)) eqn:E1.
  - apply ptr_eqb_true in E1. simpl. rewrite <- E1 in Hp.
    apply list_elem_of_lookup_1 in Hin' as [j Hj].
    rewrite (prev_client_index st (cw st) s _ j c' Hs Hch Hlen Hj) in Hp.
    unfold cyc_next in Hc'.
    pose proof (NoDup_lookup _ _ _ c' Hnd Hj Hc') as ->.
    rewrite cyc_prev_next in Hp by (by apply lookup_lt_Some in Hi). congruence.
  - rewrite Hcur. rewrite (proj2 (ptr_eqb_false _ _) Hne). simpl. done.
Qed.

Lemma focus_prev_client_ok cfg st s l i c :
  wf cfg st → ws_at st (cw st) = Some s → chain (heap st) (Workspace.head s) l →
  (2 ≤ length l)%nat → l !! i = Some c → Workspace.current s = c →
  ∃ st' s' c', focus_prev_client cfg st = Some st' ∧ wf cfg st' ∧ cw st' = cw st
               ∧ ws_at st' (cw st) = Some s'
               ∧ Workspace.head s' = Workspace.head s
               ∧ chain (heap st') (Workspace.head s) l
               ∧ cyc_prev l i = Some c'
               ∧ Workspace.current s' = c' ∧ Workspace.prev_foc s' = c.
Proof.
  intros Hwf Hs Hch Hlen Hi Hcur.
  pose proof (chain_NoDup _ _ _ Hch) as Hnd.
  destruct (chain_lookup _ _ _ _ _ Hch Hi) as (Hcn & cc & Hcc & Hnext & _).
  destruct (chain_two _ _ _ Hch Hlen) as (Hhn & Hh0 & hc & Hlh & Hbn).
  destruct (cyc_prev_is_Some l i) as [c' Hc'];
    [by apply lookup_lt_Some in Hi|].
  assert (c' ∈ l) as Hin' by (by apply list_elem_of_lookup_2 in Hc').
  pose proof (cyc_prev_ne _ _ _ _ Hnd Hlen Hi Hc') as Hne.
  assert (c ∈ l) as Hin by (by apply list_elem_of_lookup_2 in Hi).
  unfold focus_prev_client. rewrite Hs. cbn [mbind option_bind]. rewrite Hcur.
  rewrite (proj2 (is_null_false _) Hcn). unfold load.
  rewrite Hlh. cbn [mbind option_bind]. rewrite (proj2 (is_null_false _) Hbn).
  pose proof (wf_ws_at_ok cfg st _ s Hwf Hs) as Hok.
  destruct (ws_upd_wf cfg st (cw st) s (Workspace.set_prev_foc c) Hwf Hs)
    as (st1 & -> & Hwf1 & Hh1 & Hcw1 & _ & Hs1).
  { destruct Hok as (l0 & Hch0 & Hc0 & _ & Hlay).
    pose proof (chain_det _ _ _ _ Hch0 Hch) as ->.
    eexists. simpl. split; [exact Hch|]. auto. }
  cbn [mbind option_bind]. rewrite Hcw1, Hs1. cbn [mbind option_bind].
  rewrite <- Hcw1 in Hs1.
  assert (chain (heap st1) (Workspace.head (Workspace.set_prev_foc c s)) l)
    as Hch1 by (by rewrite Hh1).
  change (Workspace.prev_foc (Workspace.set_prev_foc c s)) with c.
  rewrite (prev_client_index st1 (cw st) (Workspace.set_prev_foc c s) l i c);
    [|by rewrite <- Hcw1|done|done|done].
  rewrite Hc'. cbn [mbind option_bind].
  destruct (update_focused_client_focus cfg st1 c' _ _ Hwf1 Hs1 Hch1 Hin')
    as (st' & p & -> & Hwf' & Hcw' & Hp & Hs' & Hch').
  rewrite Hcw1 in Hs', Hcw'.
  eexists st', _, c'. split; [done|]. split; [done|]. split; [done|].
  split; [exact Hs'|].
  split; [by destruct (same_but_focus_focus_ws p c' (Workspace.set_prev_foc c s))
            as (_&_&_&_&_&?)|].
  split; [done|]. split; [done|]. split; [apply focus_ws_current|].
  unfold focus_ws. simpl.
  rewrite (proj2 (ptr_eqb_false _ _) Hne). rewrite Hcur.
  rewrite (proj2 (ptr_eqb_false _ _) Hne). simpl. done.
Qed.

Lemma clients_cw_chain st l :
  clients_cw st = Some l ↔ ∃ s, ws_at st (cw st) = Some s ∧ chain (heap st) (Workspace.head s) l.
Proof.
  unfold clients_cw. split.
  - destruct (ws_at st (cw st)) as [s|]; [|done]. simpl. intros H.
    exists s. split; [done|]. by apply clients_of_chain.
  - intros (s & -> & H). simpl. by apply clients_of_chain.
Qed.

(** X14: the focus moves around the list of the current workspace.  With
    two or more clients and the focus on the client at index [i],
    [focus_next_client] focuses the client at index [i + 1], or the head
    after the last client, and keeps the old one as [prev_foc];
    [focus_prev_client] focuses the client at index [i - 1], or the last one
    before the head; and [focus_prev_client] after [focus_next_client]
    returns the focus.  The list itself is not changed.  With fewer than two
    clients both calls change nothing. *)
Theorem focus_next_prev_client cfg st l :
  wfb cfg st = true →
  clients_cw st = Some l →
  ((length l ≤ 1)%nat →
     focus_next_client cfg st = Some st ∧ focus_prev_client cfg st = Some st)
  ∧ (∀ i c, (2 ≤ length l)%nat → l !! i = Some c → current_of st = Some c →
       (∃ st1 st2, focus_next_client cfg st = Some st1
                   ∧ current_of st1 = cyc_next l i ∧ prev_foc_of st1 = Some c
                   ∧ clients_cw st1 = Some l
                   ∧ focus_prev_client cfg st1 = Some st2
                   ∧ current_of st2 = Some c ∧ clients_cw st2 = Some l)
       ∧ (∃ st3, focus_prev_client cfg st = Some st3
                 ∧ current_of st3 = cyc_prev l i ∧ prev_foc_of st3 = Some c
                 ∧ clients_cw st3 = Some l)).
Proof.
  intros Hwf Hl. apply wfb_wf in Hwf.
  apply clients_cw_chain in Hl as (s & Hs & Hch). split.
  - intros Hlen. unfold focus_next_client, focus_prev_client. rewrite Hs.
    cbn [mbind option_bind].
    destruct (wf_ws_at_ok cfg st _ s Hwf Hs) as (l0 & Hch0 & Hcur & _).
    pose proof (chain_det _ _ _ _ Hch0 Hch) as ->.
    destruct (is_null (Workspace.current s)) eqn:En; [done|].
    apply is_null_false in En. destruct Hcur as [?|Hcur]; [done|].
    destruct l as [|a [|b rest]]; [by apply elem_of_nil in Hcur| |simpl in Hlen; lia].
    destruct Hch as (Ha & Han & ac & Hla & Hnil). simpl in Hnil.
    unfold load. rewrite Hla. cbn [mbind option_bind].
    by rewrite (proj2 (is_null_true _) Hnil).
  - intros i c Hlen Hi Hcur. unfold current_of in Hcur. rewrite Hs in Hcur.
    injection Hcur as Hcur. split.
    + destruct (focus_next_client_ok cfg st s l i c Hwf Hs Hch Hlen Hi Hcur)
        as (st1 & s1 & c1 & H1 & Hwf1 & Hcw1 & Hs1 & Hhd1 & Hch1 & Hc1 & Hcur1 & Hpf1).
      rewrite <- Hcw1 in Hs1. rewrite <- Hhd1 in Hch1.
      assert (l !! ((i + 1) mod length l)%nat = Some c1) as Hi1 by exact Hc1.
      destruct (focus_prev_client_ok cfg st1 s1 l _ c1 Hwf1 Hs1 Hch1 Hlen Hi1 Hcur1)
        as (st2 & s2 & c2 & H2 & Hwf2 & Hcw2 & Hs2 & Hhd2 & Hch2 & Hc2 & Hcur2 & Hpf2).
      rewrite cyc_prev_next in Hc2 by (by apply lookup_lt_Some in Hi).
      assert (c2 = c) as -> by congruence.
      exists st1, st2. unfold current_of, prev_foc_of.
      rewrite Hs1. simpl. rewrite Hcur1, Hpf1, Hc1.
      split; [done|]. split; [done|]. split; [done|].
      split; [apply clients_cw_chain; by exists s1|].
      split; [done|]. rewrite <- Hcw2 in Hs2. rewrite Hs2. simpl. rewrite Hcur2.
      split; [done|]. apply clients_cw_chain. exists s2. split; [done|]. by rewrite Hhd2.
    + destruct (focus_prev_client_ok cfg st s l i c Hwf Hs Hch Hlen Hi Hcur)
        as (st3 & s3 & c3 & H3 & Hwf3 & Hcw3 & Hs3 & Hhd3 & Hch3 & Hc3 & Hcur3 & Hpf3).
      exists st3. unfold current_of, prev_foc_of. rewrite <- Hcw3 in Hs3.
      rewrite Hs3. simpl. rewrite Hcur3, Hpf3, Hc3.
      split; [done|]. split; [done|]. split; [done|].
      apply clients_cw_chain. exists s3. split; [done|]. by rewrite Hhd3.
Qed.

Lemma focus_next_prev_client_witness :
  ∃ st st1 st2 st3, st_three_clients = Some st
    ∧ clients_cw st = Some [1%N; 2%N; 3%N] ∧ current_of st = Some 3%N
    ∧ focus_next_client cfg_example st = Some st1 ∧ current_of st1 = Some 1%N
    ∧ prev_foc_of st1 = Some 3%N
    ∧ focus_prev_client cfg_example st1 = Some st2 ∧ current_of st2 = Some 3%N
    ∧ focus_prev_client cfg_example st = Some st3 ∧ current_of st3 = Some 2%N.
Proof.
  assert (∃ st, st_three_clients = Some st) as [st Hst] by (eexists; run).
  pose proof Hst as Hst'. vm_compute in Hst'. injection Hst' as <-.
  match type of Hst with
  | _ = Some ?st =>
      destruct (focus_next_prev_client cfg_example st [1%N; 2%N; 3%N]) as [_ H]; [run|run|];
      destruct (H 2%nat 3%N) as [(st1 & st2 & H1 & H2 & H3 & _ & H4 & H5 & _)
                                 (st3 & H6 & H7 & _)]; [simpl; lia|done|run|];
      exists st, st1, st2, st3
  end.
  split; [exact Hst|]. split; [run|]. split; [run|].
  split; [exact H1|]. split; [exact H2|]. split; [exact H3|]. split; [exact H4|].
  split; [exact H5|]. split; [exact H6|exact H7].
Defined.

(** ** Moving a client within its list *)

Lemma same_wins_refl h : same_wins h h.
Proof. done. Qed.

Lemma same_wins_trans h1 h2 h3 : same_wins h1 h2 → same_wins h2 h3 → same_wins h1 h3.
Proof. intros H1 H2 q. by rewrite H1. Qed.

Lemma same_wins_set_next hp p c r :
  hp !! p = Some c → same_wins hp (<[p := Client.set_next r c]> hp).
Proof.
  intros Hp q. destruct (decide (p = q)) as [<-|Hne].
  - by rewrite lookup_insert_eq, Hp.
  - by rewrite lookup_insert_ne.
Qed.

Lemma prev_client_mid st ws s l1 p c l2 :
  ws_at st ws = Some s → chain (heap st) (Workspace.head s) (l1 ++ p :: c :: l2) →
  prev_client st c ws = Some p.
Proof.
  intros Hs Hch.
  rewrite (prev_client_index st ws s _ (S (length l1)) c Hs Hch).
  - rewrite cyc_prev_S by (rewrite length_app; simpl; lia).
    by rewrite list_lookup_middle.
  - rewrite length_app. simpl. lia.
  - rewrite lookup_app_r by lia.
    by replace (S (length l1) - length l1)%nat with 1%nat by lia.
Qed.

Lemma prev_client_hd st ws s c n l2 :
  ws_at st ws = Some s → chain (heap st) (Workspace.head s) (c :: n :: l2) →
  ∃ t, prev_client st c ws = Some t ∧ t ≠ NULL ∧ t ∈ n :: l2.
Proof.
  intros Hs Hch.
  rewrite (prev_client_index st ws s _ 0 c Hs Hch); [|simpl; lia|done].
  rewrite cyc_prev_0 by (simpl; lia).
  change (last (c :: n :: l2)) with (last (n :: l2)).
  destruct (last (n :: l2)) as [t|] eqn:Et; [|by apply last_None in Et].
  exists t. split; [done|].
  assert (t ∈ n :: l2) as Hin.
  { rewrite last_lookup in Et. by apply list_elem_of_lookup_2 in Et. }
  split; [|done].
  assert (t ∈ c :: n :: l2) as Hin' by (by right).
  by destruct (chain_elem _ _ _ _ Hch Hin').
Qed.

(** The layouts write the geometry of the clients; the windows stay. *)
Lemma store_wins p f st st' :
  (∀ c, Client.win (f c) = Client.win c) → store p f st = Some st' →
  same_wins (heap st) (heap st').
Proof.
  intros Hf. unfold store. destruct (heap st !! p) as [c|] eqn:E; [|done].
  simpl. intros [= <-] q. simpl. destruct (decide (p = q)) as [<-|Hne].
  - rewrite lookup_insert_eq, E. simpl. by rewrite Hf.
  - by rewrite lookup_insert_ne.
Qed.

Lemma change_client_geom_wins c x y w h st st' :
  change_client_geom c x y w h st = Some st' → same_wins (heap st) (heap st').
Proof. apply store_wins. done. Qed.

Lemma draw_clients_eq st st' : draw_clients st = Some st' → st' = st.
Proof.
  unfold draw_clients. destruct (ws_at st (cw st)); [|done]. simpl.
  destruct (walk _ _ _); [|done]. simpl. by intros [= <-].
Qed.

Lemma zoom_loop_wins fuel x y w h c st st' :
  zoom_loop fuel x y w h c st = Some st' → same_wins (heap st) (heap st').
Proof.
  revert c st. induction fuel as [|k IH]; intros c st; [done|]. simpl.
  destruct (is_null c); [by intros [= <-]|].
  destruct (load st c) as [cc|]; [|done]. simpl.
  destruct (if negb (FFT cc) then _ else _) as [st1|] eqn:E1; [|done]. simpl.
  destruct (load st1 c) as [cc1|]; [|done]. simpl. intros H.
  apply (same_wins_trans _ (heap st1)); [|by apply IH in H].
  destruct (negb (FFT cc)); [by apply change_client_geom_wins in E1|].
  by injection E1 as <-.
Qed.

Lemma zoom_wins cfg st st' : zoom cfg st = Some st' → same_wins (heap st) (heap st').
Proof.
  unfold zoom. destruct (ws_at st (cw st)) as [s|]; [|done]. simpl.
  destruct (if negb _ then _ else _); [|done]. simpl.
  destruct (zoom_loop _ _ _ _ _ _ _) as [st1|] eqn:E; [|done]. simpl.
  intros H. apply draw_clients_eq in H as ->. by apply zoom_loop_wins in E.
Qed.

Lemma grid_loop_wins fuel n cols col_w client_y col_h rows i col_cnt row_cnt c st st' :
  grid_loop fuel n cols col_w client_y col_h rows i col_cnt row_cnt c st = Some st' →
  same_wins (heap st) (heap st').
Proof.
  revert rows i col_cnt row_cnt c st.
  induction fuel as [|k IH]; intros rows i col_cnt row_cnt c st; [done|]. simpl.
  destruct (is_null c); [by intros [= <-]|].
  destruct (load st c) as [cc|]; [|done]. simpl.
  destruct (FFT cc); [apply IH|].
  destruct (cdiv_chk _ _) as [q|]; [|done]. simpl.
  destruct (if bool_decide (cols = 0) then _ else _) as [r|]; [|done]. simpl.
  destruct (cdiv_chk (row_cnt * col_h) _) as [yy|]; [|done]. simpl.
  destruct (cdiv_chk col_h _) as [hh|]; [|done]. simpl.
  destruct (change_client_geom _ _ _ _ _ _) as [st1|] eqn:E1; [|done]. simpl.
  destruct (load st1 c) as [cc1|]; [|done]. simpl.
  apply change_client_geom_wins in E1.
  destruct (_ <=? _)%Z; intros H; apply IH in H; by eapply same_wins_trans.
Qed.

Lemma grid_wins cfg st st' : grid cfg st = Some st' → same_wins (heap st) (heap st').
Proof.
  unfold grid. destruct (get_non_tff_count st) as [n|]; [|done]. simpl.
  destruct (ws_at st (cw st)) as [s|]; [|done]. simpl.
  destruct (n <=? 1)%Z; [apply zoom_wins|].
  destruct (cdiv_chk _ _) as [rows|]; [|done]. simpl.
  destruct (grid_loop _ _ _ _ _ _ _ _ _ _ _ _) as [st1|] eqn:E; [|done]. simpl.
  intros H. apply draw_clients_eq in H as ->. by apply grid_loop_wins in E.
Qed.

Lemma stack_loop_wins fuel vert ms client_span rest client_x client_y c st st' :
  stack_loop fuel vert ms client_span rest client_x client_y c st = Some st' →
  same_wins (heap st) (heap st').
Proof.
  revert client_x client_y c st.
  induction fuel as [|k IH]; intros client_x client_y c st; [done|]. simpl.
  destruct (is_null c); [by intros [= <-]|].
  destruct (load st c) as [cc|]; [|done]. simpl.
  destruct (FFT cc); [apply IH|].
  destruct vert.
  - destruct (change_client_geom _ _ _ _ _ _) as [st1|] eqn:E1; [|done]. simpl.
    destruct (load st1 c) as [cc1|]; [|done]. simpl.
    apply change_client_geom_wins in E1.
    intros H; apply IH in H; by eapply same_wins_trans.
  - destruct (change_client_geom _ _ _ _ _ _) as [st1|] eqn:E1; [|done]. simpl.
    destruct (load st1 c) as [cc1|]; [|done]. simpl.
    apply change_client_geom_wins in E1.
    intros H; apply IH in H; by eapply same_wins_trans.
Qed.

Lemma stack_wins cfg st st' : stack cfg st = Some st' → same_wins (heap st) (heap st').
Proof.
  unfold stack. destruct (get_first_non_tff st) as [c|]; [|done]. simpl.
  destruct (ws_at st (cw st)) as [s|]; [|done]. simpl.
  destruct (get_non_tff_count st) as [n|]; [|done]. simpl.
  destruct (n <=? 1)%Z; [apply zoom_wins|].
  destruct (cdiv_chk _ (n - 1)) as [span|]; [|done]. simpl.
  destruct (bool_decide (Workspace.layout s = VSTACK)).
  all: destruct (change_client_geom c _ _ _ _ st) as [st1|] eqn:E1; [|done]; simpl.
  all: destruct (load st1 c) as [cc|]; [|done]; simpl.
  all: destruct (stack_loop _ _ _ _ _ _ _ _ _) as [st2|] eqn:E2; [|done]; simpl.
  all: intros H; apply draw_clients_eq in H as ->.
  all: apply stack_loop_wins in E2; apply change_client_geom_wins in E1.
  all: by eapply same_wins_trans.
Qed.

Lemma arrange_windows_wins cfg st st' :
  arrange_windows cfg st = Some st' → same_wins (heap st) (heap st').
Proof.
  unfold arrange_windows. destruct (ws_at st (cw st)) as [s|]; [|done]. simpl.
  destruct (is_null _); [by intros [= <-]|].
  destruct (load st _); [|done]. simpl. unfold layout_handler.
  repeat case_bool_decide; try done;
    first [apply zoom_wins | apply grid_wins | apply stack_wins].
Qed.

Lemma chain_head hp p x l : chain hp p (x :: l) → p = x.
Proof. by intros (-> & _). Qed.

Lemma chain_app_head hp p l1 x l2 :
  chain hp p (l1 ++ x :: l2) → p ∈ l1 ++ [x].
Proof.
  destruct l1 as [|a l1]; simpl; intros (-> & _); [by left|left].
Qed.

Lemma chain_suffix hp p l1 l2 :
  chain hp p (l1 ++ l2) → ∃ q, chain hp q l2.
Proof.
  revert p. induction l1 as [|x l1 IH]; intros p Hch; [by exists p|].
  destruct Hch as (_ & _ & xc & _ & Hrest). by apply (IH _ Hrest).
Qed.

Lemma chain_at hp p l1 q l2 :
  chain hp p (l1 ++ q :: l2) →
  q ≠ NULL ∧ ∃ qc, hp !! q = Some qc ∧ chain hp (Client.next qc) l2
                   ∧ Client.next qc = default NULL (head l2).
Proof.
  intros Hch. destruct (chain_suffix _ _ _ _ Hch) as (q' & Hq).
  pose proof Hq as (-> & Hn & qc & Hqc & Hrest).
  split; [done|]. exists qc. split; [done|]. split; [done|].
  destruct l2 as [|x l2]; [done|]. by destruct Hrest as (-> & _).
Qed.

Lemma load_set_heap_eq hp st p c : load (set_heap (<[p := c]> hp) st) p = Some c.
Proof. unfold load. simpl. apply lookup_insert_eq. Qed.

Lemma load_set_heap_ne hp st p q c :
  p ≠ q → load (set_heap (<[p := c]> hp) st) q = load (set_heap hp st) q.
Proof. intros Hne. unfold load. simpl. by apply lookup_insert_ne. Qed.

Lemma set_heap_set_heap h1 h2 st : set_heap h1 (set_heap h2 st) = set_heap h1 st.
Proof. done. Qed.

Lemma set_heap_id st : set_heap (heap st) st = st.
Proof. by destruct st. Qed.

(** A lookup in a heap that was written a few times. *)
Ltac heap_lookup :=
  unfold load;
  repeat (progress (repeat match goal with x := _ |- _ => progress unfold x end;
                    cbn [heap set_heap]));
  repeat first [rewrite lookup_insert_eq | rewrite lookup_insert_ne by done];
  try done.

(** The layout runs on a state that differs from [st] in its heap. *)
Lemma arrange_after cfg st hp s l :
  ws_at st (cw st) = Some s → chain hp (Workspace.head s) l →
  0 ≤ Workspace.layout s < END_LAYOUT →
  ∃ st', arrange_windows cfg (set_heap hp st) = Some st'
         ∧ cw st' = cw st ∧ wss st' = wss st ∧ ws_at st' (cw st) = Some s
         ∧ scratchpad st' = scratchpad st
         ∧ chain (heap st') (Workspace.head s) l ∧ same_wins hp (heap st').
Proof.
  intros Hs Hch Hlay.
  destruct (arrange_windows_ok cfg (set_heap hp st) s l) as (st' & Ha & Hg); [done..|].
  exists st'. split; [done|].
  pose proof (arrange_windows_wins _ _ _ Ha) as Hw.
  destruct Hg as [E L]. rewrite E. simpl.
  split; [done|]. split; [done|]. split; [done|]. split; [done|].
  split; [by apply (chain_same_links hp)|done].
Qed.

(** [move_down] of a client that is neither the head nor the last one. *)
Lemma move_down_mid cfg st s l1 p c n l2 :
  ws_at st (cw st) = Some s →
  chain (heap st) (Workspace.head s) (l1 ++ p :: c :: n :: l2) →
  0 ≤ Workspace.layout s < END_LAYOUT →
  ∃ st', move_down cfg c st = Some st' ∧ cw st' = cw st ∧ ws_at st' (cw st) = Some s
         ∧ scratchpad st' = scratchpad st
         ∧ chain (heap st') (Workspace.head s) (l1 ++ p :: n :: c :: l2)
         ∧ same_wins (heap st) (heap st').
Proof.
  intros Hs Hch Hlay.
  pose proof (chain_NoDup _ _ _ Hch) as Hnd.
  apply NoDup_app in Hnd as (Hnd1 & Hd1 & Hnd).
  apply NoDup_cons in Hnd as (Hp & Hnd). apply NoDup_cons in Hnd as (Hc & Hnd).
  apply NoDup_cons in Hnd as (Hn & Hnd2).
  destruct (chain_at _ _ l1 p _ Hch) as (Hpn & pc & Hpc & _ & Hpnext).
  destruct (chain_at (heap st) (Workspace.head s) (l1 ++ [p]) c (n :: l2))
    as (Hcn & cc & Hcc & _ & Hnc'); [by rewrite <- (assoc_L (++))|].
  destruct (chain_at (heap st) (Workspace.head s) (l1 ++ [p; c]) n l2)
    as (Hnn & nc & Hnc & Hrest & _); [by rewrite <- (assoc_L (++))|].
  simpl in Hpnext, Hnc'.
  assert (p ≠ c ∧ p ≠ n ∧ c ≠ n) as (Hpc_ne & Hpn_ne & Hcn_ne) by set_solver.
  assert (Workspace.head s ≠ c) as Hhc.
  { intros E. pose proof (chain_app_head _ _ _ _ _ Hch) as Hin. rewrite E in Hin.
    apply elem_of_app in Hin as [Hin|Hin]; [apply (Hd1 c Hin); set_solver|set_solver]. }
  assert (load st c = Some cc) as Hlc by done.
  assert (load st n = Some nc) as Hln by done.
  assert (load st p = Some pc) as Hlp by done.
  unfold move_down.
  rewrite (prev_client_mid st (cw st) s l1 p c (n :: l2) Hs Hch). cbn [mbind option_bind].
  rewrite Hlc. cbn [mbind option_bind]. rewrite Hs. cbn [mbind option_bind].
  rewrite Hnc', (proj2 (is_null_false _) Hnn), (proj2 (is_null_false _) Hcn),
    (proj2 (is_null_false _) Hpn). cbn [negb].
  rewrite (proj2 (ptr_eqb_false _ _) Hhc).
  rewrite (store_eq st p pc _ Hlp). cbn [mbind option_bind].
  set (h1 := <[p := Client.set_next n pc]> (heap st)).
  set (st1 := set_heap h1 st).
  assert (load st1 c = Some cc) as Hc1 by heap_lookup.
  assert (load st1 n = Some nc) as Hn1 by heap_lookup.
  rewrite Hc1. cbn [mbind option_bind].
  rewrite Hnc', (proj2 (is_null_false _) Hnn). cbn [negb].
  rewrite Hn1. cbn [mbind option_bind].
  rewrite (store_eq st1 c cc _ Hc1). cbn [mbind option_bind].
  set (h2 := <[c := Client.set_next (Client.next nc) cc]> h1).
  change (set_heap _ st1) with (set_heap h2 st). set (st2 := set_heap h2 st).
  assert (load st2 n = Some nc) as Hn2 by heap_lookup.
  assert (load st2 c = Some (Client.set_next (Client.next nc) cc)) as Hc2 by heap_lookup.
  rewrite Hn2. cbn [mbind option_bind]. rewrite Hc2. cbn [mbind option_bind].
  rewrite (proj2 (ptr_eqb_true _ _)) by done.
  rewrite (store_eq st2 n nc _ Hn2). cbn [mbind option_bind].
  set (h3 := <[n := Client.set_next c nc]> h2).
  change (set_heap _ st2) with (set_heap h3 st).
  (* the list after the three writes *)
  assert (chain h3 (Workspace.head s) (l1 ++ p :: n :: c :: l2)) as Hch3.
  { assert (chain h1 (Workspace.head s) (l1 ++ p :: n :: l2)) as H1.
    { unfold h1.
      apply (chain_splice _ _ _ _ (c :: n :: l2)); [done|done| | |].
      - by apply (chain_cons _ _ nc).
      - set_solver.
      - intros x Hx Hx'. apply (Hd1 x Hx). set_solver. }
    assert (chain h2 (Workspace.head s) (l1 ++ p :: n :: l2)) as H2.
    { apply chain_frame; [done|]. intros Hin.
      apply elem_of_app in Hin as [Hin|Hin]; [apply (Hd1 c Hin); set_solver|set_solver]. }
    assert (chain h2 c (c :: l2)) as H2c.
    { apply (chain_cons _ _ (Client.set_next (Client.next nc) cc));
        [done|apply lookup_insert_eq|]. simpl.
      apply chain_frame; [|set_solver]. apply chain_frame; [done|set_solver]. }
    replace (l1 ++ p :: n :: c :: l2) with ((l1 ++ [p]) ++ n :: c :: l2)
      by (by rewrite <- (assoc_L (++))).
    apply (chain_splice _ _ _ _ l2).
    - by rewrite <- (assoc_L (++)).
    - unfold h2, h1. by rewrite !lookup_insert_ne.
    - done.
    - set_solver.
    - intros x Hx Hx'. apply elem_of_app in Hx as [Hx|Hx].
      + apply (Hd1 x Hx). set_solver.
      + set_solver. }
  destruct (arrange_after cfg st h3 s _ Hs Hch3 Hlay)
    as (st' & -> & Hcw & _ & Hs' & Hsp & Hch' & Hw).
  exists st'. split; [done|]. split; [done|]. split; [done|]. split; [done|].
  split; [done|].
  eapply same_wins_trans; [|exact Hw]. unfold h3, h2, h1.
  eapply same_wins_trans; [by apply (same_wins_set_next _ p pc)|].
  eapply same_wins_trans.
  { apply (same_wins_set_next _ c cc). by rewrite lookup_insert_ne. }
  apply (same_wins_set_next _ n nc). by rewrite !lookup_insert_ne.
Qed.

Lemma chain_next_ne hp h rest hc :
  chain hp h (h :: rest) → hp !! h = Some hc → Client.next hc ≠ h.
Proof.
  intros Hch Hh E. pose proof (chain_NoDup _ _ _ Hch) as Hnd.
  apply NoDup_cons in Hnd as [Hnin _].
  destruct Hch as (_ & Hn & hc' & Hh' & Hrest).
  rewrite Hh in Hh'. injection Hh' as <-.
  destruct rest as [|x rest]; [simpl in Hrest; congruence|].
  destruct Hrest as (Hx & _). apply Hnin. rewrite <- Hx, E. left.
Qed.

Lemma ws_at_set_heap hp st i : ws_at (set_heap hp st) i = ws_at st i.
Proof. done. Qed.

(** [move_down] of the head of a list of two or more. *)
Lemma move_down_head cfg st s c n l2 :
  ws_at st (cw st) = Some s →
  chain (heap st) (Workspace.head s) (c :: n :: l2) →
  0 ≤ Workspace.layout s < END_LAYOUT →
  ∃ st', move_down cfg c st = Some st' ∧ cw st' = cw st
         ∧ ws_at st' (cw st) = Some (Workspace.set_head n s)
         ∧ scratchpad st' = scratchpad st
         ∧ chain (heap st') n (n :: c :: l2)
         ∧ same_wins (heap st) (heap st').
Proof.
  intros Hs Hch Hlay.
  pose proof (chain_NoDup _ _ _ Hch) as Hnd.
  apply NoDup_cons in Hnd as (Hc & Hnd). apply NoDup_cons in Hnd as (Hn & Hnd2).
  pose proof (chain_head _ _ _ _ Hch) as Hhd.
  destruct (chain_at (heap st) (Workspace.head s) [] c (n :: l2) Hch)
    as (Hcn & cc & Hcc & _ & Hnc').
  destruct (chain_at (heap st) (Workspace.head s) [c] n l2 Hch)
    as (Hnn & nc & Hnc & Hrest & _).
  simpl in Hnc'.
  assert (c ≠ n) as Hcn_ne by (intros ->; apply Hc; left).
  destruct (prev_client_hd st (cw st) s c n l2 Hs Hch) as (t & Ht & Htn & _).
  assert (load st c = Some cc) as Hlc by done.
  assert (load st n = Some nc) as Hln by done.
  unfold move_down. rewrite Ht. cbn [mbind option_bind].
  rewrite Hlc. cbn [mbind option_bind]. rewrite Hs. cbn [mbind option_bind].
  rewrite Hnc', (proj2 (is_null_false _) Hnn), (proj2 (is_null_false _) Hcn),
    (proj2 (is_null_false _) Htn). cbn [negb].
  rewrite (proj2 (ptr_eqb_true _ _) Hhd).
  rewrite (ws_upd_eq st (cw st) s _ Hs). cbn [mbind option_bind].
  set (st0 := set_wss _ st).
  assert (ws_at st0 (cw st0) = Some (Workspace.set_head n s)) as Hs0
    by exact (ws_at_insert_eq st (cw st) s _ (heap st) Hs).
  assert (load st0 c = Some cc) as Hc0 by done.
  assert (load st0 n = Some nc) as Hn0 by done.
  rewrite Hc0. cbn [mbind option_bind].
  rewrite Hnc', (proj2 (is_null_false _) Hnn). cbn [negb].
  rewrite Hn0. cbn [mbind option_bind].
  rewrite (store_eq st0 c cc _ Hc0). cbn [mbind option_bind].
  set (h2 := <[c := Client.set_next (Client.next nc) cc]> (heap st)).
  change (set_heap _ st0) with (set_heap h2 st0). set (st2 := set_heap h2 st0).
  assert (load st2 n = Some nc) as Hn2 by heap_lookup.
  assert (load st2 c = Some (Client.set_next (Client.next nc) cc)) as Hc2 by heap_lookup.
  rewrite Hn2. cbn [mbind option_bind]. rewrite Hc2. cbn [mbind option_bind].
  rewrite (proj2 (ptr_eqb_true _ _)) by done.
  rewrite (store_eq st2 n nc _ Hn2). cbn [mbind option_bind].
  set (h3 := <[n := Client.set_next c nc]> h2).
  change (set_heap _ st2) with (set_heap h3 st0).
  assert (chain h3 (Workspace.head (Workspace.set_head n s)) (n :: c :: l2)) as Hch3.
  { simpl. assert (chain h2 c (c :: l2)) as H2c.
    { apply (chain_cons _ _ (Client.set_next (Client.next nc) cc));
        [done|apply lookup_insert_eq|]. simpl.
      apply chain_frame; [done|]. intros Hin. apply Hc. by right. }
    apply (chain_splice h2 n [] n l2 nc c (c :: l2)).
    - apply (chain_cons _ _ nc); [done|by unfold h2; rewrite lookup_insert_ne|].
      apply chain_frame; [done|]. intros Hin. apply Hc. by right.
    - unfold h2. by rewrite lookup_insert_ne.
    - done.
    - intros Hin. apply elem_of_cons in Hin as [E|Hin]; [by subst|done].
    - intros x Hx. by apply elem_of_nil in Hx. }
  destruct (arrange_after cfg st0 h3 _ _ Hs0 Hch3 Hlay)
    as (st' & -> & Hcw & _ & Hs' & Hsp & Hch' & Hw).
  exists st'. split; [done|]. split; [done|]. split; [done|]. split; [done|].
  split; [done|].
  eapply same_wins_trans; [|exact Hw]. unfold h3, h2.
  eapply same_wins_trans; [by apply (same_wins_set_next _ c cc)|].
  apply (same_wins_set_next _ n nc). by rewrite lookup_insert_ne.
Qed.

(** [move_down] of the last client of a list of two or more: it becomes the
    head. *)
Lemma move_down_last cfg st s l1 p c :
  ws_at st (cw st) = Some s →
  chain (heap st) (Workspace.head s) (l1 ++ [p; c]) →
  0 ≤ Workspace.layout s < END_LAYOUT →
  ∃ st', move_down cfg c st = Some st' ∧ cw st' = cw st
         ∧ ws_at st' (cw st) = Some (Workspace.set_head c s)
         ∧ scratchpad st' = scratchpad st
         ∧ chain (heap st') c (c :: l1 ++ [p])
         ∧ same_wins (heap st) (heap st').
Proof.
  intros Hs Hch Hlay.
  pose proof (chain_NoDup _ _ _ Hch) as Hnd.
  apply NoDup_app in Hnd as (Hnd1 & Hd1 & Hnd).
  apply NoDup_cons in Hnd as (Hp & Hnd). apply NoDup_cons in Hnd as (Hc & _).
  destruct (chain_at _ _ l1 p _ Hch) as (Hpn & pc & Hpc & _ & Hpnext).
  destruct (chain_at (heap st) (Workspace.head s) (l1 ++ [p]) c [])
    as (Hcn & cc & Hcc & _ & Hnc'); [by rewrite <- (assoc_L (++))|].
  simpl in Hpnext, Hnc'.
  assert (p ≠ c) as Hpc_ne by (intros ->; apply Hp; left).
  assert (c ∉ l1 ++ [p]) as Hcl.
  { intros Hin. apply elem_of_app in Hin as [Hin|Hin].
    - apply (Hd1 c Hin). right. left.
    - apply list_elem_of_singleton in Hin. congruence. }
  assert (Workspace.head s ∈ l1 ++ [p]) as Hhin by apply (chain_app_head _ _ _ _ _ Hch).
  assert (Workspace.head s ≠ c) as Hhc by (intros E; by rewrite E in Hhin).
  assert (load st c = Some cc) as Hlc by done.
  assert (load st p = Some pc) as Hlp by done.
  unfold move_down.
  rewrite (prev_client_mid st (cw st) s l1 p c [] Hs Hch). cbn [mbind option_bind].
  rewrite Hlc. cbn [mbind option_bind]. rewrite Hs. cbn [mbind option_bind].
  rewrite Hnc'. change (is_null NULL) with true. cbn [negb].
  rewrite (proj2 (is_null_false _) Hcn), (proj2 (is_null_false _) Hpn).
  rewrite (proj2 (ptr_eqb_false _ _) Hhc).
  rewrite (store_eq st p pc _ Hlp). cbn [mbind option_bind].
  set (h1 := <[p := Client.set_next NULL pc]> (heap st)).
  set (st1 := set_heap h1 st).
  assert (load st1 c = Some cc) as Hc1 by heap_lookup.
  rewrite Hc1. cbn [mbind option_bind].
  rewrite Hnc'. change (is_null NULL) with true. cbn [negb mbind option_bind].
  rewrite (store_eq st1 c cc _ Hc1). cbn [mbind option_bind].
  set (h2 := <[c := Client.set_next (Workspace.head s) cc]> h1).
  change (set_heap _ st1) with (set_heap h2 st). set (st2 := set_heap h2 st).
  (* the list without [c], and [c] in front of it *)
  assert (chain h1 (Workspace.head s) (l1 ++ [p])) as H1.
  { unfold h1. apply (chain_splice _ _ _ _ [c]); [done|done|done| |].
    - apply not_elem_of_nil.
    - intros x _. apply not_elem_of_nil. }
  assert (chain h2 (Workspace.head s) (l1 ++ [p])) as H2 by (by apply chain_frame).
  assert (∃ rest, l1 ++ [p] = Workspace.head s :: rest) as (rest & Hrest).
  { destruct l1 as [|a l1]; simpl in *.
    - destruct H2 as (-> & _). by exists [].
    - destruct H2 as (-> & _). by eexists. }
  rewrite Hrest in H2.
  destruct (chain_at h2 (Workspace.head s) [] _ rest H2) as (Hhn & hc & Hhc2 & _ & _).
  assert (load st2 (Workspace.head s) = Some hc) as Hh2 by done.
  assert (load st2 c = Some (Client.set_next (Workspace.head s) cc)) as Hc2 by heap_lookup.
  rewrite Hh2. cbn [mbind option_bind]. rewrite Hc2. cbn [mbind option_bind].
  change (Client.next (Client.set_next (Workspace.head s) cc)) with (Workspace.head s).
  rewrite (proj2 (ptr_eqb_false _ _) (chain_next_ne _ _ _ _ H2 Hhc2)).
  assert (ws_at st2 (cw st2) = Some s) as Hs2 by done.
  rewrite (ws_upd_eq st2 (cw st2) s _ Hs2). cbn [mbind option_bind].
  set (st0 := set_wss (<[Z.to_nat (cw st) := Workspace.set_head c s]> (wss st)) st).
  change (set_wss _ st2) with (set_heap h2 st0).
  assert (ws_at st0 (cw st0) = Some (Workspace.set_head c s)) as Hs0
    by exact (ws_at_insert_eq st (cw st) s _ (heap st) Hs).
  assert (chain h2 (Workspace.head (Workspace.set_head c s)) (c :: l1 ++ [p])) as Hch3.
  { simpl. apply (chain_cons _ _ (Client.set_next (Workspace.head s) cc));
      [done|apply lookup_insert_eq|]. simpl. by rewrite Hrest. }
  destruct (arrange_after cfg st0 h2 _ _ Hs0 Hch3 Hlay)
    as (st' & -> & Hcw & _ & Hs' & Hsp & Hch' & Hw).
  exists st'. split; [done|]. split; [done|]. split; [done|]. split; [done|].
  split; [done|].
  eapply same_wins_trans; [|exact Hw]. unfold h2, h1.
  eapply same_wins_trans; [by apply (same_wins_set_next _ p pc)|].
  apply (same_wins_set_next _ c cc). by rewrite lookup_insert_ne.
Qed.

(** The loop of [move_up] finds the client before [p], and nil when [p] is
    the head. *)
Lemma move_up_loop_none fuel st p x l :
  chain (heap st) x l → (length l < fuel)%nat →
  (∀ q qc, q ∈ l → heap st !! q = Some qc → Client.next qc ≠ p) →
  move_up_loop fuel st p x = Some NULL.
Proof.
  revert x l. induction fuel as [|k IH]; intros x l Hch Hlen Hnone; [lia|].
  simpl. destruct l as [|q l]; simpl in Hch.
  - by rewrite (proj2 (is_null_true _) Hch).
  - destruct Hch as (-> & Hn & qc & Hq & Hrest).
    rewrite (proj2 (is_null_false _) Hn). unfold load. rewrite Hq. simpl.
    rewrite (proj2 (ptr_eqb_false _ _)) by (apply (Hnone q); [left|done]).
    apply (IH _ l Hrest); [simpl in Hlen; lia|].
    intros y yc Hy. apply Hnone. by right.
Qed.

Lemma move_up_loop_find fuel st p x l1 pp l2 :
  chain (heap st) x (l1 ++ pp :: p :: l2) → (length (l1 ++ pp :: p :: l2) < fuel)%nat →
  move_up_loop fuel st p x = Some pp.
Proof.
  revert x l1. induction fuel as [|k IH]; intros x l1 Hch Hlen; [lia|].
  pose proof (chain_NoDup _ _ _ Hch) as Hnd.
  simpl. destruct l1 as [|q l1]; simpl in Hch.
  - destruct Hch as (-> & Hn & qc & Hq & Hp & _).
    rewrite (proj2 (is_null_false _) Hn). unfold load. rewrite Hq. simpl.
    by rewrite (proj2 (ptr_eqb_true _ _) Hp).
  - destruct Hch as (-> & Hn & qc & Hq & Hrest).
    rewrite (proj2 (is_null_false _) Hn). unfold load. rewrite Hq. simpl.
    assert (Client.next qc ≠ p) as Hne.
    { intros E. simpl in Hnd. apply NoDup_cons in Hnd as [_ Hnd].
      apply NoDup_app in Hnd as (_ & Hd & Hnd2).
      destruct l1 as [|y l1]; simpl in Hrest.
      - destruct Hrest as (Hy & _). rewrite E in Hy. subst pp.
        apply NoDup_cons in Hnd2 as [Hnin _]. apply Hnin. left.
      - destruct Hrest as (Hy & _). rewrite E in Hy. subst y.
        apply (Hd p); [left|]. right. left. }
    rewrite (proj2 (ptr_eqb_false _ _) Hne).
    apply (IH _ l1 Hrest). simpl in Hlen. lia.
Qed.

(** [move_up] of a client with two or more clients before it. *)
Lemma move_up_mid cfg st s l1 pp p c l2 :
  ws_at st (cw st) = Some s →
  chain (heap st) (Workspace.head s) (l1 ++ pp :: p :: c :: l2) →
  0 ≤ Workspace.layout s < END_LAYOUT →
  ∃ st', move_up cfg c st = Some st' ∧ cw st' = cw st ∧ ws_at st' (cw st) = Some s
         ∧ scratchpad st' = scratchpad st
         ∧ chain (heap st') (Workspace.head s) (l1 ++ pp :: c :: p :: l2)
         ∧ same_wins (heap st) (heap st').
Proof.
  intros Hs Hch Hlay.
  pose proof (chain_NoDup _ _ _ Hch) as Hnd.
  apply NoDup_app in Hnd as (Hnd1 & Hd1 & Hnd).
  apply NoDup_cons in Hnd as (Hpp & Hnd). apply NoDup_cons in Hnd as (Hp & Hnd).
  apply NoDup_cons in Hnd as (Hc & Hnd2).
  destruct (chain_at _ _ l1 pp _ Hch) as (Hppn & ppc & Hppc & _ & Hppnext).
  destruct (chain_at (heap st) (Workspace.head s) (l1 ++ [pp]) p (c :: l2))
    as (Hpn & pc & Hpc & _ & Hpnext); [by rewrite <- (assoc_L (++))|].
  destruct (chain_at (heap st) (Workspace.head s) (l1 ++ [pp; p]) c l2)
    as (Hcn & cc & Hcc & Hrest & Hcnext); [by rewrite <- (assoc_L (++))|].
  simpl in Hppnext, Hpnext.
  assert (pp ≠ p ∧ pp ≠ c ∧ p ≠ c) as (Hppp & Hppc_ne & Hpc_ne).
  { split; [|split]; intros ->; [apply Hpp; left|apply Hpp; right; left|apply Hp; left]. }
  assert (Workspace.head s ∈ l1 ++ [pp]) as Hhin by apply (chain_app_head _ _ _ _ _ Hch).
  assert (∀ x, x ∈ l1 ++ [pp] → x ∉ p :: c :: l2) as Hd.
  { intros x Hx. apply elem_of_app in Hx as [Hx|Hx].
    - intros Hin. apply (Hd1 x Hx). by right.
    - apply list_elem_of_singleton in Hx as ->. done. }
  assert (Workspace.head s ≠ c) as Hhc.
  { intros E. apply (Hd _ Hhin). rewrite E. right. left. }
  assert (Client.next cc ≠ Workspace.head s) as Hnh.
  { intros E. destruct l2 as [|x l2]; simpl in Hcnext.
    - destruct (chain_elem _ _ _ (Workspace.head s) Hch) as [Hhn _].
      { apply elem_of_app in Hhin as [?|?%list_elem_of_singleton];
          [apply elem_of_app; by left|subst; apply elem_of_app; right; left]. }
      congruence.
    - apply (Hd _ Hhin). rewrite <- E, Hcnext. right. right. left. }
  assert (load st c = Some cc) as Hlc by done.
  assert (load st p = Some pc) as Hlp by done.
  assert (load st pp = Some ppc) as Hlpp by done.
  unfold move_up.
  rewrite (prev_client_mid st (cw st) s (l1 ++ [pp]) p c l2 Hs);
    [|by rewrite <- (assoc_L (++))].
  cbn [mbind option_bind].
  rewrite (proj2 (is_null_false _) Hcn), (proj2 (is_null_false _) Hpn).
  rewrite Hlp. cbn [mbind option_bind]. rewrite Hs. cbn [mbind option_bind].
  rewrite Hpnext, (proj2 (is_null_false _) Hcn). cbn [negb].
  rewrite (move_up_loop_find (fuel_of st) st p _ l1 pp (c :: l2) Hch (chain_fuel _ _ _ Hch)).
  cbn [mbind option_bind]. rewrite (proj2 (is_null_false _) Hppn). cbn [negb].
  rewrite (store_eq st pp ppc _ Hlpp). cbn [mbind option_bind].
  set (h1 := <[pp := Client.set_next c ppc]> (heap st)).
  set (st1 := set_heap h1 st).
  change (ws_at st1 (cw st1)) with (ws_at st (cw st)). rewrite Hs. cbn [mbind option_bind].
  assert (load st1 c = Some cc) as Hc1 by heap_lookup.
  assert (load st1 p = Some pc) as Hp1 by heap_lookup.
  rewrite Hc1. cbn [mbind option_bind].
  rewrite (proj2 (ptr_eqb_false _ _) Hnh).
  rewrite (store_eq st1 p pc _ Hp1). cbn [mbind option_bind].
  set (h2 := <[p := Client.set_next (Client.next cc) pc]> h1).
  change (set_heap _ st1) with (set_heap h2 st). set (st2 := set_heap h2 st).
  change (ws_at st2 (cw st2)) with (ws_at st (cw st)). rewrite Hs. cbn [mbind option_bind].
  assert (load st2 c = Some cc) as Hc2 by heap_lookup.
  rewrite Hc2. cbn [mbind option_bind].
  rewrite (proj2 (ptr_eqb_false _ _) Hnh).
  rewrite (store_eq st2 c cc _ Hc2). cbn [mbind option_bind].
  set (h3 := <[c := Client.set_next p cc]> h2).
  change (set_heap _ st2) with (set_heap h3 st).
  assert (chain h3 (Workspace.head s) (l1 ++ pp :: c :: p :: l2)) as Hch3.
  { (* [p] is taken out, then [c] is linked to [p] and [pp] to [c] *)
    assert (chain (<[p := Client.set_next (Client.next cc) pc]> (heap st)) p (p :: l2)) as Hp2.
    { apply (chain_cons _ _ (Client.set_next (Client.next cc) pc));
        [done|apply lookup_insert_eq|]. simpl.
      apply chain_frame; [done|]. intros Hin. apply Hp. by right. }
    assert (chain (<[c := Client.set_next p cc]>
                     (<[p := Client.set_next (Client.next cc) pc]> (heap st)))
                  c (c :: p :: l2)) as Hc3.
    { apply (chain_cons _ _ (Client.set_next p cc)); [done|apply lookup_insert_eq|].
      change (Client.next (Client.set_next p cc)) with p.
      apply chain_frame; [done|]. intros Hin.
      apply elem_of_cons in Hin as [E|Hin]; [done|]. apply Hc. done. }
    assert (h3 = <[pp := Client.set_next c ppc]>
                   (<[c := Client.set_next p cc]>
                      (<[p := Client.set_next (Client.next cc) pc]> (heap st)))) as ->.
    { unfold h3, h2, h1.
      rewrite (insert_insert_ne _ p pp) by congruence.
      rewrite (insert_insert_ne _ c pp) by congruence. done. }
    apply (chain_splice _ _ _ _ (p :: l2)).
    - apply chain_frame; [|set_solver].
      change (l1 ++ pp :: p :: l2) with (l1 ++ [pp] ++ p :: l2).
      rewrite (assoc_L (++) l1 [pp] (p :: l2)).
      apply (chain_splice _ _ _ _ (c :: l2)); [by rewrite <- (assoc_L (++))|done|done|..].
      + intros Hin. apply Hp. by right.
      + intros x Hx Hin. apply (Hd x Hx). by do 2 right.
    - by rewrite !lookup_insert_ne.
    - done.
    - set_solver.
    - intros x Hx Hin. apply (Hd1 x Hx). set_solver. }
  destruct (arrange_after cfg st h3 s _ Hs Hch3 Hlay)
    as (st' & -> & Hcw & _ & Hs' & Hsp & Hch' & Hw).
  exists st'. split; [done|]. split; [done|]. split; [done|]. split; [done|].
  split; [done|].
  eapply same_wins_trans; [|exact Hw]. unfold h3, h2, h1.
  eapply same_wins_trans; [by apply (same_wins_set_next _ pp ppc)|].
  eapply same_wins_trans.
  { apply (same_wins_set_next _ p pc). by rewrite lookup_insert_ne. }
  apply (same_wins_set_next _ c cc). by rewrite !lookup_insert_ne.
Qed.

Lemma chain_next_not_head hp h rest q qc :
  chain hp h (h :: rest) → q ∈ h :: rest → hp !! q = Some qc → Client.next qc ≠ h.
Proof.
  intros Hch Hq Hqc E.
  pose proof (chain_NoDup _ _ _ Hch) as Hnd.
  destruct (chain_at hp h [] h rest Hch) as (Hhn & _).
  apply list_elem_of_split in Hq as (la & lb & Hl).
  rewrite Hl in Hch, Hnd.
  destruct (chain_at _ _ _ _ _ Hch) as (_ & qc' & Hqc' & _ & Hnext).
  rewrite Hqc in Hqc'. injection Hqc' as <-.
  destruct lb as [|x lb]; simpl in Hnext; [congruence|].
  assert (x = h) as -> by congruence.
  destruct la as [|a la]; simpl in Hl; injection Hl as Ha Hrest.
  - subst q. apply NoDup_cons in Hnd as [Hnin _]. apply Hnin. left.
  - subst a. apply NoDup_cons in Hnd as [Hnin _]. apply Hnin.
    apply elem_of_app. right. right. left.
Qed.

(** [move_up] of the second client of a list: it becomes the head. *)
Lemma move_up_second cfg st s p c l2 :
  ws_at st (cw st) = Some s →
  chain (heap st) (Workspace.head s) (p :: c :: l2) →
  0 ≤ Workspace.layout s < END_LAYOUT →
  ∃ st', move_up cfg c st = Some st' ∧ cw st' = cw st
         ∧ ws_at st' (cw st) = Some (Workspace.set_head c s)
         ∧ scratchpad st' = scratchpad st
         ∧ chain (heap st') c (c :: p :: l2)
         ∧ same_wins (heap st) (heap st').
Proof.
  intros Hs Hch Hlay.
  pose proof (chain_NoDup _ _ _ Hch) as Hnd.
  apply NoDup_cons in Hnd as (Hp & Hnd). apply NoDup_cons in Hnd as (Hc & Hnd2).
  pose proof (chain_head _ _ _ _ Hch) as Hhd.
  destruct (chain_at (heap st) (Workspace.head s) [] p (c :: l2) Hch)
    as (Hpn & pc & Hpc & _ & Hpnext).
  destruct (chain_at (heap st) (Workspace.head s) [p] c l2 Hch)
    as (Hcn & cc & Hcc & Hrest & Hcnext).
  simpl in Hpnext.
  assert (p ≠ c) as Hpc_ne by (intros ->; apply Hp; left).
  assert (Client.next cc ≠ c) as Hncc.
  { intros E. destruct l2 as [|x l2]; simpl in Hcnext; [congruence|].
    apply Hc. rewrite <- E at 1. rewrite Hcnext. left. }
  assert (load st c = Some cc) as Hlc by done.
  assert (load st p = Some pc) as Hlp by done.
  unfold move_up.
  rewrite (prev_client_mid st (cw st) s [] p c l2 Hs Hch). cbn [mbind option_bind].
  rewrite (proj2 (is_null_false _) Hcn), (proj2 (is_null_false _) Hpn).
  rewrite Hlp. cbn [mbind option_bind]. rewrite Hs. cbn [mbind option_bind].
  rewrite Hpnext, (proj2 (is_null_false _) Hcn). cbn [negb].
  rewrite (move_up_loop_none (fuel_of st) st p _ _ Hch (chain_fuel _ _ _ Hch)).
  2:{ intros q qc Hq Hqc. rewrite <- Hhd. rewrite Hhd in Hch.
      rewrite Hhd. by apply (chain_next_not_head _ _ _ _ _ Hch Hq). }
  cbn [mbind option_bind]. change (is_null NULL) with true. cbn [negb].
  rewrite (proj2 (ptr_eqb_false _ _)) by congruence.
  rewrite (ws_upd_eq st (cw st) s _ Hs). cbn [mbind option_bind].
  set (st0 := set_wss _ st).
  assert (ws_at st0 (cw st0) = Some (Workspace.set_head c s)) as Hs0
    by exact (ws_at_insert_eq st (cw st) s _ (heap st) Hs).
  assert (load st0 c = Some cc) as Hc0 by done.
  assert (load st0 p = Some pc) as Hp0 by done.
  rewrite Hs0. cbn [mbind option_bind]. rewrite Hc0. cbn [mbind option_bind].
  change (Workspace.head (Workspace.set_head c s)) with c.
  rewrite (proj2 (ptr_eqb_false _ _) Hncc).
  rewrite (store_eq st0 p pc _ Hp0). cbn [mbind option_bind].
  set (h1 := <[p := Client.set_next (Client.next cc) pc]> (heap st)).
  change (set_heap _ st0) with (set_heap h1 st0). set (st1 := set_heap h1 st0).
  change (ws_at st1 (cw st1)) with (ws_at st0 (cw st0)). rewrite Hs0.
  cbn [mbind option_bind].
  assert (load st1 c = Some cc) as Hc1 by heap_lookup.
  rewrite Hc1. cbn [mbind option_bind].
  change (Workspace.head (Workspace.set_head c s)) with c.
  rewrite (proj2 (ptr_eqb_false _ _) Hncc).
  rewrite (store_eq st1 c cc _ Hc1). cbn [mbind option_bind].
  set (h2 := <[c := Client.set_next p cc]> h1).
  change (set_heap _ st1) with (set_heap h2 st0).
  assert (chain h2 (Workspace.head (Workspace.set_head c s)) (c :: p :: l2)) as Hch2.
  { change (Workspace.head (Workspace.set_head c s)) with c.
    apply (chain_cons _ _ (Client.set_next p cc)); [done|apply lookup_insert_eq|].
    change (Client.next (Client.set_next p cc)) with p.
    apply chain_frame; [|intros Hin; apply elem_of_cons in Hin as [E|Hin]; [done|by apply Hc]].
    apply (chain_cons _ _ (Client.set_next (Client.next cc) pc)); [done|apply lookup_insert_eq|].
    change (Client.next (Client.set_next (Client.next cc) pc)) with (Client.next cc).
    apply chain_frame; [done|]. intros Hin. apply Hp. by right. }
  destruct (arrange_after cfg st0 h2 _ _ Hs0 Hch2 Hlay)
    as (st' & -> & Hcw & _ & Hs' & Hsp & Hch' & Hw).
  exists st'. split; [done|]. split; [done|]. split; [done|]. split; [done|].
  split; [done|].
  eapply same_wins_trans; [|exact Hw]. unfold h2, h1.
  eapply same_wins_trans; [by apply (same_wins_set_next _ p pc)|].
  apply (same_wins_set_next _ c cc). by rewrite lookup_insert_ne.
Qed.

(** [move_up] of the head of a list of two or more: it becomes the last
    client. *)
Lemma move_up_head cfg st s c n l2 :
  ws_at st (cw st) = Some s →
  chain (heap st) (Workspace.head s) (c :: n :: l2) →
  0 ≤ Workspace.layout s < END_LAYOUT →
  ∃ st', move_up cfg c st = Some st' ∧ cw st' = cw st
         ∧ ws_at st' (cw st) = Some (Workspace.set_head n s)
         ∧ scratchpad st' = scratchpad st
         ∧ chain (heap st') n ((n :: l2) ++ [c])
         ∧ same_wins (heap st) (heap st').
Proof.
  intros Hs Hch Hlay.
  pose proof (chain_NoDup _ _ _ Hch) as Hnd.
  apply NoDup_cons in Hnd as (Hc & Hnd).
  pose proof (chain_head _ _ _ _ Hch) as Hhd.
  destruct (chain_at (heap st) (Workspace.head s) [] c (n :: l2) Hch)
    as (Hcn & cc & Hcc & Hrest & Hcnext).
  simpl in Hcnext.
  destruct (chain_at (heap st) (Workspace.head s) [c] n l2 Hch) as (Hnn & _).
  destruct (last (n :: l2)) as [t|] eqn:Et; [|by apply last_None in Et].
  assert (t ∈ n :: l2) as Htin.
  { apply last_Some in Et as (l' & ->). apply elem_of_app. right. left. }
  assert (t ≠ c) as Htc by (intros ->; by apply Hc).
  assert (chain (heap st) (Workspace.head s) ((c :: removelast (n :: l2)) ++ t :: [])) as Hch'.
  { apply last_Some in Et as (l' & El). rewrite El, removelast_last.
    by rewrite El in Hch. }
  destruct (chain_at _ _ _ _ _ Hch') as (Htn & tc & Htc' & _ & Htnext).
  simpl in Htnext.
  assert (prev_client st c (cw st) = Some t) as Hprev.
  { rewrite (prev_client_index st (cw st) s _ 0 c Hs Hch); [|simpl; lia|done].
    rewrite cyc_prev_0 by (simpl; lia).
    change (last (c :: n :: l2)) with (last (n :: l2)). by rewrite Et. }
  assert (load st c = Some cc) as Hlc by done.
  assert (load st t = Some tc) as Hlt by done.
  unfold move_up. rewrite Hprev. cbn [mbind option_bind].
  rewrite (proj2 (is_null_false _) Hcn), (proj2 (is_null_false _) Htn).
  rewrite Hlt. cbn [mbind option_bind]. rewrite Hs. cbn [mbind option_bind].
  rewrite Htnext. change (is_null NULL) with true. cbn [negb mbind option_bind].
  change (is_null NULL) with true. cbn [negb].
  rewrite (proj2 (ptr_eqb_true _ _) Hhd). rewrite Hlc. cbn [mbind option_bind].
  rewrite (ws_upd_eq st (cw st) s _ Hs). cbn [mbind option_bind].
  set (st0 := set_wss _ st).
  assert (ws_at st0 (cw st0) = Some (Workspace.set_head (Client.next cc) s)) as Hs0
    by exact (ws_at_insert_eq st (cw st) s _ (heap st) Hs).
  assert (load st0 c = Some cc) as Hc0 by done.
  assert (load st0 t = Some tc) as Ht0 by done.
  rewrite Hs0. cbn [mbind option_bind]. rewrite Hc0. cbn [mbind option_bind].
  change (Workspace.head (Workspace.set_head (Client.next cc) s)) with (Client.next cc).
  rewrite (proj2 (ptr_eqb_true _ _) eq_refl).
  rewrite (store_eq st0 t tc _ Ht0). cbn [mbind option_bind].
  set (h1 := <[t := Client.set_next c tc]> (heap st)).
  change (set_heap _ st0) with (set_heap h1 st0). set (st1 := set_heap h1 st0).
  change (ws_at st1 (cw st1)) with (ws_at st0 (cw st0)). rewrite Hs0.
  cbn [mbind option_bind].
  assert (load st1 c = Some cc) as Hc1 by heap_lookup.
  rewrite Hc1. cbn [mbind option_bind].
  change (Workspace.head (Workspace.set_head (Client.next cc) s)) with (Client.next cc).
  rewrite (proj2 (ptr_eqb_true _ _) eq_refl).
  rewrite (store_eq st1 c cc _ Hc1). cbn [mbind option_bind].
  set (h2 := <[c := Client.set_next NULL cc]> h1).
  change (set_heap _ st1) with (set_heap h2 st0).
  rewrite Hcnext in Hs0, Hrest.
  assert (chain h2 (Workspace.head (Workspace.set_head n s)) ((n :: l2) ++ [c])) as Hch2.
  { change (Workspace.head (Workspace.set_head n s)) with n.
    assert (h2 = <[t := Client.set_next c tc]>
                   (<[c := Client.set_next NULL cc]> (heap st))) as ->.
    { unfold h2, h1. by rewrite (insert_insert_ne _ c t) by congruence. }
    apply (chain_append _ _ _ _ _ _ (Client.set_next NULL cc)).
    - by apply chain_frame.
    - done.
    - by rewrite lookup_insert_ne by congruence.
    - apply lookup_insert_eq.
    - done.
    - done.
    - done. }
  destruct (arrange_after cfg st0 h2 _ _ Hs0 Hch2 Hlay)
    as (st' & -> & Hcw & _ & Hs' & Hsp & Hch3 & Hw).
  exists st'. split; [done|]. split; [done|]. split; [done|]. split; [done|].
  split; [done|].
  eapply same_wins_trans; [|exact Hw]. unfold h2, h1.
  eapply same_wins_trans; [by apply (same_wins_set_next _ t tc)|].
  apply (same_wins_set_next _ c cc). by rewrite lookup_insert_ne.
Qed.

Lemma layout_of_ws st s lay :
  ws_at st (cw st) = Some s → layout_of st = Some lay → Workspace.layout s = lay.
Proof. unfold layout_of. intros ->. simpl. congruence. Qed.

Lemma moved_up_snoc l1 p c l2 : moved_up (l1 ++ [p]) c l2 = l1 ++ c :: p :: l2.
Proof. unfold moved_up. by rewrite last_snoc, removelast_last. Qed.

(** [move_down] on the list of the current workspace. *)
Lemma move_down_list cfg st c l1 l2 lay :
  clients_cw st = Some (l1 ++ c :: l2) →
  layout_of st = Some lay → 0 ≤ lay < END_LAYOUT →
  ∃ st', move_down cfg c st = Some st' ∧ cw st' = cw st
         ∧ layout_of st' = Some lay
         ∧ scratchpad st' = scratchpad st
         ∧ clients_cw st' = Some (moved_down l1 c l2)
         ∧ same_wins (heap st) (heap st').
Proof.
  intros Hl Hlay Hrange. apply clients_cw_chain in Hl as (s & Hs & Hch).
  pose proof (layout_of_ws _ _ _ Hs Hlay) as El. rewrite <- El in Hrange.
  assert (∀ st' s' l', cw st' = cw st → ws_at st' (cw st) = Some s' →
            Workspace.layout s' = Workspace.layout s →
            chain (heap st') (Workspace.head s') l' →
            layout_of st' = Some lay ∧ clients_cw st' = Some l') as Hfin.
  { intros st' s' l' Hcw Hs' Hl' Hch'. split.
    - unfold layout_of. rewrite Hcw, Hs'. simpl. congruence.
    - apply clients_cw_chain. exists s'. by rewrite Hcw. }
  destruct l2 as [|n l2]; destruct l1 as [|p l1 _] using rev_ind.
  - (* the only client *)
    pose proof (chain_head _ _ _ _ Hch) as Hhd.
    destruct (chain_at _ _ [] c [] Hch) as (Hcn & cc & Hcc & _).
    exists st. unfold move_down.
    rewrite <- Hhd, (prev_client_head st (cw st) s _ Hs Hch), Hhd.
    assert (load st c = Some cc) as Hlc by done.
    cbn [mbind option_bind]. rewrite Hlc. cbn [mbind option_bind].
    rewrite Hs. cbn [mbind option_bind].
    rewrite (proj2 (is_null_false _) Hcn). change (is_null NULL) with true.
    split; [done|]. split; [done|]. split; [done|]. split; [done|].
    split; [|done]. apply clients_cw_chain. by exists s.
  - rewrite <- (assoc_L (++)) in Hch. simpl in Hch.
    destruct (move_down_last cfg st s l1 p c Hs Hch Hrange)
      as (st' & Hm & Hcw & Hs' & Hsp & Hch' & Hw).
    destruct (Hfin st' _ (c :: l1 ++ [p]) Hcw Hs') as [H1 H2]; [done|done|].
    exists st'. done.
  - destruct (move_down_head cfg st s c n l2 Hs Hch Hrange)
      as (st' & Hm & Hcw & Hs' & Hsp & Hch' & Hw).
    destruct (Hfin st' _ (n :: c :: l2) Hcw Hs') as [H1 H2]; [done|done|].
    exists st'. done.
  - rewrite <- (assoc_L (++)) in Hch. simpl in Hch.
    destruct (move_down_mid cfg st s l1 p c n l2 Hs Hch Hrange)
      as (st' & Hm & Hcw & Hs' & Hsp & Hch' & Hw).
    destruct (Hfin st' _ (l1 ++ p :: n :: c :: l2) Hcw Hs') as [H1 H2]; [done|done|].
    exists st'. unfold moved_down. rewrite <- (assoc_L (++)). done.
Qed.

(** [move_up] on the list of the current workspace. *)
Lemma move_up_list cfg st c l1 l2 lay :
  clients_cw st = Some (l1 ++ c :: l2) →
  layout_of st = Some lay → 0 ≤ lay < END_LAYOUT →
  ∃ st', move_up cfg c st = Some st' ∧ cw st' = cw st
         ∧ layout_of st' = Some lay
         ∧ scratchpad st' = scratchpad st
         ∧ clients_cw st' = Some (moved_up l1 c l2)
         ∧ same_wins (heap st) (heap st').
Proof.
  intros Hl Hlay Hrange. apply clients_cw_chain in Hl as (s & Hs & Hch).
  pose proof (layout_of_ws _ _ _ Hs Hlay) as El. rewrite <- El in Hrange.
  assert (∀ st' s' l', cw st' = cw st → ws_at st' (cw st) = Some s' →
            Workspace.layout s' = Workspace.layout s →
            chain (heap st') (Workspace.head s') l' →
            layout_of st' = Some lay ∧ clients_cw st' = Some l') as Hfin.
  { intros st' s' l' Hcw Hs' Hl' Hch'. split.
    - unfold layout_of. rewrite Hcw, Hs'. simpl. congruence.
    - apply clients_cw_chain. exists s'. by rewrite Hcw. }
  destruct l1 as [|p l1 _] using rev_ind; [destruct l2 as [|n l2]|].
  - (* the only client *)
    pose proof (chain_head _ _ _ _ Hch) as Hhd.
    destruct (chain_at _ _ [] c [] Hch) as (Hcn & cc & Hcc & _).
    exists st. unfold move_up.
    rewrite <- Hhd, (prev_client_head st (cw st) s _ Hs Hch), Hhd.
    cbn [mbind option_bind].
    rewrite (proj2 (is_null_false _) Hcn). change (is_null NULL) with true.
    split; [done|]. split; [done|]. split; [done|]. split; [done|].
    split; [|done]. apply clients_cw_chain. by exists s.
  - destruct (move_up_head cfg st s c n l2 Hs Hch Hrange)
      as (st' & Hm & Hcw & Hs' & Hsp & Hch' & Hw).
    destruct (Hfin st' _ ((n :: l2) ++ [c]) Hcw Hs') as [H1 H2]; [done|done|].
    exists st'. done.
  - rewrite moved_up_snoc. rewrite <- (assoc_L (++)) in Hch. simpl in Hch.
    destruct l1 as [|pp l1 _] using rev_ind.
    + destruct (move_up_second cfg st s p c l2 Hs Hch Hrange)
        as (st' & Hm & Hcw & Hs' & Hsp & Hch' & Hw).
      destruct (Hfin st' _ (c :: p :: l2) Hcw Hs') as [H1 H2]; [done|done|].
      exists st'. done.
    + rewrite <- (assoc_L (++)) in Hch. simpl in Hch.
      destruct (move_up_mid cfg st s l1 pp p c l2 Hs Hch Hrange)
        as (st' & Hm & Hcw & Hs' & Hsp & Hch' & Hw).
      destruct (Hfin st' _ (l1 ++ pp :: c :: p :: l2) Hcw Hs') as [H1 H2]; [done|done|].
      exists st'. rewrite <- (assoc_L (++)). done.
Qed.

Lemma moved_down_split l1 c l2 :
  ∃ k1 k2, moved_down l1 c l2 = k1 ++ c :: k2 ∧ moved_up k1 c k2 = l1 ++ c :: l2.
Proof.
  destruct l2 as [|n l2].
  - exists [], l1. done.
  - exists (l1 ++ [n]), l2. split.
    + simpl. by rewrite <- (assoc_L (++)).
    + by rewrite moved_up_snoc.
Qed.

Lemma moved_up_split l1 c l2 :
  ∃ k1 k2, moved_up l1 c l2 = k1 ++ c :: k2 ∧ moved_down k1 c k2 = l1 ++ c :: l2.
Proof.
  destruct l1 as [|p l1 _] using rev_ind.
  - exists l2, []. done.
  - exists l1, (p :: l2). split; [by rewrite moved_up_snoc|].
    simpl. by rewrite <- (assoc_L (++)).
Qed.

(** X15: [move_down] makes a client of the current workspace change places
    with the client behind it in the list; the last client becomes the head
    and a client alone stays where it is.  The other clients keep their
    order, no client changes its window, and the current workspace, its
    layout and the scratchpad stay. *)
Theorem move_down_order cfg st c l1 l2 lay :
  clients_cw st = Some (l1 ++ c :: l2) →
  layout_of st = Some lay → 0 ≤ lay < END_LAYOUT →
  ∃ st', move_down cfg c st = Some st' ∧ cw st' = cw st
         ∧ layout_of st' = Some lay
         ∧ scratchpad st' = scratchpad st
         ∧ clients_cw st' = Some (moved_down l1 c l2)
         ∧ same_wins (heap st) (heap st').
Proof. apply move_down_list. Qed.

Lemma move_down_order_witness :
  ∃ st st1 st2, st_three_clients = Some st
    ∧ clients_cw st = Some [1%N; 2%N; 3%N]
    ∧ move_down cfg_example 2%N st = Some st1 ∧ clients_cw st1 = Some [1%N; 3%N; 2%N]
    ∧ move_down cfg_example 3%N st = Some st2 ∧ clients_cw st2 = Some [3%N; 1%N; 2%N].
Proof.
  assert (∃ st, st_three_clients = Some st) as [st Hst] by (eexists; run).
  pose proof Hst as Hst'. vm_compute in Hst'. injection Hst' as <-.
  match type of Hst with
  | _ = Some ?st =>
      destruct (move_down_order cfg_example st 2%N [1%N] [3%N] 3)
        as (st1 & H1 & _ & _ & _ & H2 & _); [run|run|unfold END_LAYOUT; lia|];
      destruct (move_down_order cfg_example st 3%N [1%N; 2%N] [] 3)
        as (st2 & H3 & _ & _ & _ & H4 & _); [run|run|unfold END_LAYOUT; lia|];
      exists st, st1, st2
  end.
  split; [exact Hst|]. split; [run|].
  split; [exact H1|]. split; [exact H2|]. split; [exact H3|exact H4].
Defined.

(** X16: [move_up] makes a client of the current workspace change places
    with the client before it in the list; the head becomes the last client
    and a client alone stays where it is.  The other clients keep their
    order, no client changes its window, and the current workspace, its
    layout and the scratchpad stay. *)
Theorem move_up_order cfg st c l1 l2 lay :
  clients_cw st = Some (l1 ++ c :: l2) →
  layout_of st = Some lay → 0 ≤ lay < END_LAYOUT →
  ∃ st', move_up cfg c st = Some st' ∧ cw st' = cw st
         ∧ layout_of st' = Some lay
         ∧ scratchpad st' = scratchpad st
         ∧ clients_cw st' = Some (moved_up l1 c l2)
         ∧ same_wins (heap st) (heap st').
Proof. apply move_up_list. Qed.

Lemma move_up_order_witness :
  ∃ st st1 st2, st_three_clients = Some st
    ∧ clients_cw st = Some [1%N; 2%N; 3%N]
    ∧ move_up cfg_example 3%N st = Some st1 ∧ clients_cw st1 = Some [1%N; 3%N; 2%N]
    ∧ move_up cfg_example 1%N st = Some st2 ∧ clients_cw st2 = Some [2%N; 3%N; 1%N].
Proof.
  assert (∃ st, st_three_clients = Some st) as [st Hst] by (eexists; run).
  pose proof Hst as Hst'. vm_compute in Hst'. injection Hst' as <-.
  match type of Hst with
  | _ = Some ?st =>
      destruct (move_up_order cfg_example st 3%N [1%N; 2%N] [] 3)
        as (st1 & H1 & _ & _ & _ & H2 & _); [run|run|unfold END_LAYOUT; lia|];
      destruct (move_up_order cfg_example st 1%N [] [2%N; 3%N] 3)
        as (st2 & H3 & _ & _ & _ & H4 & _); [run|run|unfold END_LAYOUT; lia|];
      exists st, st1, st2
  end.
  split; [exact Hst|]. split; [run|].
  split; [exact H1|]. split; [exact H2|]. split; [exact H3|exact H4].
Defined.

(** X17: [move_up] undoes [move_down] and [move_down] undoes [move_up]: for
    a client of the current workspace, either order of the two calls gives
    the list of the workspace its first order again, also around the ends
    of the list. *)
Theorem move_down_up_round_trip cfg st c l lay :
  clients_cw st = Some l → c ∈ l →
  layout_of st = Some lay → 0 ≤ lay < END_LAYOUT →
  (∃ st1 st2, move_down cfg c st = Some st1 ∧ move_up cfg c st1 = Some st2
              ∧ clients_cw st2 = Some l ∧ cw st2 = cw st)
  ∧ (∃ st1 st2, move_up cfg c st = Some st1 ∧ move_down cfg c st1 = Some st2
                ∧ clients_cw st2 = Some l ∧ cw st2 = cw st).
Proof.
  intros Hl Hc Hlay Hrange.
  apply list_elem_of_split in Hc as (l1 & l2 & ->). split.
  - destruct (move_down_list cfg st c l1 l2 lay Hl Hlay Hrange)
      as (st1 & Hm1 & Hcw1 & Hlay1 & _ & Hl1 & _).
    destruct (moved_down_split l1 c l2) as (k1 & k2 & Ek & Eu). rewrite Ek in Hl1.
    destruct (move_up_list cfg st1 c k1 k2 lay Hl1 Hlay1 Hrange)
      as (st2 & Hm2 & Hcw2 & _ & _ & Hl2 & _).
    exists st1, st2. rewrite Eu in Hl2. split; [done|]. split; [done|].
    split; [done|]. congruence.
  - destruct (move_up_list cfg st c l1 l2 lay Hl Hlay Hrange)
      as (st1 & Hm1 & Hcw1 & Hlay1 & _ & Hl1 & _).
    destruct (moved_up_split l1 c l2) as (k1 & k2 & Ek & Eu). rewrite Ek in Hl1.
    destruct (move_down_list cfg st1 c k1 k2 lay Hl1 Hlay1 Hrange)
      as (st2 & Hm2 & Hcw2 & _ & _ & Hl2 & _).
    exists st1, st2. rewrite Eu in Hl2. split; [done|]. split; [done|].
    split; [done|]. congruence.
Qed.

Lemma move_down_up_round_trip_witness :
  ∃ st st1 st2, st_three_clients = Some st
    ∧ clients_cw st = Some [1%N; 2%N; 3%N]
    ∧ move_down cfg_example 3%N st = Some st1 ∧ move_up cfg_example 3%N st1 = Some st2
    ∧ clients_cw st2 = Some [1%N; 2%N; 3%N].
Proof.
  assert (∃ st, st_three_clients = Some st) as [st Hst] by (eexists; run).
  pose proof Hst as Hst'. vm_compute in Hst'. injection Hst' as <-.
  match type of Hst with
  | _ = Some ?st =>
      destruct (move_down_up_round_trip cfg_example st 3%N [1%N; 2%N; 3%N] 3)
        as [(st1 & st2 & H1 & H2 & H3 & _) _]; [run|repeat constructor|run|unfold END_LAYOUT; lia|];
      exists st, st1, st2
  end.
  split; [exact Hst|]. split; [run|].
  split; [exact H1|]. split; [exact H2|exact H3].
Defined.

(** ** What the layouts leave alone *)

Lemma retiled_refl l hp : retiled l hp hp.
Proof. intros q. by left. Qed.

Lemma retiled_mono l2 l h1 h2 : l2 ⊆ l → retiled l2 h1 h2 → retiled l h1 h2.
Proof.
  intros Hsub H q. destruct (H q) as [E|(Hin & Hr)]; [by left|right].
  split; [by apply Hsub|done].
Qed.

Lemma retiled_store l l2 hp hq q cc x y w h :
  hp !! q = Some cc → FFT cc = false → q ∈ l → q ∉ l2 → l2 ⊆ l →
  retiled l2 (<[q := Client.set_geom x y w h cc]> hp) hq → retiled l hp hq.
Proof.
  intros Hq Hfft Hin Hnin Hsub H q0. destruct (decide (q0 = q)) as [->|Hne].
  - right. split; [done|]. exists cc, x, y, w, h. split; [done|]. split; [done|].
    destruct (H q) as [E|(Hin2 & _)]; [|done]. by rewrite E, lookup_insert_eq.
  - destruct (H q0) as [E|(Hin2 & c & x' & y' & w' & h' & E1 & E2 & E3)].
    + left. by rewrite E, lookup_insert_ne.
    + right. split; [by apply Hsub|]. exists c, x', y', w', h'.
      rewrite lookup_insert_ne in E1 by done. done.
Qed.

Lemma FFT_set_geom x y w h c : FFT (Client.set_geom x y w h c) = FFT c.
Proof. done. Qed.

Lemma chain_tail_fresh hp q qc l x y w h :
  chain hp q (q :: l) → hp !! q = Some qc →
  q ∉ l ∧ chain (<[q := Client.set_geom x y w h qc]> hp) (Client.next qc) l.
Proof.
  intros Hch Hq. pose proof (chain_NoDup _ _ _ Hch) as Hnd.
  apply NoDup_cons in Hnd as [Hnin _]. split; [done|].
  destruct Hch as (_ & _ & qc' & Hq' & Hrest).
  rewrite Hq in Hq'. injection Hq' as <-. by apply chain_frame.
Qed.

Lemma zoom_loop_retiled fuel x y w h c st st' l :
  chain (heap st) c l → zoom_loop fuel x y w h c st = Some st' →
  retiled l (heap st) (heap st').
Proof.
  revert c st l. induction fuel as [|k IH]; intros c st l Hch; [done|]. simpl.
  destruct l as [|q l].
  - simpl in Hch. rewrite (proj2 (is_null_true _) Hch). intros [= <-]. apply retiled_refl.
  - pose proof Hch as (-> & Hn & qc & Hq & Hrest).
    assert (load st q = Some qc) as Hlq by done.
    rewrite (proj2 (is_null_false _) Hn), Hlq. cbn [mbind option_bind].
    destruct (FFT qc) eqn:Efft; cbn [negb mbind option_bind].
    + rewrite Hlq. cbn [mbind option_bind]. intros H.
      apply (retiled_mono l); [set_solver|]. by apply (IH _ _ _ Hrest).
    + unfold change_client_geom. rewrite (store_eq st q qc _ Hlq).
      cbn [mbind option_bind]. rewrite load_set_heap_eq. cbn [mbind option_bind].
      intros H.
      destruct (chain_tail_fresh _ _ _ _ (u16 x) (u16 y) (u16 w) (u16 h) Hch Hq)
        as [Hnin Hch1].
      apply (retiled_store _ l _ _ q qc (u16 x) (u16 y) (u16 w) (u16 h));
        [done|done|left|done|set_solver|].
      by apply (IH _ (set_heap _ st) _ Hch1).
Qed.

Lemma zoom_retiled cfg st st' s l :
  ws_at st (cw st) = Some s → chain (heap st) (Workspace.head s) l →
  zoom cfg st = Some st' → retiled l (heap st) (heap st').
Proof.
  intros Hs Hch. unfold zoom. rewrite Hs. simpl.
  destruct (if negb _ then _ else _); [|done]. simpl.
  destruct (zoom_loop _ _ _ _ _ _ _) as [st1|] eqn:E; [|done]. simpl.
  intros H. apply draw_clients_eq in H as ->. by apply (zoom_loop_retiled _ _ _ _ _ _ _ _ _ Hch E).
Qed.

Lemma grid_loop_retiled fuel n cols col_w client_y col_h rows i col_cnt row_cnt c st st' l :
  chain (heap st) c l →
  grid_loop fuel n cols col_w client_y col_h rows i col_cnt row_cnt c st = Some st' →
  retiled l (heap st) (heap st').
Proof.
  revert rows i col_cnt row_cnt c st l.
  induction fuel as [|k IH]; intros rows i col_cnt row_cnt c st l Hch; [done|]. simpl.
  destruct l as [|q l].
  - simpl in Hch. rewrite (proj2 (is_null_true _) Hch). intros [= <-]. apply retiled_refl.
  - pose proof Hch as (-> & Hn & qc & Hq & Hrest).
    assert (load st q = Some qc) as Hlq by done.
    rewrite (proj2 (is_null_false _) Hn), Hlq. cbn [mbind option_bind].
    destruct (FFT qc) eqn:Efft.
    + intros H. apply (retiled_mono l); [set_solver|]. by apply (IH _ _ _ _ _ _ _ Hrest H).
    + destruct (cdiv_chk (i + 1) rows) as [qq|]; [|done]. cbn [mbind option_bind].
      destruct (if bool_decide (cols = 0) then _ else _) as [r|]; [|done].
      cbn [mbind option_bind].
      destruct (cdiv_chk (row_cnt * col_h) _) as [yy|]; [|done]. cbn [mbind option_bind].
      destruct (cdiv_chk col_h _) as [hh|]; [|done]. cbn [mbind option_bind].
      unfold change_client_geom. rewrite (store_eq st q qc _ Hlq).
      cbn [mbind option_bind]. rewrite load_set_heap_eq. cbn [mbind option_bind].
      destruct (chain_tail_fresh _ _ _ _ (u16 (col_cnt * col_w)) (u16 (client_y + yy))
                  (u16 col_w) (u16 hh) Hch Hq) as [Hnin Hch1].
      destruct (_ <=? _)%Z; intros H.
      all: eapply (retiled_store _ l _ _ q qc); [done|done|left|done|set_solver|].
      all: by apply (IH _ _ _ _ _ (set_heap _ st) _ Hch1 H).
Qed.

Lemma grid_retiled cfg st st' s l :
  ws_at st (cw st) = Some s → chain (heap st) (Workspace.head s) l →
  grid cfg st = Some st' → retiled l (heap st) (heap st').
Proof.
  intros Hs Hch. unfold grid.
  destruct (get_non_tff_count st) as [n|]; [|done]. simpl. rewrite Hs. simpl.
  destruct (n <=? 1)%Z; [by apply (zoom_retiled cfg st st' s l)|].
  destruct (cdiv_chk _ _) as [rows|]; [|done]. simpl.
  destruct (grid_loop _ _ _ _ _ _ _ _ _ _ _ _) as [st1|] eqn:E; [|done]. simpl.
  intros H. apply draw_clients_eq in H as ->.
  by apply (grid_loop_retiled _ _ _ _ _ _ _ _ _ _ _ _ _ _ Hch E).
Qed.

Lemma stack_loop_retiled fuel vert ms client_span rest client_x client_y c st st' l :
  chain (heap st) c l →
  stack_loop fuel vert ms client_span rest client_x client_y c st = Some st' →
  retiled l (heap st) (heap st').
Proof.
  revert client_x client_y c st l.
  induction fuel as [|k IH]; intros client_x client_y c st l Hch; [done|]. simpl.
  destruct l as [|q l].
  - simpl in Hch. rewrite (proj2 (is_null_true _) Hch). intros [= <-]. apply retiled_refl.
  - pose proof Hch as (-> & Hn & qc & Hq & Hrest).
    assert (load st q = Some qc) as Hlq by done.
    rewrite (proj2 (is_null_false _) Hn), Hlq. cbn [mbind option_bind].
    destruct (FFT qc) eqn:Efft.
    + intros H. apply (retiled_mono l); [set_solver|]. by apply (IH _ _ _ _ _ Hrest H).
    + destruct vert.
      * unfold change_client_geom. rewrite (store_eq st q qc _ Hlq).
        cbn [mbind option_bind]. rewrite load_set_heap_eq. cbn [mbind option_bind].
        destruct (chain_tail_fresh _ _ _ _ (u16 ms) (u16 client_y)
                    (u16 (screen_width st - ms)) (u16 client_span) Hch Hq) as [Hnin Hch1].
        intros H. eapply (retiled_store _ l _ _ q qc); [done|done|left|done|set_solver|].
        by apply (IH _ _ _ (set_heap _ st) _ Hch1 H).
      * unfold change_client_geom. rewrite (store_eq st q qc _ Hlq).
        cbn [mbind option_bind]. rewrite load_set_heap_eq. cbn [mbind option_bind].
        destruct (chain_tail_fresh _ _ _ _ (u16 client_x) (u16 ms)
                    (u16 client_span) (u16 rest) Hch Hq) as [Hnin Hch1].
        intros H. eapply (retiled_store _ l _ _ q qc); [done|done|left|done|set_solver|].
        by apply (IH _ _ _ (set_heap _ st) _ Hch1 H).
Qed.

(** The first client of a list that is not transient, floating or
    fullscreen. *)
Lemma first_non_tff_loop_split fuel st p l c :
  chain (heap st) p l → first_non_tff_loop fuel st p = Some c → c ≠ NULL →
  ∃ l1 l2 cc, l = l1 ++ c :: l2 ∧ heap st !! c = Some cc ∧ FFT cc = false.
Proof.
  revert p l. induction fuel as [|k IH]; intros p l Hch; [done|]. simpl.
  destruct l as [|q l].
  - simpl in Hch. rewrite (proj2 (is_null_true _) Hch). intros [= <-]. done.
  - pose proof Hch as (-> & Hn & qc & Hq & Hrest).
    rewrite (proj2 (is_null_false _) Hn). unfold load. rewrite Hq. simpl.
    destruct (FFT qc) eqn:Efft.
    + intros H Hc. destruct (IH _ _ Hrest H Hc) as (l1 & l2 & cc & -> & Hcc & Hf).
      by exists (q :: l1), l2, cc.
    + intros [= <-] _. by exists [], l, qc.
Qed.

Lemma stack_retiled cfg st st' s l :
  ws_at st (cw st) = Some s → chain (heap st) (Workspace.head s) l →
  stack cfg st = Some st' → retiled l (heap st) (heap st').
Proof.
  intros Hs Hch. unfold stack.
  destruct (get_first_non_tff st) as [c|] eqn:Ec; [|done]. simpl. rewrite Hs. simpl.
  destruct (get_non_tff_count st) as [n|] eqn:En; [|done]. simpl.
  destruct (n <=? 1)%Z eqn:Ele; [by apply (zoom_retiled cfg st st' s l)|].
  unfold get_first_non_tff in Ec. unfold get_non_tff_count in En.
  rewrite Hs in Ec, En. simpl in Ec, En.
  assert (c ≠ NULL) as Hc.
  { intros ->.
    destruct (first_non_tff_loop_ok _ _ _ _ Hch (chain_fuel _ _ _ Hch)) as (c' & Hc' & H0 & _).
    rewrite Ec in Hc'. injection Hc' as <-. rewrite (H0 eq_refl 0) in En.
    injection En as <-. done. }
  destruct (first_non_tff_loop_split _ _ _ _ _ Hch Ec Hc) as (l1 & l2 & cc & -> & Hcc & Hf).
  pose proof (chain_NoDup _ _ _ Hch) as Hnd.
  apply NoDup_app in Hnd as (_ & _ & Hnd). apply NoDup_cons in Hnd as [Hnin _].
  destruct (chain_at _ _ _ _ _ Hch) as (_ & cc' & Hcc' & Hrest & _).
  rewrite Hcc in Hcc'. injection Hcc' as <-.
  assert (load st c = Some cc) as Hlc by done.
  destruct (cdiv_chk _ (n - 1)) as [span|]; [|done]. cbn [fmap option_fmap option_map mbind option_bind].
  destruct (bool_decide (Workspace.layout s = VSTACK)).
  all: unfold change_client_geom; rewrite (store_eq st c cc _ Hlc).
  all: cbn [mbind option_bind]; rewrite load_set_heap_eq; cbn [mbind option_bind].
  all: destruct (stack_loop _ _ _ _ _ _ _ _ _) as [st2|] eqn:E2; [|done].
  all: cbn [mbind option_bind].
  all: intros H; apply draw_clients_eq in H as ->.
  all: eapply (retiled_store _ l2 _ _ c cc); [done|done|set_solver|done|set_solver|].
  all: eapply (stack_loop_retiled _ _ _ _ _ _ _ _ (set_heap _ st) _ _ _ E2).
  Unshelve.
  all: by apply chain_frame.
Qed.

Lemma arrange_windows_retiled cfg st st' s l :
  ws_at st (cw st) = Some s → chain (heap st) (Workspace.head s) l →
  arrange_windows cfg st = Some st' → retiled l (heap st) (heap st').
Proof.
  intros Hs Hch. unfold arrange_windows. rewrite Hs. simpl.
  destruct (is_null _); [intros [= <-]; apply retiled_refl|].
  destruct (load st _); [|done]. simpl. unfold layout_handler.
  repeat case_bool_decide; try done;
    first [by apply (zoom_retiled cfg st st' s l)
          | by apply (grid_retiled cfg st st' s l)
          | by apply (stack_retiled cfg st st' s l)].
Qed.

Lemma set_geom_same c :
  Client.set_geom (Client.x c) (Client.y c) (Client.w c) (Client.h c) c = c.
Proof. by destruct c. Qed.

(** X18: [arrange_windows] changes nothing but the geometry of tiled clients
    of the current workspace.  A client that is transient, floating or
    fullscreen, and every client outside the list of the current workspace,
    is left exactly as it is; any other client keeps all its fields except
    [x], [y], [w] and [h]; no cell appears or disappears, and nothing
    outside the heap changes. *)
Theorem arrange_windows_tiles_only cfg st l lay :
  clients_cw st = Some l →
  layout_of st = Some lay → 0 ≤ lay < END_LAYOUT →
  ∃ st', arrange_windows cfg st = Some st'
         ∧ st' = set_heap (heap st') st
         ∧ (∀ q c, heap st !! q = Some c → FFT c = true ∨ q ∉ l →
                   heap st' !! q = Some c)
         ∧ (∀ q c, heap st !! q = Some c →
                   ∃ x y w h, heap st' !! q = Some (Client.set_geom x y w h c))
         ∧ (∀ q, heap st !! q = None → heap st' !! q = None).
Proof.
  intros Hl Hlay Hrange. apply clients_cw_chain in Hl as (s & Hs & Hch).
  pose proof (layout_of_ws _ _ _ Hs Hlay) as El. rewrite <- El in Hrange.
  destruct (arrange_windows_ok cfg st s l Hs Hch Hrange) as (st' & Ha & Hg & _).
  pose proof (arrange_windows_retiled cfg st st' s l Hs Hch Ha) as Hr.
  exists st'. split; [done|]. split; [done|]. split; [|split].
  - intros q c Hq Hcase.
    destruct (Hr q) as [E|(Hin & c' & x & y & w & h & E1 & E2 & _)]; [by rewrite E|].
    rewrite Hq in E1. injection E1 as <-. destruct Hcase; [congruence|done].
  - intros q c Hq.
    destruct (Hr q) as [E|(Hin & c' & x & y & w & h & E1 & E2 & E3)].
    + exists (Client.x c), (Client.y c), (Client.w c), (Client.h c).
      by rewrite E, Hq, set_geom_same.
    + rewrite Hq in E1. injection E1 as <-. by exists x, y, w, h.
  - intros q Hq.
    destruct (Hr q) as [E|(Hin & c' & x & y & w & h & E1 & _)]; [by rewrite E|congruence].
Qed.

Lemma arrange_windows_tiles_only_witness :
  ∃ st st' c, (st_three_clients ≫= toggle_float cfg_example) = Some st
    ∧ clients_cw st = Some [1%N; 2%N; 3%N]
    ∧ heap st !! 3%N = Some c ∧ Client.is_floating c = true
    ∧ arrange_windows cfg_example st = Some st' ∧ heap st' !! 3%N = Some c.
Proof.
  assert (∃ st, (st_three_clients ≫= toggle_float cfg_example) = Some st) as [st Hst]
    by (eexists; run).
  pose proof Hst as Hst'. vm_compute in Hst'. injection Hst' as <-.
  match type of Hst with
  | _ = Some ?st =>
      destruct (arrange_windows_tiles_only cfg_example st [1%N; 2%N; 3%N] 3)
        as (st' & H1 & _ & H2 & _); [run|run|unfold END_LAYOUT; lia|];
      assert (∃ c, heap st !! 3%N = Some c) as [c Hc] by (eexists; run);
      exists st, st', c
  end.
  pose proof Hc as Hc'. vm_compute in Hc'. injection Hc' as Ec.
  split; [exact Hst|]. split; [run|]. split; [exact Hc|].
  split; [by rewrite <- Ec|].
  split; [exact H1|]. apply H2; [exact Hc|]. left. by rewrite <- Ec.
Defined.

(** ** Floating clients *)

Lemma u16_small z : 0 ≤ z < 65536 → u16 z = z.
Proof. intros H. unfold u16. by apply Z.mod_small. Qed.

(** X19: [teleport_client] puts the focused floating client on the screen.
    When the client with its gap and border fits beside the bar, each of
    the seven locations gives it a position with the whole window inside the
    screen; the size of the window, its other fields and every other client
    stay as they are. *)
Theorem teleport_client_on_screen cfg sg st l s c cc i :
  clients_cw st = Some l →
  ws_at st (cw st) = Some s → Workspace.current s = c → c ≠ NULL →
  load st c = Some cc →
  Client.is_floating cc = true → Client.is_transient cc = false →
  TOP_LEFT ≤ i ≤ BOTTOM_RIGHT →
  0 ≤ Client.gap cc → 0 ≤ Client.w cc → 0 ≤ Client.h cc →
  0 ≤ BORDER_PX sg → 0 ≤ Workspace.bar_height s →
  Client.w cc + Client.gap cc + 2 * BORDER_PX sg ≤ screen_width st < 65536 →
  Client.h cc + Client.gap cc + 2 * BORDER_PX sg + Workspace.bar_height s
    ≤ screen_height st < 65536 →
  ∃ x y, teleport_client cfg sg i st
         = Some (set_heap (<[c := Client.set_geom x y (Client.w cc) (Client.h cc) cc]>
                             (heap st)) st)
         ∧ 0 ≤ x ∧ x + Client.w cc ≤ screen_width st
         ∧ 0 ≤ y ∧ y + Client.h cc ≤ screen_height st.
Proof.
  intros Hl Hs Hcur Hcn Hcc Hfl Htr Hi Hg Hw Hh HB Hbh Hsw Hsh.
  apply clients_cw_chain in Hl as (s' & Hs' & Hch).
  rewrite Hs in Hs'. injection Hs' as <-.
  unfold teleport_client. rewrite Hs. cbn [mbind option_bind]. rewrite Hcur.
  rewrite (proj2 (is_null_false _) Hcn), Hcc. cbn [mbind option_bind].
  rewrite Hfl, Htr. cbn [negb orb].
  assert (∀ x y, 0 ≤ x < 65536 → 0 ≤ y < 65536 →
            (store c (Client.set_geom (u16 x) (u16 y) (Client.w cc) (Client.h cc)) st
               ≫= draw_clients)
            = Some (set_heap (<[c := Client.set_geom x y (Client.w cc) (Client.h cc) cc]>
                                (heap st)) st)) as Hstore.
  { intros x y Hx Hy. rewrite (store_eq st c cc _ Hcc). cbn [mbind option_bind].
    rewrite (u16_small x Hx), (u16_small y Hy).
    apply (draw_clients_ok _ s l); [done|]. simpl.
    apply (chain_same_links (heap st)); [|done].
    by apply (same_links_insert _ _ _ (Client.set_geom x y (Client.w cc) (Client.h cc))). }
  unfold TOP_LEFT, BOTTOM_RIGHT in Hi.
  unfold teleport_xy, TOP_LEFT, TOP_CENTER, TOP_RIGHT, CENTER, BOTTOM_LEFT, BOTTOM_CENTER,
    BOTTOM_RIGHT, cdiv.
  pose proof (Z.quot_pos (screen_width st - Client.w cc) 2) as Q1.
  pose proof (Z.quot_pos (screen_height st - Workspace.bar_height s - Client.h cc) 2) as Q2.
  pose proof (Z.quot_rem' (screen_width st - Client.w cc) 2) as Q3.
  pose proof (Z.quot_rem' (screen_height st - Workspace.bar_height s - Client.h cc) 2) as Q4.
  pose proof (Z.rem_bound_pos (screen_width st - Client.w cc) 2) as Q5.
  pose proof (Z.rem_bound_pos (screen_height st - Workspace.bar_height s - Client.h cc) 2) as Q6.
  pose proof (Z.quot_rem' (screen_width st) 2) as Q7.
  pose proof (Z.quot_rem' (Client.w cc) 2) as Q8.
  pose proof (Z.rem_bound_pos (screen_width st) 2) as Q9.
  pose proof (Z.rem_bound_pos (Client.w cc) 2) as Q10.
  repeat case_bool_decide; try lia.
  all: destruct (BAR_BOTTOM cfg).
  all: eexists _, _; split; [apply Hstore; lia|lia].
Qed.

Lemma teleport_client_on_screen_witness :
  ∃ st cc x y, (st_three_clients ≫= toggle_float cfg_example) = Some st
    ∧ load st 3%N = Some cc
    ∧ teleport_client cfg_example sg_example BOTTOM_RIGHT st
      = Some (set_heap (<[3%N := Client.set_geom x y (Client.w cc) (Client.h cc) cc]>
                          (heap st)) st)
    ∧ 0 ≤ x ∧ x + Client.w cc ≤ screen_width st
    ∧ 0 ≤ y ∧ y + Client.h cc ≤ screen_height st.
Proof.
  assert (∃ st, (st_three_clients ≫= toggle_float cfg_example) = Some st) as [st Hst]
    by (eexists; run).
  pose proof Hst as Hst'. vm_compute in Hst'. injection Hst' as <-.
  match type of Hst with
  | _ = Some ?st =>
      let s := eval vm_compute in (ws_at st (cw st)) in
      let cc := eval vm_compute in (load st 3%N) in
      match constr:((s, cc)) with
      | (Some ?s, Some ?cc) =>
          destruct (teleport_client_on_screen cfg_example sg_example st [1%N; 2%N; 3%N]
                      s 3%N cc BOTTOM_RIGHT) as (x & y & H);
          [run|run|run|done|run|run|run|..|exists st, cc, x, y]
      end
  end.
  all: try (repeat split; vm_compute; congruence).
  split; [exact Hst|]. split; [run|]. exact H.
Defined.

(** ** The scratchpad *)

Lemma walk_cyclic fuel st L p : cyclic (heap st) L → p ∈ L → walk fuel st p = None.
Proof.
  intros Hcyc. revert p. induction fuel as [|k IH]; intros p Hp; [done|]. simpl.
  destruct (Hcyc p Hp) as (Hn & pc & Hpc & Hnext).
  rewrite (proj2 (is_null_false _) Hn). unfold load. rewrite Hpc. simpl. by apply IH.
Qed.

Lemma prev_client_loop_cyclic fuel st L c p :
  cyclic (heap st) L → c ∉ L → p ∈ L → prev_client_loop fuel st c p = None.
Proof.
  intros Hcyc Hc. revert p. induction fuel as [|k IH]; intros p Hp; [done|]. simpl.
  destruct (Hcyc p Hp) as (Hn & pc & Hpc & Hnext).
  destruct (Hcyc _ Hnext) as (Hnn & _).
  unfold load. rewrite Hpc. simpl.
  rewrite (proj2 (is_null_false _) Hnn).
  rewrite (proj2 (ptr_eqb_false _ _)) by (intros E; by rewrite E in Hnext).
  simpl. by apply IH.
Qed.

Lemma load_heap_eq st st' p : heap st' = heap st → load st' p = load st p.
Proof. unfold load. by intros ->. Qed.

(** A write to the record of the current workspace. *)
Lemma ws_upd_cur st s f :
  ws_at st (cw st) = Some s →
  ∃ st', ws_upd (cw st) f st = Some st' ∧ ws_at st' (cw st') = Some (f s)
         ∧ heap st' = heap st ∧ cw st' = cw st ∧ scratchpad st' = scratchpad st
         ∧ screen_width st' = screen_width st ∧ screen_height st' = screen_height st.
Proof.
  intros Hs. rewrite (ws_upd_eq st (cw st) s f Hs). eexists. split; [done|].
  split; [exact (ws_at_insert_eq st (cw st) s _ (heap st) Hs)|]. done.
Qed.

(** [update_focused_client] on a workspace whose list runs into a cycle. *)
Lemma update_focused_client_cyclic cfg st c s L :
  c ≠ NULL → ws_at st (cw st) = Some s → Workspace.head s ∈ L → cyclic (heap st) L →
  update_focused_client cfg c st = None.
Proof.
  intros Hc Hs Hh Hcyc. destruct (Hcyc _ Hh) as (Hhn & _).
  unfold update_focused_client.
  rewrite (proj2 (is_null_false _) Hc), Hs. cbn [mbind option_bind].
  rewrite (proj2 (is_null_false _) Hhn).
  assert (∀ st1 s1, heap st1 = heap st → ws_at st1 (cw st1) = Some s1 →
            Workspace.head s1 = Workspace.head s →
            (s1 ← ws_at st1 (cw st1);
             _ ← walk (fuel_of st1) st1 (Workspace.head s1);
             _ ← load st1 (Workspace.current s1);
             arrange_windows cfg st1) = None) as Hwalk.
  { intros st1 s1 Hh1 Hs1 Hhd. rewrite Hs1. cbn [mbind option_bind].
    rewrite (walk_cyclic _ st1 L (Workspace.head s1)); [done| |by rewrite Hhd].
    by rewrite Hh1. }
  destruct (ptr_eqb c (Workspace.prev_foc s)).
  - destruct (ws_upd_cur st s (Workspace.set_current (Workspace.prev_foc s)) Hs)
      as (st1 & -> & Hs1 & Hh1 & Hcw1 & _).
    cbn [mbind option_bind].
    destruct (prev_client st1 _ _) as [p|]; [|done]. cbn [mbind option_bind].
    destruct (ws_upd_cur st1 _ (Workspace.set_prev_foc p) Hs1)
      as (st2 & -> & Hs2 & Hh2 & Hcw2 & _).
    cbn [mbind option_bind].
    eapply (Hwalk st2); [congruence|exact Hs2|done].
  - destruct (negb (ptr_eqb c (Workspace.current s))).
    + destruct (ws_upd_cur st s
                  (λ s, Workspace.set_current c
                          (Workspace.set_prev_foc (Workspace.current s) s)) Hs)
        as (st1 & -> & Hs1 & Hh1 & Hcw1 & _).
      cbn [mbind option_bind]. eapply (Hwalk st1); [congruence|exact Hs1|done].
    + cbn [mbind option_bind]. by apply (Hwalk st s).
Qed.

(** The list behind the head, once its last client points back to its
    first. *)
Lemma chain_closed hp h n l2 t tc :
  chain hp h (h :: n :: l2) → last (n :: l2) = Some t → hp !! t = Some tc →
  cyclic (<[t := Client.set_next n tc]> hp) (n :: l2).
Proof.
  intros Hch Hlast Ht q Hq.
  apply list_elem_of_split in Hq as (la & lb & Hl).
  assert (chain hp h ((h :: la) ++ q :: lb)) as Hch' by (simpl; by rewrite <- Hl).
  destruct (chain_at _ _ _ _ _ Hch') as (Hqn & qc & Hqc & _ & Hnext).
  split; [done|]. destruct (decide (q = t)) as [->|Hne].
  - exists (Client.set_next n tc). rewrite lookup_insert_eq. split; [done|]. left.
  - exists qc. rewrite lookup_insert_ne by done. split; [done|].
    destruct lb as [|x lb].
    + exfalso. apply Hne. rewrite Hl, last_snoc in Hlast. congruence.
    + simpl in Hnext. rewrite Hnext, Hl. apply elem_of_app. right. right. left.
Qed.

(** X20: [send_to_scratchpad] for the head of a list of two or more clients
    has no result.  The client before the focused one, which for the head is
    the last client, is linked to the second client while the second client
    becomes the head, so the list of the workspace runs in a circle and the
    walk over it in [update_focused_client] (or in [prev_client], when the
    head is also [prev_foc]) never reaches nil. *)
Theorem send_to_scratchpad_head_hangs cfg st c n l2 :
  clients_cw st = Some (c :: n :: l2) →
  current_of st = Some c →
  scratchpad st = NULL →
  send_to_scratchpad cfg st = None.
Proof.
  intros Hl Hcur Hsp. apply clients_cw_chain in Hl as (s & Hs & Hch).
  unfold current_of in Hcur. rewrite Hs in Hcur. injection Hcur as Hcur.
  pose proof (chain_NoDup _ _ _ Hch) as Hnd. apply NoDup_cons in Hnd as (Hc & _).
  pose proof (chain_head _ _ _ _ Hch) as Hhd.
  destruct (chain_at (heap st) (Workspace.head s) [] c (n :: l2) Hch)
    as (Hcn & cc & Hcc & _ & Hcnext).
  simpl in Hcnext.
  destruct (chain_at (heap st) (Workspace.head s) [c] n l2 Hch) as (Hnn & _).
  destruct (last (n :: l2)) as [t|] eqn:Et; [|by apply last_None in Et].
  assert (t ∈ n :: l2) as Htin.
  { apply last_Some in Et as (l' & ->). apply elem_of_app. right. left. }
  assert (t ≠ c) as Htc by (intros ->; by apply Hc).
  destruct (chain_elem _ _ _ t Hch) as (Htn & tc & Htc'); [by right|].
  assert (prev_client st c (cw st) = Some t) as Hprev.
  { rewrite (prev_client_index st (cw st) s _ 0 c Hs Hch); [|simpl; lia|done].
    rewrite cyc_prev_0 by (simpl; lia).
    change (last (c :: n :: l2)) with (last (n :: l2)). by rewrite Et. }
  assert (load st c = Some cc) as Hlc by done.
  assert (load st t = Some tc) as Hlt by done.
  assert (cyclic (<[t := Client.set_next n tc]> (heap st)) (n :: l2)) as Hcyc.
  { pose proof Hch as Hch2. rewrite Hhd in Hch2. by apply (chain_closed _ c _ _ _ _ Hch2). }
  unfold send_to_scratchpad. rewrite Hs. cbn [mbind option_bind].
  rewrite Hcur, Hsp, (proj2 (is_null_false _) Hcn). change (is_null NULL) with true.
  cbn [negb orb]. rewrite Hprev. cbn [mbind option_bind].
  rewrite (proj2 (is_null_false _) Htn). cbn [negb]. rewrite Hlc. cbn [mbind option_bind].
  rewrite (store_eq st t tc _ Hlt). cbn [mbind option_bind]. rewrite Hcnext.
  set (h1 := <[t := Client.set_next n tc]> (heap st)) in *.
  set (st1 := set_heap h1 st).
  assert (ws_at st1 (cw st1) = Some s) as Hs1 by done.
  assert (load st1 c = Some cc) as Hc1 by heap_lookup.
  rewrite Hs1. cbn [mbind option_bind].
  destruct (ptr_eqb c (Workspace.prev_foc s)).
  { (* the head is [prev_foc] as well *)
    rewrite Hcur. unfold prev_client.
    rewrite (proj2 (is_null_false _) Hcn), Hs1. cbn [mbind option_bind].
    rewrite Hhd, (proj2 (is_null_false _) Hcn), Hc1. cbn [mbind option_bind].
    rewrite Hcnext, (proj2 (is_null_false _) Hnn).
    destruct (fuel_of st1) as [|k]; [done|]. simpl.
    rewrite Hc1. simpl. rewrite Hcnext, (proj2 (is_null_false _) Hnn).
    rewrite (proj2 (ptr_eqb_false _ _)) by (intros ->; apply Hc; left).
    simpl. rewrite (prev_client_loop_cyclic k st1 (n :: l2) c n); [done|done|done|left]. }
  cbn [mbind option_bind]. rewrite Hs1. cbn [mbind option_bind].
  rewrite Hcur, (proj2 (ptr_eqb_true _ _) eq_refl). cbn [mbind option_bind].
  destruct (ws_upd_cur st1 s
              (Workspace.set_current (if negb (is_null (Workspace.prev_foc s))
                                      then Workspace.prev_foc s else Workspace.head s)) Hs1)
    as (st2 & -> & Hs2 & Hh2 & Hcw2 & _).
  cbn [mbind option_bind]. rewrite Hs2. cbn [mbind option_bind].
  change (Workspace.head (Workspace.set_current _ s)) with (Workspace.head s).
  rewrite (proj2 (ptr_eqb_true _ _)) by done.
  rewrite (load_heap_eq st1 st2 c Hh2), Hc1. cbn [mbind option_bind]. rewrite Hcnext.
  destruct (ws_upd_cur st2 _ (Workspace.set_head n) Hs2)
    as (st3 & -> & Hs3 & Hh3 & Hcw3 & _).
  cbn [mbind option_bind].
  destruct (ws_upd_cur st3 _ (Workspace.set_current n) Hs3)
    as (st4 & -> & Hs4 & Hh4 & Hcw4 & _).
  cbn [mbind option_bind].
  rewrite (load_heap_eq st3 st4 c Hh4), (load_heap_eq st2 st3 c Hh3),
    (load_heap_eq st1 st2 c Hh2), Hc1.
  cbn [mbind option_bind].
  destruct (ws_upd_cur st4 _
              (λ s, Workspace.set_client_cnt (Workspace.client_cnt s - 1) s) Hs4)
    as (st5 & -> & Hs5 & Hh5 & Hcw5 & _).
  cbn [mbind option_bind]. rewrite Hs5. cbn [mbind option_bind].
  erewrite (update_focused_client_cyclic cfg st5 _ _ (n :: l2));
    [done|exact Hnn|exact Hs5|left|].
  rewrite Hh5, Hh4, Hh3, Hh2. exact Hcyc.
Qed.

Lemma send_to_scratchpad_head_hangs_witness :
  ∃ st st1, st_three_clients = Some st
    ∧ focus_next_client cfg_example st = Some st1
    ∧ clients_cw st1 = Some [1%N; 2%N; 3%N] ∧ current_of st1 = Some 1%N
    ∧ send_to_scratchpad cfg_example st1 = None.
Proof.
  assert (∃ st, st_three_clients = Some st) as [st Hst] by (eexists; run).
  assert (∃ st1, (st_three_clients ≫= focus_next_client cfg_example) = Some st1)
    as [st1 Hst1] by (eexists; run).
  pose proof Hst as Hst'. vm_compute in Hst'. injection Hst' as <-.
  pose proof Hst1 as Hst1'. vm_compute in Hst1'. injection Hst1' as <-.
  eexists _, _. split; [exact Hst|]. split; [run|]. split; [run|]. split; [run|].
  apply (send_to_scratchpad_head_hangs cfg_example _ 1%N 2%N [3%N]); run.
Defined.

(** ** Urgent clients *)

(** The inner loop of [focus_urgent]: the first urgent client of a list. *)
Lemma urgent_in_list_spec fuel st p l :
  chain (heap st) p l → (length l < fuel)%nat →
  ∃ r, urgent_in_list fuel st p = Some r
       ∧ (Forall (λ q, urgent st q = false) l → r = NULL)
       ∧ (∀ l1 c l2, l = l1 ++ c :: l2 → Forall (λ q, urgent st q = false) l1 →
                     urgent st c = true → r = c).
Proof.
  revert p l. induction fuel as [|k IH]; intros p l Hc Hlen; [lia|].
  simpl. destruct l as [|q l]; simpl in Hc.
  - rewrite (proj2 (is_null_true _) Hc). exists NULL. split; [done|]. split; [done|].
    intros l1 c l2 E. by destruct l1.
  - destruct Hc as (-> & Hn & qc & Hl & Hrest).
    change (load st q = Some qc) in Hl.
    rewrite (proj2 (is_null_false _) Hn), Hl. simpl.
    destruct (Client.is_urgent qc) eqn:Eu.
    + exists q. split; [done|]. split.
      * intros Hall. apply Forall_cons in Hall as [Hq _].
        unfold urgent in Hq. rewrite Hl in Hq. congruence.
      * intros l1 c l2 E Hall Hu. destruct l1 as [|a l1]; simpl in E.
        -- by injection E as ->.
        -- injection E as <- _. apply Forall_cons in Hall as [Hq _].
           unfold urgent in Hq. rewrite Hl in Hq. congruence.
    + destruct (IH _ l Hrest) as (r & Hr & Hnone & Hfirst); [simpl in Hlen; lia|].
      exists r. split; [done|]. split.
      * intros Hall. apply Forall_cons in Hall as [_ Hall]. by apply Hnone.
      * intros l1 c l2 E Hall Hu. destruct l1 as [|a l1]; simpl in E.
        -- injection E as -> _. unfold urgent in Hu. rewrite Hl in Hu. congruence.
        -- injection E as _ ->. apply Forall_cons in Hall as [_ Hall].
           by apply (Hfirst l1 c l2).
Qed.

(** The loop over the workspaces keeps the result for the last one only. *)
Lemma focus_urgent_loop_last cfg st wl w s c0 :
  wf cfg st → (∀ v, v ∈ wl → 1 ≤ v ≤ WORKSPACES cfg) → ws_at st w = Some s →
  focus_urgent_loop st (wl ++ [w]) c0
  = urgent_in_list (fuel_of st) st (Workspace.head s).
Proof.
  intros Hwf. revert c0. induction wl as [|v wl IH]; intros c0 Hwl Hs; simpl.
  - rewrite Hs. simpl. by destruct (urgent_in_list _ _ _).
  - destruct (wf_ws_at cfg st v Hwf) as (sv & Hsv & l & Hch & _).
    { pose proof (Hwl v ltac:(left)). lia. }
    rewrite Hsv. simpl.
    destruct (urgent_in_list_spec (fuel_of st) st _ l Hch (chain_fuel _ _ _ Hch))
      as (r & -> & _).
    simpl. apply IH; [|done]. intros u Hu. apply Hwl. by right.
Qed.

Lemma workspace_ids_last cfg :
  1 ≤ WORKSPACES cfg →
  ∃ wl, workspace_ids cfg = wl ++ [WORKSPACES cfg]
        ∧ ∀ v, v ∈ wl → 1 ≤ v ≤ WORKSPACES cfg.
Proof.
  intros HW. unfold workspace_ids.
  destruct (Z.to_nat (WORKSPACES cfg)) as [|n] eqn:En; [lia|].
  rewrite seq_S, fmap_app. eexists. split.
  - simpl. do 2 f_equal. lia.
  - intros v Hv. apply list_elem_of_fmap in Hv as (m & -> & Hm).
    apply elem_of_seq in Hm. lia.
Qed.

Lemma Exists_first {A} (P : A → bool) (l : list A) :
  Exists (λ q, P q = true) l →
  ∃ l1 c l2, l = l1 ++ c :: l2 ∧ Forall (λ q, P q = false) l1 ∧ P c = true.
Proof.
  induction l as [|a l IH]; intros Hex; [by apply Exists_nil in Hex|].
  destruct (P a) eqn:Ea.
  - exists [], a, l. by repeat split.
  - apply Exists_cons in Hex as [Ha|Hex]; [congruence|].
    destruct (IH Hex) as (l1 & c & l2 & -> & Hall & Hc).
    exists (a :: l1), c, l2. split; [done|]. split; [|done]. by constructor.
Qed.

(** X21: [focus_urgent] looks for an urgent client on the last workspace
    only.  When no client of workspace [WORKSPACES] is urgent it does
    nothing, whatever the other workspaces hold.  When one is urgent it calls
    [change_ws] with the value the loop leaves in [w], which is
    [WORKSPACES + 1]: [change_ws] reads [wss[WORKSPACES + 1]], past the last
    entry of [wss], before its guard rejects the index, so the call has no
    defined result. *)
Theorem focus_urgent_last_workspace cfg st s l :
  wfb cfg st = true →
  ws_at st (WORKSPACES cfg) = Some s → clients_of st (Workspace.head s) = Some l →
  (Forall (λ q, urgent st q = false) l → focus_urgent cfg st = Some st)
  ∧ (Exists (λ q, urgent st q = true) l → focus_urgent cfg st = None).
Proof.
  intros Hwf Hs Hl. apply wfb_wf in Hwf. apply clients_of_chain in Hl.
  assert (1 ≤ WORKSPACES cfg) as HW by (destruct Hwf as (_ & ? & _); lia).
  destruct (workspace_ids_last cfg HW) as (wl & Ewl & Hwl).
  destruct (urgent_in_list_spec (fuel_of st) st _ l Hl (chain_fuel _ _ _ Hl))
    as (r & Hr & Hnone & Hfirst).
  assert (focus_urgent cfg st
          = if negb (is_null r)
            then st1 ← change_ws cfg (WORKSPACES cfg + 1) st; update_focused_client cfg r st1
            else Some st) as Hfu.
  { unfold focus_urgent. rewrite Ewl.
    destruct (wl ++ [WORKSPACES cfg]) as [|a wl'] eqn:E; [by destruct wl|].
    rewrite <- E, (focus_urgent_loop_last cfg st wl _ s NULL Hwf Hwl Hs), Hr. done. }
  rewrite Hfu. split.
  - intros Hall. by rewrite (Hnone Hall).
  - intros (l1 & c & l2 & El & Hall & Hu)%(Exists_first (urgent st)).
    rewrite (Hfirst l1 c l2 El Hall Hu).
    assert (c ≠ NULL ∧ ∃ cc, heap st !! c = Some cc) as (Hcn & cc & Hcc).
    { apply (chain_elem _ _ l c Hl). rewrite El. apply elem_of_app. right. left. }
    rewrite (proj2 (is_null_false _) Hcn). cbn [negb].
    rewrite (change_ws_out_of_bounds cfg st); [done|].
    apply (wf_ws_at_None cfg); [done|]. right. lia.
Qed.

Lemma focus_urgent_last_workspace_witness :
  ∃ st, st_urgent_last = Some st
    ∧ cw st = 1
    ∧ (ws_at st 5 ≫= λ s, clients_of st (Workspace.head s)) = Some [2%N]
    ∧ urgent st 2%N = true
    ∧ focus_urgent cfg_example st = None.
Proof.
  assert (∃ st, st_urgent_last = Some st) as [st Hst] by (eexists; run).
  pose proof Hst as Hst'. vm_compute in Hst'. injection Hst' as <-.
  match type of Hst with
  | _ = Some ?st =>
      let s := eval vm_compute in (ws_at st 5) in
      match s with
      | Some ?s =>
          destruct (focus_urgent_last_workspace cfg_example st s [2%N])
            as [_ H]; [run|run|run|];
          exists st
      end
  end.
  split; [exact Hst|]. split; [run|]. split; [run|]. split; [run|].
  apply H. apply Exists_cons. left. run.
Defined.

(** ** Fullscreen *)

Lemma chain_set_cell hp p l q qc f :
  chain hp p l → hp !! q = Some qc → Client.next (f qc) = Client.next qc →
  chain (<[q := f qc]> hp) p l.
Proof.
  intros Hch Hq Hf. apply (chain_same_links hp); [|done]. by apply same_links_insert.
Qed.

(** X22: [toggle_fullscreen] on a focused client that is not fullscreen
    sets the flag and gives the client the whole screen, and changes nothing
    else; no other window is arranged.  A second call clears the flag and
    arranges the windows: the client has all its old fields again except
    [x], [y], [w] and [h], and a floating or transient client, which the
    layouts skip, keeps the geometry of the whole screen instead of getting
    back the one it had. *)
Theorem toggle_fullscreen_twice cfg st l c cc :
  clients_cw st = Some l → current_of st = Some c → c ∈ l →
  load st c = Some cc → Client.is_fullscreen cc = false →
  (∃ lay, layout_of st = Some lay ∧ 0 ≤ lay < END_LAYOUT) →
  let full := Client.set_geom 0 0 (u16 (screen_width st)) (u16 (screen_height st)) in
  ∃ st2,
    toggle_fullscreen cfg st
    = Some (set_heap (<[c := full (Client.set_is_fullscreen true cc)]> (heap st)) st)
    ∧ toggle_fullscreen cfg
        (set_heap (<[c := full (Client.set_is_fullscreen true cc)]> (heap st)) st)
      = Some st2
    ∧ (∃ x y w h, load st2 c = Some (Client.set_geom x y w h cc))
    ∧ (Client.is_floating cc || Client.is_transient cc = true →
       load st2 c = Some (full cc)).
Proof.
  intros Hl Hcur Hin Hcc Hnf (lay & Hlay & Hrange) full.
  apply clients_cw_chain in Hl as (s & Hs & Hch).
  pose proof (layout_of_ws _ _ _ Hs Hlay) as El. rewrite <- El in Hrange.
  unfold current_of in Hcur. rewrite Hs in Hcur. injection Hcur as Hcur.
  destruct (chain_elem _ _ _ c Hch Hin) as (Hcn & _).
  set (c1 := full (Client.set_is_fullscreen true cc)).
  set (st1 := set_heap (<[c := c1]> (heap st)) st).
  assert (toggle_fullscreen cfg st = Some st1) as H1.
  { unfold toggle_fullscreen. rewrite Hs. cbn [mbind option_bind].
    rewrite Hcur, (proj2 (is_null_false _) Hcn), Hcc. cbn [negb mbind option_bind].
    unfold set_fullscreen. rewrite (proj2 (is_null_false _) Hcn), Hcc.
    cbn [mbind option_bind]. rewrite Hnf. cbn [negb].
    rewrite bool_decide_eq_false_2 by done.
    rewrite (store_eq st c cc _ Hcc). cbn [mbind option_bind].
    unfold change_client_geom.
    rewrite (store_eq _ c (Client.set_is_fullscreen true cc) _ (load_set_heap_eq _ _ _ _)).
    cbn [mbind option_bind]. cbn [heap set_heap]. rewrite insert_insert_eq.
    cbn [screen_width screen_height set_heap].
    change (u16 0) with 0.
    apply (draw_clients_ok _ s l); [done|]. cbn [heap set_heap].
    by apply (chain_set_cell _ _ _ _ _ (λ x, full (Client.set_is_fullscreen true x))). }
  assert (ws_at st1 (cw st1) = Some s) as Hs1 by done.
  assert (load st1 c = Some c1) as Hc1 by apply load_set_heap_eq.
  assert (Client.set_is_fullscreen false c1 = full cc) as Eoff.
  { unfold c1, full. destruct cc. simpl in *. by subst. }
  set (h2 := <[c := full cc]> (heap st)).
  assert (chain h2 (Workspace.head s) l) as Hch2
    by (by apply (chain_set_cell _ _ _ _ _ full)).
  assert (∃ hc, h2 !! Workspace.head s = Some hc) as [hc Hhc].
  { destruct l as [|q l']; [by apply elem_of_nil in Hin|].
    destruct Hch2 as (-> & _ & hc & Hq & _). by exists hc. }
  destruct (arrange_windows_ok cfg (set_heap h2 st) s l Hs Hch2 Hrange)
    as (st2 & Ha & E2 & L2).
  pose proof (arrange_windows_retiled cfg (set_heap h2 st) st2 s l Hs Hch2 Ha) as Hr.
  assert (chain (heap st2) (Workspace.head s) l) as Hch3
    by (by apply (chain_same_links h2)).
  exists st2. split; [exact H1|]. split; [|split].
  - unfold toggle_fullscreen. fold st1. rewrite Hs1. cbn [mbind option_bind].
    rewrite Hcur, (proj2 (is_null_false _) Hcn), Hc1. cbn [negb mbind option_bind].
    unfold set_fullscreen. rewrite (proj2 (is_null_false _) Hcn), Hc1.
    cbn [mbind option_bind].
    change (Client.is_fullscreen c1) with true. cbn [negb].
    rewrite bool_decide_eq_false_2 by done.
    rewrite (store_eq st1 c c1 _ Hc1). cbn [mbind option_bind].
    rewrite Eoff. unfold st1. cbn [heap set_heap]. rewrite insert_insert_eq.
    fold h2. rewrite set_heap_set_heap.
    change (ws_at (set_heap h2 st) (cw (set_heap h2 st))) with (ws_at st (cw st)).
    rewrite Hs. cbn [mbind option_bind].
    change (load (set_heap h2 st) (Workspace.head s)) with (h2 !! Workspace.head s).
    rewrite Hhc. cbn [mbind option_bind]. rewrite Ha. cbn [mbind option_bind].
    apply (draw_clients_ok _ s l); [|done].
    rewrite E2. done.
  - destruct (Hr c) as [E|(_ & c' & x & y & w & h & E1 & _ & E3)]; cbn [heap set_heap] in *.
    + exists 0, 0, (u16 (screen_width st)), (u16 (screen_height st)).
      unfold load. rewrite E. unfold h2. by rewrite lookup_insert_eq.
    + exists x, y, w, h. unfold load. rewrite E3. unfold h2 in E1.
      rewrite lookup_insert_eq in E1. injection E1 as <-. done.
  - intros Hft.
    destruct (Hr c) as [E|(_ & c' & x & y & w & h & E1 & E2' & _)]; cbn [heap set_heap] in *.
    + unfold load. rewrite E. unfold h2. by rewrite lookup_insert_eq.
    + unfold h2 in E1. rewrite lookup_insert_eq in E1. injection E1 as <-.
      unfold FFT in E2'.
      change (Client.is_transient (full cc)) with (Client.is_transient cc) in E2'.
      change (Client.is_floating (full cc)) with (Client.is_floating cc) in E2'.
      destruct (Client.is_transient cc), (Client.is_floating cc); done.
Qed.

Lemma toggle_fullscreen_twice_witness :
  ∃ st st1 st2 cc, (st_three_clients ≫= toggle_float cfg_example) = Some st
    ∧ load st 3%N = Some cc ∧ Client.is_floating cc = true
    ∧ (Client.x cc, Client.y cc, Client.w cc, Client.h cc) = (480, 265, 960, 530)
    ∧ toggle_fullscreen cfg_example st = Some st1
    ∧ toggle_fullscreen cfg_example st1 = Some st2
    ∧ load st2 3%N = Some (Client.set_geom 0 0 1920 1080 cc).
Proof.
  assert (∃ st, (st_three_clients ≫= toggle_float cfg_example) = Some st) as [st Hst]
    by (eexists; run).
  pose proof Hst as Hst'. vm_compute in Hst'. injection Hst' as <-.
  match type of Hst with
  | _ = Some ?st =>
      let cc := eval vm_compute in (load st 3%N) in
      match cc with
      | Some ?cc =>
          pose proof (toggle_fullscreen_twice cfg_example st [1%N; 2%N; 3%N] 3%N cc) as H;
          cbv zeta in H;
          destruct H as (st2 & H1 & H2 & _ & H4);
          [run|run|repeat constructor|run|run|exists 3; split; [run|unfold END_LAYOUT; lia]|];
          eexists st, _, st2, cc
      end
  end.
  split; [exact Hst|]. split; [run|]. split; [run|]. split; [run|].
  split; [exact H1|]. split; [exact H2|]. apply H4. run.
Defined.

(** ** The master client *)

Lemma retiled_wins l h1 h2 : retiled l h1 h2 → same_wins h1 h2.
Proof.
  intros H q. destruct (H q) as [E|(_ & c & x & y & w & h & E1 & _ & E3)].
  - by rewrite E.
  - by rewrite E1, E3.
Qed.

(** [update_focused_client] changes the heap as a layout does. *)
Lemma update_focused_client_retiled cfg st c s l st' :
  ws_at st (cw st) = Some s → chain (heap st) (Workspace.head s) l →
  update_focused_client cfg c st = Some st' → retiled l (heap st) (heap st').
Proof.
  intros Hs Hch. unfold update_focused_client.
  destruct (is_null c); [intros [= <-]; apply retiled_refl|].
  rewrite Hs. cbn [mbind option_bind].
  destruct (is_null (Workspace.head s)).
  { destruct (ws_upd_cur st s (λ s, Workspace.set_current NULL
                                      (Workspace.set_prev_foc NULL s)) Hs)
      as (st1 & -> & _ & Hh & _).
    intros [= <-]. rewrite Hh. apply retiled_refl. }
  assert (∀ st1 s1, heap st1 = heap st → ws_at st1 (cw st1) = Some s1 →
            Workspace.head s1 = Workspace.head s →
            (s1 ← ws_at st1 (cw st1);
             _ ← walk (fuel_of st1) st1 (Workspace.head s1);
             _ ← load st1 (Workspace.current s1);
             arrange_windows cfg st1) = Some st' →
            retiled l (heap st) (heap st')) as Hfin.
  { intros st1 s1 Hh1 Hs1 Hhd. rewrite Hs1. cbn [mbind option_bind].
    destruct (walk _ _ _); [|done]. cbn [mbind option_bind].
    destruct (load st1 _); [|done]. cbn [mbind option_bind].
    intros Ha. rewrite <- Hh1.
    apply (arrange_windows_retiled cfg st1 st' s1 l Hs1); [|done].
    by rewrite Hh1, Hhd. }
  destruct (ptr_eqb c (Workspace.prev_foc s)).
  - destruct (ws_upd_cur st s (Workspace.set_current (Workspace.prev_foc s)) Hs)
      as (st1 & -> & Hs1 & Hh1 & Hcw1 & _).
    cbn [mbind option_bind].
    destruct (prev_client st1 _ _) as [p|]; [|done]. cbn [mbind option_bind].
    destruct (ws_upd_cur st1 _ (Workspace.set_prev_foc p) Hs1)
      as (st2 & -> & Hs2 & Hh2 & Hcw2 & _).
    cbn [mbind option_bind].
    eapply (Hfin st2); [congruence|exact Hs2|done].
  - destruct (negb (ptr_eqb c (Workspace.current s))).
    + destruct (ws_upd_cur st s
                  (λ s, Workspace.set_current c
                          (Workspace.set_prev_foc (Workspace.current s) s)) Hs)
        as (st1 & -> & Hs1 & Hh1 & Hcw1 & _).
      cbn [mbind option_bind]. eapply (Hfin st1); [congruence|exact Hs1|done].
    + cbn [mbind option_bind]. by apply (Hfin st s).
Qed.

Lemma set_head_same s : Workspace.set_head (Workspace.head s) s = s.
Proof. by destruct s. Qed.

(** The loop of [make_master]: the focused client goes up until it is the
    head. *)
Lemma make_master_loop_ok cfg l1 : ∀ fuel st s c l2,
  ws_at st (cw st) = Some s → chain (heap st) (Workspace.head s) (l1 ++ c :: l2) →
  Workspace.current s = c → 0 ≤ Workspace.layout s < END_LAYOUT →
  (length l1 ≤ fuel)%nat →
  ∃ st', make_master_loop cfg fuel st = Some st' ∧ cw st' = cw st
         ∧ ws_at st' (cw st) = Some (Workspace.set_head c s)
         ∧ scratchpad st' = scratchpad st
         ∧ chain (heap st') c (c :: l1 ++ l2)
         ∧ same_wins (heap st) (heap st').
Proof.
  induction l1 as [|p l1 IH] using rev_ind; intros fuel st s c l2 Hs Hch Hcur Hlay Hfuel.
  - pose proof (chain_head _ _ _ _ Hch) as Hhd. exists st.
    assert (make_master_loop cfg fuel st = Some st) as ->.
    { destruct fuel; simpl; rewrite Hs; cbn [mbind option_bind];
        by rewrite Hcur, Hhd, (proj2 (ptr_eqb_true _ _) eq_refl). }
    rewrite <- Hhd at 1. rewrite set_head_same. rewrite Hhd in Hch. done.
  - rewrite length_app in Hfuel. simpl in Hfuel.
    destruct fuel as [|k]; [lia|].
    rewrite <- (assoc_L (++)) in Hch. simpl in Hch.
    assert (Workspace.current s ≠ Workspace.head s) as Hne.
    { rewrite Hcur. intros E. pose proof (chain_NoDup _ _ _ Hch) as Hnd.
      pose proof (chain_app_head _ _ _ _ _ Hch) as Hin. rewrite <- E in Hin.
      apply NoDup_app in Hnd as (_ & Hd & Hnd).
      apply NoDup_cons in Hnd as [Hp _].
      apply elem_of_app in Hin as [Hin|Hin%list_elem_of_singleton].
      - apply (Hd c Hin). right. left.
      - apply Hp. rewrite Hin. left. }
    simpl. rewrite Hs. cbn [mbind option_bind].
    rewrite (proj2 (ptr_eqb_false _ _) Hne), Hcur.
    destruct l1 as [|pp l1 _] using rev_ind.
    + destruct (move_up_second cfg st s p c l2 Hs Hch Hlay)
        as (st1 & -> & Hcw1 & Hs1 & Hsp1 & Hch1 & Hw1).
      cbn [mbind option_bind]. exists st1.
      assert (make_master_loop cfg k st1 = Some st1) as ->.
      { destruct k; simpl; rewrite Hcw1, Hs1; cbn [mbind option_bind];
          change (Workspace.current (Workspace.set_head c s)) with (Workspace.current s);
          change (Workspace.head (Workspace.set_head c s)) with c;
          by rewrite Hcur, (proj2 (ptr_eqb_true _ _) eq_refl). }
      done.
    + rewrite <- (assoc_L (++)) in Hch. simpl in Hch.
      destruct (move_up_mid cfg st s l1 pp p c l2 Hs Hch Hlay)
        as (st1 & -> & Hcw1 & Hs1 & Hsp1 & Hch1 & Hw1).
      cbn [mbind option_bind].
      rewrite <- Hcw1 in Hs1.
      destruct (IH k st1 s c (p :: l2) Hs1) as (st2 & -> & Hcw2 & Hs2 & Hsp2 & Hch2 & Hw2).
      * by rewrite <- (assoc_L (++)).
      * done.
      * done.
      * rewrite length_app in Hfuel. rewrite length_app. simpl in *. lia.
      * exists st2. split; [done|]. split; [congruence|].
        split; [by rewrite <- Hcw1|]. split; [congruence|].
        split; [|by eapply same_wins_trans].
        by rewrite <- !(assoc_L (++)) in *.
Qed.

(** X23: in a stack layout [make_master] moves the focused client to the
    front of the list of the current workspace, keeps the order of the
    other clients and the focus, and changes no window; in the layouts zoom
    and grid it does nothing. *)
Theorem make_master_front cfg st c l1 l2 lay :
  clients_cw st = Some (l1 ++ c :: l2) → current_of st = Some c →
  layout_of st = Some lay → 0 ≤ lay < END_LAYOUT →
  (lay = ZOOM ∨ lay = GRID → make_master cfg st = Some st)
  ∧ (lay = HSTACK ∨ lay = VSTACK →
     ∃ st', make_master cfg st = Some st' ∧ cw st' = cw st
            ∧ clients_cw st' = Some (c :: l1 ++ l2)
            ∧ current_of st' = Some c
            ∧ same_wins (heap st) (heap st')).
Proof.
  intros Hl Hcur Hlay Hrange. apply clients_cw_chain in Hl as (s & Hs & Hch).
  pose proof (layout_of_ws _ _ _ Hs Hlay) as El.
  unfold current_of in Hcur. rewrite Hs in Hcur. injection Hcur as Hcur.
  destruct (chain_at _ _ _ _ _ Hch) as (Hcn & cc & Hcc & _).
  assert (∃ hc, load st (Workspace.head s) = Some hc
                ∧ (Client.next hc = NULL → l1 = [] ∧ l2 = [])) as (hc & Hhc & Hsingle).
  { destruct l1 as [|a l1]; simpl in Hch.
    - destruct Hch as (-> & _ & hc & Hq & Hrest). exists hc. split; [done|].
      intros E. rewrite E in Hrest. split; [done|].
      destruct l2 as [|b l2]; [done|]. by destruct Hrest as (_ & ? & _).
    - destruct Hch as (-> & _ & hc & Hq & Hrest). exists hc. split; [done|].
      intros E. rewrite E in Hrest. destruct l1; by destruct Hrest as (_ & ? & _). }
  unfold make_master. rewrite Hs. cbn [mbind option_bind].
  rewrite Hcur, (proj2 (is_null_false _) Hcn), Hhc. cbn [mbind option_bind]. split.
  - intros Hz. rewrite El.
    assert (negb (bool_decide (lay = HSTACK) || bool_decide (lay = VSTACK)) = true) as ->.
    { unfold ZOOM, GRID, HSTACK, VSTACK in *. repeat case_bool_decide; try done; lia. }
    by rewrite !orb_true_r.
  - intros Hst. rewrite El.
    assert (negb (bool_decide (lay = HSTACK) || bool_decide (lay = VSTACK)) = false) as ->.
    { unfold HSTACK, VSTACK in *. repeat case_bool_decide; try done; lia. }
    rewrite orb_false_r.
    destruct (is_null (Client.next hc)) eqn:En.
    { apply is_null_true in En. destruct (Hsingle En) as [-> ->]. simpl.
      exists st. split; [done|]. split; [done|]. split.
      - apply clients_cw_chain. by exists s.
      - split; [|done]. unfold current_of. rewrite Hs. simpl. by rewrite Hcur. }
    destruct (ptr_eqb (Workspace.head s) c) eqn:Eh.
    { apply ptr_eqb_true in Eh. simpl.
      assert (l1 = []) as ->.
      { destruct l1 as [|a l1]; [done|]. exfalso.
        pose proof (chain_NoDup _ _ _ Hch) as Hnd. simpl in Hch.
        destruct Hch as (Ea & _). rewrite Eh in Ea. subst a.
        simpl in Hnd. apply NoDup_cons in Hnd as [Hnin _]. apply Hnin.
        apply elem_of_app. right. left. }
      exists st. split; [done|]. split; [done|]. split.
      - apply clients_cw_chain. by exists s.
      - split; [|done]. unfold current_of. rewrite Hs. simpl. by rewrite Hcur. }
    cbn [orb]. rewrite <- El in Hrange.
    destruct (make_master_loop_ok cfg l1 (fuel_of st) st s c l2 Hs Hch Hcur Hrange)
      as (st1 & -> & Hcw1 & Hs1 & Hsp1 & Hch1 & Hw1).
    { pose proof (chain_fuel _ _ _ Hch) as Hf. rewrite length_app in Hf. lia. }
    cbn [mbind option_bind]. rewrite Hcw1, Hs1. cbn [mbind option_bind].
    change (Workspace.head (Workspace.set_head c s)) with c.
    rewrite <- Hcw1 in Hs1.
    destruct (update_focused_client_spec cfg st1 c _ (c :: l1 ++ l2) Hs1 Hch1 Hrange)
      as (st' & p & Hu & _ & _ & Hg); [left|].
    pose proof (update_focused_client_retiled cfg st1 c _ _ st' Hs1 Hch1 Hu) as Hr.
    rewrite Hu. exists st'. destruct Hg as [E L]. split; [done|].
    split; [by rewrite E|].
    assert (ws_at st' (cw st') = Some (focus_ws p c (Workspace.set_head c s))) as Hs'.
    { rewrite E. exact (ws_at_insert_eq st1 (cw st1) _ _ (heap st') Hs1). }
    assert (Workspace.head (focus_ws p c (Workspace.set_head c s)) = c
            ∧ Workspace.current (focus_ws p c (Workspace.set_head c s)) = c) as (Hhd & Hcu).
    { unfold focus_ws. destruct (ptr_eqb c _) eqn:E1.
      - apply ptr_eqb_true in E1. simpl. auto.
      - destruct (negb (ptr_eqb c _)) eqn:E2; simpl; [auto|].
        apply negb_false_iff, ptr_eqb_true in E2. auto. }
    split; [|split].
    + apply clients_cw_chain. eexists. split; [exact Hs'|]. rewrite Hhd.
      by apply (chain_same_links (heap st1)).
    + unfold current_of. rewrite Hs'. simpl. by rewrite Hcu.
    + eapply same_wins_trans; [exact Hw1|]. by apply (retiled_wins (c :: l1 ++ l2)).
Qed.

Lemma make_master_front_witness :
  ∃ st st', st_three_clients = Some st
    ∧ clients_cw st = Some [1%N; 2%N; 3%N] ∧ current_of st = Some 3%N
    ∧ make_master cfg_example st = Some st'
    ∧ clients_cw st' = Some [3%N; 1%N; 2%N] ∧ current_of st' = Some 3%N.
Proof.
  assert (∃ st, st_three_clients = Some st) as [st Hst] by (eexists; run).
  pose proof Hst as Hst'. vm_compute in Hst'. injection Hst' as <-.
  match type of Hst with
  | _ = Some ?st =>
      destruct (make_master_front cfg_example st 3%N [1%N; 2%N] [] 3) as [_ H];
      [run|run|run|unfold END_LAYOUT; lia|];
      destruct H as (st' & H1 & _ & H2 & H3 & _); [by right|];
      exists st, st'
  end.
  split; [exact Hst|]. split; [run|]. split; [run|].
  split; [exact H1|]. split; [exact H2|exact H3].
Defined.

(** ** The scratchpad and the list it is taken from *)

Lemma set_prev_foc_same s : Workspace.set_prev_foc (Workspace.prev_foc s) s = s.
Proof. by destruct s. Qed.

Lemma focus_ws_fields p c s :
  Workspace.head (focus_ws p c s) = Workspace.head s
  ∧ Workspace.layout (focus_ws p c s) = Workspace.layout s
  ∧ Workspace.bar_height (focus_ws p c s) = Workspace.bar_height s
  ∧ Workspace.client_cnt (focus_ws p c s) = Workspace.client_cnt s
  ∧ Workspace.current (focus_ws p c s) = c.
Proof.
  unfold focus_ws. destruct (ptr_eqb c (Workspace.prev_foc s)) eqn:E1.
  - apply ptr_eqb_true in E1. simpl. auto.
  - destruct (negb (ptr_eqb c (Workspace.current s))) eqn:E2; simpl; [auto|].
    apply negb_false_iff, ptr_eqb_true in E2. auto.
Qed.

(** [send_to_scratchpad] for a focused client that is not the head of its
    list. *)
Lemma send_to_scratchpad_tail cfg st s l1 p c l2 cc :
  ws_at st (cw st) = Some s →
  chain (heap st) (Workspace.head s) (l1 ++ p :: c :: l2) →
  Workspace.current s = c → scratchpad st = NULL → heap st !! c = Some cc →
  Workspace.prev_foc s = NULL ∨ Workspace.prev_foc s ∈ l1 ++ p :: c :: l2 →
  0 ≤ Workspace.layout s < END_LAYOUT →
  ∃ st' s', send_to_scratchpad cfg st = Some st' ∧ cw st' = cw st
            ∧ scratchpad st' = c
            ∧ screen_width st' = screen_width st ∧ screen_height st' = screen_height st
            ∧ ws_at st' (cw st) = Some s'
            ∧ Workspace.head s' = Workspace.head s
            ∧ Workspace.layout s' = Workspace.layout s
            ∧ Workspace.bar_height s' = Workspace.bar_height s
            ∧ Workspace.client_cnt s' = Workspace.client_cnt s - 1
            ∧ Workspace.current s' ∈ l1 ++ p :: l2
            ∧ chain (heap st') (Workspace.head s) (l1 ++ p :: l2)
            ∧ heap st' !! c = Some cc.
Proof.
  intros Hs Hch Hcur Hsp Hcc Hpf Hlay.
  pose proof (chain_NoDup _ _ _ Hch) as Hnd.
  apply NoDup_app in Hnd as (Hnd1 & Hd1 & Hnd).
  apply NoDup_cons in Hnd as (Hp & Hnd). apply NoDup_cons in Hnd as (Hc & Hnd2).
  destruct (chain_at _ _ l1 p _ Hch) as (Hpn & pc & Hpc & _ & Hpnext).
  destruct (chain_at (heap st) (Workspace.head s) (l1 ++ [p]) c l2)
    as (Hcn & cc' & Hcc' & Hrest & _); [by rewrite <- (assoc_L (++))|].
  rewrite Hcc in Hcc'. injection Hcc' as <-.
  assert (p ≠ c) as Hpc_ne by (intros ->; apply Hp; left).
  assert (c ∉ l1 ++ p :: l2) as Hcnew.
  { intros Hin. apply elem_of_app in Hin as [Hin|Hin].
    - apply (Hd1 c Hin). right. left.
    - apply elem_of_cons in Hin as [E|Hin]; [done|]. by apply Hc. }
  assert (Workspace.head s ∈ l1 ++ p :: l2) as Hhin.
  { pose proof (chain_app_head _ _ _ _ _ Hch) as Hin.
    apply elem_of_app in Hin as [Hin|Hin%list_elem_of_singleton];
      apply elem_of_app; [by left|right; rewrite Hin; left]. }
  assert (Workspace.head s ≠ c) as Hhc by (intros E; by rewrite E in Hhin).
  assert (load st c = Some cc) as Hlc by done.
  assert (load st p = Some pc) as Hlp by done.
  set (h1 := <[p := Client.set_next (Client.next cc) pc]> (heap st)).
  assert (chain h1 (Workspace.head s) (l1 ++ p :: l2)) as Hch1.
  { apply (chain_splice _ _ _ _ (c :: l2)); [done|done|done| |].
    - intros Hin. apply Hp. by right.
    - intros x Hx Hin. apply (Hd1 x Hx). by do 2 right. }
  unfold send_to_scratchpad. rewrite Hs. cbn [mbind option_bind].
  rewrite Hcur, Hsp, (proj2 (is_null_false _) Hcn). change (is_null NULL) with true.
  cbn [negb orb].
  rewrite (prev_client_mid st (cw st) s l1 p c l2 Hs Hch). cbn [mbind option_bind].
  rewrite (proj2 (is_null_false _) Hpn). cbn [negb]. rewrite Hlc. cbn [mbind option_bind].
  rewrite (store_eq st p pc _ Hlp). cbn [mbind option_bind]. fold h1.
  set (st1 := set_heap h1 st).
  assert (ws_at st1 (cw st1) = Some s) as Hs1 by done.
  assert (load st1 c = Some cc) as Hc1 by heap_lookup.
  rewrite Hs1. cbn [mbind option_bind].
  (* the new [prev_foc] *)
  assert (∃ st2 pf, (if ptr_eqb c (Workspace.prev_foc s)
                     then q ← prev_client st1 (Workspace.current s) (cw st1);
                          ws_upd (cw st1) (Workspace.set_prev_foc q) st1
                     else Some st1) = Some st2
                    ∧ heap st2 = h1 ∧ cw st2 = cw st ∧ scratchpad st2 = NULL
                    ∧ screen_width st2 = screen_width st
                    ∧ screen_height st2 = screen_height st
                    ∧ ws_at st2 (cw st2) = Some (Workspace.set_prev_foc pf s)
                    ∧ (pf = NULL ∨ pf ∈ l1 ++ p :: l2))
    as (st2 & pf & -> & Hh2 & Hcw2 & Hsp2 & Hsw2 & Hsh2 & Hs2 & Hpf2).
  { destruct (ptr_eqb c (Workspace.prev_foc s)) eqn:E.
    - destruct (prev_client_in st1 (Workspace.current s) (cw st1) s _ Hs1 Hch1)
        as (q & -> & Hq).
      cbn [mbind option_bind]. rewrite (ws_upd_eq st1 (cw st1) s _ Hs1).
      eexists _, q. split; [done|]. split; [done|]. split; [done|]. split; [done|].
      split; [done|]. split; [done|].
      split; [exact (ws_at_insert_eq st1 (cw st1) s _ h1 Hs1)|done].
    - exists st1, (Workspace.prev_foc s). split; [done|]. split; [done|].
      split; [done|]. split; [done|]. split; [done|]. split; [done|].
      split; [by rewrite set_prev_foc_same|].
      destruct Hpf as [?|Hin]; [by left|right].
      apply ptr_eqb_false in E.
      apply elem_of_app in Hin as [Hin|Hin]; apply elem_of_app; [by left|right].
      apply elem_of_cons in Hin as [->|Hin]; [left|].
      apply elem_of_cons in Hin as [E'|Hin]; [congruence|by right]. }
  cbn [mbind option_bind]. rewrite Hs2. cbn [mbind option_bind].
  change (Workspace.current (Workspace.set_prev_foc pf s)) with (Workspace.current s).
  rewrite Hcur, (proj2 (ptr_eqb_true _ _) eq_refl). cbn [mbind option_bind].
  change (Workspace.prev_foc (Workspace.set_prev_foc pf s)) with pf.
  change (Workspace.head (Workspace.set_prev_foc pf s)) with (Workspace.head s).
  set (X := if negb (is_null pf) then pf else Workspace.head s).
  assert (X ∈ l1 ++ p :: l2) as HX.
  { unfold X. destruct (is_null pf) eqn:E; [done|]. apply is_null_false in E.
    by destruct Hpf2. }
  destruct (ws_upd_cur st2 _ (Workspace.set_current X) Hs2)
    as (st3 & -> & Hs3 & Hh3 & Hcw3 & Hsp3 & Hsw3 & Hsh3).
  cbn [mbind option_bind]. rewrite Hs3. cbn [mbind option_bind].
  change (Workspace.head (Workspace.set_current X _)) with (Workspace.head s).
  rewrite (proj2 (ptr_eqb_false _ _)) by congruence.
  cbn [mbind option_bind].
  rewrite (load_heap_eq st2 st3 c Hh3), (load_heap_eq st1 st2 c Hh2), Hc1.
  cbn [mbind option_bind].
  destruct (ws_upd_cur st3 _
              (λ s, Workspace.set_client_cnt (Workspace.client_cnt s - 1) s) Hs3)
    as (st4 & -> & Hs4 & Hh4 & Hcw4 & Hsp4 & Hsw4 & Hsh4).
  cbn [mbind option_bind]. rewrite Hs4. cbn [mbind option_bind].
  set (s4 := Workspace.set_client_cnt _ _) in *.
  change (Workspace.current s4) with X.
  assert (heap st4 = h1) as Hheap4 by congruence.
  assert (chain (heap st4) (Workspace.head s4) (l1 ++ p :: l2)) as Hch4
    by (by rewrite Hheap4).
  destruct (update_focused_client_spec cfg st4 X s4 _ Hs4 Hch4 Hlay HX)
    as (st5 & q & Hu & _ & _ & E & L).
  pose proof (update_focused_client_retiled cfg st4 X s4 _ st5 Hs4 Hch4 Hu) as Hr.
  rewrite Hu. cbn [mbind option_bind].
  destruct (focus_ws_fields q X s4) as (F1 & F2 & F3 & F4 & F5).
  exists (set_scratchpad c st5), (focus_ws q X s4).
  assert (cw st4 = cw st) as Hcw by congruence.
  assert (ws_at st5 (cw st) = Some (focus_ws q X s4)) as Hs5.
  { rewrite E, <- Hcw. exact (ws_at_insert_eq st4 (cw st4) s4 _ (heap st5) Hs4). }
  split; [done|]. split; [rewrite E; simpl; congruence|]. split; [done|].
  split; [rewrite E; simpl; congruence|]. split; [rewrite E; simpl; congruence|].
  split; [exact Hs5|]. split; [by rewrite F1|]. split; [by rewrite F2|].
  split; [by rewrite F3|]. split; [by rewrite F4|]. split; [by rewrite F5|].
  split.
  - simpl. apply (chain_same_links (heap st4)); [done|]. by rewrite Hheap4.
  - simpl. destruct (Hr c) as [Ec|(Hin & _)]; [|done].
    rewrite Ec, Hheap4. unfold h1. by rewrite lookup_insert_ne.
Qed.

(** [get_from_scratchpad] on a workspace with clients, up to its call of
    [update_focused_client]: the last client is linked to the client of the
    scratchpad, which keeps its own [next]. *)
Lemma get_from_scratchpad_link cfg sg st s l t tc sp spc :
  ws_at st (cw st) = Some s → chain (heap st) (Workspace.head s) l →
  last l = Some t → heap st !! t = Some tc →
  scratchpad st = sp → sp ≠ NULL → sp ∉ l → heap st !! sp = Some spc →
  ∃ st8, get_from_scratchpad cfg sg st = update_focused_client cfg sp st8
         ∧ heap st8 = <[sp := scratchpad_cell sg st (Workspace.bar_height s) spc]>
                        (<[t := Client.set_next sp tc]> (heap st))
         ∧ cw st8 = cw st ∧ scratchpad st8 = NULL
         ∧ ws_at st8 (cw st8)
           = Some (Workspace.set_client_cnt (Workspace.client_cnt s + 1)
                     (Workspace.set_current sp
                        (Workspace.set_prev_foc (Workspace.current s) s))).
Proof.
  intros Hs Hch Hlast Ht Hsp Hspn Hnin Hspc.
  assert (t ∈ l) as Htin.
  { apply last_Some in Hlast as (l' & ->). apply elem_of_app. right. left. }
  assert (t ≠ sp) as Hne by (intros ->; done).
  assert (load st t = Some tc) as Hlt by done.
  unfold get_from_scratchpad. rewrite Hsp, (proj2 (is_null_false _) Hspn), Hs.
  cbn [mbind option_bind].
  assert ((if is_null (Workspace.head s) then ws_upd (cw st) (Workspace.set_head sp) st
           else hd ← load st (Workspace.head s);
                if is_null (Client.next hd)
                then store (Workspace.head s) (Client.set_next sp) st
                else t ← prev_client st (Workspace.head s) (cw st);
                     store t (Client.set_next sp) st)
          = store t (Client.set_next sp) st) as ->.
  { destruct l as [|a l]; [done|].
    pose proof Hch as (Ha & Han & ac & Hac & Hrest).
    rewrite (proj2 (is_null_false _)) by congruence.
    assert (load st (Workspace.head s) = Some ac) as -> by exact Hac.
    cbn [mbind option_bind].
    destruct l as [|b l].
    - simpl in Hrest. rewrite Hrest. change (is_null NULL) with true.
      simpl in Hlast. injection Hlast as <-. by rewrite Ha.
    - destruct Hrest as (Eb & Hbn & _).
      rewrite (proj2 (is_null_false _)) by congruence.
      rewrite (prev_client_head st (cw st) s _ Hs Hch). cbn [mbind option_bind].
      by rewrite Hlast. }
  rewrite (store_eq st t tc _ Hlt). cbn [mbind option_bind].
  set (h1 := <[t := Client.set_next sp tc]> (heap st)).
  set (st1 := set_heap h1 st).
  assert (ws_at st1 (cw st1) = Some s) as Hs1 by done.
  destruct (ws_upd_cur st1 s
              (λ s, Workspace.set_current sp
                      (Workspace.set_prev_foc (Workspace.current s) s)) Hs1)
    as (st2 & -> & Hs2 & Hh2 & Hcw2 & Hsp2 & Hsw2 & Hsh2).
  cbn [mbind option_bind].
  assert (ws_at (set_scratchpad NULL st2) (cw (set_scratchpad NULL st2))
          = Some (Workspace.set_current sp
                    (Workspace.set_prev_foc (Workspace.current s) s))) as Hs2' by exact Hs2.
  destruct (ws_upd_cur _ _
              (λ s, Workspace.set_client_cnt (Workspace.client_cnt s + 1) s) Hs2')
    as (st3 & -> & Hs3 & Hh3 & Hcw3 & Hsp3 & Hsw3 & Hsh3).
  cbn [mbind option_bind]. rewrite Hs3. cbn [mbind option_bind].
  set (s3 := Workspace.set_client_cnt _ _) in *.
  change (Workspace.current s3) with sp.
  assert (heap st3 = h1) as Hheap3 by (rewrite Hh3; exact Hh2).
  assert (load st3 sp = Some spc) as Hl3.
  { unfold load. rewrite Hheap3. unfold h1. by rewrite lookup_insert_ne. }
  rewrite (store_eq st3 sp spc _ Hl3). cbn [mbind option_bind].
  rewrite (store_eq _ sp _ _ (load_set_heap_eq _ _ _ _)). cbn [mbind option_bind].
  rewrite (store_eq _ sp _ _ (load_set_heap_eq _ _ _ _)). cbn [mbind option_bind].
  rewrite (store_eq _ sp _ _ (load_set_heap_eq _ _ _ _)). cbn [mbind option_bind].
  cbn [heap set_heap]. rewrite !insert_insert_eq. rewrite !set_heap_set_heap.
  change (ws_at (set_heap _ st3) (cw (set_heap _ st3))) with (ws_at st3 (cw st3)).
  rewrite Hs3. cbn [mbind option_bind].
  rewrite (store_eq _ sp _ _ (load_set_heap_eq _ _ _ _)). cbn [mbind option_bind].
  cbn [heap set_heap]. rewrite !insert_insert_eq. rewrite !set_heap_set_heap.
  rewrite load_set_heap_eq. cbn [mbind option_bind].
  eexists. split; [reflexivity|]. split; [|split; [|split]].
  - cbn [heap set_heap]. rewrite Hheap3. f_equal.
    cbn [screen_width screen_height set_heap].
    unfold scratchpad_cell. rewrite Hsw3, Hsh3. cbn [screen_width screen_height set_scratchpad].
    rewrite Hsw2, Hsh2. destruct spc. reflexivity.
  - cbn [cw set_heap]. rewrite Hcw3. cbn [cw set_scratchpad]. by rewrite Hcw2.
  - cbn [scratchpad set_heap]. by rewrite Hsp3.
  - exact Hs3.
Qed.

(** [get_from_scratchpad] when the client of the scratchpad has no
    successor: it becomes the last client and has the focus. *)
Lemma get_from_scratchpad_append cfg sg st s l sp spc :
  ws_at st (cw st) = Some s → chain (heap st) (Workspace.head s) l → l ≠ [] →
  scratchpad st = sp → sp ≠ NULL → sp ∉ l → heap st !! sp = Some spc →
  Client.next spc = NULL → Workspace.current s ≠ sp →
  0 ≤ Workspace.layout s < END_LAYOUT →
  ∃ st', get_from_scratchpad cfg sg st = Some st' ∧ cw st' = cw st
         ∧ scratchpad st' = NULL
         ∧ ws_at st' (cw st)
           = Some (Workspace.set_client_cnt (Workspace.client_cnt s + 1)
                     (Workspace.set_current sp
                        (Workspace.set_prev_foc (Workspace.current s) s)))
         ∧ chain (heap st') (Workspace.head s) (l ++ [sp])
         ∧ heap st' !! sp = Some (scratchpad_cell sg st (Workspace.bar_height s) spc).
Proof.
  intros Hs Hch Hne Hsp Hspn Hnin Hspc Hnext Hcur Hlay.
  destruct (last l) as [t|] eqn:Hlast; [|by apply last_None in Hlast].
  assert (t ∈ l) as Htin.
  { apply last_Some in Hlast as (l' & ->). apply elem_of_app. right. left. }
  destruct (chain_elem _ _ _ t Hch Htin) as (Htn & tc & Htc).
  destruct (get_from_scratchpad_link cfg sg st s l t tc sp spc Hs Hch Hlast Htc Hsp Hspn
              Hnin Hspc) as (st8 & -> & Hh8 & Hcw8 & Hsp8 & Hs8).
  set (s3 := Workspace.set_client_cnt _ _) in *.
  set (cell := scratchpad_cell sg st (Workspace.bar_height s) spc) in *.
  assert (chain (heap st8) (Workspace.head s3) (l ++ [sp])) as Hch8.
  { rewrite Hh8. change (Workspace.head s3) with (Workspace.head s).
    apply (chain_set_cell _ _ _ _ spc (scratchpad_cell sg st (Workspace.bar_height s)));
      [|by rewrite lookup_insert_ne by (intros ->; done)|done].
    by apply (chain_append _ _ _ _ _ _ spc). }
  destruct (update_focused_client_spec cfg st8 sp s3 _ Hs8 Hch8 Hlay)
    as (st' & q & Hu & _ & _ & E & L); [apply elem_of_app; right; left|].
  pose proof (update_focused_client_retiled cfg st8 sp s3 _ st' Hs8 Hch8 Hu) as Hr.
  assert (focus_ws q sp s3 = s3) as Efw.
  { unfold focus_ws. change (Workspace.prev_foc s3) with (Workspace.current s).
    rewrite (proj2 (ptr_eqb_false _ _)) by congruence.
    change (Workspace.current s3) with sp.
    by rewrite (proj2 (ptr_eqb_true _ _) eq_refl). }
  rewrite Efw in E. exists st'. split; [done|].
  split; [rewrite E; simpl; congruence|]. split; [rewrite E; simpl; congruence|].
  split; [|split].
  - rewrite E, <- Hcw8. exact (ws_at_insert_eq st8 (cw st8) s3 _ (heap st') Hs8).
  - by apply (chain_same_links (heap st8)).
  - destruct (Hr sp) as [Ec|(_ & c' & x & y & w & h & E1 & E2 & _)].
    + rewrite Ec, Hh8. by rewrite lookup_insert_eq.
    + rewrite Hh8, lookup_insert_eq in E1. injection E1 as <-.
      unfold FFT in E2. simpl in E2. by rewrite orb_true_r in E2.
Qed.

(** The list of a workspace once its last client points to a client whose
    own successor is in the list. *)
Lemma chain_lasso hp h l t tc sp v :
  chain hp h l → last l = Some t → hp !! t = Some tc → sp ≠ NULL → sp ∉ l →
  Client.next v ∈ l →
  cyclic (<[sp := v]> (<[t := Client.set_next sp tc]> hp)) (l ++ [sp]).
Proof.
  intros Hch Hlast Ht Hspn Hnin Hnext q Hq.
  apply elem_of_app in Hq as [Hq|Hq%list_elem_of_singleton].
  - assert (q ≠ sp) as Hqsp by (intros ->; done).
    pose proof Hq as Hq'. apply list_elem_of_split in Hq' as (la & lb & Hl).
    rewrite Hl in Hch. destruct (chain_at _ _ _ _ _ Hch) as (Hqn & qc & Hqc & _ & Hqnext).
    split; [done|]. rewrite lookup_insert_ne by done.
    destruct (decide (q = t)) as [->|Hne].
    + exists (Client.set_next sp tc). rewrite lookup_insert_eq. split; [done|].
      apply elem_of_app. right. left.
    + exists qc. rewrite lookup_insert_ne by done. split; [done|].
      destruct lb as [|x lb].
      * exfalso. apply Hne. rewrite Hl, last_snoc in Hlast. congruence.
      * simpl in Hqnext. rewrite Hqnext, Hl. apply elem_of_app. left.
        apply elem_of_app. right. right. left.
  - subst q. split; [done|]. exists v. rewrite lookup_insert_eq. split; [done|].
    apply elem_of_app. by left.
Qed.

(** [get_from_scratchpad] when the client of the scratchpad still points
    into the list of the workspace. *)
Lemma get_from_scratchpad_cyclic cfg sg st s l sp spc :
  ws_at st (cw st) = Some s → chain (heap st) (Workspace.head s) l →
  scratchpad st = sp → sp ≠ NULL → sp ∉ l → heap st !! sp = Some spc →
  Client.next spc ∈ l →
  get_from_scratchpad cfg sg st = None.
Proof.
  intros Hs Hch Hsp Hspn Hnin Hspc Hnext.
  destruct (last l) as [t|] eqn:Hlast.
  2:{ apply last_None in Hlast. subst l. by apply elem_of_nil in Hnext. }
  assert (t ∈ l) as Htin.
  { apply last_Some in Hlast as (l' & ->). apply elem_of_app. right. left. }
  destruct (chain_elem _ _ _ t Hch Htin) as (Htn & tc & Htc).
  destruct (get_from_scratchpad_link cfg sg st s l t tc sp spc Hs Hch Hlast Htc Hsp Hspn
              Hnin Hspc) as (st8 & -> & Hh8 & Hcw8 & Hsp8 & Hs8).
  apply (update_focused_client_cyclic cfg st8 sp _ (l ++ [sp]) Hspn Hs8).
  - simpl. apply elem_of_app. left.
    destruct l as [|a l]; [done|]. destruct Hch as (-> & _). left.
  - rewrite Hh8. by apply (chain_lasso _ (Workspace.head s)).
Qed.

(** X24: a round trip through the scratchpad for the last client of a list
    of two or more.  [send_to_scratchpad] takes the focused client out of
    the list of the current workspace and keeps it in the scratchpad;
    [get_from_scratchpad] then puts it back at the end of the list, focused,
    floating and with the size of the scratchpad, and empties the
    scratchpad.  The order of the list and the client count are as
    before. *)
Theorem scratchpad_round_trip_last cfg sg st l p c cc s :
  ws_at st (cw st) = Some s →
  clients_cw st = Some (l ++ [p; c]) → Workspace.current s = c →
  Workspace.prev_foc s = NULL ∨ Workspace.prev_foc s ∈ l ++ [p; c] →
  scratchpad st = NULL → load st c = Some cc →
  0 ≤ Workspace.layout s < END_LAYOUT →
  ∃ st1 st2 s2,
    send_to_scratchpad cfg st = Some st1
    ∧ scratchpad st1 = c ∧ clients_cw st1 = Some (l ++ [p])
    ∧ (Workspace.client_cnt <$> ws_at st1 (cw st1)) = Some (Workspace.client_cnt s - 1)
    ∧ get_from_scratchpad cfg sg st1 = Some st2
    ∧ scratchpad st2 = NULL ∧ cw st2 = cw st
    ∧ clients_cw st2 = Some (l ++ [p; c])
    ∧ ws_at st2 (cw st2) = Some s2
    ∧ Workspace.current s2 = c
    ∧ Workspace.client_cnt s2 = Workspace.client_cnt s
    ∧ load st2 c = Some (scratchpad_cell sg st (Workspace.bar_height s) cc).
Proof.
  intros Hs Hl Hcur Hpf Hsp Hcc Hlay.
  apply clients_cw_chain in Hl as (s' & Hs' & Hch).
  rewrite Hs in Hs'. injection Hs' as <-.
  destruct (chain_at (heap st) (Workspace.head s) (l ++ [p]) c [])
    as (Hcn & cc' & Hcc' & _ & Hnext); [by rewrite <- (assoc_L (++))|].
  change (heap st !! c = Some cc) in Hcc. rewrite Hcc in Hcc'. injection Hcc' as <-.
  simpl in Hnext.
  destruct (send_to_scratchpad_tail cfg st s l p c [] cc Hs Hch Hcur Hsp Hcc Hpf Hlay)
    as (st1 & s1 & H1 & Hcw1 & Hsp1 & Hsw1 & Hsh1 & Hs1 & Hhd1 & Hlay1 & Hbh1 & Hcnt1
        & Hcur1 & Hch1 & Hc1).
  pose proof (chain_NoDup _ _ _ Hch) as Hnd.
  assert (c ∉ l ++ [p]) as Hnin.
  { change (l ++ [p; c]) with (l ++ [p] ++ [c]) in Hnd.
    rewrite (assoc_L (++)) in Hnd. apply NoDup_app in Hnd as (_ & Hd & _).
    intros Hin. apply (Hd c Hin). left. }
  rewrite <- Hcw1 in Hs1. rewrite <- Hhd1 in Hch1.
  destruct (get_from_scratchpad_append cfg sg st1 s1 (l ++ [p]) c cc Hs1 Hch1)
    as (st2 & H2 & Hcw2 & Hsp2 & Hs2 & Hch2 & Hc2).
  { by destruct l. }
  { done. }
  { done. }
  { done. }
  { done. }
  { done. }
  { intros E. by rewrite E in Hcur1. }
  { by rewrite Hlay1. }
  exists st1, st2. eexists.
  split; [exact H1|]. split; [done|].
  split; [apply clients_cw_chain; by exists s1|].
  split; [by rewrite Hs1; simpl; rewrite Hcnt1|].
  split; [exact H2|]. split; [done|]. split; [congruence|].
  split.
  { apply clients_cw_chain. eexists. rewrite Hcw2. split; [exact Hs2|].
    simpl. by rewrite <- (assoc_L (++)) in Hch2. }
  split; [rewrite Hcw2; exact Hs2|]. split; [done|].
  split; [simpl; lia|].
  unfold load. rewrite Hc2. unfold scratchpad_cell. by rewrite Hsw1, Hsh1, Hbh1.
Qed.

Lemma scratchpad_round_trip_last_witness :
  ∃ st st1 st2, st_three_clients = Some st
    ∧ clients_cw st = Some [1%N; 2%N; 3%N] ∧ current_of st = Some 3%N
    ∧ send_to_scratchpad cfg_example st = Some st1
    ∧ scratchpad st1 = 3%N ∧ clients_cw st1 = Some [1%N; 2%N]
    ∧ get_from_scratchpad cfg_example sg_example st1 = Some st2
    ∧ scratchpad st2 = NULL ∧ clients_cw st2 = Some [1%N; 2%N; 3%N]
    ∧ current_of st2 = Some 3%N.
Proof.
  assert (∃ st, st_three_clients = Some st) as [st Hst] by (eexists; run).
  pose proof Hst as Hst'. vm_compute in Hst'. injection Hst' as <-.
  match type of Hst with
  | _ = Some ?st =>
      let s := eval vm_compute in (ws_at st (cw st)) in
      let cc := eval vm_compute in (load st 3%N) in
      match constr:((s, cc)) with
      | (Some ?s, Some ?cc) =>
          destruct (scratchpad_round_trip_last cfg_example sg_example st [1%N] 2%N 3%N cc s)
            as (st1 & st2 & s2 & H1 & H2 & H3 & _ & H4 & H5 & _ & H6 & H7 & H8 & _);
          [run|run|run|right; repeat constructor|run|run|
           repeat split; vm_compute; congruence|];
          exists st, st1, st2
      end
  end.
  split; [exact Hst|]. split; [run|]. split; [run|].
  split; [exact H1|]. split; [exact H2|]. split; [exact H3|]. split; [exact H4|].
  split; [exact H5|]. split; [exact H6|]. unfold current_of. rewrite H7. simpl.
  by rewrite H8.
Defined.

(** X25: a client that is sent to the scratchpad from inside the list keeps
    its [next] pointer.  [send_to_scratchpad] for a focused client with a
    client before it and a client behind it takes it out of the list;
    [get_from_scratchpad] then links the last client to it, and as it
    still points to the client that was behind it the list runs in a circle:
    [get_from_scratchpad] has no result. *)
Theorem scratchpad_middle_hangs cfg sg st l1 p c n l2 s :
  ws_at st (cw st) = Some s →
  clients_cw st = Some (l1 ++ p :: c :: n :: l2) → Workspace.current s = c →
  Workspace.prev_foc s = NULL ∨ Workspace.prev_foc s ∈ l1 ++ p :: c :: n :: l2 →
  scratchpad st = NULL →
  0 ≤ Workspace.layout s < END_LAYOUT →
  ∃ st1, send_to_scratchpad cfg st = Some st1
         ∧ scratchpad st1 = c ∧ clients_cw st1 = Some (l1 ++ p :: n :: l2)
         ∧ get_from_scratchpad cfg sg st1 = None.
Proof.
  intros Hs Hl Hcur Hpf Hsp Hlay.
  apply clients_cw_chain in Hl as (s' & Hs' & Hch).
  rewrite Hs in Hs'. injection Hs' as <-.
  destruct (chain_at (heap st) (Workspace.head s) (l1 ++ [p]) c (n :: l2))
    as (Hcn & cc & Hcc & _ & Hnext); [by rewrite <- (assoc_L (++))|].
  simpl in Hnext.
  destruct (send_to_scratchpad_tail cfg st s l1 p c (n :: l2) cc Hs Hch Hcur Hsp Hcc Hpf Hlay)
    as (st1 & s1 & H1 & Hcw1 & Hsp1 & _ & _ & Hs1 & Hhd1 & _ & _ & _ & _ & Hch1 & Hc1).
  pose proof (chain_NoDup _ _ _ Hch) as Hnd.
  assert (c ∉ l1 ++ p :: n :: l2) as Hnin.
  { apply NoDup_app in Hnd as (_ & Hd & Hnd).
    apply NoDup_cons in Hnd as [Hp Hnd]. apply NoDup_cons in Hnd as [Hc _].
    intros Hin. apply elem_of_app in Hin as [Hin|Hin].
    - apply (Hd c Hin). right. left.
    - apply elem_of_cons in Hin as [->|Hin]; [apply Hp; left|done]. }
  rewrite <- Hcw1 in Hs1. rewrite <- Hhd1 in Hch1.
  exists st1. split; [exact H1|]. split; [done|].
  split; [apply clients_cw_chain; by exists s1|].
  apply (get_from_scratchpad_cyclic cfg sg st1 s1 _ c cc Hs1 Hch1 Hsp1 Hcn Hnin Hc1).
  rewrite Hnext. apply elem_of_app. right. right. left.
Qed.

Lemma scratchpad_middle_hangs_witness :
  ∃ st st1, (st_three_clients ≫= focus_prev_client cfg_example) = Some st
    ∧ clients_cw st = Some [1%N; 2%N; 3%N] ∧ current_of st = Some 2%N
    ∧ send_to_scratchpad cfg_example st = Some st1
    ∧ scratchpad st1 = 2%N ∧ clients_cw st1 = Some [1%N; 3%N]
    ∧ get_from_scratchpad cfg_example sg_example st1 = None.
Proof.
  assert (∃ st, (st_three_clients ≫= focus_prev_client cfg_example) = Some st) as [st Hst]
    by (eexists; run).
  pose proof Hst as Hst'. vm_compute in Hst'. injection Hst' as <-.
  match type of Hst with
  | _ = Some ?st =>
      let s := eval vm_compute in (ws_at st (cw st)) in
      match s with
      | Some ?s =>
          destruct (scratchpad_middle_hangs cfg_example sg_example st [] 1%N 2%N 3%N [] s)
            as (st1 & H1 & H2 & H3 & H4);
          [run|run|run|right; repeat constructor|run|
           repeat split; vm_compute; congruence|];
          exists st, st1
      end
  end.
  split; [exact Hst|]. split; [run|]. split; [run|].
  split; [exact H1|]. split; [exact H2|]. split; [exact H3|exact H4].
Defined.

(** ** A new window *)

Lemma only_cell_refl c st cc : heap st !! c = Some cc → only_cell c st st.
Proof.
  intros Hc. split; [by rewrite set_heap_id|]. split; [done|]. by exists cc, cc.
Qed.

Lemma only_cell_trans c st1 st2 st3 :
  only_cell c st1 st2 → only_cell c st2 st3 → only_cell c st1 st3.
Proof.
  intros (E1 & F1 & a1 & a2 & Ha1 & Ha2 & N1 & W1) (E2 & F2 & b1 & b2 & Hb1 & Hb2 & N2 & W2).
  rewrite Ha2 in Hb1. injection Hb1 as <-. split; [|split].
  - etransitivity; [exact E2|]. rewrite E1. apply set_heap_set_heap.
  - intros q Hq. by rewrite F2, F1.
  - exists a1, b2. split; [done|]. split; [done|]. split; congruence.
Qed.

Lemma store_only_cell c f st cc :
  heap st !! c = Some cc →
  Client.next (f cc) = Client.next cc → Client.win (f cc) = Client.win cc →
  ∃ st', store c f st = Some st' ∧ only_cell c st st' ∧ heap st' !! c = Some (f cc).
Proof.
  intros Hc Hn Hw. rewrite (store_eq st c cc f Hc). eexists. split; [done|].
  split; [|apply lookup_insert_eq]. split; [done|]. split.
  - intros q Hq. simpl. by rewrite lookup_insert_ne.
  - exists cc, (f cc). split; [done|]. split; [apply lookup_insert_eq|done].
Qed.

Lemma only_cell_ws_at c st1 st2 i : only_cell c st1 st2 → ws_at st2 i = ws_at st1 i.
Proof. intros (E & _). by rewrite E. Qed.

Lemma only_cell_chain c st1 st2 p l :
  only_cell c st1 st2 → chain (heap st1) p l → chain (heap st2) p l.
Proof.
  intros (_ & F & c1 & c2 & H1 & H2 & N & _). apply chain_same_links.
  intros q. destruct (decide (q = c)) as [->|Hne].
  - by rewrite H1, H2; simpl; rewrite N.
  - by rewrite F.
Qed.

(** The loop over the type atoms when none of them is DOCK or TOOLBAR. *)
Lemma map_event_types_plain atoms c st cc :
  existsb dock_type atoms = false → heap st !! c = Some cc →
  ∃ st', map_event_types atoms c st = Some (false, st') ∧ only_cell c st st'.
Proof.
  revert st cc. induction atoms as [|a atoms IH]; intros st cc Hex Hc.
  - exists st. split; [done|]. by apply (only_cell_refl _ _ cc).
  - simpl in *. apply orb_false_iff in Hex as [Ha Hex]. rewrite Ha.
    destruct (floating_type a); [|by apply (IH _ cc)].
    destruct (store_only_cell c (Client.set_is_floating true) st cc Hc)
      as (st1 & -> & H1 & Hc1); [done|done|].
    cbn [mbind option_bind].
    destruct (IH st1 _ Hex Hc1) as (st' & -> & H2).
    exists st'. split; [done|]. by apply (only_cell_trans c st st1).
Qed.

(** A list whose clients are all as they were. *)
Lemma chain_ext h1 h2 p l :
  (∀ q, q ∈ l → h2 !! q = h1 !! q) → chain h1 p l → chain h2 p l.
Proof.
  revert p. induction l as [|x l IH]; intros p Hext Hch; [done|].
  destruct Hch as (-> & Hn & xc & Hx & Hrest).
  split; [done|]. split; [done|]. exists xc. split.
  - rewrite Hext; [done|left].
  - apply IH; [|done]. intros q Hq. apply Hext. by right.
Qed.

Lemma store_frame p f st st' q :
  store p f st = Some st' → q ≠ p → heap st' !! q = heap st !! q.
Proof.
  unfold store, load. destruct (heap st !! p) as [c|]; [|done]. simpl.
  intros [= <-] Hne. simpl. by rewrite lookup_insert_ne.
Qed.

Lemma ws_upd_heap i f st st' : ws_upd i f st = Some st' → heap st' = heap st.
Proof.
  unfold ws_upd. destruct (ws_at st i); [|done]. simpl. by intros [= <-].
Qed.

(** [create_client] writes to the new client and to a client of the list of
    the current workspace only. *)
Lemma create_client_frame cfg st w s l c st' :
  ws_at st (cw st) = Some s → chain (heap st) (Workspace.head s) l →
  create_client cfg w st = Some (c, st') →
  heap st !! c = None ∧ ∀ q, q ∉ l → q ≠ c → heap st' !! q = heap st !! q.
Proof.
  intros Hs Hch. destruct (fresh_ptr_fresh st) as [Hcn Hfresh].
  assert (fresh_ptr st ∉ l) as Hnin.
  { intros Hin. destruct (chain_elem _ _ _ _ Hch Hin) as [_ [? ?]]. congruence. }
  unfold create_client. set (c0 := fresh_ptr st) in *.
  set (st0 := set_heap (<[c0 := Client.zero]> (heap st)) st).
  assert (ws_at st0 (cw st0) = Some s) as Hs0 by exact Hs.
  assert (chain (heap st0) (Workspace.head s) l) as Hc0 by (by apply chain_insert_fresh).
  rewrite Hs0. cbn [mbind option_bind].
  destruct (prev_client_in st0 (Workspace.head s) (cw st0) s l Hs0 Hc0) as (t & -> & Ht).
  cbn [mbind option_bind].
  destruct (if is_null (Workspace.head s) then _ else _) as [st1|] eqn:E1; [|done].
  cbn [mbind option_bind].
  destruct (store c0 (Client.set_win w) st1) as [st2|] eqn:E2; [|done].
  cbn [mbind option_bind].
  destruct (ws_at st2 (cw st2)) as [s2|]; [|done]. cbn [mbind option_bind].
  destruct (store c0 _ st2) as [st3|] eqn:E3; [|done]. cbn [mbind option_bind].
  destruct (ws_upd (cw st3) _ st3) as [st4|] eqn:E4; [|done]. cbn [mbind option_bind].
  intros [= <- <-]. split; [done|]. intros q Hq Hqc.
  rewrite (ws_upd_heap _ _ _ _ E4), (store_frame _ _ _ _ q E3 Hqc),
    (store_frame _ _ _ _ q E2 Hqc).
  assert (heap st1 !! q = heap st0 !! q) as ->.
  { destruct (is_null (Workspace.head s)) eqn:Eh.
    - by rewrite (ws_upd_heap _ _ _ _ E1).
    - apply is_null_false in Eh.
      assert (Workspace.head s ∈ l) as Hhin.
      { destruct l as [|a l']; [simpl in Hch; congruence|].
        destruct Hch as (-> & _). left. }
      destruct (negb (is_null t)) eqn:Et.
      + apply negb_true_iff, is_null_false in Et. destruct Ht as [?|Ht]; [done|].
        apply (store_frame _ _ _ _ q E1). by intros ->.
      + apply (store_frame _ _ _ _ q E1). by intros ->. }
  simpl. by rewrite lookup_insert_ne.
Qed.

(** The search of one list for a window that no client of the list has, and
    for the window of the one client that has it. *)
Lemma find_in_list_none fuel st win p l :
  chain (heap st) p l → (length l < fuel)%nat →
  (∀ q, q ∈ l → (Client.win <$> load st q) ≠ Some win) →
  find_in_list fuel st win p = Some NULL.
Proof.
  intros Hch Hlen Hnone.
  destruct (find_in_list_spec fuel st win p l Hch Hlen) as (r & -> & _ & Hfound).
  destruct (decide (r = NULL)) as [->|Hne]; [done|].
  destruct (Hfound Hne) as [Hin Hw]. by destruct (Hnone r Hin).
Qed.

Lemma find_in_list_the fuel st win p l c :
  chain (heap st) p l → (length l < fuel)%nat → c ∈ l →
  (Client.win <$> load st c) = Some win →
  (∀ q, q ∈ l → q ≠ c → (Client.win <$> load st q) ≠ Some win) →
  find_in_list fuel st win p = Some c.
Proof.
  intros Hch Hlen Hin Hwin Hothers.
  destruct (find_in_list_spec fuel st win p l Hch Hlen) as (r & -> & Hnull & Hfound).
  destruct (decide (r = NULL)) as [->|Hne].
  - by destruct (Hnull eq_refl c Hin).
  - destruct (Hfound Hne) as [Hr Hw]. destruct (decide (r = c)) as [->|Hrc]; [done|].
    by destruct (Hothers r Hr Hrc).
Qed.

(** The search of the workspaces finds the client in the first workspace
    that has the window. *)
Lemma find_client_loop_at st win wl wc c c0 :
  (∀ w, w ∈ wl → w ≠ wc →
     ∃ s, ws_at st w = Some s
          ∧ find_in_list (fuel_of st) st win (Workspace.head s) = Some NULL) →
  (∃ s, ws_at st wc = Some s
        ∧ find_in_list (fuel_of st) st win (Workspace.head s) = Some c) →
  c ≠ NULL → wc ∈ wl →
  find_client_loop st win wl c0 = Some c.
Proof.
  intros Hothers (s & Hs & Hfind) Hc. revert c0.
  induction wl as [|w wl IH]; intros c0 Hin; [by apply elem_of_nil in Hin|].
  simpl. destruct (decide (w = wc)) as [->|Hne].
  - rewrite Hs. simpl. rewrite Hfind. simpl. by rewrite (proj2 (is_null_false _) Hc).
  - destruct (Hothers w) as (sw & Hsw & Hf); [left|done|].
    rewrite Hsw. simpl. rewrite Hf. simpl.
    apply elem_of_cons in Hin as [?|Hin]; [done|].
    apply IH; [|done]. intros v Hv. apply Hothers. by right.
Qed.

Lemma store_ws p f st st' :
  store p f st = Some st' → st' = set_heap (heap st') st.
Proof.
  unfold store, load. destruct (heap st !! p) as [c|]; [|done]. simpl. by intros [= <-].
Qed.

(** [create_client] changes the head and the count of the current workspace
    at most. *)
Lemma create_client_ws cfg st w s c st' s' :
  ws_at st (cw st) = Some s → create_client cfg w st = Some (c, st') →
  ws_at st' (cw st) = Some s' →
  Workspace.layout s' = Workspace.layout s
  ∧ Workspace.bar_height s' = Workspace.bar_height s
  ∧ Workspace.current s' = Workspace.current s
  ∧ Workspace.prev_foc s' = Workspace.prev_foc s.
Proof.
  intros Hs. unfold create_client. set (c0 := fresh_ptr st).
  set (st0 := set_heap (<[c0 := Client.zero]> (heap st)) st).
  assert (ws_at st0 (cw st0) = Some s) as Hs0 by exact Hs.
  rewrite Hs0. cbn [mbind option_bind].
  destruct (prev_client st0 _ _) as [t|]; [|done]. cbn [mbind option_bind].
  destruct (if is_null (Workspace.head s) then _ else _) as [st1|] eqn:E1; [|done].
  cbn [mbind option_bind].
  assert (∃ hd, ws_at st1 (cw st) = Some (Workspace.set_head hd s) ∧ cw st1 = cw st)
    as (hd & Hs1 & Hcw1).
  { destruct (is_null (Workspace.head s)).
    - rewrite (ws_upd_eq st0 (cw st0) s _ Hs0) in E1. injection E1 as <-.
      exists c0. split; [|done]. exact (ws_at_insert_eq st (cw st) s _ _ Hs).
    - exists (Workspace.head s). rewrite set_head_same.
      destruct (negb (is_null t)); apply store_ws in E1; rewrite E1; done. }
  destruct (store c0 (Client.set_win w) st1) as [st2|] eqn:E2; [|done].
  cbn [mbind option_bind]. apply store_ws in E2.
  destruct (ws_at st2 (cw st2)) as [s2|]; [|done]. cbn [mbind option_bind].
  destruct (store c0 _ st2) as [st3|] eqn:E3; [|done]. cbn [mbind option_bind].
  apply store_ws in E3.
  assert (ws_at st3 (cw st3) = Some (Workspace.set_head hd s)) as Hs3.
  { rewrite E3, E2. simpl. by rewrite Hcw1. }
  rewrite (ws_upd_eq st3 (cw st3) _ _ Hs3). cbn [mbind option_bind].
  intros [= <- <-].
  assert (cw st3 = cw st) as Hcw3 by (rewrite E3, E2; simpl; done).
  rewrite <- Hcw3. intros Hs'.
  match type of Hs' with
  | ws_at (set_wss (<[_ := ?X]> _) _) _ = _ =>
      assert (ws_at (set_wss (<[Z.to_nat (cw st3) := X]> (wss st3)) st3) (cw st3) = Some X)
        as H by exact (ws_at_insert_eq st3 (cw st3) _ _ (heap st3) Hs3)
  end.
  rewrite H in Hs'. by injection Hs' as <-.
Qed.

(** The end of [map_event]: the windows are arranged and the new client is
    focused. *)
Lemma map_event_finish cfg st5 s1 l c :
  ws_at st5 (cw st5) = Some s1 → chain (heap st5) (Workspace.head s1) (l ++ [c]) →
  0 ≤ Workspace.layout s1 < END_LAYOUT →
  ∃ st' s', (st ← arrange_windows cfg st5; update_focused_client cfg c st) = Some st'
            ∧ st' = set_heap (heap st')
                      (set_wss (<[Z.to_nat (cw st5) := s']> (wss st5)) st5)
            ∧ Workspace.head s' = Workspace.head s1
            ∧ Workspace.current s' = c
            ∧ Workspace.client_cnt s' = Workspace.client_cnt s1
            ∧ same_links (heap st5) (heap st')
            ∧ retiled (l ++ [c]) (heap st5) (heap st').
Proof.
  intros Hs5 Hch5 Hlay.
  destruct (arrange_windows_ok cfg st5 s1 _ Hs5 Hch5 Hlay) as (st6 & Ha & E6 & L6).
  pose proof (arrange_windows_retiled cfg st5 st6 s1 _ Hs5 Hch5 Ha) as R6.
  rewrite Ha. cbn [mbind option_bind].
  assert (ws_at st6 (cw st6) = Some s1) as Hs6 by (by rewrite E6).
  assert (chain (heap st6) (Workspace.head s1) (l ++ [c])) as Hch6
    by (by apply (chain_same_links (heap st5))).
  destruct (update_focused_client_spec cfg st6 c s1 _ Hs6 Hch6 Hlay)
    as (st7 & p & Hu & _ & _ & E7 & L7); [apply elem_of_app; right; left|].
  pose proof (update_focused_client_retiled cfg st6 c s1 _ st7 Hs6 Hch6 Hu) as R7.
  destruct (focus_ws_fields p c s1) as (F1 & F2 & F3 & F4 & F5).
  exists st7, (focus_ws p c s1). split; [done|].
  split; [rewrite E7 at 1; rewrite E6 at 1 2 3; done|].
  split; [done|]. split; [done|]. split; [done|].
  split; [by eapply same_links_trans|].
  intros q. destruct (R7 q) as [E|(Hin & c' & x & y & w & h & E1 & E2 & E3)].
  - rewrite E. apply R6.
  - right. split; [done|].
    destruct (R6 q) as [E'|(_ & c'' & x' & y' & w' & h' & E1' & E2' & E3')].
    + rewrite E' in E1. by exists c', x, y, w, h.
    + rewrite E3' in E1. injection E1 as <-. exists c'', x, y, w, h. done.
Qed.

Lemma only_cell_insert c st cc v :
  heap st !! c = Some cc → Client.next v = Client.next cc → Client.win v = Client.win cc →
  only_cell c st (set_heap (<[c := v]> (heap st)) st).
Proof.
  intros Hc Hn Hw. split; [done|]. split.
  - intros q Hq. simpl. by rewrite lookup_insert_ne.
  - exists cc, v. split; [done|]. split; [apply lookup_insert_eq|done].
Qed.

(** The loop of [apply_rules] passes every row when none applies. *)
Lemma apply_rules_no_rule cfg me c st :
  no_rule cfg me = true → apply_rules cfg (me_class me) c st = Some st.
Proof.
  unfold no_rule, apply_rules. destruct (me_class me) as [[i cl]|]; [|done].
  induction (rules cfg) as [|r rs IH]; simpl; [done|].
  intros [Hr Hrs]%andb_true_iff. apply negb_true_iff in Hr. rewrite Hr. auto.
Qed.

(** [map_event] for an ordinary window that has no client yet. *)
Lemma map_event_new cfg me st s l :
  ws_at st (cw st) = Some s → chain (heap st) (Workspace.head s) l →
  0 ≤ Workspace.layout s < END_LAYOUT →
  ordinary me → find_client_by_win cfg st (me_window me) = Some NULL →
  no_rule cfg me = true →
  ∃ st' s' c,
    map_event cfg me st = Some st'
    ∧ c ≠ NULL ∧ heap st !! c = None
    ∧ st' = set_heap (heap st') (set_wss (<[Z.to_nat (cw st) := s']> (wss st)) st)
    ∧ chain (heap st') (Workspace.head s') (l ++ [c])
    ∧ Workspace.current s' = c
    ∧ Workspace.client_cnt s' = Workspace.client_cnt s + 1
    ∧ (Client.win <$> load st' c) = Some (me_window me)
    ∧ (∀ q, q ∈ l → Client.win <$> load st' q = Client.win <$> load st q)
    ∧ (∀ q, q ∉ l → q ≠ c → heap st' !! q = heap st !! q).
Proof.
  intros Hs Hch Hlay (Hwa & Hty) Hfind Hrules.
  destruct (create_client_ok cfg st (me_window me) s l Hs Hch)
    as (c & st1 & s1 & Hcreate & Hnin & Est1 & Hs1 & Hch1 & Hcnt & Hwin & Hwins).
  destruct (create_client_frame cfg st (me_window me) s l c st1 Hs Hch Hcreate)
    as (Hfresh & Hframe1).
  destruct (create_client_ws cfg st (me_window me) s c st1 s1 Hs Hcreate Hs1)
    as (Hlay1 & _).
  destruct (chain_elem _ _ _ c Hch1) as (Hcn & c1 & Hc1);
    [apply elem_of_app; right; left|].
  assert (cw st1 = cw st) as Hcw1 by (by rewrite Est1).
  (* what is left to do once the client has its flags and geometry *)
  assert (∀ st5, only_cell c st1 st5 →
            ∃ st' s' c0,
              (st ← apply_rules cfg (me_class me) c st5;
               st ← arrange_windows cfg st; update_focused_client cfg c st) = Some st'
              ∧ c0 ≠ NULL ∧ heap st !! c0 = None
              ∧ st' = set_heap (heap st')
                        (set_wss (<[Z.to_nat (cw st) := s']> (wss st)) st)
              ∧ chain (heap st') (Workspace.head s') (l ++ [c0])
              ∧ Workspace.current s' = c0
              ∧ Workspace.client_cnt s' = Workspace.client_cnt s + 1
              ∧ (Client.win <$> load st' c0) = Some (me_window me)
              ∧ (∀ q, q ∈ l → Client.win <$> load st' q = Client.win <$> load st q)
              ∧ (∀ q, q ∉ l → q ≠ c0 → heap st' !! q = heap st !! q)) as Hrest.
  { intros st5 H15.
    rewrite (apply_rules_no_rule cfg me c st5 Hrules).
    cbn [mbind option_bind].
    assert (ws_at st5 (cw st5) = Some s1) as Hs5.
    { rewrite (only_cell_ws_at c st1 st5 _ H15). destruct H15 as (E & _). rewrite E. simpl.
      by rewrite Hcw1. }
    assert (chain (heap st5) (Workspace.head s1) (l ++ [c])) as Hch5
      by (by apply (only_cell_chain c st1)).
    destruct (map_event_finish cfg st5 s1 l c Hs5 Hch5) as
      (st' & s' & -> & E' & Hhd & Hcur & Hcnt' & L & R); [by rewrite Hlay1|].
    pose proof H15 as (E5 & F5 & a1 & a5 & Ha1 & Ha5 & N5 & W5).
    exists st', s', c. split; [done|]. split; [done|]. split; [done|].
    split.
    { rewrite E' at 1. rewrite E5 at 1 2 3. rewrite Est1 at 1 2 3. simpl.
      by rewrite list_insert_insert_eq. }
    split; [rewrite Hhd; by apply (chain_same_links (heap st5))|].
    split; [done|]. split; [congruence|].
    pose proof (retiled_wins _ _ _ R) as Wins.
    split; [|split].
    - unfold load. rewrite <- Wins, Ha5. simpl. rewrite W5.
      unfold load in Hwin. rewrite Ha1 in Hwin. simpl in Hwin. done.
    - intros q Hq. unfold load. rewrite <- Wins, F5 by (by intros ->).
      apply Hwins. done.
    - intros q Hq Hqc.
      destruct (R q) as [E|(Hin & _)].
      + rewrite E, F5 by done. by apply Hframe1.
      + exfalso. apply elem_of_app in Hin as [?|Hin%list_elem_of_singleton]; done. }
  unfold map_event. rewrite Hwa, Hfind. cbn [mbind option_bind negb].
  change (is_null NULL) with true. cbn [negb]. rewrite Hcreate. cbn [mbind option_bind fst snd].
  (* the type atoms *)
  assert (∃ st2, match me_type me with
                 | Some atoms => map_event_types atoms c st1
                 | None => Some (false, st1)
                 end = Some (false, st2) ∧ only_cell c st1 st2) as (st2 & -> & H12).
  { destruct (me_type me) as [atoms|].
    - by apply (map_event_types_plain atoms c st1 c1 (Hty atoms eq_refl)).
    - exists st1. split; [done|]. by apply (only_cell_refl _ _ c1). }
  cbn [mbind option_bind].
  pose proof H12 as (_ & _ & ? & c2 & _ & Hc2 & _).
  destruct (store_only_cell c (Client.set_is_transient
                                 (negb (bool_decide (me_transient me = 0)))) st2 c2 Hc2)
    as (st3 & -> & H23 & Hc3); [done|done|].
  cbn [mbind option_bind]. set (c3 := Client.set_is_transient _ c2) in *.
  assert (load st3 c = Some c3) as Hl3 by done. rewrite Hl3. cbn [mbind option_bind].
  assert (∃ st4 c4, (if Client.is_transient c3 then store c (Client.set_is_floating true) st3
                     else Some st3) = Some st4
                    ∧ only_cell c st3 st4 ∧ heap st4 !! c = Some c4) as (st4 & c4 & -> & H34 & Hc4).
  { destruct (Client.is_transient c3).
    - destruct (store_only_cell c (Client.set_is_floating true) st3 c3 Hc3)
        as (st4 & -> & H & Hc4); [done|done|]. by exists st4, (Client.set_is_floating true c3).
    - exists st3, c3. split; [done|]. split; [by apply (only_cell_refl _ _ c3)|done]. }
  cbn [mbind option_bind].
  assert (load st4 c = Some c4) as Hl4 by done. rewrite Hl4. cbn [mbind option_bind].
  pose proof (only_cell_trans _ _ _ _ H12 (only_cell_trans _ _ _ _ H23 H34)) as H14.
  assert (ws_at st4 (cw st4) = Some s1) as Hs4.
  { rewrite (only_cell_ws_at c st1 st4 _ H14). destruct H14 as (E & _). rewrite E. simpl.
    by rewrite Hcw1. }
  rewrite Hs4. cbn [mbind option_bind].
  destruct (me_geom me) as [[[[gx gy] gw] gh]|]; [destruct (Client.is_floating c4)|].
  - cbv zeta. rewrite (store_eq st4 c c4 _ Hl4). cbn [mbind option_bind].
    apply Hrest. apply (only_cell_trans c st1 st4); [done|].
    by apply (only_cell_insert c st4 c4).
  - cbn [mbind option_bind]. by apply Hrest.
  - cbn [mbind option_bind]. by apply Hrest.
Qed.

Lemma lists_apart_spec st i j si sj li lj q :
  lists_apart st = true → i ≠ j →
  ws_at st i = Some si → ws_at st j = Some sj →
  chain (heap st) (Workspace.head si) li → chain (heap st) (Workspace.head sj) lj →
  q ∈ li → q ∉ lj.
Proof.
  intros Hap Hij Hsi Hsj Hli Hlj Hq.
  destruct (ws_at_nonneg _ _ _ Hsi) as [Hi Hilt].
  destruct (ws_at_nonneg _ _ _ Hsj) as [Hj Hjlt].
  apply ws_at_lookup in Hsi, Hsj.
  unfold lists_apart in Hap. rewrite forallb_forall in Hap.
  specialize (Hap (Z.to_nat i)). rewrite forallb_forall in Hap.
  assert (Z.to_nat i ∈ seq 0 (length (wss st))) as H1 by (apply elem_of_seq; lia).
  assert (Z.to_nat j ∈ seq 0 (length (wss st))) as H2 by (apply elem_of_seq; lia).
  apply list_elem_of_In in H1, H2.
  specialize (Hap H1 (Z.to_nat j) H2).
  rewrite bool_decide_eq_false_2 in Hap by lia.
  rewrite Hsi, Hsj in Hap. simpl in Hap. unfold disjoint_lists in Hap.
  rewrite (proj2 (clients_of_chain _ _ _) Hli), (proj2 (clients_of_chain _ _ _) Hlj) in Hap.
  rewrite forallb_forall in Hap. apply list_elem_of_In in Hq.
  specialize (Hap q Hq). apply negb_true_iff in Hap.
  by apply bool_decide_eq_false in Hap.
Qed.

(** X26: a new window is managed.  On a well-formed state whose workspaces
    have no client in common, [map_event] for an ordinary window that
    [find_client_by_win] does not find, and that no row of [rules] applies
    to (its instance name and class name contain the class of no row, or it
    has no WM_CLASS), returns with a new client for the window at the end of
    the list of the current workspace, focused; [find_client_by_win] then
    finds this client for the window, and a second [map_event] for the window
    changes nothing. *)
Theorem map_event_manages cfg me st l :
  wfb cfg st = true → lists_apart st = true →
  clients_cw st = Some l →
  ordinary me → find_client_by_win cfg st (me_window me) = Some NULL →
  no_rule cfg me = true →
  ∃ st' c, map_event cfg me st = Some st'
           ∧ cw st' = cw st
           ∧ clients_cw st' = Some (l ++ [c])
           ∧ current_of st' = Some c
           ∧ (Client.win <$> load st' c) = Some (me_window me)
           ∧ find_client_by_win cfg st' (me_window me) = Some c
           ∧ map_event cfg me st' = Some st'.
Proof.
  intros Hwf Hap Hl Hord Hnew Hrules. apply wfb_wf in Hwf.
  pose proof Hwf as (Hlen & Hcw & _).
  apply clients_cw_chain in Hl as (s & Hs & Hch).
  pose proof (wf_ws_at_ok cfg st _ s Hwf Hs) as (_ & _ & _ & _ & Hlay).
  destruct (find_client_loop_spec cfg st (me_window me) (workspace_ids cfg) NULL Hwf)
    as (r & Hr & Hnull & Hfound); [intros w; apply workspace_ids_range|].
  assert (workspace_ids cfg ≠ []) as Hne.
  { intros E. assert (1 ∈ workspace_ids cfg) as H1 by (apply workspace_ids_range; lia).
    rewrite E in H1. by apply elem_of_nil in H1. }
  assert (r = NULL) as ->.
  { unfold find_client_by_win in Hnew. rewrite Hr in Hnew. by injection Hnew. }
  specialize (Hnull Hne eq_refl).
  destruct (map_event_new cfg me st s l Hs Hch Hlay Hord Hr Hrules)
    as (st' & s' & c & Hmap & Hcn & Hfresh & Est & Hch' & Hcur & Hcnt & Hwin & Hwins & Hframe).
  assert (cw st' = cw st) as Hcw' by (by rewrite Est).
  destruct (ws_at_nonneg _ _ _ Hs) as [Hcw0 Hcwlt].
  assert (∀ j, 0 ≤ j → ws_at st' j = if decide (cw st = j) then Some s' else ws_at st j)
    as Hws'.
  { intros j Hj.
    transitivity (ws_at (set_wss (<[Z.to_nat (cw st) := s']> (wss st)) st) j);
      [by rewrite Est at 1|].
    by apply (ws_at_set_wss st st). }
  assert (ws_at st' (cw st) = Some s') as Hs'.
  { rewrite Hws' by done. by rewrite decide_True. }
  assert (find_client_by_win cfg st' (me_window me) = Some c) as Hfind'.
  { unfold find_client_by_win.
    apply (find_client_loop_at st' _ _ (cw st)); [| |done|by apply workspace_ids_range].
    - intros w Hw Hne'. apply workspace_ids_range in Hw.
      destruct (wf_ws_at cfg st w Hwf) as (sw & Hsw & lw & Hchw & _); [lia|].
      exists sw. split; [rewrite Hws' by lia; by rewrite decide_False|].
      assert (∀ q, q ∈ lw → heap st' !! q = heap st !! q) as Hsame.
      { intros q Hq. apply Hframe.
        - intros Hin. by apply (lists_apart_spec st (cw st) w s sw l lw q Hap).
        - intros ->. destruct (chain_elem _ _ _ c Hchw Hq) as (_ & cc & Hcc). congruence. }
      assert (chain (heap st') (Workspace.head sw) lw) as Hchw' by (by apply (chain_ext (heap st))).
      apply (find_in_list_none _ _ _ _ lw Hchw' (chain_fuel _ _ _ Hchw')).
      intros q Hq. unfold load. rewrite (Hsame q Hq).
      apply (Hnull w q); [by apply workspace_ids_range|]. by exists sw, lw.
    - exists s'. split; [done|].
      apply (find_in_list_the _ _ _ _ (l ++ [c]) c Hch' (chain_fuel _ _ _ Hch'));
        [apply elem_of_app; right; left|done|].
      intros q Hq Hqc. apply elem_of_app in Hq as [Hq|Hq%list_elem_of_singleton]; [|done].
      rewrite (Hwins q Hq). apply (Hnull (cw st) q); [by apply workspace_ids_range|].
      by exists s, l. }
  exists st', c. split; [done|]. split; [done|].
  split; [apply clients_cw_chain; exists s'; by rewrite Hcw'|].
  split; [unfold current_of; rewrite Hcw', Hs'; simpl; by rewrite Hcur|].
  split; [done|]. split; [done|].
  unfold map_event. destruct Hord as [-> _]. rewrite Hfind'. simpl.
  by rewrite (proj2 (is_null_false _) Hcn).
Qed.

(** The terminal does not match the rules for [mpv] and [Gimp]. *)
Lemma map_event_manages_witness :
  ∃ st st' c, st_two_workspaces = Some st
    ∧ cw st = 1 ∧ clients_cw st = Some [3%N]
    ∧ no_rule cfg_rules (xterm_window 14) = true
    ∧ map_event cfg_rules (xterm_window 14) st = Some st'
    ∧ clients_cw st' = Some [3%N; c]
    ∧ current_of st' = Some c
    ∧ find_client_by_win cfg_rules st' 14 = Some c
    ∧ map_event cfg_rules (xterm_window 14) st' = Some st'.
Proof.
  assert (∃ st, st_two_workspaces = Some st) as [st Hst] by (eexists; run).
  pose proof Hst as Hst'. vm_compute in Hst'. injection Hst' as <-.
  match type of Hst with
  | _ = Some ?st =>
      destruct (map_event_manages cfg_rules (xterm_window 14) st [3%N])
        as (st' & c & H1 & _ & H2 & H3 & _ & H4 & H5);
      [run|run|run|split; [done|intros atoms; discriminate]|run|run|];
      exists st, st', c
  end.
  split; [exact Hst|]. split; [run|]. split; [run|]. split; [run|].
  split; [exact H1|]. split; [exact H2|]. split; [exact H3|]. split; [exact H4|exact H5].
Defined.
